(** * Macintosh 128K-family glue logic and YMF278B (OPL4) wavetable engine

    A shallow embedding of [src/mame/drivers/mac128.cpp] (interrupt arbiter,
    overlay RAM window, VIA bus synchronisation, PWM floppy speed decoder) and
    of the YMF278B device (register decoder, envelope generator, sample mixer,
    FM clock resampler), with the properties the specification states about
    them.

    Conventions.  C++ integers are [Z]; every place where the source relies on
    a fixed width has the wrap-around written out ([u32], [s32], ...).  C++
    [float]/[double] values are [spec_float]s of the Standard Library, rounded
    with the binary32/binary64 parameters.  Arrays indexed by values that the
    source keeps in range are total functions from the index. *)

From Stdlib Require Import ZArith List Bool Lia.
From Stdlib Require Import Floats.SpecFloat.
Import ListNotations.
Local Open Scope Z_scope.

(** ** Fixed-width integer helpers shared by both devices *)

Definition u8 (x : Z) : Z := x mod 2 ^ 8.
Definition u16 (x : Z) : Z := x mod 2 ^ 16.
Definition u32 (x : Z) : Z := x mod 2 ^ 32.
Definition u64 (x : Z) : Z := x mod 2 ^ 64.

(** Conversion of a value to a signed [w]-bit integer (two's complement). *)
Definition sint (w : Z) (x : Z) : Z :=
  let m := x mod 2 ^ w in
  if m <? 2 ^ (w - 1) then m else m - 2 ^ w.

Definition s8 := sint 8.
Definition s16 := sint 16.
Definition s32 := sint 32.

(** The emulator's [BIT(x, n)]. *)
Definition BIT (x n : Z) : Z := Z.land (Z.shiftr x n) 1.

(** C truth value of an integer. *)
Definition nz (x : Z) : bool := negb (x =? 0).

(** Update of an array held as a total function. *)
Definition upd {A : Type} (f : Z -> A) (i : Z) (v : A) : Z -> A :=
  fun j => if j =? i then v else f j.

Lemma upd_same {A : Type} (f : Z -> A) i v : upd f i v i = v.
Proof. unfold upd. now rewrite Z.eqb_refl. Qed.

Lemma upd_other {A : Type} (f : Z -> A) i j v : j <> i -> upd f i v j = f j.
Proof. unfold upd. intros H. apply Z.eqb_neq in H. now rewrite H. Qed.

(** ** Floating point *)

(** [float] and [double] arithmetic (binary32, binary64; round to nearest
    even).  Conversions go through [binary_round], which yields the canonical
    representation the comparison functions expect. *)
Definition f64_of_Z (n : Z) : spec_float := binary_normalize 53 1024 n 0 false.
Definition f64_add := SFadd 53 1024.
Definition f64_sub := SFsub 53 1024.
Definition f64_mul := SFmul 53 1024.
Definition f64_div := SFdiv 53 1024.

Definition f32_of_f64 (x : spec_float) : spec_float :=
  match x with
  | S754_finite s m e => binary_round 24 128 s m e
  | _ => x
  end.

Definition f64_of_f32 (x : spec_float) : spec_float :=
  match x with
  | S754_finite s m e => binary_round 53 1024 s m e
  | _ => x
  end.

(** A decimal literal [num/den] of type [double]: both integers are exactly
    representable, so the correctly rounded quotient is the literal's value. *)
Definition f64_lit (num den : Z) : spec_float :=
  f64_div (f64_of_Z num) (f64_of_Z den).

(** Conversion of a [double] to an integer type: truncation toward zero. *)
Definition f64_to_Z (x : spec_float) : Z :=
  match x with
  | S754_finite s m e =>
      let v := if e <? 0 then Z.shiftr (Z.pos m) (- e)
               else Z.shiftl (Z.pos m) e in
      if s then - v else v
  | _ => 0
  end.

(* ====================================================================== *)
(** * Part I: the Macintosh glue logic ([mac128_state]) *)
(* ====================================================================== *)

Module Mac128.

(** ** The CPU as seen by the driver *)

Inductive line_state : Type := CLEAR_LINE | ASSERT_LINE.

(** Modelled from the spec: the 68000 core is not part of these sources; the
    driver consumes "a CPU cycle-counter query and an adjust-remaining-cycles
    operation" and drives the CPU's interrupt input lines.  [cycles] is the
    64-bit elapsed-cycle counter returned by [total_cycles()], [icount] the
    remaining-cycle budget of the current time slice, [input_line] the level
    of each interrupt input. *)
Record m68000_device : Type := mk_cpu {
  cycles : Z;
  icount : Z;
  input_line : Z -> line_state
}.

Definition total_cycles (cpu : m68000_device) : Z := cycles cpu.

(** [adjust_icount(delta)]: a negative [delta] takes cycles from the budget,
    which is the same as letting that many cycles elapse. *)
Definition adjust_icount (delta : Z) (cpu : m68000_device) : m68000_device :=
  mk_cpu (u64 (cycles cpu - delta)) (icount cpu + delta) (input_line cpu).

Definition set_input_line (line : Z) (s : line_state) (cpu : m68000_device)
  : m68000_device :=
  mk_cpu (cycles cpu) (icount cpu) (upd (input_line cpu) line s).

Definition asserted (cpu : m68000_device) (line : Z) : Prop :=
  input_line cpu line = ASSERT_LINE.

(** ** The floppy drive as seen by the driver *)

Inductive floppy_type : Type := OAD34V | OTHER_DRIVE.

Definition floppy_type_eqb (a b : floppy_type) : bool :=
  match a, b with
  | OAD34V, OAD34V | OTHER_DRIVE, OTHER_DRIVE => true
  | _, _ => false
  end.

(** Modelled from the spec: the drive is an external collaborator; what the
    glue logic does to it is to "commit the new RPM to the physical drive
    motor".  [set_rpm_calls] lists the values passed to [set_rpm], most
    recent first. *)
Record floppy_image_device : Type := mk_floppy {
  ftype : floppy_type;
  set_rpm_calls : list spec_float
}.

Definition set_rpm (rpm : spec_float) (f : floppy_image_device)
  : floppy_image_device :=
  mk_floppy (ftype f) (rpm :: set_rpm_calls f).

(** ** Driver state (the members the modelled functions touch) *)

Record mac128_state : Type := mk_mac {
  m_maincpu : m68000_device;
  m_cur_floppy : option floppy_image_device;
  m_pwm_count_total : Z;
  m_pwm_count_1 : Z;
  m_pwm_current_rpm_0 : spec_float;
  m_pwm_current_rpm_1 : spec_float;
  m_overlay : Z;
  m_scc_interrupt : Z;
  m_via_interrupt : Z;
  m_scsi_interrupt : Z;
  m_last_taken_interrupt : Z;
  m_ram_ptr : Z -> Z;
  m_rom_ptr : Z -> Z;
  m_ram_mask : Z;
  m_ram_size : Z
}.

Definition set_maincpu (st : mac128_state) (c : m68000_device) :=
  mk_mac c (m_cur_floppy st) (m_pwm_count_total st) (m_pwm_count_1 st)
    (m_pwm_current_rpm_0 st) (m_pwm_current_rpm_1 st) (m_overlay st)
    (m_scc_interrupt st) (m_via_interrupt st) (m_scsi_interrupt st)
    (m_last_taken_interrupt st) (m_ram_ptr st) (m_rom_ptr st)
    (m_ram_mask st) (m_ram_size st).

Definition set_pwm (st : mac128_state) (fl : option floppy_image_device)
  (total c1 : Z) (r0 r1 : spec_float) :=
  mk_mac (m_maincpu st) fl total c1 r0 r1 (m_overlay st)
    (m_scc_interrupt st) (m_via_interrupt st) (m_scsi_interrupt st)
    (m_last_taken_interrupt st) (m_ram_ptr st) (m_rom_ptr st)
    (m_ram_mask st) (m_ram_size st).

Definition set_overlay (st : mac128_state) (o : Z) :=
  mk_mac (m_maincpu st) (m_cur_floppy st) (m_pwm_count_total st)
    (m_pwm_count_1 st) (m_pwm_current_rpm_0 st) (m_pwm_current_rpm_1 st) o
    (m_scc_interrupt st) (m_via_interrupt st) (m_scsi_interrupt st)
    (m_last_taken_interrupt st) (m_ram_ptr st) (m_rom_ptr st)
    (m_ram_mask st) (m_ram_size st).

Definition set_irq_inputs (st : mac128_state) (scc via scsi : Z) :=
  mk_mac (m_maincpu st) (m_cur_floppy st) (m_pwm_count_total st)
    (m_pwm_count_1 st) (m_pwm_current_rpm_0 st) (m_pwm_current_rpm_1 st)
    (m_overlay st) scc via scsi
    (m_last_taken_interrupt st) (m_ram_ptr st) (m_rom_ptr st)
    (m_ram_mask st) (m_ram_size st).

Definition set_last_taken (st : mac128_state) (l : Z) :=
  mk_mac (m_maincpu st) (m_cur_floppy st) (m_pwm_count_total st)
    (m_pwm_count_1 st) (m_pwm_current_rpm_0 st) (m_pwm_current_rpm_1 st)
    (m_overlay st) (m_scc_interrupt st) (m_via_interrupt st)
    (m_scsi_interrupt st) l (m_ram_ptr st) (m_rom_ptr st)
    (m_ram_mask st) (m_ram_size st).

Definition set_ram (st : mac128_state) (ram : Z -> Z) :=
  mk_mac (m_maincpu st) (m_cur_floppy st) (m_pwm_count_total st)
    (m_pwm_count_1 st) (m_pwm_current_rpm_0 st) (m_pwm_current_rpm_1 st)
    (m_overlay st) (m_scc_interrupt st) (m_via_interrupt st)
    (m_scsi_interrupt st) (m_last_taken_interrupt st) ram (m_rom_ptr st)
    (m_ram_mask st) (m_ram_size st).

(** ** Interrupt arbiter: [field_interrupts] and the source callbacks *)

(** The level the arbiter decides to take, [-1] for none. *)
Definition take_interrupt (st : mac128_state) : Z :=
  if nz (m_scc_interrupt st) || nz (m_scsi_interrupt st) then 2
  else if nz (m_via_interrupt st) then 1
  else -1.

(** First half of [field_interrupts]: drop the line taken last time. *)
Definition field_interrupts_clear (st : mac128_state) : mac128_state :=
  if m_last_taken_interrupt st >? -1 then
    set_last_taken
      (set_maincpu st
         (set_input_line (m_last_taken_interrupt st) CLEAR_LINE (m_maincpu st)))
      (-1)
  else st.

(** Second half: raise the line decided from the inputs ([take] was computed
    from the inputs before the first half ran; the first half leaves the
    inputs alone). *)
Definition field_interrupts_assert (take : Z) (st : mac128_state)
  : mac128_state :=
  if take >? -1 then
    set_last_taken
      (set_maincpu st (set_input_line take ASSERT_LINE (m_maincpu st)))
      take
  else st.

Definition field_interrupts (st : mac128_state) : mac128_state :=
  let take := take_interrupt st in
  field_interrupts_assert take (field_interrupts_clear st).

Definition set_scc_interrupt (state : Z) (st : mac128_state) : mac128_state :=
  field_interrupts
    (set_irq_inputs st state (m_via_interrupt st) (m_scsi_interrupt st)).

Definition set_via_interrupt (value : Z) (st : mac128_state) : mac128_state :=
  field_interrupts
    (set_irq_inputs st (m_scc_interrupt st) value (m_scsi_interrupt st)).

(** [mac_via_irq] forwards the VIA's interrupt output. *)
Definition mac_via_irq (state : Z) (st : mac128_state) : mac128_state :=
  set_via_interrupt state st.

(** ** Overlay RAM window: [ram_r], [ram_w], [ram_w_se] *)

Definition ram_r (offset : Z) (st : mac128_state) : Z :=
  if nz (m_overlay st) then m_rom_ptr st (Z.land offset 0x7ffff)
  else m_ram_ptr st (Z.land offset (m_ram_mask st)).

Section RamWindow.

(** The emulator core's [COMBINE_DATA] macro is not part of these sources; it
    is taken as a parameter: [COMBINE_DATA old data mem_mask] is the word
    stored in place of [old]. *)
Variable COMBINE_DATA : Z -> Z -> Z -> Z.

Definition combine_at (offset data mem_mask : Z) (st : mac128_state)
  : mac128_state :=
  let a := Z.land offset (m_ram_mask st) in
  set_ram st (upd (m_ram_ptr st) a (COMBINE_DATA (m_ram_ptr st a) data mem_mask)).

Definition ram_w (offset data mem_mask : Z) (st : mac128_state)
  : mac128_state :=
  if negb (nz (m_overlay st)) then combine_at offset data mem_mask st
  else st.

Definition ram_w_se (offset data mem_mask : Z) (st : mac128_state)
  : mac128_state :=
  combine_at offset data mem_mask (set_overlay st 0).

(** The machine variants of this driver and the handler each address map
    installs on the window 0x000000-0x3fffff ([mac512ke_map], [macplus_map],
    [macse_map]). *)
Inductive address_map : Type := mac512ke_map | macplus_map | macse_map.

Definition low_window_w (v : address_map) :=
  match v with
  | mac512ke_map | macplus_map => ram_w
  | macse_map => ram_w_se
  end.

End RamWindow.

(** ** VIA bus synchronisation: [via_sync], [via_sync_end] *)

(** The wait states [via_sync] inserts, as the (negative) argument it passes
    to [adjust_icount]; the [uint64_t] arithmetic and the conversion to [int]
    are written out. *)
Definition via_sync_delta (cur_cycle : Z) : Z :=
  let vpa_cycle := u64 (cur_cycle + 2) in
  let via_start_cycle := u64 (vpa_cycle + 9) / 10 in
  let m68k_start_cycle := u64 (via_start_cycle * 10) in
  s32 (u64 (cur_cycle - m68k_start_cycle)).

Definition via_sync (st : mac128_state) : mac128_state :=
  let cur_cycle := total_cycles (m_maincpu st) in
  set_maincpu st (adjust_icount (via_sync_delta cur_cycle) (m_maincpu st)).

Definition via_sync_end (st : mac128_state) : mac128_state :=
  set_maincpu st (adjust_icount (-4) (m_maincpu st)).

Section ViaAccess.

(** The 6522 itself is outside these sources.  A register access may call
    back into the driver (port outputs, the interrupt line), so it is a
    transformer of the whole driver state. *)
Variable via_read : Z -> mac128_state -> Z * mac128_state.
Variable via_write : Z -> Z -> mac128_state -> mac128_state.

Definition mac_via_r (offset : Z) (st : mac128_state) : Z * mac128_state :=
  let offset := Z.land (Z.shiftr offset 8) 0x0f in
  let st := via_sync st in
  let '(data, st) := via_read offset st in
  let st := via_sync_end st in
  (u16 (Z.lor (Z.land data 0xff) (Z.shiftl data 8)), st).

Definition mac_via_w (offset data : Z) (st : mac128_state) : mac128_state :=
  let offset := Z.land (Z.shiftr offset 8) 0x0f in
  let st := via_sync st in
  let st := via_write offset (Z.land (Z.shiftr data 8) 0xff) st in
  via_sync_end st.

End ViaAccess.

(** ** PWM floppy motor-speed decoder: [pwm_push] *)

Definition value_to_length : list Z :=
  [  0;  1; 59;  2; 60; 40; 54;  3;
    61; 32; 49; 41; 55; 19; 35;  4;
    62; 52; 30; 33; 50; 12; 14; 42;
    56; 16; 27; 20; 36; 23; 44;  5;
    63; 58; 39; 53; 31; 48; 18; 34;
    51; 29; 11; 13; 15; 26; 22; 43;
    57; 38; 47; 17; 28; 10; 25; 21;
    37; 46;  9; 24; 45;  8;  7;  6 ].

Definition pulse_length (data : Z) : Z :=
  nth (Z.to_nat (Z.land data 0x3f)) value_to_length 0.

Definition pwm_internal_index (count_1 count_total : Z) : Z :=
  let i := Z.quot count_1 (Z.quot count_total 10) - 11 in
  let i := if i <? 0 then 0 else i in
  if i >? 399 then 399 else i.

(** [float duty_cycle = internal_index / 419.0;]
    [float rpm = (duty_cycle - 0.094) * (702.5 - 342.5) / (0.91 - 0.094) + 342.5;] *)
Definition pwm_rpm (internal_index : Z) : spec_float :=
  let duty_cycle :=
    f32_of_f64 (f64_div (f64_of_Z internal_index) (f64_lit 419 1)) in
  f32_of_f64
    (f64_add
       (f64_div
          (f64_mul (f64_sub (f64_of_f32 duty_cycle) (f64_lit 94 1000))
                   (f64_sub (f64_lit 7025 10) (f64_lit 3425 10)))
          (f64_sub (f64_lit 91 100) (f64_lit 94 1000)))
       (f64_lit 3425 10)).

(** The debounce test: the new reading equals the previous one, which
    differs from the one before. *)
Definition pwm_commit_cond (rpm r0 r1 : spec_float) : bool :=
  SFeqb rpm r1 && negb (SFeqb r1 r0).

(** What the committing branch does to the selected drive: only a present
    drive of the variable-speed type gets [set_rpm] (the controller's
    [sync()] before it has no state in this model). *)
Definition commit_rpm (rpm : spec_float) (fl : option floppy_image_device)
  : option floppy_image_device :=
  match fl with
  | Some f => if floppy_type_eqb (ftype f) OAD34V then Some (set_rpm rpm f)
              else Some f
  | None => None
  end.

Definition pwm_push (data : Z) (st : mac128_state) : mac128_state :=
  let count_1 := m_pwm_count_1 st + pulse_length data in
  let count_total := m_pwm_count_total st + 1 in
  if count_total =? 100 then
    let internal_index := pwm_internal_index count_1 count_total in
    let rpm := pwm_rpm internal_index in
    let fl :=
      if pwm_commit_cond rpm (m_pwm_current_rpm_0 st) (m_pwm_current_rpm_1 st)
      then commit_rpm rpm (m_cur_floppy st)
      else m_cur_floppy st in
    set_pwm st fl 0 0 (m_pwm_current_rpm_1 st) rpm
  else
    set_pwm st (m_cur_floppy st) count_total count_1
      (m_pwm_current_rpm_0 st) (m_pwm_current_rpm_1 st).

(** Feeding a sequence of bytes, first byte first. *)
Definition pwm_feed (w : list Z) (st : mac128_state) : mac128_state :=
  fold_left (fun s d => pwm_push d s) w st.

(** Sum of the pulse lengths of a window. *)
Definition window_sum (w : list Z) : Z :=
  fold_right (fun d acc => pulse_length d + acc) 0 w.

(** RPM a complete 100-pulse window computes. *)
Definition window_rpm (w : list Z) : spec_float :=
  pwm_rpm (pwm_internal_index (window_sum w) 100).

(** Number of [set_rpm] calls the selected drive has received. *)
Definition commits (st : mac128_state) : nat :=
  match m_cur_floppy st with
  | Some f => length (set_rpm_calls f)
  | None => O
  end.

(** The part of [machine_reset] that concerns the modelled members (the
    source assigns [m_last_taken_interrupt] twice). *)
Definition machine_reset (st : mac128_state) : mac128_state :=
  let st := set_last_taken st (-1) in
  let st := set_overlay st 1 in
  let st := set_last_taken st 0 in
  set_pwm st (m_cur_floppy st) 0 0 (f32_of_f64 (f64_lit 3025 10))
    (f32_of_f64 (f64_lit 3025 10)).

(** ** The high RAM window: [ram_600000_r], [ram_600000_w] *)

Definition ram_600000_r (offset : Z) (st : mac128_state) : Z :=
  m_ram_ptr st (Z.land offset (m_ram_mask st)).

Section HighRamWindow.

Variable COMBINE_DATA : Z -> Z -> Z -> Z.

Definition ram_600000_w (offset data mem_mask : Z) (st : mac128_state)
  : mac128_state :=
  combine_at COMBINE_DATA offset data mem_mask st.

End HighRamWindow.

(** ** Further members of the driver state

    The functions below use members of [mac128_state] that the ones above
    do not touch; they are kept in a record of their own, beside the first.
    The VIA, the SCC, the DAC, the ADB modem, the clock chip, the timers and
    the drive mechanics are outside these sources: what the driver does to
    them is a log of the calls it makes, most recent first. *)

Inductive device_call : Type :=
| macadb_adb_vblank
| via_write_ca2 (state : Z)
| via_write_pb6 (state : Z)
| scc_dcda_w (state : Z)
| scc_dcdb_w (state : Z)
| dac_set_output_gain (gain : spec_float)
| dac_write (data : Z)
| floppy_ss_w (hdsel : Z)
| rtc_ce_w (state : Z)
| rtc_data_w (state : Z)
| rtc_clk_w (state : Z)
| hblank_timer_adjust (scanline : Z)
| scan_timer_adjust (scanline : Z).

Record mac128_periph : Type := mk_periph {
  m_irq_count : Z;
  m_ca2_data : Z;
  m_mouse_bit : Z -> Z;
  m_mouse_last : Z -> Z;
  m_mouse_last_m : Z -> Z;
  m_mouse_count : Z -> Z;
  m_screen_buffer : Z;
  m_hdsel : Z;
  m_main_buffer : bool;
  m_snd_enable : bool;
  m_snd_vol : Z;
  calls : list device_call
}.

Definition set_irq_count (p : mac128_periph) (v : Z) :=
  mk_periph v (m_ca2_data p) (m_mouse_bit p) (m_mouse_last p)
    (m_mouse_last_m p) (m_mouse_count p) (m_screen_buffer p) (m_hdsel p)
    (m_main_buffer p) (m_snd_enable p) (m_snd_vol p) (calls p).

Definition set_ca2_data (p : mac128_periph) (v : Z) :=
  mk_periph (m_irq_count p) v (m_mouse_bit p) (m_mouse_last p)
    (m_mouse_last_m p) (m_mouse_count p) (m_screen_buffer p) (m_hdsel p)
    (m_main_buffer p) (m_snd_enable p) (m_snd_vol p) (calls p).

Definition set_mouse_bit (p : mac128_periph) (i v : Z) :=
  mk_periph (m_irq_count p) (m_ca2_data p) (upd (m_mouse_bit p) i v)
    (m_mouse_last p) (m_mouse_last_m p) (m_mouse_count p)
    (m_screen_buffer p) (m_hdsel p) (m_main_buffer p) (m_snd_enable p)
    (m_snd_vol p) (calls p).

Definition set_mouse_last (p : mac128_periph) (i v : Z) :=
  mk_periph (m_irq_count p) (m_ca2_data p) (m_mouse_bit p)
    (upd (m_mouse_last p) i v) (m_mouse_last_m p) (m_mouse_count p)
    (m_screen_buffer p) (m_hdsel p) (m_main_buffer p) (m_snd_enable p)
    (m_snd_vol p) (calls p).

Definition set_mouse_last_m (p : mac128_periph) (i v : Z) :=
  mk_periph (m_irq_count p) (m_ca2_data p) (m_mouse_bit p) (m_mouse_last p)
    (upd (m_mouse_last_m p) i v) (m_mouse_count p) (m_screen_buffer p)
    (m_hdsel p) (m_main_buffer p) (m_snd_enable p) (m_snd_vol p) (calls p).

Definition set_mouse_count (p : mac128_periph) (i v : Z) :=
  mk_periph (m_irq_count p) (m_ca2_data p) (m_mouse_bit p) (m_mouse_last p)
    (m_mouse_last_m p) (upd (m_mouse_count p) i v) (m_screen_buffer p)
    (m_hdsel p) (m_main_buffer p) (m_snd_enable p) (m_snd_vol p) (calls p).

Definition set_screen_buffer (p : mac128_periph) (v : Z) :=
  mk_periph (m_irq_count p) (m_ca2_data p) (m_mouse_bit p) (m_mouse_last p)
    (m_mouse_last_m p) (m_mouse_count p) v (m_hdsel p) (m_main_buffer p)
    (m_snd_enable p) (m_snd_vol p) (calls p).

Definition set_hdsel (p : mac128_periph) (v : Z) :=
  mk_periph (m_irq_count p) (m_ca2_data p) (m_mouse_bit p) (m_mouse_last p)
    (m_mouse_last_m p) (m_mouse_count p) (m_screen_buffer p) v
    (m_main_buffer p) (m_snd_enable p) (m_snd_vol p) (calls p).

Definition set_main_buffer (p : mac128_periph) (v : bool) :=
  mk_periph (m_irq_count p) (m_ca2_data p) (m_mouse_bit p) (m_mouse_last p)
    (m_mouse_last_m p) (m_mouse_count p) (m_screen_buffer p) (m_hdsel p) v
    (m_snd_enable p) (m_snd_vol p) (calls p).

Definition set_snd_enable (p : mac128_periph) (v : bool) :=
  mk_periph (m_irq_count p) (m_ca2_data p) (m_mouse_bit p) (m_mouse_last p)
    (m_mouse_last_m p) (m_mouse_count p) (m_screen_buffer p) (m_hdsel p)
    (m_main_buffer p) v (m_snd_vol p) (calls p).

Definition set_snd_vol (p : mac128_periph) (v : Z) :=
  mk_periph (m_irq_count p) (m_ca2_data p) (m_mouse_bit p) (m_mouse_last p)
    (m_mouse_last_m p) (m_mouse_count p) (m_screen_buffer p) (m_hdsel p)
    (m_main_buffer p) (m_snd_enable p) v (calls p).

(** A call into another device. *)
Definition call (c : device_call) (p : mac128_periph) :=
  mk_periph (m_irq_count p) (m_ca2_data p) (m_mouse_bit p) (m_mouse_last p)
    (m_mouse_last_m p) (m_mouse_count p) (m_screen_buffer p) (m_hdsel p)
    (m_main_buffer p) (m_snd_enable p) (m_snd_vol p) (c :: calls p).

(** ** The one-second tick: [vblank_irq]

    [macadb] tells whether the machine has the ADB modem ([m_macadb] is an
    optional device). *)
Definition vblank_irq (macadb : bool) (p : mac128_periph) : mac128_periph :=
  let p := if macadb then call macadb_adb_vblank p else p in
  let p := set_irq_count p (s32 (m_irq_count p + 1)) in
  if m_irq_count p =? 60 then
    let p := set_irq_count p 0 in
    let p := set_ca2_data p (Z.lxor (m_ca2_data p) 1) in
    call (via_write_ca2 (m_ca2_data p)) p
  else p.

(** ** Sound volume: [update_volume]

    The gain is recorded as the [double] the source computes. *)
Definition update_volume (p : mac128_periph) : mac128_periph :=
  if negb (m_snd_enable p) then call (dac_set_output_gain (f64_of_Z 0)) p
  else
    call (dac_set_output_gain
            (f64_div (f64_lit 8 1) (f64_of_Z (m_snd_vol p + 1)))) p.

(** ** Mouse: [scc_mouse_irq], [mouse_callback]

    [!x] of C. *)
Definition lnot_c (x : Z) : Z := if nz x then 0 else 1.

(** One axis of [scc_mouse_irq]: [i] is the index into the member arrays,
    [dcd] the SCC input of that axis. *)
Definition scc_mouse_axis (i : Z) (dcd : Z -> device_call) (v : Z)
  (p : mac128_periph) : mac128_periph :=
  if nz v then
    let p := call (dcd (if nz (m_mouse_last p i) then 1 else 0)) p in
    let p :=
      if v <? 0 then
        set_mouse_bit p i (if nz (m_mouse_last p i) then 0 else 1)
      else
        set_mouse_bit p i (if nz (m_mouse_last p i) then 1 else 0) in
    set_mouse_last p i (lnot_c (m_mouse_last p i))
  else p.

Definition scc_mouse_irq (x y : Z) (p : mac128_periph) : mac128_periph :=
  scc_mouse_axis 1 scc_dcdb_w y (scc_mouse_axis 0 scc_dcda_w x p).

(** The first half of [mouse_callback], for one axis: the port reading
    [new_m] is compared with the last one and the difference, taken the
    short way round the 8-bit counter, is added to the pending count. *)
Definition mouse_axis_moved (i new_m : Z) (p : mac128_periph)
  : mac128_periph :=
  if negb (new_m =? m_mouse_last_m p i) then
    let diff := s32 (new_m - m_mouse_last_m p i) in
    let diff :=
      if diff >? 0x80 then diff - 0x100
      else if diff <? -0x80 then diff + 0x100
      else diff in
    let p := set_mouse_count p i (s16 (m_mouse_count p i + diff)) in
    set_mouse_last_m p i (s16 new_m)
  else p.

(** The second half, for one axis: one step of the pending count towards
    zero; [neg] and [pos] are the values [x_needs_update] / [y_needs_update]
    get for a negative and for a positive count. *)
Definition mouse_axis_step (i neg pos : Z) (p : mac128_periph)
  : mac128_periph * Z :=
  if m_mouse_count p i <? 0 then
    (set_mouse_count p i (s16 (m_mouse_count p i + 1)), neg)
  else if nz (m_mouse_count p i) then
    (set_mouse_count p i (s16 (m_mouse_count p i - 1)), pos)
  else (p, 0).

(** [new_mx] and [new_my] are the readings of the ports [MOUSE1] and
    [MOUSE2]. *)
Definition mouse_callback (new_mx new_my : Z) (p : mac128_periph)
  : mac128_periph :=
  let p := mouse_axis_moved 0 new_mx p in
  let p := mouse_axis_moved 1 new_my p in
  let '(p, x_needs_update) := mouse_axis_step 0 (-1) 1 p in
  let '(p, y_needs_update) := mouse_axis_step 1 1 (-1) p in
  if nz x_needs_update || nz y_needs_update
  then scc_mouse_irq x_needs_update y_needs_update p
  else p.

(** ** VIA ports: [mac_via_in_a], [mac_via_in_b], [mac_via_out_a],
    [mac_via_out_b]

    [mouse0] is the reading of the port [MOUSE0] (the button), [rtc_data]
    what the clock chip's [data_r] returns. *)
Definition mac_via_in_a : Z := 0x81.

Definition mac_via_in_b (mouse0 rtc_data : Z) (p : mac128_periph) : Z :=
  let val := 0x40 in
  let val := Z.lor val (Z.shiftl (m_mouse_bit p 1) 5) in
  let val := Z.lor val (Z.shiftl (m_mouse_bit p 0) 4) in
  let val := Z.lor val (Z.shiftl (BIT (Z.lnot mouse0) 0) 3) in
  let val := Z.lor val rtc_data in
  u8 val.

(** The head-select line, common to both port A handlers. *)
Definition hdsel_w (data : Z) (st : mac128_state) (p : mac128_periph)
  : mac128_periph :=
  let hdsel := BIT data 5 in
  if negb (hdsel =? m_hdsel p) then
    let p :=
      match m_cur_floppy st with
      | Some _ => call (floppy_ss_w hdsel) p
      | None => p
      end in
    set_hdsel p hdsel
  else p.

Definition mac_via_out_a (data : Z) (st : mac128_state) (p : mac128_periph)
  : mac128_state * mac128_periph :=
  let p := set_screen_buffer p (Z.shiftr (Z.land data 0x40) 6) in
  let p := hdsel_w data st p in
  let p := set_main_buffer p (Z.land data 0x08 =? 0x08) in
  let p := set_snd_vol p (Z.land data 0x07) in
  let p := update_volume p in
  let st :=
    if negb (Z.shiftr (Z.land data 0x10) 4 =? m_overlay st)
    then set_overlay st (Z.shiftr (Z.land data 0x10) 4)
    else st in
  (st, p).

Definition mac_via_out_b (data : Z) (p : mac128_periph) : mac128_periph :=
  let p := set_snd_enable p (Z.land data 0x80 =? 0) in
  let p := update_volume p in
  let p := call (rtc_ce_w (Z.shiftr (Z.land data 0x04) 2)) p in
  let p := call (rtc_data_w (Z.land data 0x01)) p in
  call (rtc_clk_w (Z.land (Z.shiftr data 1) 0x01)) p.

(** ** Video: [screen_update_mac] *)

Definition MAC_H_VIS : Z := 512.
Definition MAC_V_VIS : Z := 342.
Definition MAC_H_TOTAL : Z := 704.
Definition MAC_V_TOTAL : Z := 370.

Definition MAC_MAIN_SND_BUF_OFFSET : Z := Z.shiftr 0x0300 1.
Definition MAC_ALT_SND_BUF_OFFSET : Z := Z.shiftr 0x5F00 1.
Definition MAC_MAIN_SCREEN_BUF_OFFSET : Z := Z.shiftr 0x5900 1.
Definition MAC_ALT_SCREEN_BUF_OFFSET : Z := Z.shiftr 0xD900 1.

Definition video_base (st : mac128_state) (p : mac128_periph) : Z :=
  u32 (m_ram_size st
       - (if nz (m_screen_buffer p) then MAC_MAIN_SCREEN_BUF_OFFSET
          else MAC_ALT_SCREEN_BUF_OFFSET)).

(** The innermost loop: the 16 pixels of one word, leftmost first. *)
Definition draw_word (word x : Z) (line : Z -> Z) : Z -> Z :=
  fold_left
    (fun line b => upd line (x + b) (Z.land (Z.shiftr word (15 - b)) 0x0001))
    (map Z.of_nat (seq 0 16)) line.

(** One line: [video_ram] is the running pointer, as an index into RAM. *)
Definition draw_line (ram : Z -> Z) (x : Z * (Z -> Z)) : Z * (Z -> Z) :=
  fold_left
    (fun (acc : Z * (Z -> Z)) (k : Z) =>
       let '(video_ram, line) := acc in
       (video_ram + 1, draw_word (ram video_ram) (16 * k) line))
    (map Z.of_nat (seq 0 (Z.to_nat (MAC_H_VIS / 16)))) x.

(** The bitmap is a function from the line number to the line. *)
Definition screen_update_mac (st : mac128_state) (p : mac128_periph)
  (bitmap : Z -> Z -> Z) : Z -> Z -> Z :=
  snd
    (fold_left
       (fun (acc : Z * (Z -> Z -> Z)) (y : Z) =>
          let '(video_ram, bitmap) := acc in
          let '(video_ram, line) :=
            draw_line (m_ram_ptr st) (video_ram, bitmap y) in
          (video_ram, upd bitmap y line))
       (map Z.of_nat (seq 0 (Z.to_nat MAC_V_VIS)))
       (video_base st p, bitmap)).

(** ** The scanline timer: [mac_scanline], [mac_hblank]

    [height] is the screen's [height()]; the machine configurations set it
    to [MAC_V_TOTAL].  The result carries the parameter the timer is
    re-armed with, the next scanline. *)
Definition snd_buf (st : mac128_state) (p : mac128_periph) : Z :=
  m_ram_size st
  - (if m_main_buffer p then MAC_MAIN_SND_BUF_OFFSET
     else MAC_ALT_SND_BUF_OFFSET).

Definition mac_scanline (macadb : bool) (height new_mx new_my : Z)
  (scanline : Z) (x : mac128_state * mac128_periph)
  : mac128_state * mac128_periph * Z :=
  let '(st, p) := x in
  let p := if scanline =? MAC_V_VIS then vblank_irq macadb p else p in
  let p :=
    if scanline <? MAC_V_VIS then
      call (hblank_timer_adjust scanline) (call (via_write_pb6 1) p)
    else p in
  let p :=
    if negb (nz (Z.rem scanline 10)) && negb macadb
    then mouse_callback new_mx new_my p
    else p in
  let word := m_ram_ptr st (snd_buf st p + scanline) in
  let p := call (dac_write (Z.shiftr word 8)) p in
  let st := pwm_push (Z.land word 0xff) st in
  let next := Z.rem (scanline + 1) height in
  (st, call (scan_timer_adjust next) p, next).

Definition mac_hblank (p : mac128_periph) : mac128_periph :=
  call (via_write_pb6 0) p.

(* ---------------------------------------------------------------------- *)
(** ** Properties of the interrupt arbiter *)

(** The level the specification expects from the three inputs. *)
Definition expected_level (via scc scsi : bool) : option Z :=
  if scc || scsi then Some 2 else if via then Some 1 else None.

Definition inputs_level (st : mac128_state) : option Z :=
  expected_level (nz (m_via_interrupt st)) (nz (m_scc_interrupt st))
    (nz (m_scsi_interrupt st)).

(** No CPU interrupt input is asserted except, possibly, the level the
    driver remembers having asserted. *)
Definition irq_inv (st : mac128_state) : Prop :=
  forall l, asserted (m_maincpu st) l ->
            l = m_last_taken_interrupt st /\ -1 < l.

Definition at_most_one_asserted (cpu : m68000_device) : Prop :=
  forall l1 l2, asserted cpu l1 -> asserted cpu l2 -> l1 = l2.

Definition none_asserted (cpu : m68000_device) : Prop :=
  forall l, ~ asserted cpu l.

(** The input changes the source has callbacks for. *)
Inductive irq_event : Type :=
| scc_change (state : Z)
| via_change (value : Z).

Definition irq_step (st : mac128_state) (e : irq_event) : mac128_state :=
  match e with
  | scc_change v => set_scc_interrupt v st
  | via_change v => set_via_interrupt v st
  end.

Lemma take_interrupt_expected st :
  take_interrupt st =
  match inputs_level st with Some l => l | None => -1 end.
Proof.
  unfold take_interrupt, inputs_level, expected_level.
  destruct (nz (m_scc_interrupt st) || nz (m_scsi_interrupt st));
    [reflexivity | destruct (nz (m_via_interrupt st)); reflexivity].
Qed.

Lemma irq_inv_at_most_one st :
  irq_inv st -> at_most_one_asserted (m_maincpu st).
Proof.
  intros H l1 l2 H1 H2.
  destruct (H _ H1) as [-> _]. destruct (H _ H2) as [-> _]. reflexivity.
Qed.

Lemma none_asserted_at_most_one cpu :
  none_asserted cpu -> at_most_one_asserted cpu.
Proof. intros H l1 l2 H1 _. destruct (H _ H1). Qed.

Lemma field_interrupts_clear_none st :
  irq_inv st -> none_asserted (m_maincpu (field_interrupts_clear st)).
Proof.
  intros Hinv l Hl. unfold field_interrupts_clear in Hl.
  destruct (m_last_taken_interrupt st >? -1) eqn:E.
  - unfold asserted in Hl. cbn in Hl.
    destruct (Z.eq_dec l (m_last_taken_interrupt st)) as [->|Hne].
    + rewrite upd_same in Hl. discriminate.
    + rewrite upd_other in Hl by assumption.
      apply Hne. apply (Hinv l). exact Hl.
  - destruct (Hinv _ Hl) as [-> Hpos]. lia.
Qed.

Lemma field_interrupts_clear_inputs st :
  m_scc_interrupt (field_interrupts_clear st) = m_scc_interrupt st /\
  m_via_interrupt (field_interrupts_clear st) = m_via_interrupt st /\
  m_scsi_interrupt (field_interrupts_clear st) = m_scsi_interrupt st.
Proof.
  unfold field_interrupts_clear.
  destruct (m_last_taken_interrupt st >? -1); repeat split.
Qed.

Lemma field_interrupts_asserted st :
  irq_inv st ->
  forall l, asserted (m_maincpu (field_interrupts st)) l <->
            inputs_level st = Some l.
Proof.
  intros Hinv l.
  pose proof (field_interrupts_clear_none st Hinv) as Hnone.
  unfold field_interrupts, field_interrupts_assert.
  rewrite take_interrupt_expected.
  destruct (inputs_level st) as [t|] eqn:Et.
  - assert (Ht : t = 1 \/ t = 2).
    { unfold inputs_level, expected_level in Et.
      destruct (_ || _); [|destruct (nz (m_via_interrupt st))];
        inversion Et; auto. }
    assert (Hgt : (t >? -1) = true) by lia.
    rewrite Hgt. unfold asserted. cbn.
    destruct (Z.eq_dec l t) as [->|Hne].
    + rewrite upd_same. tauto.
    + rewrite upd_other by assumption. split.
      * intros H. destruct (Hnone _ H).
      * intros H. inversion H. congruence.
  - cbn. split.
    + intros H. destruct (Hnone _ H).
    + discriminate.
Qed.

Lemma field_interrupts_last st :
  m_last_taken_interrupt (field_interrupts st) =
  match inputs_level st with
  | Some l => l
  | None => m_last_taken_interrupt (field_interrupts_clear st)
  end.
Proof.
  unfold field_interrupts, field_interrupts_assert.
  rewrite take_interrupt_expected.
  destruct (inputs_level st) as [t|] eqn:Et.
  - assert (Hgt : (t >? -1) = true).
    { unfold inputs_level, expected_level in Et.
      destruct (_ || _); [|destruct (nz (m_via_interrupt st))];
        inversion Et; reflexivity. }
    rewrite Hgt. reflexivity.
  - reflexivity.
Qed.

Lemma field_interrupts_inv st : irq_inv st -> irq_inv (field_interrupts st).
Proof.
  intros Hinv l Hl.
  apply (field_interrupts_asserted st Hinv) in Hl.
  rewrite field_interrupts_last, Hl. split; [reflexivity|].
  unfold inputs_level, expected_level in Hl.
  destruct (_ || _); [|destruct (nz (m_via_interrupt st))];
    inversion Hl; lia.
Qed.

Lemma set_irq_inputs_inv st scc via scsi :
  irq_inv st -> irq_inv (set_irq_inputs st scc via scsi).
Proof. intros H l Hl. exact (H l Hl). Qed.

Lemma irq_step_inv st e : irq_inv st -> irq_inv (irq_step st e).
Proof.
  intros H. destruct e; cbn [irq_step];
    unfold set_scc_interrupt, set_via_interrupt;
    apply field_interrupts_inv, set_irq_inputs_inv, H.
Qed.

Lemma irq_steps_inv es : forall st,
  irq_inv st -> irq_inv (fold_left irq_step es st).
Proof.
  induction es as [|e es IH]; intros st H; cbn [fold_left];
    [exact H | apply IH, irq_step_inv, H].
Qed.

Lemma irq_step_asserted st e :
  irq_inv st ->
  forall l, asserted (m_maincpu (irq_step st e)) l <->
            inputs_level (irq_step st e) = Some l.
Proof.
  intros H l.
  assert (Hin : forall s, inputs_level (field_interrupts s) = inputs_level s).
  { intros s. unfold inputs_level, field_interrupts, field_interrupts_assert.
    destruct (field_interrupts_clear_inputs s) as (E1 & E2 & E3).
    destruct (take_interrupt s >? -1); cbn; rewrite E1, E2, E3; reflexivity. }
  destruct e; cbn [irq_step]; unfold set_scc_interrupt, set_via_interrupt;
    rewrite Hin; apply field_interrupts_asserted, set_irq_inputs_inv, H.
Qed.

(** A state in which the CPU sees no interrupt at all, as after reset. *)
Definition quiet_cpu : m68000_device := mk_cpu 0 0 (fun _ => CLEAR_LINE).

Definition quiet_state (scc via scsi : Z) : mac128_state :=
  mk_mac quiet_cpu None 0 0 (S754_zero false) (S754_zero false) 1
    scc via scsi 0 (fun _ => 0) (fun _ => 0) 0xffff 0x10000.

Lemma quiet_state_inv scc via scsi : irq_inv (quiet_state scc via scsi).
Proof. intros l H. discriminate H. Qed.

(** C3.  For every value of the three latched inputs, and from every state in
    which at most the remembered line is asserted (in particular the reset
    state, where none is): running the arbiter leaves level 2 asserted when
    scc or scsi is set, else level 1 when via is set, else nothing; between
    its two halves the previously asserted line has been cleared, so no line
    at all is asserted there; at most one line is asserted before, between and
    after; and the same holds after every input-change callback and after any
    sequence of them. *)
Theorem field_interrupts_priority (st : mac128_state) :
  irq_inv st ->
  (forall l, asserted (m_maincpu (field_interrupts st)) l <->
             expected_level (nz (m_via_interrupt st)) (nz (m_scc_interrupt st))
               (nz (m_scsi_interrupt st)) = Some l) /\
  none_asserted (m_maincpu (field_interrupts_clear st)) /\
  at_most_one_asserted (m_maincpu st) /\
  at_most_one_asserted (m_maincpu (field_interrupts_clear st)) /\
  at_most_one_asserted (m_maincpu (field_interrupts st)) /\
  (forall es : list irq_event,
     let st' := fold_left irq_step es st in
     at_most_one_asserted (m_maincpu st') /\
     forall e l, asserted (m_maincpu (irq_step st' e)) l <->
                 inputs_level (irq_step st' e) = Some l).
Proof.
  intros Hinv. repeat split.
  - apply (field_interrupts_asserted st Hinv).
  - apply (field_interrupts_asserted st Hinv).
  - apply field_interrupts_clear_none, Hinv.
  - apply irq_inv_at_most_one, Hinv.
  - apply none_asserted_at_most_one, field_interrupts_clear_none, Hinv.
  - apply irq_inv_at_most_one, field_interrupts_inv, Hinv.
  - apply irq_inv_at_most_one, irq_steps_inv, Hinv.
  - apply irq_step_asserted, irq_steps_inv, Hinv.
  - apply irq_step_asserted, irq_steps_inv, Hinv.
Qed.

Lemma field_interrupts_priority_witness :
  irq_inv (quiet_state 0 1 0) /\
  asserted (m_maincpu (field_interrupts (quiet_state 0 1 0))) 1.
Proof.
  split.
  - apply quiet_state_inv.
  - apply (proj1 (field_interrupts_priority (quiet_state 0 1 0)
                    (quiet_state_inv 0 1 0))).
    reflexivity.
Defined.

(* ---------------------------------------------------------------------- *)
(** ** Properties of the overlay RAM window *)

Lemma combine_at_spec CD offset data mem_mask st :
  let a := Z.land offset (m_ram_mask st) in
  let st' := combine_at CD offset data mem_mask st in
  m_ram_ptr st' a = CD (m_ram_ptr st a) data mem_mask /\
  (forall b, b <> a -> m_ram_ptr st' b = m_ram_ptr st b) /\
  m_overlay st' = m_overlay st /\
  m_rom_ptr st' = m_rom_ptr st /\
  m_ram_mask st' = m_ram_mask st /\
  m_maincpu st' = m_maincpu st.
Proof.
  cbn. unfold combine_at. cbn. repeat split.
  - apply upd_same.
  - intros b Hb. apply upd_other, Hb.
Qed.

(** C4.  On the base variants ([mac512ke_map], [macplus_map]) a write to the
    low window leaves the whole state as it is while the overlay flag is set,
    and stores the combined word at [offset & ram_mask] (nothing else changes)
    when it is clear; on the SE variant ([macse_map]) every write clears the
    overlay flag and stores the combined word, whatever the flag was. *)
Theorem ram_window_write
  (COMBINE_DATA : Z -> Z -> Z -> Z) (offset data mem_mask : Z)
  (st : mac128_state) :
  let a := Z.land offset (m_ram_mask st) in
  let stored := COMBINE_DATA (m_ram_ptr st a) data mem_mask in
  (forall v, v = mac512ke_map \/ v = macplus_map ->
     let st' := low_window_w COMBINE_DATA v offset data mem_mask st in
     (m_overlay st <> 0 -> st' = st) /\
     (m_overlay st = 0 ->
        st' = set_ram st (upd (m_ram_ptr st) a stored) /\
        m_ram_ptr st' a = stored /\
        (forall b, b <> a -> m_ram_ptr st' b = m_ram_ptr st b))) /\
  (let st' := low_window_w COMBINE_DATA macse_map offset data mem_mask st in
   m_overlay st' = 0 /\
   st' = set_ram (set_overlay st 0) (upd (m_ram_ptr st) a stored) /\
   m_ram_ptr st' a = stored /\
   (forall b, b <> a -> m_ram_ptr st' b = m_ram_ptr st b)).
Proof.
  cbn zeta. split.
  - intros v Hv.
    assert (Hw : low_window_w COMBINE_DATA v = ram_w COMBINE_DATA)
      by (destruct Hv; subst v; reflexivity).
    rewrite Hw. unfold ram_w, nz. split.
    + intros Hov. apply Z.eqb_neq in Hov. rewrite Hov. reflexivity.
    + intros Hov. rewrite Hov. cbn [Z.eqb negb].
      split; [reflexivity|]. split.
      * apply (combine_at_spec COMBINE_DATA offset data mem_mask st).
      * apply (combine_at_spec COMBINE_DATA offset data mem_mask st).
  - cbn [low_window_w]. unfold ram_w_se.
    pose proof (combine_at_spec COMBINE_DATA offset data mem_mask
                  (set_overlay st 0)) as H.
    cbn zeta in H. destruct H as (H1 & H2 & H3 & _).
    repeat split; assumption.
Qed.

(* ---------------------------------------------------------------------- *)
(** ** Properties of the VIA bus synchronisation *)

Lemma via_sync_delta_small c :
  0 <= c -> c + 11 < 2 ^ 64 ->
  via_sync_delta c = c - 10 * ((c + 11) / 10).
Proof.
  intros H0 H1. unfold via_sync_delta, u64, s32, sint.
  change (2 ^ 64) with 18446744073709551616 in *.
  change (2 ^ 32) with 4294967296.
  change (2 ^ (32 - 1)) with 2147483648.
  rewrite (Z.mod_small (c + 2)) by lia.
  replace (c + 2 + 9) with (c + 11) by lia.
  rewrite (Z.mod_small (c + 11)) by lia.
  pose proof (Z.div_mod (c + 11) 10 ltac:(lia)) as Hd.
  pose proof (Z.mod_pos_bound (c + 11) 10 ltac:(lia)) as Hm.
  set (q := (c + 11) / 10) in *.
  rewrite (Z.mod_small (q * 10)) by lia.
  set (d := c - q * 10).
  assert (Hdr : -11 <= d <= -2) by (unfold d; lia).
  assert (E1 : d mod 18446744073709551616 = d + 18446744073709551616).
  { symmetry. apply (Z.mod_unique _ _ (-1)); lia. }
  rewrite E1.
  assert (E2 : (d + 18446744073709551616) mod 4294967296 = d + 4294967296).
  { symmetry. apply (Z.mod_unique _ _ 4294967295); lia. }
  rewrite E2.
  destruct (d + 4294967296 <? 2147483648) eqn:E; [lia|]. unfold d. lia.
Qed.

(** The boundary the code advances to is the least multiple of 10 that is at
    least [c + 2]. *)
Lemma via_boundary_least c :
  let t := 10 * ((c + 11) / 10) in
  t mod 10 = 0 /\ c + 2 <= t /\
  forall m, m mod 10 = 0 -> c + 2 <= m -> t <= m.
Proof.
  cbn zeta.
  pose proof (Z.div_mod (c + 11) 10 ltac:(lia)) as Hd.
  pose proof (Z.mod_pos_bound (c + 11) 10 ltac:(lia)) as Hm.
  repeat split.
  - rewrite Z.mul_comm. apply Z.mod_mul. lia.
  - lia.
  - intros m Hm0 Hle.
    pose proof (Z.div_mod m 10 ltac:(lia)) as Hdm. rewrite Hm0 in Hdm.
    assert ((c + 11) / 10 <= m / 10); [|lia].
    apply Z.div_le_lower_bound; lia.
Qed.

Section ViaFacts.

Variable via_read : Z -> mac128_state -> Z * mac128_state.
Variable via_write : Z -> Z -> mac128_state -> mac128_state.

(** The register access itself takes no CPU time: all of the access time is
    what [via_sync] and [via_sync_end] account for. *)
Hypothesis via_read_cycles : forall o st,
  cycles (m_maincpu (snd (via_read o st))) = cycles (m_maincpu st) /\
  icount (m_maincpu (snd (via_read o st))) = icount (m_maincpu st).
Hypothesis via_write_cycles : forall o d st,
  cycles (m_maincpu (via_write o d st)) = cycles (m_maincpu st) /\
  icount (m_maincpu (via_write o d st)) = icount (m_maincpu st).

(** C5, as the code has it.  For every starting cycle count [c] that leaves
    room for the wait states in the 64-bit counter ([c + 11 < 2^64]), the
    cycle count after [via_sync] is the least multiple of 10 that is at least
    [c + 2], the budget has gone down by exactly that advance, any state with
    the same cycle count gets the same adjustment, and a register read and a
    register write both end 4 cycles after that boundary, with 4 more cycles
    taken from the budget. *)
Theorem via_sync_boundary (st : mac128_state) (offset data : Z) :
  let c := total_cycles (m_maincpu st) in
  0 <= c -> c + 11 < 2 ^ 64 ->
  let t := total_cycles (m_maincpu (via_sync st)) in
  (t mod 10 = 0 /\ c + 2 <= t /\
   forall m, m mod 10 = 0 -> c + 2 <= m -> t <= m) /\
  icount (m_maincpu (via_sync st)) = icount (m_maincpu st) - (t - c) /\
  (forall st2, total_cycles (m_maincpu st2) = c ->
     total_cycles (m_maincpu (via_sync st2)) = t /\
     icount (m_maincpu (via_sync st2)) - icount (m_maincpu st2) =
     icount (m_maincpu (via_sync st)) - icount (m_maincpu st)) /\
  (let r := snd (mac_via_r via_read offset st) in
   total_cycles (m_maincpu r) = u64 (t + 4) /\
   icount (m_maincpu r) = icount (m_maincpu st) - (t - c) - 4) /\
  (let w := mac_via_w via_write offset data st in
   total_cycles (m_maincpu w) = u64 (t + 4) /\
   icount (m_maincpu w) = icount (m_maincpu st) - (t - c) - 4).
Proof.
  cbn zeta. intros H0 H1.
  assert (Hsync : forall s, total_cycles (m_maincpu s) = total_cycles (m_maincpu st) ->
     total_cycles (m_maincpu (via_sync s)) =
       10 * ((total_cycles (m_maincpu st) + 11) / 10) /\
     icount (m_maincpu (via_sync s)) =
       icount (m_maincpu s) -
       (10 * ((total_cycles (m_maincpu st) + 11) / 10) - total_cycles (m_maincpu st))).
  { intros s Hs. unfold via_sync, set_maincpu, adjust_icount.
    cbn [m_maincpu cycles icount]. unfold total_cycles in *. rewrite Hs.
    rewrite via_sync_delta_small by assumption.
    pose proof (via_boundary_least (cycles (m_maincpu st))) as (_ & Hle & _).
    pose proof (Z.div_mod (cycles (m_maincpu st) + 11) 10 ltac:(lia)) as Hd.
    pose proof (Z.mod_pos_bound (cycles (m_maincpu st) + 11) 10 ltac:(lia)) as Hm.
    split; [|lia]. unfold u64.
    replace (cycles (m_maincpu st) -
             (cycles (m_maincpu st) - 10 * ((cycles (m_maincpu st) + 11) / 10)))
      with (10 * ((cycles (m_maincpu st) + 11) / 10)) by lia.
    apply Z.mod_small. lia. }
  destruct (Hsync st eq_refl) as [Ht Hi].
  split; [|split; [|split; [|split]]].
  - rewrite Ht. apply via_boundary_least.
  - rewrite Hi, Ht. reflexivity.
  - intros st2 H2. destruct (Hsync st2 H2) as [Ht2 Hi2].
    rewrite Ht2, Ht, Hi2, Hi. split; [reflexivity|lia].
  - unfold mac_via_r.
    destruct (via_read (Z.land (Z.shiftr offset 8) 15) (via_sync st))
      as [dat s1] eqn:E.
    pose proof (via_read_cycles (Z.land (Z.shiftr offset 8) 15) (via_sync st))
      as [Hc Hic].
    rewrite E in Hc, Hic. cbn [snd] in *.
    unfold via_sync_end, set_maincpu, adjust_icount.
    cbn [m_maincpu cycles icount]. unfold total_cycles in *.
    rewrite Hc, Hic, Ht, Hi. cbn [cycles icount].
    split; [f_equal; lia | lia].
  - unfold mac_via_w.
    pose proof (via_write_cycles (Z.land (Z.shiftr offset 8) 15)
                  (Z.land (Z.shiftr data 8) 255) (via_sync st)) as [Hc Hic].
    unfold via_sync_end, set_maincpu, adjust_icount.
    cbn [m_maincpu cycles icount]. unfold total_cycles in *.
    rewrite Hc, Hic, Ht, Hi. cbn [cycles icount].
    split; [f_equal; lia | lia].
Qed.

End ViaFacts.

(** A VIA that answers 0 and ignores writes, to run the model. *)
Definition idle_via_read (o : Z) (st : mac128_state) : Z * mac128_state :=
  (0, st).
Definition idle_via_write (o d : Z) (st : mac128_state) : mac128_state := st.

Definition state_at_cycle (c : Z) : mac128_state :=
  mk_mac (mk_cpu c 1000 (fun _ => CLEAR_LINE)) None 0 0
    (S754_zero false) (S754_zero false) 1 0 0 0 0
    (fun _ => 0) (fun _ => 0) 0xffff 0x10000.

Lemma via_sync_boundary_witness :
  total_cycles (m_maincpu (via_sync (state_at_cycle 123))) mod 10 = 0 /\
  total_cycles (m_maincpu (snd (mac_via_r idle_via_read 0 (state_at_cycle 123))))
  = u64 (total_cycles (m_maincpu (via_sync (state_at_cycle 123))) + 4).
Proof.
  pose proof (via_sync_boundary idle_via_read idle_via_write
                (fun o st => conj eq_refl eq_refl)
                (fun o d st => conj eq_refl eq_refl)
                (state_at_cycle 123) 0 0) as H.
  cbn zeta in H.
  assert (H0 : 0 <= total_cycles (m_maincpu (state_at_cycle 123)))
    by (vm_compute; discriminate).
  assert (H1 : total_cycles (m_maincpu (state_at_cycle 123)) + 11 < 2 ^ 64)
    by reflexivity.
  destruct (H H0 H1) as ((Hm & _) & _ & _ & (Hr & _) & _).
  split; [exact Hm | exact Hr].
Defined.

(** At the top of the 64-bit range the sum [vpa_cycle + 9] wraps: from
    [c = 2^64 - 5] the code computes a start cycle of 0 and takes 5 cycles.
    The counter then reads 0, which is below [c + 2]; without the wrap it
    would read [2^64], which is not a multiple of 10; the least multiple of
    10 that is at least [c + 2] is 9 cycles ahead. *)
Lemma via_sync_wraps_at_top :
  let c := 2 ^ 64 - 5 in
  via_sync_delta c = -5 /\
  total_cycles (m_maincpu (via_sync (state_at_cycle c))) = 0 /\
  (c - via_sync_delta c) mod 10 <> 0 /\
  (forall t, t mod 10 = 0 -> c + 2 <= t ->
             (forall m, m mod 10 = 0 -> c + 2 <= m -> t <= m) ->
             t - c = 9).
Proof.
  cbn zeta. split; [reflexivity|]. split; [reflexivity|]. split.
  - vm_compute. discriminate.
  - intros t Ht Hle Hleast.
    change (2 ^ 64) with 18446744073709551616 in *.
    pose proof (Hleast 18446744073709551620 eq_refl ltac:(lia)).
    pose proof (Z.div_mod t 10 ltac:(lia)) as Hd. rewrite Ht in Hd. lia.
Qed.

(* ---------------------------------------------------------------------- *)
(** ** Properties of the PWM motor-speed decoder *)

(** Reduction of the record projections only. *)
Ltac mac_proj :=
  cbn [m_pwm_count_total m_pwm_count_1 m_cur_floppy
       m_pwm_current_rpm_0 m_pwm_current_rpm_1 m_maincpu m_overlay
       m_scc_interrupt m_via_interrupt m_scsi_interrupt
       m_last_taken_interrupt m_ram_ptr m_rom_ptr m_ram_mask m_ram_size].

(** The decoder is between two windows: both counters are zero, as after
    reset and after every 100th pulse. *)
Definition window_boundary (st : mac128_state) : Prop :=
  m_pwm_count_total st = 0 /\ m_pwm_count_1 st = 0.

Lemma window_sum_app w1 w2 :
  window_sum (w1 ++ w2) = window_sum w1 + window_sum w2.
Proof.
  unfold window_sum. induction w1 as [|d w1 IH]; cbn [app fold_right];
    [reflexivity | rewrite IH; lia].
Qed.

(** Fewer than 100 pulses in all: the decoder only accumulates. *)
Lemma pwm_feed_partial w : forall st,
  m_pwm_count_total st + Z.of_nat (length w) < 100 ->
  pwm_feed w st =
  set_pwm st (m_cur_floppy st)
    (m_pwm_count_total st + Z.of_nat (length w))
    (m_pwm_count_1 st + window_sum w)
    (m_pwm_current_rpm_0 st) (m_pwm_current_rpm_1 st).
Proof.
  unfold pwm_feed.
  induction w as [|d w IH]; intros st Hlen.
  - cbn [fold_left length window_sum fold_right Z.of_nat].
    rewrite !Z.add_0_r. destruct st; reflexivity.
  - cbn [fold_left]. cbn [length] in Hlen.
    rewrite Nat2Z.inj_succ in Hlen.
    assert (Hstep : pwm_push d st =
      set_pwm st (m_cur_floppy st) (m_pwm_count_total st + 1)
        (m_pwm_count_1 st + pulse_length d)
        (m_pwm_current_rpm_0 st) (m_pwm_current_rpm_1 st)).
    { unfold pwm_push.
      destruct (m_pwm_count_total st + 1 =? 100) eqn:E; [lia | reflexivity]. }
    rewrite Hstep, IH by (cbn; lia).
    cbn [length]. rewrite Nat2Z.inj_succ.
    change (window_sum (d :: w)) with (pulse_length d + window_sum w).
    unfold set_pwm. mac_proj. f_equal; lia.
Qed.

Lemma list_snoc {A} (l : list A) n :
  length l = S n -> exists l' x, l = l' ++ [x] /\ length l' = n.
Proof.
  intros H. destruct (exists_last (l := l)) as (l' & x & ->).
  - intros ->. discriminate H.
  - exists l', x. split; [reflexivity|].
    rewrite length_app in H. cbn in H. lia.
Qed.

(** A complete window fed at a window boundary: the counters are back to
    zero, the two remembered readings shift, and the drive is touched only
    when the debounce test passes. *)
Lemma pwm_feed_window w st :
  length w = 100%nat -> window_boundary st ->
  pwm_feed w st =
  set_pwm st
    (if pwm_commit_cond (window_rpm w)
          (m_pwm_current_rpm_0 st) (m_pwm_current_rpm_1 st)
     then commit_rpm (window_rpm w) (m_cur_floppy st)
     else m_cur_floppy st)
    0 0 (m_pwm_current_rpm_1 st) (window_rpm w).
Proof.
  intros Hlen [Ht H1].
  destruct (list_snoc w 99 Hlen) as (w' & d & -> & Hlen').
  unfold pwm_feed. rewrite fold_left_app. cbn [fold_left].
  fold (pwm_feed w' st).
  rewrite pwm_feed_partial by (rewrite Ht, Hlen'; reflexivity).
  rewrite Ht, H1, Hlen'. unfold pwm_push, window_rpm.
  rewrite window_sum_app.
  unfold set_pwm. mac_proj.
  change (0 + Z.of_nat 99 + 1 =? 100) with true. cbn iota.
  change (0 + Z.of_nat 99 + 1) with 100.
  replace (window_sum [d]) with (pulse_length d)
    by (unfold window_sum; cbn [fold_right]; lia).
  rewrite Z.add_0_l. reflexivity.
Qed.

Lemma pwm_feed_window_boundary w st :
  length w = 100%nat -> window_boundary st -> window_boundary (pwm_feed w st).
Proof.
  intros Hlen Hb. rewrite pwm_feed_window by assumption. split; reflexivity.
Qed.

Lemma pwm_internal_index_range c t : 0 <= pwm_internal_index c t <= 399.
Proof.
  unfold pwm_internal_index.
  destruct (Z.quot c (Z.quot t 10) - 11 <? 0) eqn:E1.
  - cbn. lia.
  - destruct (Z.quot c (Z.quot t 10) - 11 >? 399) eqn:E2; lia.
Qed.

Definition all_indices : list Z := map Z.of_nat (seq 0 400).

Lemma all_indices_in i : 0 <= i <= 399 -> In i all_indices.
Proof.
  intros H. unfold all_indices. apply in_map_iff.
  exists (Z.to_nat i). split; [lia|]. apply in_seq. lia.
Qed.

(** Every RPM the decoder can compute is an ordinary number, equal to
    itself under the [float] comparison. *)
Lemma pwm_rpm_eq_refl i : 0 <= i <= 399 -> SFeqb (pwm_rpm i) (pwm_rpm i) = true.
Proof.
  intros H.
  assert (Hall : forallb (fun i => SFeqb (pwm_rpm i) (pwm_rpm i)) all_indices
                 = true) by (vm_compute; reflexivity).
  rewrite forallb_forall in Hall. apply Hall, all_indices_in, H.
Qed.

(** The RPM is strictly increasing in the index, so two readings are equal
    exactly when their indices are. *)
Lemma pwm_rpm_increasing i :
  0 <= i < 399 -> SFltb (pwm_rpm i) (pwm_rpm (i + 1)) = true.
Proof.
  intros H.
  assert (Hall : forallb (fun i => (i =? 399) ||
                                   SFltb (pwm_rpm i) (pwm_rpm (i + 1)))
                   all_indices = true) by (vm_compute; reflexivity).
  rewrite forallb_forall in Hall.
  specialize (Hall i (all_indices_in i ltac:(lia))).
  apply orb_true_iff in Hall. destruct Hall as [Hall|Hall]; [lia | exact Hall].
Qed.

Lemma window_rpm_eq_refl w : SFeqb (window_rpm w) (window_rpm w) = true.
Proof. apply pwm_rpm_eq_refl, pwm_internal_index_range. Qed.

(** A window keeps the kind of drive that is selected. *)
Lemma pwm_feed_window_drive w st f :
  length w = 100%nat -> window_boundary st ->
  m_cur_floppy st = Some f ->
  exists f', m_cur_floppy (pwm_feed w st) = Some f' /\ ftype f' = ftype f.
Proof.
  intros Hlen Hb Hf. rewrite pwm_feed_window by assumption.
  unfold set_pwm. mac_proj.
  destruct (pwm_commit_cond _ _ _).
  - rewrite Hf. cbn. destruct (floppy_type_eqb (ftype f) OAD34V);
      eexists; split; reflexivity.
  - exists f. split; [exact Hf | reflexivity].
Qed.

Lemma pwm_feed_window_rpm w st :
  length w = 100%nat -> window_boundary st ->
  m_pwm_current_rpm_0 (pwm_feed w st) = m_pwm_current_rpm_1 st /\
  m_pwm_current_rpm_1 (pwm_feed w st) = window_rpm w.
Proof.
  intros Hlen Hb. rewrite pwm_feed_window by assumption. split; reflexivity.
Qed.

(** A window whose reading differs from the previous one commits nothing. *)
Lemma pwm_window_differs_no_commit w st :
  length w = 100%nat -> window_boundary st ->
  SFeqb (window_rpm w) (m_pwm_current_rpm_1 st) = false ->
  m_cur_floppy (pwm_feed w st) = m_cur_floppy st.
Proof.
  intros Hlen Hb Hne. rewrite pwm_feed_window by assumption.
  unfold set_pwm, pwm_commit_cond. mac_proj. rewrite Hne. reflexivity.
Qed.

(** A window whose reading repeats the previous one, which was new, commits
    to a variable-speed drive. *)
Lemma pwm_window_repeats_commit w st f :
  length w = 100%nat -> window_boundary st ->
  SFeqb (window_rpm w) (m_pwm_current_rpm_1 st) = true ->
  SFeqb (m_pwm_current_rpm_1 st) (m_pwm_current_rpm_0 st) = false ->
  m_cur_floppy st = Some f -> ftype f = OAD34V ->
  m_cur_floppy (pwm_feed w st) = Some (set_rpm (window_rpm w) f).
Proof.
  intros Hlen Hb He Hne Hf Ht. rewrite pwm_feed_window by assumption.
  unfold set_pwm, pwm_commit_cond. mac_proj. rewrite He, Hne, Hf. cbn.
  rewrite Ht. reflexivity.
Qed.

Lemma machine_reset_boundary st : window_boundary (machine_reset st).
Proof. split; reflexivity. Qed.

(** C1, as the code has it.  [st] is any state between two windows and
    [w0], [w1], [w2] are complete 100-pulse windows fed one after the other.
    (1) When the RPM computed from [w2] differs from the RPM computed from
    [w1], the end of [w2] commits nothing; fed right after reset, neither
    window commits.  (2) When [w1] and [w2] compute the same RPM and the
    window [w0] before them computed a different one, [w1] commits nothing
    and [w2] commits that RPM, exactly once, to a selected drive of the
    variable-speed type.  In every case both counters are zero again after
    each window. *)
Theorem pwm_debounce (st : mac128_state) (w0 w1 w2 : list Z) :
  window_boundary st ->
  length w0 = 100%nat -> length w1 = 100%nat -> length w2 = 100%nat ->
  (SFeqb (window_rpm w2) (window_rpm w1) = false ->
     commits (pwm_feed w2 (pwm_feed w1 st)) = commits (pwm_feed w1 st) /\
     commits (pwm_feed w2 (pwm_feed w1 (machine_reset st))) = commits st) /\
  (SFeqb (window_rpm w1) (window_rpm w0) = false ->
   SFeqb (window_rpm w2) (window_rpm w1) = true ->
   forall f, m_cur_floppy st = Some f -> ftype f = OAD34V ->
     let s0 := pwm_feed w0 st in
     commits (pwm_feed w1 s0) = commits s0 /\
     commits (pwm_feed w2 (pwm_feed w1 s0)) = S (commits s0) /\
     exists f0, m_cur_floppy s0 = Some f0 /\
       m_cur_floppy (pwm_feed w2 (pwm_feed w1 s0))
       = Some (set_rpm (window_rpm w2) f0)) /\
  window_boundary (pwm_feed w1 st) /\
  window_boundary (pwm_feed w2 (pwm_feed w1 st)).
Proof.
  intros Hb H0 H1 H2.
  pose proof (pwm_feed_window_boundary w1 st H1 Hb) as Hb1.
  split; [|split; [|split]].
  - intros Hne. split.
    + unfold commits. rewrite (pwm_window_differs_no_commit w2); auto.
      destruct (pwm_feed_window_rpm w1 st H1 Hb) as [_ ->]. exact Hne.
    + pose proof (machine_reset_boundary st) as Hbr.
      pose proof (pwm_feed_window_boundary w1 _ H1 Hbr) as Hbr1.
      unfold commits. rewrite (pwm_window_differs_no_commit w2); auto.
      * rewrite pwm_feed_window by assumption.
        unfold set_pwm, pwm_commit_cond, machine_reset. mac_proj.
        replace (SFeqb (f32_of_f64 (f64_lit 3025 10))
                       (f32_of_f64 (f64_lit 3025 10))) with true
          by (vm_compute; reflexivity).
        rewrite andb_false_r. reflexivity.
      * destruct (pwm_feed_window_rpm w1 _ H1 Hbr) as [_ ->]. exact Hne.
  - intros Hne He f Hf Ht. cbn zeta.
    pose proof (pwm_feed_window_boundary w0 st H0 Hb) as Hb0.
    destruct (pwm_feed_window_drive w0 st f H0 Hb Hf) as (f0 & Hf0 & Ht0).
    destruct (pwm_feed_window_rpm w0 st H0 Hb) as [_ Hr0].
    assert (Hd1 : m_cur_floppy (pwm_feed w1 (pwm_feed w0 st)) = Some f0).
    { rewrite (pwm_window_differs_no_commit w1); auto.
      rewrite Hr0. exact Hne. }
    destruct (pwm_feed_window_rpm w1 _ H1 Hb0) as [Hr10 Hr11].
    assert (Hd2 : m_cur_floppy (pwm_feed w2 (pwm_feed w1 (pwm_feed w0 st)))
                  = Some (set_rpm (window_rpm w2) f0)).
    { apply pwm_window_repeats_commit; auto.
      - apply pwm_feed_window_boundary; assumption.
      - rewrite Hr11. exact He.
      - rewrite Hr11, Hr10, Hr0. exact Hne.
      - congruence. }
    unfold commits. rewrite Hd1, Hd2, Hf0. cbn.
    repeat split. exists f0. split; reflexivity.
  - exact Hb1.
  - apply pwm_feed_window_boundary; assumption.
Qed.

(** Concrete windows: 100 pulses of length 10 (sum 1000), 100 pulses of
    length 11 (sum 1100), and 99 pulses of length 10 followed by one of
    length 11 (sum 1001). *)
Definition w_1000 : list Z := repeat 53 100.
Definition w_1100 : list Z := repeat 42 100.
Definition w_1001 : list Z := repeat 53 99 ++ [42].

(** The state after reset with a variable-speed drive selected. *)
Definition reset_with_drive : mac128_state :=
  machine_reset
    (mk_mac quiet_cpu (Some (mk_floppy OAD34V [])) 0 0
       (S754_zero false) (S754_zero false) 0 0 0 0 0
       (fun _ => 0) (fun _ => 0) 0xffff 0x10000).

Lemma pwm_debounce_witness :
  commits (pwm_feed w_1100 (pwm_feed w_1000 reset_with_drive))
  = commits (pwm_feed w_1000 reset_with_drive) /\
  commits (pwm_feed w_1100 (pwm_feed w_1100 (pwm_feed w_1000 reset_with_drive)))
  = S (commits (pwm_feed w_1000 reset_with_drive)).
Proof.
  pose proof (pwm_debounce reset_with_drive w_1000 w_1000 w_1100
                (conj eq_refl eq_refl) eq_refl eq_refl eq_refl) as HA.
  pose proof (pwm_debounce reset_with_drive w_1000 w_1100 w_1100
                (conj eq_refl eq_refl) eq_refl eq_refl eq_refl) as HB.
  split.
  - apply (proj1 HA). vm_compute. reflexivity.
  - destruct HB as (_ & HB & _).
    assert (E1 : SFeqb (window_rpm w_1100) (window_rpm w_1000) = false)
      by (vm_compute; reflexivity).
    assert (E2 : SFeqb (window_rpm w_1100) (window_rpm w_1100) = true)
      by (vm_compute; reflexivity).
    exact (proj1 (proj2 (HB E1 E2 (mk_floppy OAD34V []) eq_refl eq_refl))).
Defined.

(** The claim as worded fails: the windows [w_1000] and [w_1001] have
    different pulse-length sums, yet both give index 89 and so the same RPM;
    fed right after reset, the second one commits. *)
Lemma pwm_different_sums_commit :
  window_sum w_1000 = 1000 /\ window_sum w_1001 = 1001 /\
  window_sum w_1000 <> window_sum w_1001 /\
  commits reset_with_drive = 0%nat /\
  commits (pwm_feed w_1000 reset_with_drive) = 0%nat /\
  commits (pwm_feed w_1001 (pwm_feed w_1000 reset_with_drive)) = 1%nat /\
  m_cur_floppy (pwm_feed w_1001 (pwm_feed w_1000 reset_with_drive))
  = Some (mk_floppy OAD34V [pwm_rpm 89]).
Proof.
  repeat split; try (vm_compute; reflexivity).
  vm_compute. discriminate.
Qed.

(* ---------------------------------------------------------------------- *)
(** ** Further properties of the RAM windows *)

(** The emulator core's macro merges the bits selected by [mem_mask] into
    the old word; this instance is used to run the model. *)
Definition combine_data_16 (old data mem_mask : Z) : Z :=
  Z.lor (Z.land old (Z.lxor mem_mask 0xffff)) (Z.land data mem_mask).

Lemma combine_at_read CD offset data mem_mask st o2 :
  m_ram_ptr (combine_at CD offset data mem_mask st) (Z.land o2 (m_ram_mask st))
  = if Z.land o2 (m_ram_mask st) =? Z.land offset (m_ram_mask st)
    then CD (m_ram_ptr st (Z.land offset (m_ram_mask st))) data mem_mask
    else m_ram_ptr st (Z.land o2 (m_ram_mask st)).
Proof. reflexivity. Qed.

Lemma combine_at_frame CD offset data mem_mask st :
  m_overlay (combine_at CD offset data mem_mask st) = m_overlay st /\
  m_ram_mask (combine_at CD offset data mem_mask st) = m_ram_mask st /\
  m_rom_ptr (combine_at CD offset data mem_mask st) = m_rom_ptr st.
Proof. repeat split. Qed.

Section RamWindowFacts.

Variable COMBINE_DATA : Z -> Z -> Z -> Z.

(** A write of all 16 bits stores the data word. *)
Hypothesis COMBINE_DATA_full :
  forall old data, 0 <= data < 2 ^ 16 -> COMBINE_DATA old data 0xffff = data.

(** X1.  Round trip through the RAM windows.  A full-width write is read
    back at the same offset and at every offset that agrees with it under
    [ram_mask] (the RAM is mirrored through the window), and words at other
    RAM addresses stay as they were: through the low window of the base
    variants when the overlay is off, through the low window of the SE
    variant whatever the overlay was, and through the high window always. *)
Theorem ram_write_read_back (offset offset' data : Z) (st : mac128_state) :
  0 <= data < 2 ^ 16 ->
  Z.land offset' (m_ram_mask st) = Z.land offset (m_ram_mask st) ->
  (m_overlay st = 0 ->
     ram_r offset' (ram_w COMBINE_DATA offset data 0xffff st) = data /\
     forall o2, Z.land o2 (m_ram_mask st) <> Z.land offset (m_ram_mask st) ->
       ram_r o2 (ram_w COMBINE_DATA offset data 0xffff st) = ram_r o2 st) /\
  ram_r offset' (ram_w_se COMBINE_DATA offset data 0xffff st) = data /\
  (forall o2, Z.land o2 (m_ram_mask st) <> Z.land offset (m_ram_mask st) ->
     ram_r o2 (ram_w_se COMBINE_DATA offset data 0xffff st)
     = ram_600000_r o2 st) /\
  ram_600000_r offset'
    (ram_600000_w COMBINE_DATA offset data 0xffff st) = data /\
  (forall o2, Z.land o2 (m_ram_mask st) <> Z.land offset (m_ram_mask st) ->
     ram_600000_r o2 (ram_600000_w COMBINE_DATA offset data 0xffff st)
     = ram_600000_r o2 st).
Proof.
  intros Hd Ha.
  assert (Hsame : forall s, m_ram_mask s = m_ram_mask st ->
            m_ram_ptr (combine_at COMBINE_DATA offset data 0xffff s)
              (Z.land offset' (m_ram_mask s)) = data).
  { intros s Hs. rewrite combine_at_read, Hs, Ha, Z.eqb_refl.
    apply COMBINE_DATA_full, Hd. }
  assert (Hother : forall s o2, m_ram_mask s = m_ram_mask st ->
            Z.land o2 (m_ram_mask st) <> Z.land offset (m_ram_mask st) ->
            m_ram_ptr (combine_at COMBINE_DATA offset data 0xffff s)
              (Z.land o2 (m_ram_mask s))
            = m_ram_ptr s (Z.land o2 (m_ram_mask s))).
  { intros s o2 Hs Hne. rewrite combine_at_read, Hs.
    apply Z.eqb_neq in Hne. rewrite Hne. reflexivity. }
  assert (Hr : forall s o, m_overlay s = 0 ->
            ram_r o (combine_at COMBINE_DATA offset data 0xffff s)
            = m_ram_ptr (combine_at COMBINE_DATA offset data 0xffff s)
                (Z.land o (m_ram_mask s))).
  { intros s o Hs. unfold ram_r, nz.
    destruct (combine_at_frame COMBINE_DATA offset data 0xffff s)
      as (-> & -> & _).
    rewrite Hs. reflexivity. }
  split; [|split; [|split; [|split]]].
  - intros Hov. unfold ram_w, nz. rewrite Hov. cbn [Z.eqb negb].
    split.
    + rewrite Hr by assumption. apply (Hsame st eq_refl).
    + intros o2 Hne. rewrite Hr by assumption.
      rewrite (Hother st o2 eq_refl Hne). unfold ram_r, nz.
      rewrite Hov. reflexivity.
  - unfold ram_w_se. rewrite Hr by reflexivity.
    apply (Hsame (set_overlay st 0) eq_refl).
  - intros o2 Hne. unfold ram_w_se. rewrite Hr by reflexivity.
    apply (Hother (set_overlay st 0) o2 eq_refl Hne).
  - apply (Hsame st eq_refl).
  - intros o2 Hne. apply (Hother st o2 eq_refl Hne).
Qed.

End RamWindowFacts.

Lemma land_mirror o k n :
  0 <= n -> Z.land (o + k * 2 ^ n) (2 ^ n - 1) = Z.land o (2 ^ n - 1).
Proof.
  intros Hn. change (2 ^ n - 1) with (Z.pred (2 ^ n)).
  rewrite <- Z.ones_equiv, !Z.land_ones by assumption.
  apply Z.mod_add. apply Z.pow_nonzero; lia.
Qed.

(** X2.  While the overlay is on, the low window shows the ROM, which
    repeats every 0x80000 words; a write through the low window of the base
    variants changes nothing, and a write through the high window, which
    does reach the RAM, does not show in the low window either. *)
Theorem overlay_shows_rom
  (COMBINE_DATA : Z -> Z -> Z -> Z) (offset o2 data mem_mask k : Z)
  (st : mac128_state) :
  m_overlay st <> 0 ->
  ram_r o2 st = m_rom_ptr st (Z.land o2 0x7ffff) /\
  ram_r (o2 + k * 0x80000) st = ram_r o2 st /\
  ram_w COMBINE_DATA offset data mem_mask st = st /\
  ram_r o2 (ram_600000_w COMBINE_DATA offset data mem_mask st) = ram_r o2 st /\
  ram_600000_r offset (ram_600000_w COMBINE_DATA offset data mem_mask st)
  = COMBINE_DATA (ram_600000_r offset st) data mem_mask.
Proof.
  intros Hov. apply Z.eqb_neq in Hov.
  unfold ram_r, ram_w, ram_600000_w, ram_600000_r, nz.
  cbn [combine_at set_ram m_overlay m_rom_ptr]. rewrite Hov. cbn [negb].
  repeat split.
  - f_equal. apply (land_mirror o2 k 19). lia.
  - cbn. apply upd_same.
Qed.

Lemma combine_data_16_full old data :
  0 <= data < 2 ^ 16 -> combine_data_16 old data 0xffff = data.
Proof.
  intros H. unfold combine_data_16.
  change (Z.lxor 0xffff 0xffff) with 0. rewrite Z.land_0_r, Z.lor_0_l.
  change 0xffff with (Z.ones 16). rewrite Z.land_ones by lia.
  apply Z.mod_small, H.
Qed.

Lemma ram_write_read_back_witness :
  ram_r 0x10005 (ram_w_se combine_data_16 5 0xbeef 0xffff (state_at_cycle 0))
  = 0xbeef.
Proof.
  exact (proj1 (proj2 (ram_write_read_back combine_data_16
                         combine_data_16_full 5 0x10005 0xbeef
                         (state_at_cycle 0) ltac:(lia) eq_refl))).
Defined.

Lemma overlay_shows_rom_witness :
  ram_w combine_data_16 5 0xbeef 0xffff (state_at_cycle 0) = state_at_cycle 0.
Proof.
  assert (H : m_overlay (state_at_cycle 0) <> 0) by (cbn; lia).
  exact (proj1 (proj2 (proj2 (overlay_shows_rom combine_data_16 5 7 0xbeef
                                0xffff 3 (state_at_cycle 0) H)))).
Defined.

(* ---------------------------------------------------------------------- *)
(** ** Further properties of the VIA bus synchronisation *)

Lemma via_sync_cycles st :
  0 <= total_cycles (m_maincpu st) ->
  total_cycles (m_maincpu st) + 11 < 2 ^ 64 ->
  total_cycles (m_maincpu (via_sync st))
  = 10 * ((total_cycles (m_maincpu st) + 11) / 10) /\
  icount (m_maincpu (via_sync st))
  = icount (m_maincpu st)
    - (10 * ((total_cycles (m_maincpu st) + 11) / 10)
       - total_cycles (m_maincpu st)).
Proof.
  intros H0 H1. unfold via_sync, set_maincpu, adjust_icount.
  cbn [m_maincpu cycles icount]. unfold total_cycles in *.
  rewrite via_sync_delta_small by assumption.
  pose proof (Z.div_mod (cycles (m_maincpu st) + 11) 10 ltac:(lia)) as Hd.
  pose proof (Z.mod_pos_bound (cycles (m_maincpu st) + 11) 10 ltac:(lia)) as Hm.
  split; [|lia]. unfold u64.
  replace (cycles (m_maincpu st) -
           (cycles (m_maincpu st) - 10 * ((cycles (m_maincpu st) + 11) / 10)))
    with (10 * ((cycles (m_maincpu st) + 11) / 10)) by lia.
  apply Z.mod_small. lia.
Qed.

Lemma via_sync_end_cycles st :
  0 <= total_cycles (m_maincpu st) ->
  total_cycles (m_maincpu st) + 4 < 2 ^ 64 ->
  total_cycles (m_maincpu (via_sync_end st)) = total_cycles (m_maincpu st) + 4 /\
  icount (m_maincpu (via_sync_end st)) = icount (m_maincpu st) - 4.
Proof.
  intros H0 H1. unfold via_sync_end, set_maincpu, adjust_icount, total_cycles.
  cbn [m_maincpu cycles icount]. unfold total_cycles in *. split; [|lia].
  unfold u64. replace (cycles (m_maincpu st) - -4)
    with (cycles (m_maincpu st) + 4) by lia.
  apply Z.mod_small. lia.
Qed.

(** X3.  Wait states of the VIA synchronisation.  Away from the top of the
    cycle counter, [via_sync] lets between 2 and 11 cycles pass, 2 exactly
    when the cycle count is 8 modulo 10 and 11 exactly when it is 9 modulo
    10; and an access that follows the end of the previous one at once is
    synchronised to the very next boundary, 10 cycles after the previous
    one, with a wait of 6 cycles. *)
Theorem via_access_spacing (st : mac128_state) :
  let c := total_cycles (m_maincpu st) in
  0 <= c -> c + 25 < 2 ^ 64 ->
  let first := via_sync st in
  let second := via_sync (via_sync_end first) in
  let wait := total_cycles (m_maincpu first) - c in
  2 <= wait <= 11 /\
  (wait = 2 <-> c mod 10 = 8) /\
  (wait = 11 <-> c mod 10 = 9) /\
  total_cycles (m_maincpu second) = total_cycles (m_maincpu first) + 10 /\
  total_cycles (m_maincpu second)
  - total_cycles (m_maincpu (via_sync_end first)) = 6 /\
  icount (m_maincpu second) = icount (m_maincpu st) - wait - 10.
Proof.
  cbn zeta. intros H0 H1.
  destruct (via_sync_cycles st H0 ltac:(lia)) as [Ht Hi].
  set (c := total_cycles (m_maincpu st)) in *.
  pose proof (Z.div_mod (c + 11) 10 ltac:(lia)) as Hd.
  pose proof (Z.mod_pos_bound (c + 11) 10 ltac:(lia)) as Hm.
  pose proof (Z.div_mod c 10 ltac:(lia)) as Hdc.
  pose proof (Z.mod_pos_bound c 10 ltac:(lia)) as Hmc.
  set (s1 := via_sync st) in *.
  destruct (via_sync_end_cycles s1 ltac:(lia) ltac:(lia)) as [Ht2 Hi2].
  set (s2 := via_sync_end s1) in *.
  destruct (via_sync_cycles s2 ltac:(lia) ltac:(lia)) as [Ht3 Hi3].
  assert (Hq : (total_cycles (m_maincpu s2) + 11) / 10 = (c + 11) / 10 + 1).
  { rewrite Ht2, Ht. symmetry.
    apply (Z.div_unique _ _ _ 5); lia. }
  rewrite Hq in Ht3, Hi3.
  assert (Hrel : (c + 11) mod 10 = (c mod 10 + 1) mod 10).
  { replace (c + 11) with (c + 1 + 1 * 10) by lia.
    rewrite Z.mod_add by lia. rewrite <- Z.add_mod_idemp_l by lia.
    reflexivity. }
  assert (Hcases : c mod 10 = 9 /\ (c + 11) mod 10 = 0 \/
                   c mod 10 < 9 /\ (c + 11) mod 10 = c mod 10 + 1).
  { destruct (Z.eq_dec (c mod 10) 9) as [E|E].
    - left. split; [exact E|]. rewrite Hrel, E. reflexivity.
    - right. split; [lia|]. rewrite Hrel. apply Z.mod_small. lia. }
  repeat split; try lia.
Qed.

Lemma via_access_spacing_witness :
  total_cycles (m_maincpu (via_sync (via_sync_end (via_sync (state_at_cycle 123)))))
  = total_cycles (m_maincpu (via_sync (state_at_cycle 123))) + 10.
Proof.
  assert (H0 : 0 <= total_cycles (m_maincpu (state_at_cycle 123)))
    by (vm_compute; discriminate).
  assert (H1 : total_cycles (m_maincpu (state_at_cycle 123)) + 25 < 2 ^ 64)
    by reflexivity.
  exact (proj1 (proj2 (proj2 (proj2
           (via_access_spacing (state_at_cycle 123) H0 H1))))).
Defined.

(* ---------------------------------------------------------------------- *)
(** ** Further properties of the PWM decoder *)

Lemma pulse_length_range data : 0 <= pulse_length data <= 63.
Proof.
  unfold pulse_length.
  assert (Hi : (Z.to_nat (Z.land data 0x3f) < 64)%nat).
  { change 0x3f with (Z.ones 6). rewrite Z.land_ones by lia.
    pose proof (Z.mod_pos_bound data (2 ^ 6) ltac:(lia)).
    change (2 ^ 6) with 64 in *. lia. }
  assert (Hall : forallb (fun i => (0 <=? nth i value_to_length 0)
                                   && (nth i value_to_length 0 <=? 63))
                   (seq 0 64) = true) by (vm_compute; reflexivity).
  rewrite forallb_forall in Hall.
  assert (Hin : In (Z.to_nat (Z.land data 0x3f)) (seq 0 64))
    by (apply in_seq; lia).
  specialize (Hall _ Hin).
  apply andb_true_iff in Hall. lia.
Qed.

(** The counters between two pulses: fewer than 100 pulses counted, and a
    sum of at most 63 per pulse. *)
Definition pwm_counters_ok (st : mac128_state) : Prop :=
  0 <= m_pwm_count_total st < 100 /\
  0 <= m_pwm_count_1 st <= 63 * m_pwm_count_total st.

Lemma pwm_push_counters data st :
  pwm_counters_ok st ->
  pwm_counters_ok (pwm_push data st) /\
  m_pwm_count_total (pwm_push data st) = (m_pwm_count_total st + 1) mod 100 /\
  (m_pwm_count_total st <> 99 ->
     m_cur_floppy (pwm_push data st) = m_cur_floppy st /\
     m_pwm_current_rpm_0 (pwm_push data st) = m_pwm_current_rpm_0 st /\
     m_pwm_current_rpm_1 (pwm_push data st) = m_pwm_current_rpm_1 st).
Proof.
  intros [Ht H1]. pose proof (pulse_length_range data) as Hp.
  unfold pwm_push, pwm_counters_ok.
  destruct (m_pwm_count_total st + 1 =? 100) eqn:E.
  - apply Z.eqb_eq in E. unfold set_pwm. mac_proj.
    rewrite E. split; [lia|]. split; [reflexivity | lia].
  - apply Z.eqb_neq in E. unfold set_pwm. mac_proj.
    split; [lia|]. split; [|intros _; repeat split].
    symmetry. apply Z.mod_small. lia.
Qed.

(** X4.  The pulse counters of the PWM decoder.  From a state where fewer
    than 100 pulses are counted and the sum is at most 63 per pulse (as after
    reset), that stays so after any sequence of pulses; the pulse counter is
    the number of pulses fed, modulo 100; and a pulse other than the 100th of
    its window leaves the drive and both remembered readings alone. *)
Theorem pwm_counters_bounded (w : list Z) (st : mac128_state) :
  pwm_counters_ok st ->
  pwm_counters_ok (pwm_feed w st) /\
  m_pwm_count_total (pwm_feed w st)
  = (m_pwm_count_total st + Z.of_nat (length w)) mod 100 /\
  (forall data, m_pwm_count_total (pwm_feed w st) <> 99 ->
     m_cur_floppy (pwm_push data (pwm_feed w st)) = m_cur_floppy (pwm_feed w st) /\
     m_pwm_current_rpm_0 (pwm_push data (pwm_feed w st))
     = m_pwm_current_rpm_0 (pwm_feed w st) /\
     m_pwm_current_rpm_1 (pwm_push data (pwm_feed w st))
     = m_pwm_current_rpm_1 (pwm_feed w st)).
Proof.
  revert st. unfold pwm_feed.
  induction w as [|d w IH]; intros st Hok.
  - cbn [fold_left length Z.of_nat]. split; [exact Hok|]. split.
    + rewrite Z.add_0_r. symmetry. apply Z.mod_small, Hok.
    + intros data H99. apply (pwm_push_counters data st Hok), H99.
  - cbn [fold_left].
    destruct (pwm_push_counters d st Hok) as (Hok' & Hc & _).
    destruct (IH _ Hok') as (A & B & C).
    split; [exact A|]. split; [|exact C].
    rewrite B, Hc. cbn [length]. rewrite Nat2Z.inj_succ.
    rewrite Z.add_mod_idemp_l by lia. f_equal. lia.
Qed.

Lemma pwm_counters_bounded_witness :
  m_pwm_count_total (pwm_feed (w_1000 ++ w_1001 ++ [1; 2; 3]) reset_with_drive)
  = 3.
Proof.
  assert (H : pwm_counters_ok reset_with_drive)
    by (unfold pwm_counters_ok; cbn; lia).
  exact (proj1 (proj2 (pwm_counters_bounded (w_1000 ++ w_1001 ++ [1; 2; 3])
                         reset_with_drive H))).
Defined.

(** The RPM of every index with its index. *)
Definition rpm_table : list (Z * spec_float) :=
  map (fun i => (i, pwm_rpm i)) all_indices.

Lemma rpm_table_distinct :
  forallb (fun a : Z * spec_float =>
     forallb (fun b : Z * spec_float =>
        Bool.eqb (SFeqb (snd a) (snd b)) (fst a =? fst b)) rpm_table)
    rpm_table = true.
Proof. vm_compute. reflexivity. Qed.

Lemma pwm_rpm_eq_index i j :
  0 <= i <= 399 -> 0 <= j <= 399 ->
  SFeqb (pwm_rpm i) (pwm_rpm j) = (i =? j).
Proof.
  intros Hi Hj. pose proof rpm_table_distinct as H.
  rewrite forallb_forall in H.
  assert (Ii : In (i, pwm_rpm i) rpm_table).
  { unfold rpm_table. apply in_map_iff. exists i.
    split; [reflexivity | apply all_indices_in, Hi]. }
  assert (Ij : In (j, pwm_rpm j) rpm_table).
  { unfold rpm_table. apply in_map_iff. exists j.
    split; [reflexivity | apply all_indices_in, Hj]. }
  specialize (H _ Ii). rewrite forallb_forall in H. specialize (H _ Ij).
  cbn [fst snd] in H. apply Bool.eqb_prop in H. exact H.
Qed.

(** X5.  The RPM is a one-to-one function of the index.  Two complete
    windows compute equal RPM readings exactly when they have the same
    clamped index [sum/10 - 11]; so the debounce, which compares readings,
    compares indices; and every reading lies strictly between 300 and 725
    RPM. *)
Theorem pwm_rpm_one_to_one (w1 w2 : list Z) :
  SFeqb (window_rpm w1) (window_rpm w2)
  = (pwm_internal_index (window_sum w1) 100
     =? pwm_internal_index (window_sum w2) 100) /\
  (forall r0, pwm_commit_cond (window_rpm w2) r0 (window_rpm w1) = true ->
     pwm_internal_index (window_sum w1) 100
     = pwm_internal_index (window_sum w2) 100) /\
  SFltb (f64_of_Z 300) (f64_of_f32 (window_rpm w1)) = true /\
  SFltb (f64_of_f32 (window_rpm w1)) (f64_of_Z 725) = true.
Proof.
  pose proof (pwm_internal_index_range (window_sum w1) 100) as H1.
  pose proof (pwm_internal_index_range (window_sum w2) 100) as H2.
  assert (E : SFeqb (window_rpm w1) (window_rpm w2)
              = (pwm_internal_index (window_sum w1) 100
                 =? pwm_internal_index (window_sum w2) 100))
    by (apply pwm_rpm_eq_index; assumption).
  split; [exact E|]. split.
  - intros r0 Hc. unfold pwm_commit_cond in Hc.
    apply andb_true_iff in Hc. destruct Hc as [Hc _].
    assert (E' : SFeqb (window_rpm w2) (window_rpm w1)
              = (pwm_internal_index (window_sum w2) 100
                 =? pwm_internal_index (window_sum w1) 100))
      by (apply pwm_rpm_eq_index; assumption).
    rewrite E' in Hc. apply Z.eqb_eq in Hc. congruence.
  - assert (Hall : forallb (fun a : Z * spec_float =>
              SFltb (f64_of_Z 300) (f64_of_f32 (snd a))
              && SFltb (f64_of_f32 (snd a)) (f64_of_Z 725)) rpm_table = true)
      by (vm_compute; reflexivity).
    rewrite forallb_forall in Hall.
    assert (Ii : In (pwm_internal_index (window_sum w1) 100,
                     window_rpm w1) rpm_table).
    { unfold rpm_table, window_rpm. apply in_map_iff.
      exists (pwm_internal_index (window_sum w1) 100).
      split; [reflexivity | apply all_indices_in, H1]. }
    specialize (Hall _ Ii). cbn [snd] in Hall.
    apply andb_true_iff in Hall. exact Hall.
Qed.

(** ** The pulse-length table and the counter it stands for *)

(** The length counter as the source describes it: a 6-bit shift register
    with taps on bits 0 and 1 and insertion on bit 5. *)
Definition lfsr_step (v : Z) : Z :=
  Z.lor (Z.shiftr v 1)
        (Z.shiftl (Z.land (Z.lxor v (Z.shiftr v 1)) 1) 5).

(** X6.  The pulse-length table is the counter's timing.  For every
    non-zero 6-bit value the table entry is the number of steps (at least
    one) the shift register described in the source takes from that value
    until it reads 0x20, and it does not read 0x20 in between; the
    table is one-to-one on the 64 values and every length from 0 to 63
    occurs; and only the low 6 bits of the byte count. *)
Theorem value_to_length_is_lfsr (data : Z) :
  (1 <= Z.land data 0x3f ->
     Nat.iter (Z.to_nat (pulse_length data)) lfsr_step (Z.land data 0x3f)
     = 0x20 /\
     forall k, (0 < k < Z.to_nat (pulse_length data))%nat ->
       Nat.iter k lfsr_step (Z.land data 0x3f) <> 0x20) /\
  0 <= pulse_length data <= 63 /\
  pulse_length (data + 64) = pulse_length data /\
  (forall data', pulse_length data' = pulse_length data ->
                 Z.land data' 0x3f = Z.land data 0x3f) /\
  (forall n, 0 <= n <= 63 -> exists v, 0 <= v <= 63 /\ pulse_length v = n).
Proof.
  assert (Hr : forall d, 0 <= Z.land d 0x3f < 64).
  { intros d. change 0x3f with (Z.ones 6). rewrite Z.land_ones by lia.
    apply Z.mod_pos_bound. lia. }
  assert (Hin : forall v, 0 <= v < 64 -> In v (map Z.of_nat (seq 0 64))).
  { intros v Hv. apply in_map_iff. exists (Z.to_nat v).
    split; [lia | apply in_seq; lia]. }
  assert (Hpl : forall d, pulse_length d = pulse_length (Z.land d 0x3f)).
  { intros d. unfold pulse_length. rewrite <- Z.land_assoc.
    reflexivity. }
  split; [|split; [|split; [|split]]].
  - intros H1.
    assert (Hall : forallb (fun v => (v =? 0) ||
               ((Nat.iter (Z.to_nat (pulse_length v)) lfsr_step v =? 0x20)
                && forallb (fun k => negb (Nat.iter k lfsr_step v =? 0x20))
                     (seq 1 (Z.to_nat (pulse_length v) - 1))))
               (map Z.of_nat (seq 0 64)) = true)
      by (vm_compute; reflexivity).
    rewrite forallb_forall in Hall.
    specialize (Hall _ (Hin _ (Hr data))).
    apply orb_true_iff in Hall. destruct Hall as [Hall|Hall]; [lia|].
    rewrite <- (Hpl data) in Hall.
    apply andb_true_iff in Hall. destruct Hall as [Ha Hb].
    split; [apply Z.eqb_eq, Ha|].
    intros k Hk. rewrite forallb_forall in Hb.
    specialize (Hb k ltac:(apply in_seq; lia)).
    apply negb_true_iff, Z.eqb_neq in Hb. exact Hb.
  - apply pulse_length_range.
  - rewrite (Hpl (data + 64)), (Hpl data). f_equal.
    apply (land_mirror data 1 6). lia.
  - intros data' He. rewrite (Hpl data'), (Hpl data) in He.
    assert (Hall : forallb (fun a => forallb (fun b =>
               negb (pulse_length a =? pulse_length b) || (a =? b))
               (map Z.of_nat (seq 0 64))) (map Z.of_nat (seq 0 64)) = true)
      by (vm_compute; reflexivity).
    rewrite forallb_forall in Hall.
    specialize (Hall _ (Hin _ (Hr data'))).
    rewrite forallb_forall in Hall.
    specialize (Hall _ (Hin _ (Hr data))).
    apply orb_true_iff in Hall. destruct Hall as [Hall|Hall].
    + apply negb_true_iff, Z.eqb_neq in Hall. contradiction.
    + apply Z.eqb_eq, Hall.
  - intros n Hn.
    assert (Hall : forallb (fun n => existsb (fun v => pulse_length v =? n)
               (map Z.of_nat (seq 0 64))) (map Z.of_nat (seq 0 64)) = true)
      by (vm_compute; reflexivity).
    rewrite forallb_forall in Hall.
    specialize (Hall _ (Hin n ltac:(lia))).
    apply existsb_exists in Hall. destruct Hall as (v & Hv & Hev).
    exists v. split; [|apply Z.eqb_eq, Hev].
    apply in_map_iff in Hv. destruct Hv as (k & <- & Hk).
    apply in_seq in Hk. lia.
Qed.

Lemma value_to_length_is_lfsr_witness :
  Nat.iter (Z.to_nat (pulse_length 0x42)) lfsr_step (Z.land 0x42 0x3f) = 0x20.
Proof.
  assert (H : 1 <= Z.land 0x42 0x3f) by (vm_compute; discriminate).
  exact (proj1 (proj1 (value_to_length_is_lfsr 0x42) H)).
Defined.

(* ---------------------------------------------------------------------- *)
(** ** Properties of the one-second tick *)

Lemma sint_small w x :
  0 < w -> - 2 ^ (w - 1) <= x < 2 ^ (w - 1) -> sint w x = x.
Proof.
  intros Hw Hx. unfold sint.
  assert (Hp : 2 ^ w = 2 * 2 ^ (w - 1)).
  { replace w with (Z.succ (w - 1)) at 1 by lia.
    rewrite Z.pow_succ_r by lia. reflexivity. }
  assert (Hpos : 0 < 2 ^ (w - 1)) by (apply Z.pow_pos_nonneg; lia).
  destruct (Z_lt_ge_dec x 0) as [Hn|Hn].
  - assert (E : x mod 2 ^ w = x + 2 ^ w).
    { symmetry. apply (Z.mod_unique _ _ (-1)); lia. }
    rewrite E. destruct (x + 2 ^ w <? 2 ^ (w - 1)) eqn:C; lia.
  - rewrite Z.mod_small by lia.
    destruct (x <? 2 ^ (w - 1)) eqn:C; lia.
Qed.

Lemma s32_small x : - 2 ^ 31 <= x < 2 ^ 31 -> s32 x = x.
Proof. intros H. apply sint_small; [lia | exact H]. Qed.

Lemma s16_small x : - 2 ^ 15 <= x < 2 ^ 15 -> s16 x = x.
Proof. intros H. apply sint_small; [lia | exact H]. Qed.

(** The values passed to the VIA's CA2 input, most recent first. *)
Definition ca2_writes (l : list device_call) : list Z :=
  flat_map (fun c => match c with via_write_ca2 v => [v] | _ => [] end) l.

Lemma vblank_irq_count macadb p :
  0 <= m_irq_count p < 59 ->
  m_irq_count (vblank_irq macadb p) = m_irq_count p + 1 /\
  m_ca2_data (vblank_irq macadb p) = m_ca2_data p /\
  ca2_writes (calls (vblank_irq macadb p)) = ca2_writes (calls p).
Proof.
  intros H. unfold vblank_irq.
  destruct macadb; cbn [call set_irq_count m_irq_count m_ca2_data calls];
    rewrite s32_small by lia;
    (destruct (m_irq_count p + 1 =? 60) eqn:E; [lia|]);
    repeat split.
Qed.

Lemma vblank_irq_wrap macadb p :
  m_irq_count p = 59 ->
  m_irq_count (vblank_irq macadb p) = 0 /\
  m_ca2_data (vblank_irq macadb p) = Z.lxor (m_ca2_data p) 1 /\
  ca2_writes (calls (vblank_irq macadb p))
  = Z.lxor (m_ca2_data p) 1 :: ca2_writes (calls p).
Proof.
  intros H. unfold vblank_irq.
  destruct macadb;
    cbn [call set_irq_count set_ca2_data m_irq_count m_ca2_data calls];
    rewrite H; repeat split.
Qed.

Lemma vblank_irq_run macadb k : forall p,
  0 <= m_irq_count p -> m_irq_count p + Z.of_nat k <= 59 ->
  m_irq_count (Nat.iter k (vblank_irq macadb) p)
  = m_irq_count p + Z.of_nat k /\
  m_ca2_data (Nat.iter k (vblank_irq macadb) p) = m_ca2_data p /\
  ca2_writes (calls (Nat.iter k (vblank_irq macadb) p))
  = ca2_writes (calls p).
Proof.
  induction k as [|k IH]; intros p H0 Hk.
  - cbn [Nat.iter nat_rect Z.of_nat]. rewrite Z.add_0_r. repeat split.
  - rewrite Nat.iter_succ. rewrite Nat2Z.inj_succ in *.
    destruct (IH p H0 ltac:(lia)) as (A & B & C).
    destruct (vblank_irq_count macadb (Nat.iter k (vblank_irq macadb) p)
                ltac:(lia)) as (A' & B' & C').
    rewrite A', B', C', A, B, C. repeat split. lia.
Qed.

Lemma vblank_irq_period macadb p :
  0 <= m_irq_count p < 60 ->
  m_irq_count (Nat.iter 60 (vblank_irq macadb) p) = m_irq_count p /\
  m_ca2_data (Nat.iter 60 (vblank_irq macadb) p) = Z.lxor (m_ca2_data p) 1 /\
  ca2_writes (calls (Nat.iter 60 (vblank_irq macadb) p))
  = Z.lxor (m_ca2_data p) 1 :: ca2_writes (calls p).
Proof.
  intros H.
  set (a := Z.to_nat (59 - m_irq_count p)).
  set (b := Z.to_nat (m_irq_count p)).
  replace 60%nat with (b + S a)%nat by (unfold a, b; lia).
  rewrite Nat.iter_add, Nat.iter_succ.
  destruct (vblank_irq_run macadb a p ltac:(lia) ltac:(unfold a; lia))
    as (A & B & C).
  set (q := Nat.iter a (vblank_irq macadb) p) in *.
  destruct (vblank_irq_wrap macadb q ltac:(unfold a in A; lia))
    as (A' & B' & C').
  set (r := vblank_irq macadb q) in *.
  destruct (vblank_irq_run macadb b r ltac:(lia) ltac:(unfold b; lia))
    as (A2 & B2 & C2).
  rewrite A2, B2, C2, A', B', C', B, C. repeat split. unfold b. lia.
Qed.

(** X7.  The one-second tick.  With the frame counter in its range 0..59
    (it is 0 after reset), every 60 calls of [vblank_irq] bring the counter
    back to where it was, toggle the level of the VIA's CA2 input and write
    it to the VIA exactly once; after 120 calls the level is what it was.
    Between two wraps the counter only counts: it never leaves 0..59. *)
Theorem vblank_one_hertz (macadb : bool) (p : mac128_periph) :
  0 <= m_irq_count p < 60 ->
  let p60 := Nat.iter 60 (vblank_irq macadb) p in
  let p120 := Nat.iter 120 (vblank_irq macadb) p in
  m_irq_count p60 = m_irq_count p /\
  m_ca2_data p60 = Z.lxor (m_ca2_data p) 1 /\
  ca2_writes (calls p60) = Z.lxor (m_ca2_data p) 1 :: ca2_writes (calls p) /\
  m_ca2_data p120 = m_ca2_data p /\
  ca2_writes (calls p120)
  = m_ca2_data p :: Z.lxor (m_ca2_data p) 1 :: ca2_writes (calls p) /\
  (forall k, 0 <= m_irq_count (Nat.iter k (vblank_irq macadb) p) < 60).
Proof.
  intros H. cbn zeta.
  destruct (vblank_irq_period macadb p H) as (A & B & C).
  assert (Hx : Z.lxor (Z.lxor (m_ca2_data p) 1) 1 = m_ca2_data p).
  { rewrite Z.lxor_assoc. change (Z.lxor 1 1) with 0. apply Z.lxor_0_r. }
  split; [exact A|]. split; [exact B|]. split; [exact C|].
  change 120%nat with (60 + 60)%nat. rewrite Nat.iter_add.
  set (q := Nat.iter 60 (vblank_irq macadb) p) in *.
  destruct (vblank_irq_period macadb q ltac:(lia)) as (A' & B' & C').
  rewrite B', C', B, C, Hx. split; [reflexivity|]. split; [reflexivity|].
  intros k. induction k as [|k IH];
    [cbn [Nat.iter nat_rect]; exact H | rewrite Nat.iter_succ].
  destruct (Z.eq_dec (m_irq_count (Nat.iter k (vblank_irq macadb) p)) 59)
    as [E|E].
  - destruct (vblank_irq_wrap macadb _ E) as (-> & _). lia.
  - destruct (vblank_irq_count macadb (Nat.iter k (vblank_irq macadb) p)
                ltac:(lia)) as (-> & _). lia.
Qed.

(** A periphery as [machine_start] and [machine_reset] leave it: counters
    and mouse members at 0, nothing called yet. *)
Definition periph_at_reset : mac128_periph :=
  mk_periph 0 0 (fun _ => 0) (fun _ => 0) (fun _ => 0) (fun _ => 0)
    1 0 true false 3 [].

Lemma vblank_one_hertz_witness :
  ca2_writes (calls (Nat.iter 120 (vblank_irq false) periph_at_reset)) = [0; 1].
Proof.
  assert (H : 0 <= m_irq_count periph_at_reset < 60) by (cbn; lia).
  exact (proj1 (proj2 (proj2 (proj2 (proj2
           (vblank_one_hertz false periph_at_reset H)))))).
Defined.

(* ---------------------------------------------------------------------- *)
(** ** Properties of the mouse interface *)

(** The levels written to the SCC's DCD inputs, most recent first. *)
Definition dcda_writes (l : list device_call) : list Z :=
  flat_map (fun c => match c with scc_dcda_w v => [v] | _ => [] end) l.

Definition dcdb_writes (l : list device_call) : list Z :=
  flat_map (fun c => match c with scc_dcdb_w v => [v] | _ => [] end) l.

Ltac periph_proj :=
  cbn [m_irq_count m_ca2_data m_mouse_bit m_mouse_last m_mouse_last_m
       m_mouse_count m_screen_buffer m_hdsel m_main_buffer m_snd_enable
       m_snd_vol calls call set_irq_count set_ca2_data set_mouse_bit
       set_mouse_last set_mouse_last_m set_mouse_count set_screen_buffer
       set_hdsel set_main_buffer set_snd_enable set_snd_vol].

Lemma scc_mouse_axis_still i dcd p : scc_mouse_axis i dcd 0 p = p.
Proof. reflexivity. Qed.

Lemma scc_mouse_axis_moving i dcd v p :
  v <> 0 ->
  let p' := scc_mouse_axis i dcd v p in
  m_mouse_last p' i = lnot_c (m_mouse_last p i) /\
  (m_mouse_bit p' i = m_mouse_last p' i <-> v < 0) /\
  (forall j, j <> i ->
     m_mouse_bit p' j = m_mouse_bit p j /\
     m_mouse_last p' j = m_mouse_last p j) /\
  calls p' = dcd (1 - m_mouse_last p' i) :: calls p /\
  m_mouse_count p' = m_mouse_count p /\
  m_mouse_last_m p' = m_mouse_last_m p.
Proof.
  intros Hv. cbn zeta. unfold scc_mouse_axis, lnot_c.
  assert (Hnz : nz v = true) by (unfold nz; apply negb_true_iff, Z.eqb_neq, Hv).
  rewrite Hnz.
  destruct (v <? 0) eqn:Hs; periph_proj; rewrite ?upd_same;
    destruct (nz (m_mouse_last p i)) eqn:Hl;
    (split; [reflexivity|]);
    (split; [split; intros; (reflexivity || lia)|]);
    (split; [intros j Hj; rewrite !upd_other by exact Hj; split; reflexivity|]);
    repeat split; reflexivity.
Qed.

Lemma land_lnot_1 m : Z.land (Z.lnot m) 1 = 1 - Z.land m 1.
Proof.
  change 1 with (Z.ones 1) at 1 3. rewrite !Z.land_ones by lia.
  unfold Z.lnot. change (2 ^ 1) with 2.
  pose proof (Z.div_mod m 2 ltac:(lia)).
  pose proof (Z.mod_pos_bound m 2 ltac:(lia)).
  pose proof (Z.div_mod (Z.pred (- m)) 2 ltac:(lia)).
  pose proof (Z.mod_pos_bound (Z.pred (- m)) 2 ltac:(lia)).
  lia.
Qed.

Lemma scc_mouse_irq_spec (x y : Z) (p : mac128_periph) :
  let p' := scc_mouse_irq x y p in
  (x <> 0 ->
     m_mouse_last p' 0 = lnot_c (m_mouse_last p 0) /\
     (m_mouse_bit p' 0 = m_mouse_last p' 0 <-> x < 0) /\
     dcda_writes (calls p')
     = (1 - m_mouse_last p' 0) :: dcda_writes (calls p)) /\
  (y <> 0 ->
     m_mouse_last p' 1 = lnot_c (m_mouse_last p 1) /\
     (m_mouse_bit p' 1 = m_mouse_last p' 1 <-> y < 0) /\
     dcdb_writes (calls p')
     = (1 - m_mouse_last p' 1) :: dcdb_writes (calls p)) /\
  (x = 0 ->
     m_mouse_last p' 0 = m_mouse_last p 0 /\
     m_mouse_bit p' 0 = m_mouse_bit p 0 /\
     dcda_writes (calls p') = dcda_writes (calls p)) /\
  (y = 0 ->
     m_mouse_last p' 1 = m_mouse_last p 1 /\
     m_mouse_bit p' 1 = m_mouse_bit p 1 /\
     dcdb_writes (calls p') = dcdb_writes (calls p)) /\
  m_mouse_count p' = m_mouse_count p /\
  m_mouse_last_m p' = m_mouse_last_m p.
Proof.
  cbn zeta. unfold scc_mouse_irq.
  set (p1 := scc_mouse_axis 0 scc_dcda_w x p).
  assert (Hx : x <> 0 ->
    m_mouse_last p1 0 = lnot_c (m_mouse_last p 0) /\
    (m_mouse_bit p1 0 = m_mouse_last p1 0 <-> x < 0) /\
    m_mouse_last p1 1 = m_mouse_last p 1 /\
    m_mouse_bit p1 1 = m_mouse_bit p 1 /\
    calls p1 = scc_dcda_w (1 - m_mouse_last p1 0) :: calls p).
  { intros H. destruct (scc_mouse_axis_moving 0 scc_dcda_w x p H)
      as (A & B & C & D & _).
    destruct (C 1 ltac:(lia)) as [C1 C2]. repeat split; tauto. }
  assert (Hx0 : x = 0 -> p1 = p) by (intros ->; reflexivity).
  assert (Hy : y <> 0 ->
    m_mouse_last (scc_mouse_axis 1 scc_dcdb_w y p1) 1
      = lnot_c (m_mouse_last p1 1) /\
    (m_mouse_bit (scc_mouse_axis 1 scc_dcdb_w y p1) 1
     = m_mouse_last (scc_mouse_axis 1 scc_dcdb_w y p1) 1 <-> y < 0) /\
    m_mouse_last (scc_mouse_axis 1 scc_dcdb_w y p1) 0 = m_mouse_last p1 0 /\
    m_mouse_bit (scc_mouse_axis 1 scc_dcdb_w y p1) 0 = m_mouse_bit p1 0 /\
    calls (scc_mouse_axis 1 scc_dcdb_w y p1)
    = scc_dcdb_w (1 - m_mouse_last (scc_mouse_axis 1 scc_dcdb_w y p1) 1)
      :: calls p1).
  { intros H. destruct (scc_mouse_axis_moving 1 scc_dcdb_w y p1 H)
      as (A & B & C & D & _).
    destruct (C 0 ltac:(lia)) as [C1 C2]. repeat split; tauto. }
  assert (Hy0 : y = 0 -> scc_mouse_axis 1 scc_dcdb_w y p1 = p1)
    by (intros ->; reflexivity).
  split; [|split; [|split; [|split; [|split]]]].
  - intros H. destruct (Hx H) as (A & B & C & D & E).
    destruct (Z.eq_dec y 0) as [Y|Y].
    + rewrite (Hy0 Y), E. repeat split; tauto.
    + destruct (Hy Y) as (A' & B' & C' & D' & E').
      rewrite C', D', E', E. repeat split; tauto.
  - intros H. destruct (Hy H) as (A & B & C & D & E).
    rewrite E. destruct (Z.eq_dec x 0) as [X|X].
    + rewrite (Hx0 X) in *. repeat split; tauto.
    + destruct (Hx X) as (A' & B' & C' & D' & E').
      rewrite E'. rewrite A, C' in *. repeat split; tauto.
  - intros H. rewrite (Hx0 H) in *. destruct (Z.eq_dec y 0) as [Y|Y].
    + rewrite (Hy0 Y). repeat split.
    + destruct (Hy Y) as (A' & B' & C' & D' & E').
      rewrite C', D', E'. repeat split.
  - intros H. rewrite (Hy0 H). destruct (Z.eq_dec x 0) as [X|X].
    + rewrite (Hx0 X). repeat split.
    + destruct (Hx X) as (A' & B' & C' & D' & E').
      rewrite C', D', E'. repeat split.
  - destruct (Z.eq_dec x 0) as [X|X]; destruct (Z.eq_dec y 0) as [Y|Y].
    + rewrite (Hy0 Y), (Hx0 X). reflexivity.
    + destruct (scc_mouse_axis_moving 1 scc_dcdb_w y p1 Y)
        as (_ & _ & _ & _ & -> & _). rewrite (Hx0 X). reflexivity.
    + rewrite (Hy0 Y).
      destruct (scc_mouse_axis_moving 0 scc_dcda_w x p X)
        as (_ & _ & _ & _ & E & _). exact E.
    + destruct (scc_mouse_axis_moving 1 scc_dcdb_w y p1 Y)
        as (_ & _ & _ & _ & -> & _).
      destruct (scc_mouse_axis_moving 0 scc_dcda_w x p X)
        as (_ & _ & _ & _ & E & _). exact E.
  - destruct (Z.eq_dec x 0) as [X|X]; destruct (Z.eq_dec y 0) as [Y|Y].
    + rewrite (Hy0 Y), (Hx0 X). reflexivity.
    + destruct (scc_mouse_axis_moving 1 scc_dcdb_w y p1 Y)
        as (_ & _ & _ & _ & _ & ->). rewrite (Hx0 X). reflexivity.
    + rewrite (Hy0 Y).
      destruct (scc_mouse_axis_moving 0 scc_dcda_w x p X)
        as (_ & _ & _ & _ & _ & E). exact E.
    + destruct (scc_mouse_axis_moving 1 scc_dcdb_w y p1 Y)
        as (_ & _ & _ & _ & _ & ->).
      destruct (scc_mouse_axis_moving 0 scc_dcda_w x p X)
        as (_ & _ & _ & _ & _ & E). exact E.
Qed.

(** X8.  Quadrature encoding of the mouse.  For each axis that moves,
    [scc_mouse_irq] toggles the remembered level, writes the level before
    the toggle to the SCC's DCD input of that axis, and sets the axis' VIA
    bit equal to the remembered level exactly when the movement is negative;
    an axis that does not move is left alone and its DCD input is not
    written.  Port B of the VIA then reads the X bit in bit 4, the Y bit in
    bit 5, the inverted mouse button in bit 3, and 1 in bit 6. *)
Theorem mouse_quadrature (x y : Z) (p : mac128_periph) :
  let p' := scc_mouse_irq x y p in
  (x <> 0 ->
     m_mouse_last p' 0 = lnot_c (m_mouse_last p 0) /\
     (m_mouse_bit p' 0 = m_mouse_last p' 0 <-> x < 0) /\
     dcda_writes (calls p')
     = (1 - m_mouse_last p' 0) :: dcda_writes (calls p)) /\
  (y <> 0 ->
     m_mouse_last p' 1 = lnot_c (m_mouse_last p 1) /\
     (m_mouse_bit p' 1 = m_mouse_last p' 1 <-> y < 0) /\
     dcdb_writes (calls p')
     = (1 - m_mouse_last p' 1) :: dcdb_writes (calls p)) /\
  (x = 0 ->
     m_mouse_last p' 0 = m_mouse_last p 0 /\
     m_mouse_bit p' 0 = m_mouse_bit p 0 /\
     dcda_writes (calls p') = dcda_writes (calls p)) /\
  (y = 0 ->
     m_mouse_last p' 1 = m_mouse_last p 1 /\
     m_mouse_bit p' 1 = m_mouse_bit p 1 /\
     dcdb_writes (calls p') = dcdb_writes (calls p)) /\
  (forall q mouse0 rtc_data,
     (m_mouse_bit q 0 = 0 \/ m_mouse_bit q 0 = 1) ->
     (m_mouse_bit q 1 = 0 \/ m_mouse_bit q 1 = 1) ->
     (rtc_data = 0 \/ rtc_data = 1) ->
     BIT (mac_via_in_b mouse0 rtc_data q) 4 = m_mouse_bit q 0 /\
     BIT (mac_via_in_b mouse0 rtc_data q) 5 = m_mouse_bit q 1 /\
     BIT (mac_via_in_b mouse0 rtc_data q) 3 = 1 - BIT mouse0 0 /\
     BIT (mac_via_in_b mouse0 rtc_data q) 6 = 1).
Proof.
  cbn zeta.
  destruct (scc_mouse_irq_spec x y p) as (A & B & C & D & _).
  split; [exact A|]. split; [exact B|]. split; [exact C|].
  split; [exact D|].
  intros q mouse0 rtc H0 H1 Hr. unfold mac_via_in_b.
  replace (BIT (Z.lnot mouse0) 0) with (1 - BIT mouse0 0)
    by (unfold BIT; rewrite !Z.shiftr_0_r; symmetry; apply land_lnot_1).
  assert (Hb : BIT mouse0 0 = 0 \/ BIT mouse0 0 = 1).
  { unfold BIT. rewrite Z.shiftr_0_r.
    change (Z.land mouse0 1) with (Z.land mouse0 (Z.ones 1)).
    rewrite Z.land_ones by lia.
    pose proof (Z.mod_pos_bound mouse0 (2 ^ 1) ltac:(lia)).
    change (2 ^ 1) with 2 in *. lia. }
  destruct H0 as [-> | ->]; destruct H1 as [-> | ->];
    destruct Hr as [-> | ->]; destruct Hb as [-> | ->];
    repeat split; reflexivity.
Qed.

(** The difference of two 8-bit readings, taken the short way round. *)
Definition short_way (d : Z) : Z :=
  if d >? 0x80 then d - 0x100 else if d <? -0x80 then d + 0x100 else d.

(** One step towards zero. *)
Definition toward_zero (c : Z) : Z :=
  if c <? 0 then c + 1 else if c =? 0 then 0 else c - 1.

Lemma short_way_range d :
  -256 < d < 256 ->
  -128 <= short_way d <= 128 /\ (short_way d - d) mod 256 = 0.
Proof.
  intros H. unfold short_way.
  destruct (d >? 128) eqn:A; [|destruct (d <? -128) eqn:B].
  - split; [lia|]. replace (d - 256 - d) with (-1 * 256) by lia.
    apply Z.mod_mul. lia.
  - split; [lia|]. replace (d + 256 - d) with (1 * 256) by lia.
    apply Z.mod_mul. lia.
  - split; [lia|]. rewrite Z.sub_diag. reflexivity.
Qed.

Lemma mouse_axis_moved_spec i new_m p :
  - 30000 <= m_mouse_count p i <= 30000 ->
  0 <= new_m < 256 -> 0 <= m_mouse_last_m p i < 256 ->
  let p' := mouse_axis_moved i new_m p in
  m_mouse_count p' i
  = m_mouse_count p i + short_way (new_m - m_mouse_last_m p i) /\
  m_mouse_last_m p' i = new_m /\
  (forall j, j <> i ->
     m_mouse_count p' j = m_mouse_count p j /\
     m_mouse_last_m p' j = m_mouse_last_m p j) /\
  m_mouse_bit p' = m_mouse_bit p /\ m_mouse_last p' = m_mouse_last p /\
  calls p' = calls p.
Proof.
  intros Hc Hn Hl. cbn zeta. unfold mouse_axis_moved.
  destruct (new_m =? m_mouse_last_m p i) eqn:E; cbn [negb].
  - apply Z.eqb_eq in E. rewrite E, Z.sub_diag.
    change (short_way 0) with 0. rewrite Z.add_0_r. repeat split.
  - apply Z.eqb_neq in E. periph_proj. rewrite !upd_same.
    rewrite (s32_small (new_m - m_mouse_last_m p i))
      by (change (2 ^ 31) with 2147483648; lia).
    fold (short_way (new_m - m_mouse_last_m p i)).
    destruct (short_way_range (new_m - m_mouse_last_m p i) ltac:(lia))
      as [Hs _].
    rewrite !s16_small by (change (2 ^ 15) with 32768; lia).
    split; [reflexivity|]. split; [reflexivity|].
    split; [|repeat split].
    intros j Hj. rewrite !upd_other by exact Hj. split; reflexivity.
Qed.

Lemma mouse_axis_step_spec i neg pos p :
  - 2 ^ 15 < m_mouse_count p i < 2 ^ 15 ->
  let p' := fst (mouse_axis_step i neg pos p) in
  let u := snd (mouse_axis_step i neg pos p) in
  m_mouse_count p' i = toward_zero (m_mouse_count p i) /\
  u = (if m_mouse_count p i <? 0 then neg
       else if m_mouse_count p i =? 0 then 0 else pos) /\
  (forall j, j <> i -> m_mouse_count p' j = m_mouse_count p j) /\
  m_mouse_last_m p' = m_mouse_last_m p /\
  m_mouse_bit p' = m_mouse_bit p /\ m_mouse_last p' = m_mouse_last p /\
  calls p' = calls p.
Proof.
  intros Hc. cbn zeta. unfold mouse_axis_step, toward_zero, nz.
  change (2 ^ 15) with 32768 in Hc.
  destruct (m_mouse_count p i <? 0) eqn:A;
    [|destruct (m_mouse_count p i =? 0) eqn:B]; cbn [negb fst snd].
  - periph_proj. rewrite upd_same.
    rewrite s16_small by (change (2 ^ 15) with 32768; lia).
    split; [reflexivity|]. split; [reflexivity|].
    split; [intros j Hj; rewrite upd_other by exact Hj; reflexivity|].
    repeat split.
  - apply Z.eqb_eq in B. rewrite B. repeat split.
  - periph_proj. rewrite upd_same.
    rewrite s16_small by (change (2 ^ 15) with 32768; lia).
    split; [reflexivity|]. split; [reflexivity|].
    split; [intros j Hj; rewrite upd_other by exact Hj; reflexivity|].
    repeat split.
Qed.

(** The two update values of a callback, from the counts after the
    movement has been added: the Y axis is reported with the sign
    reversed. *)
Definition x_update (c : Z) : Z := if c <? 0 then -1 else if c =? 0 then 0 else 1.
Definition y_update (c : Z) : Z := if c <? 0 then 1 else if c =? 0 then 0 else -1.

Lemma mouse_callback_spec new_mx new_my p :
  - 30000 <= m_mouse_count p 0 <= 30000 ->
  - 30000 <= m_mouse_count p 1 <= 30000 ->
  0 <= new_mx < 256 -> 0 <= m_mouse_last_m p 0 < 256 ->
  0 <= new_my < 256 -> 0 <= m_mouse_last_m p 1 < 256 ->
  let c0 := m_mouse_count p 0 + short_way (new_mx - m_mouse_last_m p 0) in
  let c1 := m_mouse_count p 1 + short_way (new_my - m_mouse_last_m p 1) in
  let p' := mouse_callback new_mx new_my p in
  exists q,
    p' = scc_mouse_irq (x_update c0) (y_update c1) q /\
    m_mouse_count q 0 = toward_zero c0 /\
    m_mouse_count q 1 = toward_zero c1 /\
    m_mouse_last_m q 0 = new_mx /\ m_mouse_last_m q 1 = new_my /\
    m_mouse_bit q = m_mouse_bit p /\ m_mouse_last q = m_mouse_last p /\
    calls q = calls p.
Proof.
  intros H0 H1 Hx Hlx Hy Hly. cbn zeta. unfold mouse_callback.
  destruct (mouse_axis_moved_spec 0 new_mx p H0 Hx Hlx)
    as (A1 & A2 & A3 & A4 & A5 & A6).
  set (p1 := mouse_axis_moved 0 new_mx p) in *.
  destruct (A3 1 ltac:(lia)) as [A31 A32].
  destruct (mouse_axis_moved_spec 1 new_my p1 ltac:(lia) Hy ltac:(lia))
    as (B1 & B2 & B3 & B4 & B5 & B6).
  set (p2 := mouse_axis_moved 1 new_my p1) in *.
  destruct (B3 0 ltac:(lia)) as [B31 B32].
  destruct (short_way_range (new_mx - m_mouse_last_m p 0) ltac:(lia))
    as [Sx _].
  destruct (short_way_range (new_my - m_mouse_last_m p 1) ltac:(lia))
    as [Sy _].
  rewrite A31, A32 in B1. rewrite A1 in B31.
  pose proof (mouse_axis_step_spec 0 (-1) 1 p2
                ltac:(change (2 ^ 15) with 32768; lia)) as C.
  cbn zeta in C. revert C.
  destruct (mouse_axis_step 0 (-1) 1 p2) as [p3 xu]. cbn [fst snd].
  intros (C1 & C2 & C3 & C4 & C5 & C6 & C7).
  pose proof (C3 1 ltac:(lia)) as C31.
  pose proof (mouse_axis_step_spec 1 1 (-1) p3
                ltac:(change (2 ^ 15) with 32768; lia)) as D.
  cbn zeta in D. revert D.
  destruct (mouse_axis_step 1 1 (-1) p3) as [p4 yu]. cbn [fst snd].
  intros (D1 & D2 & D3 & D4 & D5 & D6 & D7).
  assert (Exu : xu = x_update
            (m_mouse_count p 0 + short_way (new_mx - m_mouse_last_m p 0))).
  { rewrite C2, B31. reflexivity. }
  assert (Eyu : yu = y_update
            (m_mouse_count p 1 + short_way (new_my - m_mouse_last_m p 1))).
  { rewrite D2, C31, B1. reflexivity. }
  exists p4. split.
  - destruct (nz xu || nz yu) eqn:N; [rewrite Exu, Eyu; reflexivity|].
    apply orb_false_iff in N. destruct N as [Nx Ny].
    unfold nz in Nx, Ny. apply negb_false_iff, Z.eqb_eq in Nx, Ny.
    rewrite <- Exu, <- Eyu, Nx, Ny. reflexivity.
  - rewrite (D3 0) by lia. rewrite C1, B31.
    rewrite D1, C31, B1.
    rewrite D4, C4, D5, C5, D6, C6, D7, C7.
    rewrite B32, A2, B2, B4, A4, B5, A5, B6, A6. repeat split.
Qed.

(** X9.  One mouse poll.  With 8-bit port readings and pending counts that
    are not near the ends of their 16-bit range, [mouse_callback] adds to
    each pending count the movement since the last poll, taken the short way
    round the 8-bit counter (at most 128 either way, and equal to the
    difference of the readings modulo 256), remembers the readings, and then
    takes each count one step towards zero.  An axis whose count was not
    zero at that point gets one edge on its DCD input, and its VIA bit equals
    the remembered level exactly when the count was negative for X, and
    exactly when it was positive for Y: the Y axis is reported reversed. *)
Theorem mouse_callback_movement (new_mx new_my : Z) (p : mac128_periph) :
  - 30000 <= m_mouse_count p 0 <= 30000 ->
  - 30000 <= m_mouse_count p 1 <= 30000 ->
  0 <= new_mx < 256 -> 0 <= m_mouse_last_m p 0 < 256 ->
  0 <= new_my < 256 -> 0 <= m_mouse_last_m p 1 < 256 ->
  let dx := short_way (new_mx - m_mouse_last_m p 0) in
  let dy := short_way (new_my - m_mouse_last_m p 1) in
  let c0 := m_mouse_count p 0 + dx in
  let c1 := m_mouse_count p 1 + dy in
  let p' := mouse_callback new_mx new_my p in
  (-128 <= dx <= 128 /\ (dx - (new_mx - m_mouse_last_m p 0)) mod 256 = 0) /\
  (-128 <= dy <= 128 /\ (dy - (new_my - m_mouse_last_m p 1)) mod 256 = 0) /\
  m_mouse_count p' 0 = toward_zero c0 /\
  m_mouse_count p' 1 = toward_zero c1 /\
  m_mouse_last_m p' 0 = new_mx /\ m_mouse_last_m p' 1 = new_my /\
  (c0 <> 0 ->
     (m_mouse_bit p' 0 = m_mouse_last p' 0 <-> c0 < 0) /\
     length (dcda_writes (calls p')) = S (length (dcda_writes (calls p)))) /\
  (c1 <> 0 ->
     (m_mouse_bit p' 1 = m_mouse_last p' 1 <-> 0 < c1) /\
     length (dcdb_writes (calls p')) = S (length (dcdb_writes (calls p)))) /\
  (c0 = 0 -> dcda_writes (calls p') = dcda_writes (calls p)) /\
  (c1 = 0 -> dcdb_writes (calls p') = dcdb_writes (calls p)).
Proof.
  intros H0 H1 Hx Hlx Hy Hly. cbn zeta.
  destruct (mouse_callback_spec new_mx new_my p H0 H1 Hx Hlx Hy Hly)
    as (q & -> & Q0 & Q1 & Q2 & Q3 & Q4 & Q5 & Q6).
  set (c0 := m_mouse_count p 0 + short_way (new_mx - m_mouse_last_m p 0)) in *.
  set (c1 := m_mouse_count p 1 + short_way (new_my - m_mouse_last_m p 1)) in *.
  destruct (scc_mouse_irq_spec (x_update c0) (y_update c1) q)
    as (A & B & C & D & E & F).
  assert (Xu : (x_update c0 <> 0 <-> c0 <> 0) /\ (x_update c0 < 0 <-> c0 < 0)).
  { unfold x_update. destruct (c0 <? 0) eqn:U; [lia|].
    destruct (c0 =? 0) eqn:V; lia. }
  assert (Yu : (y_update c1 <> 0 <-> c1 <> 0) /\ (y_update c1 < 0 <-> 0 < c1)).
  { unfold y_update. destruct (c1 <? 0) eqn:U; [lia|].
    destruct (c1 =? 0) eqn:V; lia. }
  split; [apply short_way_range; lia|].
  split; [apply short_way_range; lia|].
  rewrite E, F, Q0, Q1, Q2, Q3.
  split; [reflexivity|]. split; [reflexivity|].
  split; [reflexivity|]. split; [reflexivity|].
  split; [|split; [|split]].
  - intros Hc. destruct (A (proj2 (proj1 Xu) Hc)) as (_ & A2 & A3).
    rewrite A3, Q6. split; [|reflexivity].
    rewrite A2. apply Xu.
  - intros Hc. destruct (B (proj2 (proj1 Yu) Hc)) as (_ & B2 & B3).
    rewrite B3, Q6. split; [|reflexivity].
    rewrite B2. apply Yu.
  - intros Hc.
    assert (Z0 : x_update c0 = 0) by (rewrite Hc; reflexivity).
    destruct (C Z0) as (_ & _ & ->). rewrite Q6. reflexivity.
  - intros Hc.
    assert (Z0 : y_update c1 = 0) by (rewrite Hc; reflexivity).
    destruct (D Z0) as (_ & _ & ->). rewrite Q6. reflexivity.
Qed.








Lemma mouse_callback_movement_witness :
  m_mouse_count (mouse_callback 250 0 periph_at_reset) 0 = toward_zero (-6).
Proof.
  exact (proj1 (proj2 (proj2
           (mouse_callback_movement 250 0 periph_at_reset
              ltac:(cbn; lia) ltac:(cbn; lia) ltac:(lia) ltac:(cbn; lia)
              ltac:(lia) ltac:(cbn; lia))))).
Defined.


(* ---------------------------------------------------------------------- *)
(** ** Properties of the video refresh *)

(** Pixel [b] of a word, leftmost first. *)
Definition pixel_of (word b : Z) : Z := Z.land (Z.shiftr word (15 - b)) 0x0001.

Lemma pixel_of_bit word b : pixel_of word b = 0 \/ pixel_of word b = 1.
Proof.
  unfold pixel_of. set (a := Z.shiftr word (15 - b)).
  change (Z.land a 1) with (Z.land a (Z.ones 1)).
  rewrite Z.land_ones by lia.
  pose proof (Z.mod_pos_bound a (2 ^ 1) ltac:(lia)).
  change (2 ^ 1) with 2 in *. lia.
Qed.

Lemma seq_snoc_map n :
  map Z.of_nat (seq 0 (S n)) = map Z.of_nat (seq 0 n) ++ [Z.of_nat n].
Proof. rewrite seq_S, map_app. reflexivity. Qed.

Lemma draw_word_run word x n : forall line j,
  fold_left
    (fun line b => upd line (x + b) (Z.land (Z.shiftr word (15 - b)) 0x0001))
    (map Z.of_nat (seq 0 n)) line j
  = if (x <=? j) && (j <? x + Z.of_nat n) then pixel_of word (j - x)
    else line j.
Proof.
  induction n as [|n IH]; intros line j.
  - cbn [seq map fold_left Z.of_nat].
    destruct (x <=? j) eqn:A; destruct (j <? x + 0) eqn:B;
      try reflexivity; lia.
  - rewrite seq_snoc_map, fold_left_app. cbn [fold_left].
    unfold upd at 1. rewrite Nat2Z.inj_succ. unfold Z.succ.
    destruct (j =? x + Z.of_nat n) eqn:E.
    + apply Z.eqb_eq in E.
      replace ((x <=? j) && (j <? x + (Z.of_nat n + 1))) with true
        by (symmetry; apply andb_true_iff; split; lia).
      unfold pixel_of. subst j. do 3 f_equal. lia.
    + apply Z.eqb_neq in E. rewrite IH.
      replace (j <? x + (Z.of_nat n + 1)) with (j <? x + Z.of_nat n)
        by (destruct (j <? x + Z.of_nat n) eqn:U; symmetry; lia).
      reflexivity.
Qed.

Lemma draw_word_spec word x line j :
  draw_word word x line j
  = if (x <=? j) && (j <? x + 16) then pixel_of word (j - x) else line j.
Proof. unfold draw_word. apply (draw_word_run word x 16). Qed.

Lemma draw_line_run ram n : forall v line,
  let r :=
    fold_left
      (fun (acc : Z * (Z -> Z)) (k : Z) =>
         let '(video_ram, line) := acc in
         (video_ram + 1, draw_word (ram video_ram) (16 * k) line))
      (map Z.of_nat (seq 0 n)) (v, line) in
  fst r = v + Z.of_nat n /\
  forall j, snd r j
    = if (0 <=? j) && (j <? 16 * Z.of_nat n)
      then pixel_of (ram (v + j / 16)) (j mod 16)
      else line j.
Proof.
  induction n as [|n IH]; intros v line; cbn zeta.
  - cbn [seq map fold_left fst snd Z.of_nat]. split; [lia|].
    intros j. destruct (0 <=? j) eqn:A; destruct (j <? 16 * 0) eqn:B;
      try reflexivity; lia.
  - rewrite seq_snoc_map, fold_left_app. cbn [fold_left].
    destruct (IH v line) as [Hf Hs].
    destruct (fold_left _ (map Z.of_nat (seq 0 n)) (v, line)) as [v' line'].
    cbn [fst snd] in *. rewrite Nat2Z.inj_succ. unfold Z.succ. split; [lia|].
    intros j. rewrite draw_word_spec, Hs, Hf.
    destruct ((16 * Z.of_nat n <=? j) && (j <? 16 * Z.of_nat n + 16)) eqn:E.
    + apply andb_true_iff in E. destruct E as [E1 E2].
      replace ((0 <=? j) && (j <? 16 * (Z.of_nat n + 1))) with true
        by (symmetry; apply andb_true_iff; split; lia).
      assert (Hq : j / 16 = Z.of_nat n)
        by (symmetry; apply (Z.div_unique _ _ _ (j - 16 * Z.of_nat n)); lia).
      assert (Hm : j mod 16 = j - 16 * Z.of_nat n)
        by (symmetry; apply (Z.mod_unique _ _ (Z.of_nat n)); lia).
      rewrite Hq, Hm. reflexivity.
    + replace (j <? 16 * (Z.of_nat n + 1)) with (j <? 16 * Z.of_nat n);
        [reflexivity|].
      apply andb_false_iff in E.
      destruct (j <? 16 * Z.of_nat n) eqn:U; symmetry; lia.
Qed.

Lemma draw_line_spec ram v line :
  fst (draw_line ram (v, line)) = v + 32 /\
  forall j, snd (draw_line ram (v, line)) j
    = if (0 <=? j) && (j <? MAC_H_VIS)
      then pixel_of (ram (v + j / 16)) (j mod 16)
      else line j.
Proof.
  unfold draw_line.
  change (Z.to_nat (MAC_H_VIS / 16)) with 32%nat.
  apply (draw_line_run ram 32 v line).
Qed.

Lemma screen_update_run ram n : forall v bitmap,
  let r :=
    fold_left
      (fun (acc : Z * (Z -> Z -> Z)) (y : Z) =>
         let '(video_ram, bitmap) := acc in
         let '(video_ram, line) := draw_line ram (video_ram, bitmap y) in
         (video_ram, upd bitmap y line))
      (map Z.of_nat (seq 0 n)) (v, bitmap) in
  fst r = v + 32 * Z.of_nat n /\
  forall y j, snd r y j
    = if (0 <=? y) && (y <? Z.of_nat n) && (0 <=? j) && (j <? MAC_H_VIS)
      then pixel_of (ram (v + 32 * y + j / 16)) (j mod 16)
      else bitmap y j.
Proof.
  induction n as [|n IH]; intros v bitmap; cbn zeta.
  - cbn [seq map fold_left fst snd Z.of_nat]. split; [lia|].
    intros y j. destruct (0 <=? y) eqn:A; destruct (y <? 0) eqn:B;
      try reflexivity; lia.
  - rewrite seq_snoc_map, fold_left_app. cbn [fold_left].
    destruct (IH v bitmap) as [Hf Hs].
    destruct (fold_left _ (map Z.of_nat (seq 0 n)) (v, bitmap)) as [v' bm'].
    cbn [fst snd] in *.
    destruct (draw_line_spec ram v' (bm' (Z.of_nat n))) as [Lf Ls].
    destruct (draw_line ram (v', bm' (Z.of_nat n))) as [v2 line].
    cbn [fst snd] in *. rewrite Nat2Z.inj_succ. unfold Z.succ. split; [lia|].
    intros y j. unfold upd. destruct (y =? Z.of_nat n) eqn:E.
    + apply Z.eqb_eq in E. subst y. rewrite Ls, Hs, Hf.
      replace (0 <=? Z.of_nat n) with true by (symmetry; lia).
      replace (Z.of_nat n <? (Z.of_nat n + 1)) with true by (symmetry; lia).
      replace (Z.of_nat n <? Z.of_nat n) with false by (symmetry; lia).
      cbn [andb]. reflexivity.
    + apply Z.eqb_neq in E. rewrite Hs.
      replace (y <? (Z.of_nat n + 1)) with (y <? Z.of_nat n)
        by (destruct (y <? Z.of_nat n) eqn:U; symmetry; lia).
      reflexivity.
Qed.

(** X11.  The video refresh.  After [screen_update_mac], the pixel at
    column [x] of line [y] of the visible area (512 by 342) is bit
    [15 - x mod 16] of the RAM word [video_base + 32*y + x/16]: 32 words per
    line, leftmost pixel in the most significant bit, each pixel 0 or 1;
    nothing outside the visible area is drawn; and with at least 0x6C80
    words of RAM every word read lies inside the RAM, for either screen
    buffer. *)
Theorem screen_update_pixels (st : mac128_state) (p : mac128_periph)
  (bitmap : Z -> Z -> Z) :
  (forall y x, 0 <= y < MAC_V_VIS -> 0 <= x < MAC_H_VIS ->
     screen_update_mac st p bitmap y x
     = Z.land
         (Z.shiftr (m_ram_ptr st (video_base st p + 32 * y + x / 16))
                   (15 - x mod 16)) 1 /\
     (screen_update_mac st p bitmap y x = 0 \/
      screen_update_mac st p bitmap y x = 1)) /\
  (forall y x, ~ (0 <= y < MAC_V_VIS /\ 0 <= x < MAC_H_VIS) ->
     screen_update_mac st p bitmap y x = bitmap y x) /\
  (MAC_ALT_SCREEN_BUF_OFFSET <= m_ram_size st < 2 ^ 32 ->
   forall y x, 0 <= y < MAC_V_VIS -> 0 <= x < MAC_H_VIS ->
     0 <= video_base st p + 32 * y + x / 16 < m_ram_size st).
Proof.
  assert (Hrun : forall y x, screen_update_mac st p bitmap y x
    = if (0 <=? y) && (y <? MAC_V_VIS) && (0 <=? x) && (x <? MAC_H_VIS)
      then pixel_of (m_ram_ptr st (video_base st p + 32 * y + x / 16))
             (x mod 16)
      else bitmap y x).
  { intros y x. unfold screen_update_mac.
    destruct (screen_update_run (m_ram_ptr st) (Z.to_nat MAC_V_VIS)
                (video_base st p) bitmap) as [_ Hs].
    rewrite Hs. reflexivity. }
  split; [|split].
  - intros y x Hy Hx. rewrite Hrun.
    replace ((0 <=? y) && (y <? MAC_V_VIS) && (0 <=? x) && (x <? MAC_H_VIS))
      with true by (symmetry; rewrite !andb_true_iff; repeat split; lia).
    split; [reflexivity | apply pixel_of_bit].
  - intros y x Hn. rewrite Hrun.
    replace ((0 <=? y) && (y <? MAC_V_VIS) && (0 <=? x) && (x <? MAC_H_VIS))
      with false; [reflexivity|].
    symmetry. rewrite !andb_false_iff. lia.
  - intros Hr y x Hy Hx. unfold video_base, u32.
    unfold MAC_ALT_SCREEN_BUF_OFFSET, MAC_MAIN_SCREEN_BUF_OFFSET,
      MAC_V_VIS, MAC_H_VIS in *.
    change (Z.shiftr 0xD900 1) with 27776 in *.
    change (Z.shiftr 0x5900 1) with 11392.
    change (2 ^ 32) with 4294967296 in *.
    assert (Hq : 0 <= x / 16 < 32).
    { split; [apply Z.div_pos; lia | apply Z.div_lt_upper_bound; lia]. }
    destruct (nz (m_screen_buffer p)); rewrite Z.mod_small by lia; lia.
Qed.

(* ---------------------------------------------------------------------- *)
(** ** Properties of VIA port A *)

Lemma shiftr_land_bit data k :
  0 <= k -> Z.shiftr (Z.land data (2 ^ k)) k = BIT data k.
Proof.
  intros Hk. unfold BIT. rewrite Z.shiftr_land. f_equal.
  rewrite Z.shiftr_div_pow2 by assumption.
  apply Z.div_same. apply Z.pow_nonzero; lia.
Qed.

Lemma land_pow2 data k :
  0 <= k -> Z.land data (2 ^ k) = Z.shiftl (BIT data k) k.
Proof.
  intros Hk. unfold BIT.
  rewrite Z.shiftl_land, Z.shiftl_1_l, <- Z.ldiff_ones_r by lia.
  apply Z.bits_inj'. intros n Hn.
  rewrite !Z.land_spec, Z.ldiff_spec, Z.pow2_bits_eqb by lia.
  destruct (Z.eqb_spec k n) as [<-|]; [|rewrite !andb_false_r; reflexivity].
  rewrite !andb_true_r, Z.ones_spec_high by lia.
  rewrite andb_true_r. reflexivity.
Qed.

Lemma BIT_cases data k : BIT data k = 0 \/ BIT data k = 1.
Proof.
  unfold BIT. set (a := Z.shiftr data k).
  change (Z.land a 1) with (Z.land a (Z.ones 1)).
  rewrite Z.land_ones by lia.
  pose proof (Z.mod_pos_bound a (2 ^ 1) ltac:(lia)).
  change (2 ^ 1) with 2 in *. lia.
Qed.

(** The head-select levels passed to the drive, most recent first. *)
Definition ss_writes (l : list device_call) : list Z :=
  flat_map (fun c => match c with floppy_ss_w v => [v] | _ => [] end) l.

Lemma update_volume_frame p :
  m_screen_buffer (update_volume p) = m_screen_buffer p /\
  m_hdsel (update_volume p) = m_hdsel p /\
  m_main_buffer (update_volume p) = m_main_buffer p /\
  m_snd_vol (update_volume p) = m_snd_vol p /\
  ss_writes (calls (update_volume p)) = ss_writes (calls p).
Proof.
  unfold update_volume. destruct (negb (m_snd_enable p)); repeat split.
Qed.

Lemma hdsel_w_spec data st p :
  m_hdsel (hdsel_w data st p) = BIT data 5 /\
  m_screen_buffer (hdsel_w data st p) = m_screen_buffer p /\
  ss_writes (calls (hdsel_w data st p))
  = (if negb (BIT data 5 =? m_hdsel p)
     then match m_cur_floppy st with
          | Some _ => BIT data 5 :: ss_writes (calls p)
          | None => ss_writes (calls p)
          end
     else ss_writes (calls p)).
Proof.
  unfold hdsel_w. destruct (BIT data 5 =? m_hdsel p) eqn:E; cbn [negb].
  - apply Z.eqb_eq in E. rewrite E. repeat split.
  - destruct (m_cur_floppy st); repeat split.
Qed.

(** X12.  What a write to VIA port A selects.  After
    [mac_via_out_a data]: the overlay flag is bit 4 of the data and nothing
    else of the first record changes, so the low window reads the ROM when
    bit 4 is set and the RAM when it is clear; bit 6 selects the screen
    buffer the video refresh reads (main when set), bit 3 the sound buffer
    the scanline timer reads (main when set), bits 0 to 2 are the volume;
    the drive's head-select input is written only when bit 5 differs from
    the level remembered and a drive is selected; and writing the same
    value again selects the same and does not write the head select. *)
Theorem via_port_a_selects (data : Z) (st : mac128_state) (p : mac128_periph) :
  let st' := fst (mac_via_out_a data st p) in
  let p' := snd (mac_via_out_a data st p) in
  st' = set_overlay st (BIT data 4) /\
  (forall o, ram_r o st'
     = if BIT data 4 =? 1 then m_rom_ptr st (Z.land o 0x7ffff)
       else m_ram_ptr st (Z.land o (m_ram_mask st))) /\
  video_base st' p'
  = u32 (m_ram_size st - (if BIT data 6 =? 1 then MAC_MAIN_SCREEN_BUF_OFFSET
                          else MAC_ALT_SCREEN_BUF_OFFSET)) /\
  snd_buf st' p'
  = m_ram_size st - (if BIT data 3 =? 1 then MAC_MAIN_SND_BUF_OFFSET
                     else MAC_ALT_SND_BUF_OFFSET) /\
  m_snd_vol p' = Z.land data 0x07 /\
  m_hdsel p' = BIT data 5 /\
  ss_writes (calls p')
  = (if negb (BIT data 5 =? m_hdsel p)
     then match m_cur_floppy st with
          | Some _ => BIT data 5 :: ss_writes (calls p)
          | None => ss_writes (calls p)
          end
     else ss_writes (calls p)) /\
  fst (mac_via_out_a data st' p') = st' /\
  ss_writes (calls (snd (mac_via_out_a data st' p'))) = ss_writes (calls p').
Proof.
  cbn zeta.
  assert (Hst : forall s q, fst (mac_via_out_a data s q)
                            = set_overlay s (BIT data 4)).
  { intros s q. unfold mac_via_out_a. cbn [fst].
    change 0x10 with (2 ^ 4). rewrite shiftr_land_bit by lia.
    destruct (BIT data 4 =? m_overlay s) eqn:E; cbn [negb]; [|reflexivity].
    apply Z.eqb_eq in E. rewrite E. destruct s; reflexivity. }
  assert (Hp : forall s q,
    m_screen_buffer (snd (mac_via_out_a data s q)) = BIT data 6 /\
    m_main_buffer (snd (mac_via_out_a data s q)) = (BIT data 3 =? 1) /\
    m_snd_vol (snd (mac_via_out_a data s q)) = Z.land data 0x07 /\
    m_hdsel (snd (mac_via_out_a data s q)) = BIT data 5 /\
    ss_writes (calls (snd (mac_via_out_a data s q)))
    = (if negb (BIT data 5 =? m_hdsel q)
       then match m_cur_floppy s with
            | Some _ => BIT data 5 :: ss_writes (calls q)
            | None => ss_writes (calls q)
            end
       else ss_writes (calls q))).
  { intros s q. unfold mac_via_out_a. cbn [snd].
    match goal with |- context [update_volume ?t] =>
      destruct (update_volume_frame t) as (-> & -> & -> & -> & ->) end.
    periph_proj.
    destruct (hdsel_w_spec data s
                (set_screen_buffer q (Z.shiftr (Z.land data 64) 6)))
      as (-> & -> & ->).
    periph_proj. change 64 with (2 ^ 6). rewrite shiftr_land_bit by lia.
    split; [reflexivity|]. split; [|repeat split].
    change 8 with (2 ^ 3). rewrite (land_pow2 data 3) by lia.
    destruct (BIT_cases data 3) as [-> | ->]; reflexivity. }
  destruct (Hp st p) as (P1 & P2 & P3 & P4 & P5).
  rewrite !Hst.
  set (p' := snd (mac_via_out_a data st p)) in *.
  destruct (Hp (set_overlay st (BIT data 4)) p') as (_ & _ & _ & _ & Q5).
  split; [reflexivity|]. split; [|split; [|split; [|split; [|split; [|split; [|split]]]]]].
  - intros o. unfold ram_r, nz. cbn [set_overlay m_overlay m_rom_ptr m_ram_ptr m_ram_mask].
    destruct (BIT_cases data 4) as [-> | ->]; reflexivity.
  - unfold video_base, nz. cbn [set_overlay m_ram_size]. rewrite P1.
    destruct (BIT_cases data 6) as [-> | ->]; reflexivity.
  - unfold snd_buf. cbn [set_overlay m_ram_size]. rewrite P2. reflexivity.
  - exact P3.
  - exact P4.
  - exact P5.
  - destruct st; reflexivity.
  - rewrite Q5, P4, Z.eqb_refl. reflexivity.
Qed.

(* ---------------------------------------------------------------------- *)
(** ** Properties of the scanline timer *)

(** The timer re-armed [n] times, each call with the parameter the previous
    one has set; [mouse s] are the readings of the two mouse ports at
    scanline [s]. *)
Fixpoint scanlines (macadb : bool) (height : Z) (mouse : Z -> Z * Z)
  (n : nat) (scanline : Z) (x : mac128_state * mac128_periph)
  : mac128_state * mac128_periph * Z :=
  match n with
  | O => (x, scanline)
  | S n' =>
      let '(x', next) :=
        mac_scanline macadb height (fst (mouse scanline))
          (snd (mouse scanline)) scanline x in
      scanlines macadb height mouse n' next x'
  end.

(** The number of times [n] scanlines from [s] on pass the first line of
    the vertical blanking. *)
Fixpoint vblank_count (n : nat) (s : Z) : nat :=
  match n with
  | O => O
  | S n' =>
      ((if (s =? MAC_V_VIS)%Z then 1 else 0)
       + vblank_count n' (Z.rem (s + 1) MAC_V_TOTAL)%Z)%nat
  end.

(** The part of the periphery the one-second tick works on. *)
Definition irq_view (p : mac128_periph) : Z * Z * list Z :=
  (m_irq_count p, m_ca2_data p, ca2_writes (calls p)).

Ltac destruct_ifs :=
  repeat match goal with
         | |- context [if ?c then _ else _] => destruct c
         end.

(** What the mouse functions leave alone. *)
Definition mouse_frame (p p' : mac128_periph) : Prop :=
  irq_view p' = irq_view p /\ m_main_buffer p' = m_main_buffer p.

Lemma mouse_frame_trans p1 p2 p3 :
  mouse_frame p1 p2 -> mouse_frame p2 p3 -> mouse_frame p1 p3.
Proof. intros [A B] [C D]. split; congruence. Qed.

Lemma mouse_axis_moved_frame i new_m p :
  mouse_frame p (mouse_axis_moved i new_m p).
Proof.
  unfold mouse_axis_moved.
  destruct (negb (new_m =? m_mouse_last_m p i)); split; reflexivity.
Qed.

Lemma mouse_axis_step_frame i neg pos p :
  mouse_frame p (fst (mouse_axis_step i neg pos p)).
Proof.
  unfold mouse_axis_step.
  destruct (m_mouse_count p i <? 0); [split; reflexivity|].
  destruct (nz (m_mouse_count p i)); split; reflexivity.
Qed.

Lemma scc_mouse_axis_frame i dcd v p :
  (forall l, ca2_writes (dcd l :: calls p) = ca2_writes (calls p)) ->
  mouse_frame p (scc_mouse_axis i dcd v p).
Proof.
  intros Hd. unfold scc_mouse_axis.
  destruct (nz v); [|split; reflexivity].
  destruct (v <? 0); split; unfold irq_view; periph_proj;
    rewrite ?Hd; reflexivity.
Qed.

Lemma mouse_callback_frame new_mx new_my p :
  irq_view (mouse_callback new_mx new_my p) = irq_view p /\
  m_main_buffer (mouse_callback new_mx new_my p) = m_main_buffer p.
Proof.
  change (mouse_frame p (mouse_callback new_mx new_my p)).
  unfold mouse_callback.
  pose proof (mouse_axis_moved_frame 0 new_mx p) as F1.
  set (p1 := mouse_axis_moved 0 new_mx p) in *.
  pose proof (mouse_axis_moved_frame 1 new_my p1) as F2.
  set (p2 := mouse_axis_moved 1 new_my p1) in *.
  pose proof (mouse_axis_step_frame 0 (-1) 1 p2) as F3. revert F3.
  destruct (mouse_axis_step 0 (-1) 1 p2) as [p3 xu]. cbn [fst]. intros F3.
  pose proof (mouse_axis_step_frame 1 1 (-1) p3) as F4. revert F4.
  destruct (mouse_axis_step 1 1 (-1) p3) as [p4 yu]. cbn [fst]. intros F4.
  assert (F : mouse_frame p p4).
  { eapply mouse_frame_trans; [|exact F4].
    eapply mouse_frame_trans; [|exact F3].
    eapply mouse_frame_trans; [exact F1 | exact F2]. }
  destruct (nz xu || nz yu); [|exact F].
  eapply mouse_frame_trans; [exact F|]. unfold scc_mouse_irq.
  eapply mouse_frame_trans;
    apply scc_mouse_axis_frame; intros l; reflexivity.
Qed.

Lemma vblank_irq_view macadb p q :
  irq_view p = irq_view q ->
  irq_view (vblank_irq macadb p) = irq_view (vblank_irq macadb q).
Proof.
  unfold irq_view. intros H. injection H as H1 H2 H3.
  unfold vblank_irq. destruct macadb; periph_proj; rewrite H1;
    destruct (s32 (m_irq_count q + 1) =? 60); periph_proj; cbn [ca2_writes flat_map app];
    fold (ca2_writes (calls p)); fold (ca2_writes (calls q));
    rewrite ?H2, ?H3; reflexivity.
Qed.

Lemma vblank_irq_main_buffer macadb p :
  m_main_buffer (vblank_irq macadb p) = m_main_buffer p.
Proof.
  unfold vblank_irq. destruct macadb; periph_proj;
    destruct (_ =? 60); reflexivity.
Qed.

Lemma mac_scanline_step macadb new_mx new_my s st p :
  0 <= s < MAC_V_TOTAL ->
  let r := mac_scanline macadb MAC_V_TOTAL new_mx new_my s (st, p) in
  snd r = (if s =? MAC_V_TOTAL - 1 then 0 else s + 1) /\
  snd r = Z.rem (s + 1) MAC_V_TOTAL /\
  fst (fst r) = pwm_push (Z.land (m_ram_ptr st (snd_buf st p + s)) 0xff) st /\
  irq_view (snd (fst r))
  = irq_view (if s =? MAC_V_VIS then vblank_irq macadb p else p) /\
  m_main_buffer (snd (fst r)) = m_main_buffer p.
Proof.
  intros Hs. cbn zeta. unfold mac_scanline. cbn [fst snd].
  set (p1 := if s =? MAC_V_VIS then vblank_irq macadb p else p).
  set (p2 := if s <? MAC_V_VIS
             then call (hblank_timer_adjust s) (call (via_write_pb6 1) p1)
             else p1).
  set (p3 := if negb (nz (Z.rem s 10)) && negb macadb
             then mouse_callback new_mx new_my p2 else p2).
  assert (M1 : m_main_buffer p1 = m_main_buffer p).
  { unfold p1. destruct (s =? MAC_V_VIS);
      [apply vblank_irq_main_buffer | reflexivity]. }
  assert (V2 : irq_view p2 = irq_view p1 /\ m_main_buffer p2 = m_main_buffer p1).
  { unfold p2. destruct (s <? MAC_V_VIS); split; reflexivity. }
  assert (V3 : irq_view p3 = irq_view p2 /\ m_main_buffer p3 = m_main_buffer p2).
  { unfold p3. destruct (negb (nz (Z.rem s 10)) && negb macadb);
      [apply mouse_callback_frame | split; reflexivity]. }
  destruct V2 as [V2 M2]. destruct V3 as [V3 M3].
  assert (Hsb : snd_buf st p3 = snd_buf st p).
  { unfold snd_buf. rewrite M3, M2, M1. reflexivity. }
  rewrite Hsb. unfold MAC_V_TOTAL in *.
  split; [|split; [|split; [|split]]].
  - destruct (s =? 370 - 1) eqn:E.
    + apply Z.eqb_eq in E. subst s. reflexivity.
    + apply Z.eqb_neq in E. apply Z.rem_small. lia.
  - reflexivity.
  - reflexivity.
  - change (irq_view (call (scan_timer_adjust (Z.rem (s + 1) 370))
                        (call (dac_write
                                 (Z.shiftr (m_ram_ptr st (snd_buf st p + s)) 8))
                           p3)))
      with (irq_view p3).
    rewrite V3, V2. reflexivity.
  - cbn [call m_main_buffer]. rewrite M3, M2, M1. reflexivity.
Qed.

Lemma scanlines_run macadb mouse n : forall s st p q,
  0 <= s < MAC_V_TOTAL -> pwm_counters_ok st -> irq_view p = irq_view q ->
  let r := scanlines macadb MAC_V_TOTAL mouse n s (st, p) in
  0 <= snd r < MAC_V_TOTAL /\
  snd r = (s + Z.of_nat n) mod MAC_V_TOTAL /\
  pwm_counters_ok (fst (fst r)) /\
  m_pwm_count_total (fst (fst r))
  = (m_pwm_count_total st + Z.of_nat n) mod 100 /\
  irq_view (snd (fst r))
  = irq_view (Nat.iter (vblank_count n s) (vblank_irq macadb) q).
Proof.
  induction n as [|n IH]; intros s st p q Hs Hok Hv; cbn zeta.
  - cbn [scanlines vblank_count Nat.iter nat_rect fst snd Z.of_nat].
    rewrite !Z.add_0_r. split; [exact Hs|].
    split; [symmetry; apply Z.mod_small, Hs|].
    split; [exact Hok|]. split; [symmetry; apply Z.mod_small, Hok | exact Hv].
  - cbn [scanlines vblank_count].
    destruct (mac_scanline_step macadb (fst (mouse s)) (snd (mouse s)) s st p Hs)
      as (N1 & N2 & S1 & V1 & _).
    destruct (mac_scanline macadb MAC_V_TOTAL (fst (mouse s)) (snd (mouse s))
                s (st, p)) as [[st1 p1] s1].
    cbn [fst snd] in *.
    destruct (pwm_push_counters
                (Z.land (m_ram_ptr st (snd_buf st p + s)) 255) st Hok)
      as (Hok1 & Hc1 & _).
    rewrite <- S1 in Hok1, Hc1.
    assert (Hs1 : 0 <= s1 < MAC_V_TOTAL).
    { rewrite N1. unfold MAC_V_TOTAL in *.
      destruct (s =? 370 - 1) eqn:E; lia. }
    assert (Hv1 : irq_view p1
              = irq_view (if s =? MAC_V_VIS then vblank_irq macadb q else q)).
    { rewrite V1. destruct (s =? MAC_V_VIS);
        [apply vblank_irq_view, Hv | exact Hv]. }
    destruct (IH s1 st1 p1 _ Hs1 Hok1 Hv1) as (A & B & C & D & E).
    split; [exact A|]. split; [|split; [exact C|split]].
    + rewrite B, N1. rewrite Nat2Z.inj_succ. unfold Z.succ, MAC_V_TOTAL in *.
      destruct (s =? 370 - 1) eqn:F.
      * apply Z.eqb_eq in F. subst s.
        replace (370 - 1 + (Z.of_nat n + 1)) with (Z.of_nat n + 1 * 370) by lia.
        rewrite Z.mod_add by lia. reflexivity.
      * f_equal. lia.
    + rewrite D, Hc1. rewrite Nat2Z.inj_succ. unfold Z.succ.
      rewrite Z.add_mod_idemp_l by lia. f_equal. lia.
    + rewrite E, <- N2. destruct (s =? MAC_V_VIS).
      * cbn [Nat.add]. rewrite Nat.iter_succ_r. reflexivity.
      * reflexivity.
Qed.

Lemma vblank_count_add a : forall b s,
  0 <= s < MAC_V_TOTAL ->
  vblank_count (a + b) s
  = (vblank_count a s
     + vblank_count b ((s + Z.of_nat a) mod MAC_V_TOTAL)%Z)%nat.
Proof.
  induction a as [|a IH]; intros b s Hs.
  - cbn [Nat.add vblank_count Z.of_nat]. rewrite Z.add_0_r.
    rewrite Z.mod_small by exact Hs. reflexivity.
  - cbn [Nat.add vblank_count].
    assert (Hr : Z.rem (s + 1) MAC_V_TOTAL = (s + 1) mod MAC_V_TOTAL)
      by (apply Z.rem_mod_nonneg; unfold MAC_V_TOTAL in *; lia).
    rewrite Hr.
    rewrite IH by (apply Z.mod_pos_bound; unfold MAC_V_TOTAL; lia).
    rewrite Z.add_mod_idemp_l by (unfold MAC_V_TOTAL; lia).
    rewrite Nat2Z.inj_succ. unfold Z.succ.
    replace (s + 1 + Z.of_nat a) with (s + (Z.of_nat a + 1)) by lia. lia.
Qed.

Lemma vblank_count_frames k : vblank_count (370 * k) 0 = k.
Proof.
  induction k as [|k IH].
  - reflexivity.
  - replace (370 * S k)%nat with (370 + 370 * k)%nat by lia.
    rewrite vblank_count_add by (unfold MAC_V_TOTAL; lia).
    change ((0 + Z.of_nat 370) mod MAC_V_TOTAL) with 0. rewrite IH.
    change (vblank_count 370 0) with 1%nat. reflexivity.
Qed.

(** X13.  The scanline timer over whole frames.  With the screen 370 lines
    high, [370 * k] consecutive timer callbacks from scanline 0 come back to
    scanline 0; each callback pushes the low byte of one word of the sound
    buffer into the PWM decoder, so the pulse counter has advanced by
    [370 * k] modulo 100 and stays within its bounds; [vblank_irq] has run
    exactly [k] times, once per frame; so after 60 frames the one-second
    level has toggled and has been written to the VIA once.  With at least
    0x2F80 words of RAM, every sound-buffer word read lies inside the RAM. *)
Theorem scanline_timer_frames (macadb : bool) (mouse : Z -> Z * Z) (k : nat)
  (st : mac128_state) (p : mac128_periph) :
  pwm_counters_ok st ->
  let r := scanlines macadb MAC_V_TOTAL mouse (370 * k) 0 (st, p) in
  snd r = 0 /\
  pwm_counters_ok (fst (fst r)) /\
  m_pwm_count_total (fst (fst r))
  = (m_pwm_count_total st + 370 * Z.of_nat k) mod 100 /\
  irq_view (snd (fst r)) = irq_view (Nat.iter k (vblank_irq macadb) p) /\
  (k = 60%nat -> 0 <= m_irq_count p < 60 ->
     m_irq_count (snd (fst r)) = m_irq_count p /\
     m_ca2_data (snd (fst r)) = Z.lxor (m_ca2_data p) 1 /\
     ca2_writes (calls (snd (fst r)))
     = Z.lxor (m_ca2_data p) 1 :: ca2_writes (calls p)) /\
  (forall s new_mx new_my, 0 <= s < MAC_V_TOTAL ->
     fst (fst (mac_scanline macadb MAC_V_TOTAL new_mx new_my s (st, p)))
     = pwm_push (Z.land (m_ram_ptr st (snd_buf st p + s)) 0xff) st) /\
  (MAC_ALT_SND_BUF_OFFSET <= m_ram_size st ->
   forall s, 0 <= s < MAC_V_TOTAL ->
     0 <= snd_buf st p + s < m_ram_size st).
Proof.
  intros Hok. cbn zeta.
  pose proof (scanlines_run macadb mouse (370 * k) 0 st p p
                ltac:(unfold MAC_V_TOTAL; lia) Hok eq_refl) as H.
  cbn zeta in H. rewrite vblank_count_frames in H.
  remember (scanlines macadb MAC_V_TOTAL mouse (370 * k) 0 (st, p)) as r
    eqn:Er.
  clear Er. destruct H as (A & B & C & D & E).
  split; [|split; [exact C|split; [|split; [exact E|split; [|split]]]]].
  - rewrite B. rewrite Nat2Z.inj_mul. change (Z.of_nat 370) with 370.
    unfold MAC_V_TOTAL. rewrite Z.add_0_l, Z.mul_comm. apply Z.mod_mul. lia.
  - rewrite D. rewrite Nat2Z.inj_mul. reflexivity.
  - intros Hk Hr.
    pose proof (f_equal (fun v => fst (fst v)) E) as E1.
    pose proof (f_equal (fun v => snd (fst v)) E) as E2.
    pose proof (f_equal (fun v => snd v) E) as E3.
    unfold irq_view in E1, E2, E3. cbn [fst snd] in E1, E2, E3.
    rewrite Hk in E1, E2, E3.
    destruct (vblank_irq_period macadb p Hr) as (P1 & P2 & P3).
    rewrite E1, E2, E3, P1, P2, P3. repeat split.
  - intros s new_mx new_my Hs.
    apply (mac_scanline_step macadb new_mx new_my s st p Hs).
  - intros Hr s Hs. unfold snd_buf, MAC_ALT_SND_BUF_OFFSET,
      MAC_MAIN_SND_BUF_OFFSET, MAC_V_TOTAL in *.
    change (Z.shiftr 0x5F00 1) with 12160 in *.
    change (Z.shiftr 0x0300 1) with 384.
    destruct (m_main_buffer p); lia.
Qed.

Lemma scanline_timer_frames_witness :
  snd (scanlines false MAC_V_TOTAL (fun _ => (0, 0)) (370 * 1) 0
         (reset_with_drive, periph_at_reset)) = 0.
Proof.
  assert (H : pwm_counters_ok reset_with_drive)
    by (unfold pwm_counters_ok; cbn; lia).
  exact (proj1 (scanline_timer_frames false (fun _ => (0, 0)) 1
                  reset_with_drive periph_at_reset H)).
Defined.
End Mac128.

(* ====================================================================== *)
(** * Part II: the YMF278B wavetable engine ([ymf278b_device]) *)
(* ====================================================================== *)

Module Ymf278b.

(** ** One wavetable voice: [YMF278BSlot] *)

(** The records of this part have primitive projections: a member access
    on an assignment reduces without unfolding the rest of the term. *)
#[local] Set Primitive Projections.

Record YMF278BSlot : Type := mk_slot {
  wave : Z;
  F_NUMBER : Z;
  octave : Z;
  preverb : Z;
  DAMP : Z;
  CH : Z;
  LD : Z;
  TL : Z;
  pan : Z;
  LFO : Z;
  VIB : Z;
  AM : Z;
  AR : Z;
  D1R : Z;
  DL : Z;
  D2R : Z;
  RC : Z;
  RR : Z;
  step : Z;
  stepptr : Z;
  active : Z;
  KEY_ON : Z;
  bits : Z;
  startaddr : Z;
  loopaddr : Z;
  endaddr : Z;
  env_step : Z;
  env_vol : Z;
  env_vol_step : Z;
  env_vol_lim : Z;
  env_preverb : Z;
  num : Z
}.

(** Assignments to single members. *)
Definition set_wave (s : YMF278BSlot) (v : Z) : YMF278BSlot :=
  mk_slot v (F_NUMBER s) (octave s) (preverb s) (DAMP s) (CH s) (LD s)
    (TL s) (pan s) (LFO s) (VIB s) (AM s) (AR s) (D1R s) (DL s) (D2R s)
    (RC s) (RR s) (step s) (stepptr s) (active s) (KEY_ON s) (bits s)
    (startaddr s) (loopaddr s) (endaddr s) (env_step s) (env_vol s)
    (env_vol_step s) (env_vol_lim s) (env_preverb s) (num s).
Definition set_F_NUMBER (s : YMF278BSlot) (v : Z) : YMF278BSlot :=
  mk_slot (wave s) v (octave s) (preverb s) (DAMP s) (CH s) (LD s) (TL s)
    (pan s) (LFO s) (VIB s) (AM s) (AR s) (D1R s) (DL s) (D2R s) (RC s)
    (RR s) (step s) (stepptr s) (active s) (KEY_ON s) (bits s) (startaddr s)
    (loopaddr s) (endaddr s) (env_step s) (env_vol s) (env_vol_step s)
    (env_vol_lim s) (env_preverb s) (num s).
Definition set_octave (s : YMF278BSlot) (v : Z) : YMF278BSlot :=
  mk_slot (wave s) (F_NUMBER s) v (preverb s) (DAMP s) (CH s) (LD s) (TL s)
    (pan s) (LFO s) (VIB s) (AM s) (AR s) (D1R s) (DL s) (D2R s) (RC s)
    (RR s) (step s) (stepptr s) (active s) (KEY_ON s) (bits s) (startaddr s)
    (loopaddr s) (endaddr s) (env_step s) (env_vol s) (env_vol_step s)
    (env_vol_lim s) (env_preverb s) (num s).
Definition set_preverb (s : YMF278BSlot) (v : Z) : YMF278BSlot :=
  mk_slot (wave s) (F_NUMBER s) (octave s) v (DAMP s) (CH s) (LD s) (TL s)
    (pan s) (LFO s) (VIB s) (AM s) (AR s) (D1R s) (DL s) (D2R s) (RC s)
    (RR s) (step s) (stepptr s) (active s) (KEY_ON s) (bits s) (startaddr s)
    (loopaddr s) (endaddr s) (env_step s) (env_vol s) (env_vol_step s)
    (env_vol_lim s) (env_preverb s) (num s).
Definition set_DAMP (s : YMF278BSlot) (v : Z) : YMF278BSlot :=
  mk_slot (wave s) (F_NUMBER s) (octave s) (preverb s) v (CH s) (LD s)
    (TL s) (pan s) (LFO s) (VIB s) (AM s) (AR s) (D1R s) (DL s) (D2R s)
    (RC s) (RR s) (step s) (stepptr s) (active s) (KEY_ON s) (bits s)
    (startaddr s) (loopaddr s) (endaddr s) (env_step s) (env_vol s)
    (env_vol_step s) (env_vol_lim s) (env_preverb s) (num s).
Definition set_CH (s : YMF278BSlot) (v : Z) : YMF278BSlot :=
  mk_slot (wave s) (F_NUMBER s) (octave s) (preverb s) (DAMP s) v (LD s)
    (TL s) (pan s) (LFO s) (VIB s) (AM s) (AR s) (D1R s) (DL s) (D2R s)
    (RC s) (RR s) (step s) (stepptr s) (active s) (KEY_ON s) (bits s)
    (startaddr s) (loopaddr s) (endaddr s) (env_step s) (env_vol s)
    (env_vol_step s) (env_vol_lim s) (env_preverb s) (num s).
Definition set_LD (s : YMF278BSlot) (v : Z) : YMF278BSlot :=
  mk_slot (wave s) (F_NUMBER s) (octave s) (preverb s) (DAMP s) (CH s) v
    (TL s) (pan s) (LFO s) (VIB s) (AM s) (AR s) (D1R s) (DL s) (D2R s)
    (RC s) (RR s) (step s) (stepptr s) (active s) (KEY_ON s) (bits s)
    (startaddr s) (loopaddr s) (endaddr s) (env_step s) (env_vol s)
    (env_vol_step s) (env_vol_lim s) (env_preverb s) (num s).
Definition set_TL (s : YMF278BSlot) (v : Z) : YMF278BSlot :=
  mk_slot (wave s) (F_NUMBER s) (octave s) (preverb s) (DAMP s) (CH s)
    (LD s) v (pan s) (LFO s) (VIB s) (AM s) (AR s) (D1R s) (DL s) (D2R s)
    (RC s) (RR s) (step s) (stepptr s) (active s) (KEY_ON s) (bits s)
    (startaddr s) (loopaddr s) (endaddr s) (env_step s) (env_vol s)
    (env_vol_step s) (env_vol_lim s) (env_preverb s) (num s).
Definition set_pan (s : YMF278BSlot) (v : Z) : YMF278BSlot :=
  mk_slot (wave s) (F_NUMBER s) (octave s) (preverb s) (DAMP s) (CH s)
    (LD s) (TL s) v (LFO s) (VIB s) (AM s) (AR s) (D1R s) (DL s) (D2R s)
    (RC s) (RR s) (step s) (stepptr s) (active s) (KEY_ON s) (bits s)
    (startaddr s) (loopaddr s) (endaddr s) (env_step s) (env_vol s)
    (env_vol_step s) (env_vol_lim s) (env_preverb s) (num s).
Definition set_LFO (s : YMF278BSlot) (v : Z) : YMF278BSlot :=
  mk_slot (wave s) (F_NUMBER s) (octave s) (preverb s) (DAMP s) (CH s)
    (LD s) (TL s) (pan s) v (VIB s) (AM s) (AR s) (D1R s) (DL s) (D2R s)
    (RC s) (RR s) (step s) (stepptr s) (active s) (KEY_ON s) (bits s)
    (startaddr s) (loopaddr s) (endaddr s) (env_step s) (env_vol s)
    (env_vol_step s) (env_vol_lim s) (env_preverb s) (num s).
Definition set_VIB (s : YMF278BSlot) (v : Z) : YMF278BSlot :=
  mk_slot (wave s) (F_NUMBER s) (octave s) (preverb s) (DAMP s) (CH s)
    (LD s) (TL s) (pan s) (LFO s) v (AM s) (AR s) (D1R s) (DL s) (D2R s)
    (RC s) (RR s) (step s) (stepptr s) (active s) (KEY_ON s) (bits s)
    (startaddr s) (loopaddr s) (endaddr s) (env_step s) (env_vol s)
    (env_vol_step s) (env_vol_lim s) (env_preverb s) (num s).
Definition set_AM (s : YMF278BSlot) (v : Z) : YMF278BSlot :=
  mk_slot (wave s) (F_NUMBER s) (octave s) (preverb s) (DAMP s) (CH s)
    (LD s) (TL s) (pan s) (LFO s) (VIB s) v (AR s) (D1R s) (DL s) (D2R s)
    (RC s) (RR s) (step s) (stepptr s) (active s) (KEY_ON s) (bits s)
    (startaddr s) (loopaddr s) (endaddr s) (env_step s) (env_vol s)
    (env_vol_step s) (env_vol_lim s) (env_preverb s) (num s).
Definition set_AR (s : YMF278BSlot) (v : Z) : YMF278BSlot :=
  mk_slot (wave s) (F_NUMBER s) (octave s) (preverb s) (DAMP s) (CH s)
    (LD s) (TL s) (pan s) (LFO s) (VIB s) (AM s) v (D1R s) (DL s) (D2R s)
    (RC s) (RR s) (step s) (stepptr s) (active s) (KEY_ON s) (bits s)
    (startaddr s) (loopaddr s) (endaddr s) (env_step s) (env_vol s)
    (env_vol_step s) (env_vol_lim s) (env_preverb s) (num s).
Definition set_D1R (s : YMF278BSlot) (v : Z) : YMF278BSlot :=
  mk_slot (wave s) (F_NUMBER s) (octave s) (preverb s) (DAMP s) (CH s)
    (LD s) (TL s) (pan s) (LFO s) (VIB s) (AM s) (AR s) v (DL s) (D2R s)
    (RC s) (RR s) (step s) (stepptr s) (active s) (KEY_ON s) (bits s)
    (startaddr s) (loopaddr s) (endaddr s) (env_step s) (env_vol s)
    (env_vol_step s) (env_vol_lim s) (env_preverb s) (num s).
Definition set_DL (s : YMF278BSlot) (v : Z) : YMF278BSlot :=
  mk_slot (wave s) (F_NUMBER s) (octave s) (preverb s) (DAMP s) (CH s)
    (LD s) (TL s) (pan s) (LFO s) (VIB s) (AM s) (AR s) (D1R s) v (D2R s)
    (RC s) (RR s) (step s) (stepptr s) (active s) (KEY_ON s) (bits s)
    (startaddr s) (loopaddr s) (endaddr s) (env_step s) (env_vol s)
    (env_vol_step s) (env_vol_lim s) (env_preverb s) (num s).
Definition set_D2R (s : YMF278BSlot) (v : Z) : YMF278BSlot :=
  mk_slot (wave s) (F_NUMBER s) (octave s) (preverb s) (DAMP s) (CH s)
    (LD s) (TL s) (pan s) (LFO s) (VIB s) (AM s) (AR s) (D1R s) (DL s) v
    (RC s) (RR s) (step s) (stepptr s) (active s) (KEY_ON s) (bits s)
    (startaddr s) (loopaddr s) (endaddr s) (env_step s) (env_vol s)
    (env_vol_step s) (env_vol_lim s) (env_preverb s) (num s).
Definition set_RC (s : YMF278BSlot) (v : Z) : YMF278BSlot :=
  mk_slot (wave s) (F_NUMBER s) (octave s) (preverb s) (DAMP s) (CH s)
    (LD s) (TL s) (pan s) (LFO s) (VIB s) (AM s) (AR s) (D1R s) (DL s)
    (D2R s) v (RR s) (step s) (stepptr s) (active s) (KEY_ON s) (bits s)
    (startaddr s) (loopaddr s) (endaddr s) (env_step s) (env_vol s)
    (env_vol_step s) (env_vol_lim s) (env_preverb s) (num s).
Definition set_RR (s : YMF278BSlot) (v : Z) : YMF278BSlot :=
  mk_slot (wave s) (F_NUMBER s) (octave s) (preverb s) (DAMP s) (CH s)
    (LD s) (TL s) (pan s) (LFO s) (VIB s) (AM s) (AR s) (D1R s) (DL s)
    (D2R s) (RC s) v (step s) (stepptr s) (active s) (KEY_ON s) (bits s)
    (startaddr s) (loopaddr s) (endaddr s) (env_step s) (env_vol s)
    (env_vol_step s) (env_vol_lim s) (env_preverb s) (num s).
Definition set_step (s : YMF278BSlot) (v : Z) : YMF278BSlot :=
  mk_slot (wave s) (F_NUMBER s) (octave s) (preverb s) (DAMP s) (CH s)
    (LD s) (TL s) (pan s) (LFO s) (VIB s) (AM s) (AR s) (D1R s) (DL s)
    (D2R s) (RC s) (RR s) v (stepptr s) (active s) (KEY_ON s) (bits s)
    (startaddr s) (loopaddr s) (endaddr s) (env_step s) (env_vol s)
    (env_vol_step s) (env_vol_lim s) (env_preverb s) (num s).
Definition set_stepptr (s : YMF278BSlot) (v : Z) : YMF278BSlot :=
  mk_slot (wave s) (F_NUMBER s) (octave s) (preverb s) (DAMP s) (CH s)
    (LD s) (TL s) (pan s) (LFO s) (VIB s) (AM s) (AR s) (D1R s) (DL s)
    (D2R s) (RC s) (RR s) (step s) v (active s) (KEY_ON s) (bits s)
    (startaddr s) (loopaddr s) (endaddr s) (env_step s) (env_vol s)
    (env_vol_step s) (env_vol_lim s) (env_preverb s) (num s).
Definition set_active (s : YMF278BSlot) (v : Z) : YMF278BSlot :=
  mk_slot (wave s) (F_NUMBER s) (octave s) (preverb s) (DAMP s) (CH s)
    (LD s) (TL s) (pan s) (LFO s) (VIB s) (AM s) (AR s) (D1R s) (DL s)
    (D2R s) (RC s) (RR s) (step s) (stepptr s) v (KEY_ON s) (bits s)
    (startaddr s) (loopaddr s) (endaddr s) (env_step s) (env_vol s)
    (env_vol_step s) (env_vol_lim s) (env_preverb s) (num s).
Definition set_KEY_ON (s : YMF278BSlot) (v : Z) : YMF278BSlot :=
  mk_slot (wave s) (F_NUMBER s) (octave s) (preverb s) (DAMP s) (CH s)
    (LD s) (TL s) (pan s) (LFO s) (VIB s) (AM s) (AR s) (D1R s) (DL s)
    (D2R s) (RC s) (RR s) (step s) (stepptr s) (active s) v (bits s)
    (startaddr s) (loopaddr s) (endaddr s) (env_step s) (env_vol s)
    (env_vol_step s) (env_vol_lim s) (env_preverb s) (num s).
Definition set_bits (s : YMF278BSlot) (v : Z) : YMF278BSlot :=
  mk_slot (wave s) (F_NUMBER s) (octave s) (preverb s) (DAMP s) (CH s)
    (LD s) (TL s) (pan s) (LFO s) (VIB s) (AM s) (AR s) (D1R s) (DL s)
    (D2R s) (RC s) (RR s) (step s) (stepptr s) (active s) (KEY_ON s) v
    (startaddr s) (loopaddr s) (endaddr s) (env_step s) (env_vol s)
    (env_vol_step s) (env_vol_lim s) (env_preverb s) (num s).
Definition set_startaddr (s : YMF278BSlot) (v : Z) : YMF278BSlot :=
  mk_slot (wave s) (F_NUMBER s) (octave s) (preverb s) (DAMP s) (CH s)
    (LD s) (TL s) (pan s) (LFO s) (VIB s) (AM s) (AR s) (D1R s) (DL s)
    (D2R s) (RC s) (RR s) (step s) (stepptr s) (active s) (KEY_ON s)
    (bits s) v (loopaddr s) (endaddr s) (env_step s) (env_vol s)
    (env_vol_step s) (env_vol_lim s) (env_preverb s) (num s).
Definition set_loopaddr (s : YMF278BSlot) (v : Z) : YMF278BSlot :=
  mk_slot (wave s) (F_NUMBER s) (octave s) (preverb s) (DAMP s) (CH s)
    (LD s) (TL s) (pan s) (LFO s) (VIB s) (AM s) (AR s) (D1R s) (DL s)
    (D2R s) (RC s) (RR s) (step s) (stepptr s) (active s) (KEY_ON s)
    (bits s) (startaddr s) v (endaddr s) (env_step s) (env_vol s)
    (env_vol_step s) (env_vol_lim s) (env_preverb s) (num s).
Definition set_endaddr (s : YMF278BSlot) (v : Z) : YMF278BSlot :=
  mk_slot (wave s) (F_NUMBER s) (octave s) (preverb s) (DAMP s) (CH s)
    (LD s) (TL s) (pan s) (LFO s) (VIB s) (AM s) (AR s) (D1R s) (DL s)
    (D2R s) (RC s) (RR s) (step s) (stepptr s) (active s) (KEY_ON s)
    (bits s) (startaddr s) (loopaddr s) v (env_step s) (env_vol s)
    (env_vol_step s) (env_vol_lim s) (env_preverb s) (num s).
Definition set_env_step (s : YMF278BSlot) (v : Z) : YMF278BSlot :=
  mk_slot (wave s) (F_NUMBER s) (octave s) (preverb s) (DAMP s) (CH s)
    (LD s) (TL s) (pan s) (LFO s) (VIB s) (AM s) (AR s) (D1R s) (DL s)
    (D2R s) (RC s) (RR s) (step s) (stepptr s) (active s) (KEY_ON s)
    (bits s) (startaddr s) (loopaddr s) (endaddr s) v (env_vol s)
    (env_vol_step s) (env_vol_lim s) (env_preverb s) (num s).
Definition set_env_vol (s : YMF278BSlot) (v : Z) : YMF278BSlot :=
  mk_slot (wave s) (F_NUMBER s) (octave s) (preverb s) (DAMP s) (CH s)
    (LD s) (TL s) (pan s) (LFO s) (VIB s) (AM s) (AR s) (D1R s) (DL s)
    (D2R s) (RC s) (RR s) (step s) (stepptr s) (active s) (KEY_ON s)
    (bits s) (startaddr s) (loopaddr s) (endaddr s) (env_step s) v
    (env_vol_step s) (env_vol_lim s) (env_preverb s) (num s).
Definition set_env_vol_step (s : YMF278BSlot) (v : Z) : YMF278BSlot :=
  mk_slot (wave s) (F_NUMBER s) (octave s) (preverb s) (DAMP s) (CH s)
    (LD s) (TL s) (pan s) (LFO s) (VIB s) (AM s) (AR s) (D1R s) (DL s)
    (D2R s) (RC s) (RR s) (step s) (stepptr s) (active s) (KEY_ON s)
    (bits s) (startaddr s) (loopaddr s) (endaddr s) (env_step s) (env_vol s)
    v (env_vol_lim s) (env_preverb s) (num s).
Definition set_env_vol_lim (s : YMF278BSlot) (v : Z) : YMF278BSlot :=
  mk_slot (wave s) (F_NUMBER s) (octave s) (preverb s) (DAMP s) (CH s)
    (LD s) (TL s) (pan s) (LFO s) (VIB s) (AM s) (AR s) (D1R s) (DL s)
    (D2R s) (RC s) (RR s) (step s) (stepptr s) (active s) (KEY_ON s)
    (bits s) (startaddr s) (loopaddr s) (endaddr s) (env_step s) (env_vol s)
    (env_vol_step s) v (env_preverb s) (num s).
Definition set_env_preverb (s : YMF278BSlot) (v : Z) : YMF278BSlot :=
  mk_slot (wave s) (F_NUMBER s) (octave s) (preverb s) (DAMP s) (CH s)
    (LD s) (TL s) (pan s) (LFO s) (VIB s) (AM s) (AR s) (D1R s) (DL s)
    (D2R s) (RC s) (RR s) (step s) (stepptr s) (active s) (KEY_ON s)
    (bits s) (startaddr s) (loopaddr s) (endaddr s) (env_step s) (env_vol s)
    (env_vol_step s) (env_vol_lim s) v (num s).

(** Reduction of member accesses, through assignments. *)
Ltac slot_proj :=
  cbn [wave F_NUMBER octave preverb DAMP CH LD TL pan LFO VIB AM AR D1R
       DL D2R RC RR step stepptr active KEY_ON bits startaddr loopaddr
       endaddr env_step env_vol env_vol_step env_vol_lim env_preverb num
       set_wave set_F_NUMBER set_octave set_preverb set_DAMP set_CH
       set_LD set_TL set_pan set_LFO set_VIB set_AM set_AR set_D1R
       set_DL set_D2R set_RC set_RR set_step set_stepptr set_active
       set_KEY_ON set_bits set_startaddr set_loopaddr set_endaddr
       set_env_step set_env_vol set_env_vol_step set_env_vol_lim
       set_env_preverb].

(** ** Rate tables: [precompute_rate_tables] *)

Definition m_lut_dr (i : Z) : Z :=
  if i <=? 3 then 0
  else if i >=? 60 then Z.shiftl 15 4
  else Z.quot (Z.shiftl 15 (21 - Z.quot i 4)) (4 + Z.rem i 4).

Definition m_lut_ar (i : Z) : Z :=
  if (i <=? 3) || (i =? 63) then 0
  else if i >=? 60 then 17
  else Z.quot (Z.shiftl 67 (15 - Z.quot i 4)) (4 + Z.rem i 4).

(** Pan tables of [device_start], in units of -3dB. *)
Definition m_pan_left (i : Z) : Z :=
  if i <? 7 then i * 8 else if i <? 9 then 256 else 0.

Definition m_pan_right (i : Z) : Z :=
  if i <? 8 then 0 else if i <? 10 then 256 else (16 - i) * 8.

(** ** Envelope generator *)

(** The 4-bit octave as a signed number: [if (oct & 8) oct |= -8]. *)
Definition signed_octave (s : YMF278BSlot) : Z :=
  let oct := octave s in
  if nz (Z.land oct 8) then Z.lor oct (-8) else oct.

Definition compute_rate (slot : YMF278BSlot) (val : Z) : Z :=
  if val =? 0 then 0
  else if val =? 15 then 63
  else
    let res :=
      if negb (RC slot =? 15) then
        (signed_octave slot + RC slot) * 2
        + (if nz (Z.land (F_NUMBER slot) 0x200) then 1 else 0) + val * 4
      else val * 4 in
    if res <? 0 then 0 else if res >? 63 then 63 else res.

(** [256U << 23], the envelope's "silent" volume, and the pseudo-reverb
    threshold [(6*8) << 23]. *)
Definition ENV_OFF : Z := Z.shiftl 256 23.
Definition PREVERB_LEVEL : Z := Z.shiftl (6 * 8) 23.

(** [compute_decay_env_vol_step] returns the step and may latch the
    pseudo-reverb flag of the slot. *)
Definition compute_decay_env_vol_step (slot : YMF278BSlot) (val : Z)
  : YMF278BSlot * Z :=
  let '(slot, rate) :=
    if nz (DAMP slot) then (slot, 56)
    else if nz (preverb slot) && (env_vol slot >? PREVERB_LEVEL)
      then (set_env_preverb slot 1, 5)
    else (slot, compute_rate slot val) in
  let res :=
    if rate <? 4 then 0 else u32 (Z.quot ENV_OFF (u32 (m_lut_dr rate))) in
  (slot, res).

Definition compute_freq_step (slot : YMF278BSlot) : YMF278BSlot :=
  let oct := signed_octave slot in
  let step := u32 (Z.shiftl (Z.lor (F_NUMBER slot) 1024) (oct + 8)) in
  set_step slot (Z.shiftr step 3).

(** The decay-type phases share their shape: a step from the rate register
    and a limit. *)
Definition decay_phase (slot : YMF278BSlot) (val lim : Z) : YMF278BSlot :=
  let '(slot, res) := compute_decay_env_vol_step slot val in
  set_env_vol_lim (set_env_vol_step slot res) lim.

(** One of the two terminal phases: the voice is switched off. *)
Definition voice_off (slot : YMF278BSlot) : YMF278BSlot :=
  set_active
    (set_env_vol_lim (set_env_vol_step (set_env_vol slot ENV_OFF) 0) 0) 0.

(** The body of [compute_envelope]; [self] stands for the recursive call. *)
Definition compute_envelope_body (self : YMF278BSlot -> YMF278BSlot)
  (slot : YMF278BSlot) : YMF278BSlot :=
  match env_step slot with
  | 0 =>
      let rate := compute_rate slot (AR slot) in
      let slot := set_env_vol slot ENV_OFF in
      let slot := set_env_vol_lim slot (ENV_OFF - 1) in
      if rate =? 63 then
        self (set_env_step (set_env_vol slot 0) (env_step slot + 1))
      else if rate <? 4 then set_env_vol_step slot 0
      else
        set_env_vol_step slot
          (u32 (Z.lnot (Z.quot ENV_OFF (u32 (m_lut_ar rate)))))
  | 1 =>
      if nz (DL slot) then
        decay_phase slot (D1R slot) (u32 (Z.shiftl (DL slot * 8) 23))
      else self (set_env_step slot (env_step slot + 1))
  | 2 => decay_phase slot (D2R slot) ENV_OFF
  | 3 => voice_off slot
  | 4 => decay_phase slot (RR slot) ENV_OFF
  | 5 => voice_off slot
  | _ => slot
  end.

(** The recursion is at most two calls deep (attack skipped, then decay 1
    skipped), so three unfoldings of the body are the whole function; see
    [compute_envelope_unfold]. *)
Definition compute_envelope : YMF278BSlot -> YMF278BSlot :=
  compute_envelope_body
    (compute_envelope_body (compute_envelope_body (fun slot => slot))).

Definition retrigger_sample (slot : YMF278BSlot) : YMF278BSlot :=
  let slot := if negb (octave slot =? 8) then set_active slot 1 else slot in
  let slot := set_stepptr slot 0 in
  let slot := set_env_step slot 0 in
  let slot := set_env_preverb slot 0 in
  compute_envelope (compute_freq_step slot).

(** Names of the envelope phases ([env_step]). *)
Definition ATTACK : Z := 0.
Definition DECAY1 : Z := 1.
Definition DECAY2 : Z := 2.
Definition DECAY2_DONE : Z := 3.
Definition RELEASE : Z := 4.
Definition RELEASE_DONE : Z := 5.

(** ** The FM resampling step: [FM_STEP] *)

(** [ymopl4_registers::DEFAULT_PRESCALE * ymopl4_registers::OPERATORS]; the
    register class is outside these sources, the comment above the constant
    gives the product as 19*36. *)
Definition FM_PRESCALE_OPERATORS : Z := 19 * 36.

Definition NOMINAL_CLOCK : spec_float := f64_of_Z 33868800.
Definition NOMINAL_FM_RATE : spec_float :=
  f64_div NOMINAL_CLOCK (f64_of_Z FM_PRESCALE_OPERATORS).
Definition NOMINAL_OUTPUT_RATE : spec_float :=
  f64_div NOMINAL_CLOCK (f64_lit 768 1).

Definition FM_STEP : Z :=
  u32 (f64_to_Z
         (f64_mul
            (f64_sub (f64_div NOMINAL_FM_RATE NOMINAL_OUTPUT_RATE)
                     (f64_lit 1 1))
            (f64_of_Z (Z.shiftl 1 24)))).

(** ** The device *)

Section Device.

(** *** External collaborators

    The FM core, the wave memory behind [device_rom_interface], the device
    header (which declares the width of the phase accumulator and the status
    bits) and the floating-point volume table are outside these sources.
    They are parameters of the model. *)

(** The FM engine ([m_fm]) and the operations the device calls on it. *)
Variable fm_engine : Type.
Variable fm_new2flag : fm_engine -> Z.
Variable fm_newflag : fm_engine -> Z.
Variable fm_status : fm_engine -> Z.
Variable fm_regs_read : Z -> fm_engine -> Z.
Variable fm_write : Z -> Z -> fm_engine -> fm_engine.
Variable fm_set_reset_status : Z -> Z -> fm_engine -> fm_engine.
Variable fm_clock : fm_engine -> fm_engine.
Variable fm_reset : fm_engine -> fm_engine.

(** Wave memory: [read_byte] and [space(0).write_byte]. *)
Variable rom_space : Type.
Variable read_byte : rom_space -> Z -> Z.
Variable write_byte : rom_space -> Z -> Z -> rom_space.

(** Status bits and the width, in bits, of the [stepptr] member. *)
Variable STATUS_BUSY : Z.
Variable STATUS_LD : Z.
Variable stepptr_bits : Z.

(** Volume table ([device_start] fills entries below 256 with
    [65536*pow(2.0, (-0.375/6)*i)] and the rest with 0). *)
Variable m_volume : Z -> Z.

Record ymf278b_device : Type := mk_dev {
  m_slots : Z -> YMF278BSlot;
  m_pcmregs : Z -> Z;
  m_wavetblhdr : Z;
  m_memmode : Z;
  m_memadr : Z;
  m_fm_l : Z;
  m_fm_r : Z;
  m_pcm_l : Z;
  m_pcm_r : Z;
  m_fm_pos : Z;
  m_port_AB : Z;
  m_port_C : Z;
  m_lastport : Z;
  m_next_status_id : bool;
  m_clock : Z;
  m_rate : Z;
  m_timer_busy : option Z;
  m_timer_ld : option Z;
  m_mix_buffer : Z -> Z;
  m_fm : fm_engine;
  m_rom : rom_space
}.

Definition set_m_slots (d : ymf278b_device) (v : Z -> YMF278BSlot) : ymf278b_device :=
  mk_dev v (m_pcmregs d) (m_wavetblhdr d) (m_memmode d) (m_memadr d)
    (m_fm_l d) (m_fm_r d) (m_pcm_l d) (m_pcm_r d) (m_fm_pos d) (m_port_AB d)
    (m_port_C d) (m_lastport d) (m_next_status_id d) (m_clock d) (m_rate d)
    (m_timer_busy d) (m_timer_ld d) (m_mix_buffer d) (m_fm d) (m_rom d).
Definition set_m_pcmregs (d : ymf278b_device) (v : Z -> Z) : ymf278b_device :=
  mk_dev (m_slots d) v (m_wavetblhdr d) (m_memmode d) (m_memadr d)
    (m_fm_l d) (m_fm_r d) (m_pcm_l d) (m_pcm_r d) (m_fm_pos d) (m_port_AB d)
    (m_port_C d) (m_lastport d) (m_next_status_id d) (m_clock d) (m_rate d)
    (m_timer_busy d) (m_timer_ld d) (m_mix_buffer d) (m_fm d) (m_rom d).
Definition set_m_wavetblhdr (d : ymf278b_device) (v : Z) : ymf278b_device :=
  mk_dev (m_slots d) (m_pcmregs d) v (m_memmode d) (m_memadr d) (m_fm_l d)
    (m_fm_r d) (m_pcm_l d) (m_pcm_r d) (m_fm_pos d) (m_port_AB d)
    (m_port_C d) (m_lastport d) (m_next_status_id d) (m_clock d) (m_rate d)
    (m_timer_busy d) (m_timer_ld d) (m_mix_buffer d) (m_fm d) (m_rom d).
Definition set_m_memmode (d : ymf278b_device) (v : Z) : ymf278b_device :=
  mk_dev (m_slots d) (m_pcmregs d) (m_wavetblhdr d) v (m_memadr d)
    (m_fm_l d) (m_fm_r d) (m_pcm_l d) (m_pcm_r d) (m_fm_pos d) (m_port_AB d)
    (m_port_C d) (m_lastport d) (m_next_status_id d) (m_clock d) (m_rate d)
    (m_timer_busy d) (m_timer_ld d) (m_mix_buffer d) (m_fm d) (m_rom d).
Definition set_m_memadr (d : ymf278b_device) (v : Z) : ymf278b_device :=
  mk_dev (m_slots d) (m_pcmregs d) (m_wavetblhdr d) (m_memmode d) v
    (m_fm_l d) (m_fm_r d) (m_pcm_l d) (m_pcm_r d) (m_fm_pos d) (m_port_AB d)
    (m_port_C d) (m_lastport d) (m_next_status_id d) (m_clock d) (m_rate d)
    (m_timer_busy d) (m_timer_ld d) (m_mix_buffer d) (m_fm d) (m_rom d).
Definition set_m_fm_l (d : ymf278b_device) (v : Z) : ymf278b_device :=
  mk_dev (m_slots d) (m_pcmregs d) (m_wavetblhdr d) (m_memmode d)
    (m_memadr d) v (m_fm_r d) (m_pcm_l d) (m_pcm_r d) (m_fm_pos d)
    (m_port_AB d) (m_port_C d) (m_lastport d) (m_next_status_id d)
    (m_clock d) (m_rate d) (m_timer_busy d) (m_timer_ld d) (m_mix_buffer d)
    (m_fm d) (m_rom d).
Definition set_m_fm_r (d : ymf278b_device) (v : Z) : ymf278b_device :=
  mk_dev (m_slots d) (m_pcmregs d) (m_wavetblhdr d) (m_memmode d)
    (m_memadr d) (m_fm_l d) v (m_pcm_l d) (m_pcm_r d) (m_fm_pos d)
    (m_port_AB d) (m_port_C d) (m_lastport d) (m_next_status_id d)
    (m_clock d) (m_rate d) (m_timer_busy d) (m_timer_ld d) (m_mix_buffer d)
    (m_fm d) (m_rom d).
Definition set_m_pcm_l (d : ymf278b_device) (v : Z) : ymf278b_device :=
  mk_dev (m_slots d) (m_pcmregs d) (m_wavetblhdr d) (m_memmode d)
    (m_memadr d) (m_fm_l d) (m_fm_r d) v (m_pcm_r d) (m_fm_pos d)
    (m_port_AB d) (m_port_C d) (m_lastport d) (m_next_status_id d)
    (m_clock d) (m_rate d) (m_timer_busy d) (m_timer_ld d) (m_mix_buffer d)
    (m_fm d) (m_rom d).
Definition set_m_pcm_r (d : ymf278b_device) (v : Z) : ymf278b_device :=
  mk_dev (m_slots d) (m_pcmregs d) (m_wavetblhdr d) (m_memmode d)
    (m_memadr d) (m_fm_l d) (m_fm_r d) (m_pcm_l d) v (m_fm_pos d)
    (m_port_AB d) (m_port_C d) (m_lastport d) (m_next_status_id d)
    (m_clock d) (m_rate d) (m_timer_busy d) (m_timer_ld d) (m_mix_buffer d)
    (m_fm d) (m_rom d).
Definition set_m_fm_pos (d : ymf278b_device) (v : Z) : ymf278b_device :=
  mk_dev (m_slots d) (m_pcmregs d) (m_wavetblhdr d) (m_memmode d)
    (m_memadr d) (m_fm_l d) (m_fm_r d) (m_pcm_l d) (m_pcm_r d) v
    (m_port_AB d) (m_port_C d) (m_lastport d) (m_next_status_id d)
    (m_clock d) (m_rate d) (m_timer_busy d) (m_timer_ld d) (m_mix_buffer d)
    (m_fm d) (m_rom d).
Definition set_m_port_AB (d : ymf278b_device) (v : Z) : ymf278b_device :=
  mk_dev (m_slots d) (m_pcmregs d) (m_wavetblhdr d) (m_memmode d)
    (m_memadr d) (m_fm_l d) (m_fm_r d) (m_pcm_l d) (m_pcm_r d) (m_fm_pos d)
    v (m_port_C d) (m_lastport d) (m_next_status_id d) (m_clock d)
    (m_rate d) (m_timer_busy d) (m_timer_ld d) (m_mix_buffer d) (m_fm d)
    (m_rom d).
Definition set_m_port_C (d : ymf278b_device) (v : Z) : ymf278b_device :=
  mk_dev (m_slots d) (m_pcmregs d) (m_wavetblhdr d) (m_memmode d)
    (m_memadr d) (m_fm_l d) (m_fm_r d) (m_pcm_l d) (m_pcm_r d) (m_fm_pos d)
    (m_port_AB d) v (m_lastport d) (m_next_status_id d) (m_clock d)
    (m_rate d) (m_timer_busy d) (m_timer_ld d) (m_mix_buffer d) (m_fm d)
    (m_rom d).
Definition set_m_lastport (d : ymf278b_device) (v : Z) : ymf278b_device :=
  mk_dev (m_slots d) (m_pcmregs d) (m_wavetblhdr d) (m_memmode d)
    (m_memadr d) (m_fm_l d) (m_fm_r d) (m_pcm_l d) (m_pcm_r d) (m_fm_pos d)
    (m_port_AB d) (m_port_C d) v (m_next_status_id d) (m_clock d) (m_rate d)
    (m_timer_busy d) (m_timer_ld d) (m_mix_buffer d) (m_fm d) (m_rom d).
Definition set_m_next_status_id (d : ymf278b_device) (v : bool) : ymf278b_device :=
  mk_dev (m_slots d) (m_pcmregs d) (m_wavetblhdr d) (m_memmode d)
    (m_memadr d) (m_fm_l d) (m_fm_r d) (m_pcm_l d) (m_pcm_r d) (m_fm_pos d)
    (m_port_AB d) (m_port_C d) (m_lastport d) v (m_clock d) (m_rate d)
    (m_timer_busy d) (m_timer_ld d) (m_mix_buffer d) (m_fm d) (m_rom d).
Definition set_m_clock (d : ymf278b_device) (v : Z) : ymf278b_device :=
  mk_dev (m_slots d) (m_pcmregs d) (m_wavetblhdr d) (m_memmode d)
    (m_memadr d) (m_fm_l d) (m_fm_r d) (m_pcm_l d) (m_pcm_r d) (m_fm_pos d)
    (m_port_AB d) (m_port_C d) (m_lastport d) (m_next_status_id d) v
    (m_rate d) (m_timer_busy d) (m_timer_ld d) (m_mix_buffer d) (m_fm d)
    (m_rom d).
Definition set_m_rate (d : ymf278b_device) (v : Z) : ymf278b_device :=
  mk_dev (m_slots d) (m_pcmregs d) (m_wavetblhdr d) (m_memmode d)
    (m_memadr d) (m_fm_l d) (m_fm_r d) (m_pcm_l d) (m_pcm_r d) (m_fm_pos d)
    (m_port_AB d) (m_port_C d) (m_lastport d) (m_next_status_id d)
    (m_clock d) v (m_timer_busy d) (m_timer_ld d) (m_mix_buffer d) (m_fm d)
    (m_rom d).
Definition set_m_timer_busy (d : ymf278b_device) (v : option Z) : ymf278b_device :=
  mk_dev (m_slots d) (m_pcmregs d) (m_wavetblhdr d) (m_memmode d)
    (m_memadr d) (m_fm_l d) (m_fm_r d) (m_pcm_l d) (m_pcm_r d) (m_fm_pos d)
    (m_port_AB d) (m_port_C d) (m_lastport d) (m_next_status_id d)
    (m_clock d) (m_rate d) v (m_timer_ld d) (m_mix_buffer d) (m_fm d)
    (m_rom d).
Definition set_m_timer_ld (d : ymf278b_device) (v : option Z) : ymf278b_device :=
  mk_dev (m_slots d) (m_pcmregs d) (m_wavetblhdr d) (m_memmode d)
    (m_memadr d) (m_fm_l d) (m_fm_r d) (m_pcm_l d) (m_pcm_r d) (m_fm_pos d)
    (m_port_AB d) (m_port_C d) (m_lastport d) (m_next_status_id d)
    (m_clock d) (m_rate d) (m_timer_busy d) v (m_mix_buffer d) (m_fm d)
    (m_rom d).
Definition set_m_mix_buffer (d : ymf278b_device) (v : Z -> Z) : ymf278b_device :=
  mk_dev (m_slots d) (m_pcmregs d) (m_wavetblhdr d) (m_memmode d)
    (m_memadr d) (m_fm_l d) (m_fm_r d) (m_pcm_l d) (m_pcm_r d) (m_fm_pos d)
    (m_port_AB d) (m_port_C d) (m_lastport d) (m_next_status_id d)
    (m_clock d) (m_rate d) (m_timer_busy d) (m_timer_ld d) v (m_fm d)
    (m_rom d).
Definition set_m_fm (d : ymf278b_device) (v : fm_engine) : ymf278b_device :=
  mk_dev (m_slots d) (m_pcmregs d) (m_wavetblhdr d) (m_memmode d)
    (m_memadr d) (m_fm_l d) (m_fm_r d) (m_pcm_l d) (m_pcm_r d) (m_fm_pos d)
    (m_port_AB d) (m_port_C d) (m_lastport d) (m_next_status_id d)
    (m_clock d) (m_rate d) (m_timer_busy d) (m_timer_ld d) (m_mix_buffer d)
    v (m_rom d).
Definition set_m_rom (d : ymf278b_device) (v : rom_space) : ymf278b_device :=
  mk_dev (m_slots d) (m_pcmregs d) (m_wavetblhdr d) (m_memmode d)
    (m_memadr d) (m_fm_l d) (m_fm_r d) (m_pcm_l d) (m_pcm_r d) (m_fm_pos d)
    (m_port_AB d) (m_port_C d) (m_lastport d) (m_next_status_id d)
    (m_clock d) (m_rate d) (m_timer_busy d) (m_timer_ld d) (m_mix_buffer d)
    (m_fm d) v.

Definition set_slot (d : ymf278b_device) (snum : Z) (s : YMF278BSlot)
  : ymf278b_device :=
  set_m_slots d (upd (m_slots d) snum s).

(** *** Sample fetch and mix: the first loop of [sound_stream_update] *)

(** Arithmetic on [stepptr] wraps at the member's width. *)
Definition wrap_stepptr (x : Z) : Z := x mod 2 ^ stepptr_bits.

(** [read_byte] takes an [offs_t] and returns a byte. *)
Definition rd (rom : rom_space) (a : Z) : Z := u8 (read_byte rom (u32 a)).

(** The wrap at the end address. *)
Definition loop_wrap (slot : YMF278BSlot) : YMF278BSlot :=
  if stepptr slot >=? endaddr slot then
    set_stepptr slot
      (wrap_stepptr (stepptr slot - endaddr slot + loopaddr slot))
  else slot.

(** The [switch (slot->bits)]; [sample] is the function's local variable,
    which keeps its value when no case applies. *)
Definition fetch_sample (rom : rom_space) (slot : YMF278BSlot) (sample : Z)
  : Z :=
  let sp := stepptr slot in
  let start := startaddr slot in
  match bits slot with
  | 0 => s16 (Z.shiftl (rd rom (start + Z.shiftr sp 16)) 8)
  | 1 =>
      if nz (Z.land sp 0x10000) then
        s16 (Z.lor (Z.shiftl (rd rom (start + Z.shiftr sp 17 * 3 + 2)) 8)
                   (Z.land (rd rom (start + Z.shiftr sp 17 * 3 + 1)) 0xf0))
      else
        s16 (Z.lor (Z.shiftl (rd rom (start + Z.shiftr sp 17 * 3)) 8)
                   (Z.land
                      (Z.shiftl (rd rom (start + Z.shiftr sp 17 * 3 + 1)) 4)
                      0xf0))
  | 2 =>
      s16 (Z.lor (Z.shiftl (rd rom (start + Z.shiftr sp 16 * 2)) 8)
                 (rd rom (start + Z.shiftr sp 16 * 2 + 1)))
  | 3 => 0
  | _ => sample
  end.

(** [(sample * m_volume[TL + pan + (env_vol >> 23)]) >> 17] *)
Definition voice_out (slot : YMF278BSlot) (sample panv : Z) : Z :=
  Z.shiftr
    (s32 (sample * m_volume (TL slot + panv + Z.shiftr (env_vol slot) 23)))
    17.

(** [*mixp += v] on the [int32_t] mix buffer. *)
Definition mix_add (buf : Z -> Z) (k v : Z) : Z -> Z :=
  upd buf k (s32 (buf k + v)).

(** The envelope part of one sample. *)
Definition envelope_tick (slot : YMF278BSlot) : YMF278BSlot :=
  let slot := set_env_vol slot (u32 (env_vol slot + env_vol_step slot)) in
  if s32 (env_vol slot - env_vol_lim slot) >=? 0 then
    compute_envelope (set_env_step slot (env_step slot + 1))
  else if nz (preverb slot) && negb (nz (env_preverb slot))
          && nz (env_step slot) && (env_vol slot >? PREVERB_LEVEL)
  then compute_envelope slot
  else slot.

(** One pass of the inner loop, for output sample [j]: the four mix
    channels of that sample are [4*j .. 4*j+3], the first two being the DO2
    pair and the last two the DO1 pair. *)
Definition slot_sample (rom : rom_space) (j : Z)
  (x : YMF278BSlot * Z * (Z -> Z)) : YMF278BSlot * Z * (Z -> Z) :=
  let '(slot, sample, buf) := x in
  let slot := loop_wrap slot in
  let sample := fetch_sample rom slot sample in
  let base := 4 * j + (if nz (CH slot) then 2 else 0) in
  let buf :=
    mix_add buf base (voice_out slot sample (m_pan_left (pan slot))) in
  let buf :=
    mix_add buf (base + 1) (voice_out slot sample (m_pan_right (pan slot))) in
  let slot := set_stepptr slot (wrap_stepptr (stepptr slot + step slot)) in
  (envelope_tick slot, sample, buf).

Fixpoint slot_samples (rom : rom_space) (n : nat) (j : Z)
  (x : YMF278BSlot * Z * (Z -> Z)) : YMF278BSlot * Z * (Z -> Z) :=
  match n with
  | O => x
  | S n' => slot_samples rom n' (j + 1) (slot_sample rom j x)
  end.

(** The body of the outer loop: a slot that is not active is skipped. *)
Definition slot_update (rom : rom_space) (n : nat)
  (x : YMF278BSlot * Z * (Z -> Z)) : YMF278BSlot * Z * (Z -> Z) :=
  let '(slot, sample, buf) := x in
  if nz (active slot) then slot_samples rom n 0 x else x.

Definition slot_numbers : list Z := map Z.of_nat (seq 0 24).

Definition mix_slots (rom : rom_space) (n : nat) (slots : Z -> YMF278BSlot)
  : (Z -> YMF278BSlot) * Z * (Z -> Z) :=
  fold_left
    (fun (acc : (Z -> YMF278BSlot) * Z * (Z -> Z)) (i : Z) =>
       let '(slots, sample, buf) := acc in
       let '(slot', sample', buf') :=
         slot_update rom n (slots i, sample, buf) in
       (upd slots i slot', sample', buf'))
    slot_numbers (slots, 0, fun _ => 0).

(** *** FM clock resampler: the second loop of [sound_stream_update] *)

(** One output sample: the accumulator advances by [fm_step]; when bit 24
    comes up the engine gets an extra clock and the accumulator is masked;
    then the engine gets its regular clock. *)
Definition fm_resample_step (fm_step : Z) (x : Z * fm_engine)
  : Z * fm_engine :=
  let '(pos, fm) := x in
  let pos := u32 (pos + fm_step) in
  let '(pos, fm) :=
    if nz (BIT pos 24) then (Z.land pos 0xffffff, fm_clock fm)
    else (pos, fm) in
  (pos, fm_clock fm).

Fixpoint fm_resample (fm_step : Z) (n : nat) (x : Z * fm_engine)
  : Z * fm_engine :=
  match n with
  | O => x
  | S n' => fm_resample fm_step n' (fm_resample_step fm_step x)
  end.

(** The number of extra clocks the loop issues over [n] samples. *)
Fixpoint fm_extra_clocks (fm_step : Z) (n : nat) (pos : Z) : Z :=
  match n with
  | O => 0
  | S n' =>
      let pos := u32 (pos + fm_step) in
      if nz (BIT pos 24)
      then 1 + fm_extra_clocks fm_step n' (Z.land pos 0xffffff)
      else fm_extra_clocks fm_step n' pos
  end.

(** [sound_stream_update] for [n] output samples.  The conversion of the
    mix buffer and of the FM sums to the six output streams reads the state
    without changing it, and is not part of the model. *)
Definition sound_stream_update (n : nat) (dev : ymf278b_device)
  : ymf278b_device :=
  let '(slots, _, buf) := mix_slots (m_rom dev) n (m_slots dev) in
  let '(pos, fm) := fm_resample FM_STEP n (m_fm_pos dev, m_fm dev) in
  set_m_fm (set_m_fm_pos (set_m_mix_buffer (set_m_slots dev slots) buf) pos)
    fm.

(** *** Register decoder: [C_w] *)

(** Writes to the slot registers other than the wave number, as functions
    of the byte written, the byte the register held ([m_pcmregs[reg]]) and
    the slot.  [group] is [(reg-8) / 24]. *)
Definition slot_w (group data old : Z) (slot : YMF278BSlot) : YMF278BSlot :=
  match group with
  | 1 =>
      let slot :=
        set_wave slot
          (Z.lor (Z.land (wave slot) 0xff) (Z.shiftl (Z.land data 0x1) 8)) in
      let slot :=
        set_F_NUMBER slot
          (Z.lor (Z.land (F_NUMBER slot) 0x380) (Z.shiftr data 1)) in
      if nz (active slot) && nz (Z.land (Z.lxor data old) 0xfe)
      then compute_envelope (compute_freq_step slot)
      else slot
  | 2 =>
      let slot :=
        set_F_NUMBER slot
          (Z.lor (Z.land (F_NUMBER slot) 0x07f)
                 (Z.shiftl (Z.land data 0x07) 7)) in
      let slot := set_preverb slot (Z.shiftr (Z.land data 0x8) 3) in
      let slot := set_octave slot (Z.shiftr (Z.land data 0xf0) 4) in
      if negb (data =? old) then
        let slot := set_active slot (if octave slot =? 8 then 0 else 1) in
        if nz (active slot) then
          compute_envelope (compute_freq_step (set_env_preverb slot 0))
        else slot
      else slot
  | 3 => set_LD (set_TL slot (Z.shiftr data 1)) (Z.land data 0x1)
  | 4 =>
      let slot := set_CH slot (Z.shiftr (Z.land data 0x10) 4) in
      let slot := set_pan slot (Z.land data 0xf) in
      let slot := set_DAMP slot (Z.shiftr (Z.land data 0x40) 6) in
      if nz (Z.land data 0x80) then
        if nz (KEY_ON slot) then
          if nz (Z.land (Z.lxor data old) 0x40) then compute_envelope slot
          else slot
        else
          set_KEY_ON (retrigger_sample slot) (Z.shiftr (Z.land data 0x80) 7)
      else
        let slot :=
          if nz (active slot) then compute_envelope (set_env_step slot 4)
          else slot in
        set_KEY_ON slot (Z.shiftr (Z.land data 0x80) 7)
  | 5 =>
      set_VIB (set_LFO slot (Z.land (Z.shiftr data 3) 0x7)) (Z.land data 0x7)
  | 6 =>
      let slot := set_D1R (set_AR slot (Z.shiftr data 4)) (Z.land data 0xf) in
      if nz (active slot) && negb (data =? old) then compute_envelope slot
      else slot
  | 7 =>
      let slot := set_D2R (set_DL slot (Z.shiftr data 4)) (Z.land data 0xf) in
      if nz (active slot) && negb (data =? old) then compute_envelope slot
      else slot
  | 8 =>
      let slot := set_RR (set_RC slot (Z.shiftr data 4)) (Z.land data 0xf) in
      if nz (active slot) && negb (data =? old) then compute_envelope slot
      else slot
  | 9 => set_AM slot (Z.land data 0x7)
  | _ => slot
  end.

(** The address of the 12-byte header of wave number [wave]. *)
Definition header_offset (wavetblhdr wave : Z) : Z :=
  if (wave <? 384) || negb (nz wavetblhdr) then u32 (wave * 12)
  else u32 (wavetblhdr * 0x80000 + (wave - 384) * 12).

(** The header fields the wave-number write decodes into the slot;
    [p i] is the header byte [p[i]]. *)
Definition load_header (p : Z -> Z) (slot : YMF278BSlot) : YMF278BSlot :=
  let slot := set_bits slot (Z.shiftr (Z.land (p 0) 0xc0) 6) in
  let slot :=
    set_startaddr slot
      (Z.lor (Z.lor (p 2) (Z.shiftl (p 1) 8))
             (Z.shiftl (Z.land (p 0) 0x3f) 16)) in
  let slot :=
    set_loopaddr slot (u32 (Z.lor (Z.shiftl (p 4) 16) (Z.shiftl (p 3) 24))) in
  let slot :=
    set_endaddr slot (u32 (Z.lor (Z.shiftl (p 6) 16) (Z.shiftl (p 5) 24))) in
  let slot := set_endaddr slot (u32 (endaddr slot - 0x00010000)) in
  set_endaddr slot (Z.lxor (endaddr slot) 0xffff0000).

(** The header bytes copied to the slot's own registers:
    [for (i = 7; i < 12; i++) C_w(8 + snum + (i-2) * 24, p[i])]. *)
Definition copied_header_bytes : list Z := [7; 8; 9; 10; 11].

Definition copied_reg (snum i : Z) : Z := 8 + snum + (i - 2) * 24.

(** What the wave-number write does once the header has been copied. *)
Definition key_check (slot : YMF278BSlot) : YMF278BSlot :=
  if nz (KEY_ON slot) then retrigger_sample slot
  else if nz (active slot) then compute_envelope (set_env_step slot 5)
  else slot.

(** Case 0 of the slot registers, up to and including the register copy. *)
Definition wave_load (self : Z -> Z -> ymf278b_device -> ymf278b_device)
  (data snum : Z) (dev : ymf278b_device) : ymf278b_device :=
  let slot := m_slots dev snum in
  let slot := set_wave slot (Z.lor (Z.land (wave slot) 0x100) data) in
  let offset := header_offset (m_wavetblhdr dev) (wave slot) in
  let p := fun i => rd (m_rom dev) (offset + i) in
  let dev := set_slot dev snum (load_header p slot) in
  fold_left (fun d i => self (copied_reg snum i) (p i) d)
    copied_header_bytes dev.

Definition wave_w (self : Z -> Z -> ymf278b_device -> ymf278b_device)
  (data snum : Z) (dev : ymf278b_device) : ymf278b_device :=
  let dev := wave_load self data snum dev in
  let dev := set_m_fm dev (fm_set_reset_status STATUS_LD 0 (m_fm dev)) in
  let dev := set_m_timer_ld dev (Some 10) in
  set_slot dev snum (key_check (m_slots dev snum)).

(** The registers that belong to no slot; the result carries the byte that
    ends up in the register file (register 3 keeps six bits). *)
Definition global_w (reg data : Z) (dev : ymf278b_device)
  : ymf278b_device * Z :=
  match reg with
  | 0x02 =>
      (set_m_memmode
         (set_m_wavetblhdr dev (Z.land (Z.shiftr data 2) 0x7))
         (Z.land data 3), data)
  | 0x03 => (dev, Z.land data 0x3f)
  | 0x05 =>
      (set_m_memadr dev
         (u32 (Z.lor (Z.lor (Z.shiftl (m_pcmregs dev 3) 16)
                            (Z.shiftl (m_pcmregs dev 4) 8)) data)), data)
  | 0x06 =>
      (set_m_memadr
         (set_m_rom dev (write_byte (m_rom dev) (m_memadr dev) data))
         (Z.land (m_memadr dev + 1) 0x3fffff), data)
  | 0xf8 =>
      (set_m_fm_r (set_m_fm_l dev (Z.land data 0x7))
         (Z.land (Z.shiftr data 3) 0x7), data)
  | 0xf9 =>
      (set_m_pcm_r (set_m_pcm_l dev (Z.land data 0x7))
         (Z.land (Z.shiftr data 3) 0x7), data)
  | _ => (dev, data)
  end.

(** The body of [C_w]; [self] stands for the recursive call. *)
Definition C_w_body (self : Z -> Z -> ymf278b_device -> ymf278b_device)
  (reg data : Z) (dev : ymf278b_device) : ymf278b_device :=
  let '(dev, data) :=
    if (reg >=? 0x08) && (reg <=? 0xf7) then
      let snum := Z.rem (reg - 8) 24 in
      let group := Z.quot (reg - 8) 24 in
      if group =? 0 then (wave_w self data snum dev, data)
      else
        (set_slot dev snum
           (slot_w group data (m_pcmregs dev reg) (m_slots dev snum)), data)
    else global_w reg data dev in
  set_m_pcmregs dev (upd (m_pcmregs dev) reg data).

(** The recursive calls write registers of groups 5 to 9, which do not
    recurse: two unfoldings of the body are the whole function; see
    [C_w_unfold]. *)
Definition C_w : Z -> Z -> ymf278b_device -> ymf278b_device :=
  C_w_body (C_w_body (fun _ _ dev => dev)).

(** *** The bus interface: [write] and [read] *)

Definition timer_busy_start (is_pcm : bool) (dev : ymf278b_device)
  : ymf278b_device :=
  let dev := set_m_fm dev (fm_set_reset_status STATUS_BUSY 0 (m_fm dev)) in
  set_m_timer_busy dev
    (Some (Z.quot (m_clock dev) (if is_pcm then 88 else 56))).

(** [pending] is the number of output samples [m_stream->update()] makes
    the device produce before the register write takes effect; the sound
    system decides it from the time elapsed. *)
Definition write (pending : nat) (offset data : Z) (dev : ymf278b_device)
  : ymf278b_device :=
  match Z.land offset 7 with
  | 0 | 2 =>
      let dev := timer_busy_start false dev in
      set_m_lastport (set_m_port_AB dev data) (BIT offset 1)
  | 1 | 3 =>
      let dev := timer_busy_start false dev in
      let old := fm_new2flag (m_fm dev) in
      let dev :=
        set_m_fm dev
          (fm_write (Z.lor (m_port_AB dev) (Z.shiftl (m_lastport dev) 8))
             data (m_fm dev)) in
      if (old =? 0) && nz (fm_new2flag (m_fm dev))
      then set_m_next_status_id dev true
      else dev
  | 4 => set_m_port_C (timer_busy_start true dev) data
  | 5 =>
      if negb (nz (fm_new2flag (m_fm dev))) then dev
      else
        let dev := sound_stream_update pending dev in
        let dev := timer_busy_start true dev in
        C_w (m_port_C dev) data dev
  | _ => dev
  end.

Definition read (offset : Z) (dev : ymf278b_device) : Z * ymf278b_device :=
  match Z.land offset 7 with
  | 0 =>
      let ret := fm_status (m_fm dev) in
      if negb (nz (fm_new2flag (m_fm dev))) then
        let ret := u8 (Z.land ret (Z.lnot (Z.lor STATUS_BUSY STATUS_LD))) in
        if negb (nz (fm_newflag (m_fm dev))) then (Z.lor ret 0x06, dev)
        else (ret, dev)
      else if m_next_status_id dev then
        (Z.lor ret 0x02, set_m_next_status_id dev false)
      else (ret, dev)
  | 1 | 3 =>
      (fm_regs_read (Z.lor (m_port_AB dev) (Z.shiftl (m_lastport dev) 8))
         (m_fm dev), dev)
  | 5 =>
      if negb (nz (fm_new2flag (m_fm dev))) then (0, dev)
      else
        match m_port_C dev with
        | 2 => (Z.lor (Z.land (m_pcmregs dev (m_port_C dev)) 0x1f) 0x20, dev)
        | 6 =>
            (rd (m_rom dev) (m_memadr dev),
             set_m_memadr dev (Z.land (m_memadr dev + 1) 0x3fffff))
        | _ => (m_pcmregs dev (m_port_C dev), dev)
        end
  | _ => (0, dev)
  end.

(** *** [device_reset] *)

(** The registers in the order the reset clears them: 0 to 7 upwards, then
    0xff down to 8. *)
Definition reset_register_order : list Z :=
  map Z.of_nat (seq 0 8) ++ map (fun k => 255 - Z.of_nat k) (seq 0 248).

Definition reset_slot (slot : YMF278BSlot) : YMF278BSlot :=
  let slot := set_LFO slot 0 in
  let slot := set_VIB slot 0 in
  let slot := set_AR slot 0 in
  let slot := set_D1R slot 0 in
  let slot := set_DL slot 0 in
  let slot := set_D2R slot 0 in
  let slot := set_RC slot 0 in
  let slot := set_RR slot 0 in
  let slot := set_AM slot 0 in
  let slot := set_startaddr slot 0 in
  let slot := set_loopaddr slot 0 in
  let slot := set_endaddr slot 0 in
  compute_envelope (set_env_step slot 5).

Definition device_reset (dev : ymf278b_device) : ymf278b_device :=
  let dev := fold_left (fun d i => C_w i 0 d) reset_register_order dev in
  let dev := C_w 0xf8 0x1b dev in
  let dev := set_m_port_C (set_m_port_AB dev 0) 0 in
  let dev := set_m_lastport dev 0 in
  let dev := set_m_next_status_id dev false in
  let dev := set_m_memadr dev 0 in
  let dev :=
    fold_left (fun d i => set_slot d i (reset_slot (m_slots d i)))
      slot_numbers dev in
  let dev := set_m_timer_ld (set_m_timer_busy dev None) None in
  set_m_fm dev (fm_reset (m_fm dev)).

(** [device_start] and [device_clock_changed] zero the resampler. *)
Definition device_clock_changed (clock : Z) (dev : ymf278b_device)
  : ymf278b_device :=
  set_m_fm_pos (set_m_rate (set_m_clock dev clock) (Z.quot clock 768)) 0.

(* ---------------------------------------------------------------------- *)
(** ** Properties *)

(** Case analysis on a numeral a [match] inspects, down to the literals the
    match names. *)
Ltac split_numeral :=
  repeat match goal with
         | |- context [match ?p with xH => _ | xO _ => _ | xI _ => _ end] =>
             is_var p; destruct p
         end.

(** *** The two recursive functions are their bodies *)

Lemma compute_envelope_body_ext (g h : YMF278BSlot -> YMF278BSlot) slot :
  (env_step slot = 0 \/ env_step slot = 1 ->
   forall s, env_step s = env_step slot + 1 -> g s = h s) ->
  compute_envelope_body g slot = compute_envelope_body h slot.
Proof.
  intros H. unfold compute_envelope_body.
  destruct (env_step slot) as [|p|p] eqn:E; [| |reflexivity].
  - destruct (compute_rate slot (AR slot) =? 63); [|reflexivity].
    apply H; [left; reflexivity | slot_proj; rewrite E; reflexivity].
  - split_numeral; try reflexivity.
    destruct (nz (DL slot)); [reflexivity|].
    apply H; [right; reflexivity | slot_proj; try rewrite E; reflexivity].
Qed.

Lemma compute_envelope_unfold (slot : YMF278BSlot) :
  compute_envelope slot = compute_envelope_body compute_envelope slot.
Proof.
  unfold compute_envelope.
  apply compute_envelope_body_ext. intros H0 s1 E1.
  apply compute_envelope_body_ext. intros H1 s2 E2.
  apply compute_envelope_body_ext. intros H2 s3 E3. lia.
Qed.

(** *** What the envelope functions touch *)

(** A slot whose envelope members and [active] flag are replaced. *)
Definition env_frame (s : YMF278BSlot) (a es ev evs evl ep : Z)
  : YMF278BSlot :=
  set_active
    (set_env_step
       (set_env_vol
          (set_env_vol_step (set_env_vol_lim (set_env_preverb s ep) evl) evs)
          ev) es) a.

(** [s'] differs from [s] in the envelope members and [active] at most. *)
Definition env_only (s s' : YMF278BSlot) : Prop :=
  exists a es ev evs evl ep, s' = env_frame s a es ev evs evl ep.

Lemma env_only_refl s : env_only s s.
Proof.
  exists (active s), (env_step s), (env_vol s), (env_vol_step s),
    (env_vol_lim s), (env_preverb s).
  destruct s; reflexivity.
Qed.

Lemma env_only_trans s1 s2 s3 :
  env_only s1 s2 -> env_only s2 s3 -> env_only s1 s3.
Proof.
  intros (a & es & ev & evs & evl & ep & ->)
         (a' & es' & ev' & evs' & evl' & ep' & ->).
  exists a', es', ev', evs', evl', ep'. destruct s1; reflexivity.
Qed.

Ltac env_only_now :=
  match goal with
  | |- env_only ?s ?t =>
      exists (active t), (env_step t), (env_vol t), (env_vol_step t),
        (env_vol_lim t), (env_preverb t);
      destruct s; reflexivity
  end.

Lemma decay_phase_env_only s val lim : env_only s (decay_phase s val lim).
Proof.
  unfold decay_phase, compute_decay_env_vol_step.
  destruct (nz (DAMP s)); [env_only_now|].
  destruct (nz (preverb s) && (env_vol s >? PREVERB_LEVEL)); env_only_now.
Qed.

Lemma voice_off_env_only s : env_only s (voice_off s).
Proof. unfold voice_off. env_only_now. Qed.

Lemma compute_envelope_body_env_only g :
  (forall s, env_only s (g s)) ->
  forall s, env_only s (compute_envelope_body g s).
Proof.
  intros Hg s. unfold compute_envelope_body.
  destruct (env_step s) as [|p|p] eqn:E; [| |apply env_only_refl].
  - destruct (compute_rate s (AR s) =? 63).
    + eapply env_only_trans; [|apply Hg]. env_only_now.
    + destruct (compute_rate s (AR s) <? 4); env_only_now.
  - split_numeral;
      try apply env_only_refl; try apply decay_phase_env_only;
      try apply voice_off_env_only.
    destruct (nz (DL s)); [apply decay_phase_env_only|].
    eapply env_only_trans; [|apply Hg]. env_only_now.
Qed.

Lemma compute_envelope_env_only s : env_only s (compute_envelope s).
Proof.
  unfold compute_envelope.
  do 3 apply compute_envelope_body_env_only. apply env_only_refl.
Qed.

(** *** Equations of [compute_envelope], phase by phase *)

Lemma compute_envelope_attack s :
  env_step s = ATTACK ->
  compute_envelope s =
  let rate := compute_rate s (AR s) in
  let s1 := set_env_vol_lim (set_env_vol s ENV_OFF) (ENV_OFF - 1) in
  if rate =? 63 then compute_envelope (set_env_step (set_env_vol s1 0) 1)
  else if rate <? 4 then set_env_vol_step s1 0
  else set_env_vol_step s1
         (u32 (Z.lnot (Z.quot ENV_OFF (u32 (m_lut_ar rate))))).
Proof.
  intros E. rewrite compute_envelope_unfold at 1.
  unfold compute_envelope_body. rewrite E. cbn zeta. slot_proj.
  rewrite E. reflexivity.
Qed.

Lemma compute_envelope_decay1 s :
  env_step s = DECAY1 ->
  compute_envelope s =
  if nz (DL s) then decay_phase s (D1R s) (u32 (Z.shiftl (DL s * 8) 23))
  else compute_envelope (set_env_step s 2).
Proof.
  intros E. rewrite compute_envelope_unfold at 1.
  unfold compute_envelope_body. rewrite E. reflexivity.
Qed.

Lemma compute_envelope_decay2 s :
  env_step s = DECAY2 ->
  compute_envelope s = decay_phase s (D2R s) ENV_OFF.
Proof.
  intros E. rewrite compute_envelope_unfold.
  unfold compute_envelope_body. rewrite E. reflexivity.
Qed.

Lemma compute_envelope_release s :
  env_step s = RELEASE ->
  compute_envelope s = decay_phase s (RR s) ENV_OFF.
Proof.
  intros E. rewrite compute_envelope_unfold.
  unfold compute_envelope_body. rewrite E. reflexivity.
Qed.

Lemma compute_envelope_done s :
  env_step s = DECAY2_DONE \/ env_step s = RELEASE_DONE ->
  compute_envelope s = voice_off s.
Proof.
  intros [E|E]; rewrite compute_envelope_unfold;
    unfold compute_envelope_body; rewrite E; reflexivity.
Qed.

Lemma compute_envelope_other s :
  env_step s < 0 \/ 5 < env_step s -> compute_envelope s = s.
Proof.
  intros E. rewrite compute_envelope_unfold. unfold compute_envelope_body.
  destruct (env_step s) as [|p|p]; [lia| |reflexivity].
  split_numeral; try reflexivity; lia.
Qed.

(** A decay-type phase sets the step and the limit, and may latch the
    pseudo-reverb flag; nothing else. *)
Lemma decay_phase_fields s val lim :
  env_step (decay_phase s val lim) = env_step s /\
  active (decay_phase s val lim) = active s /\
  env_vol (decay_phase s val lim) = env_vol s /\
  env_vol_lim (decay_phase s val lim) = lim.
Proof.
  unfold decay_phase, compute_decay_env_vol_step.
  destruct (nz (DAMP s)); [repeat split|].
  destruct (nz (preverb s) && (env_vol s >? PREVERB_LEVEL)); repeat split.
Qed.

(** The phase [compute_envelope] leaves the slot in. *)
Definition settled_phase (s : YMF278BSlot) : Z :=
  if env_step s =? ATTACK then
    if compute_rate s (AR s) =? 63 then
      if nz (DL s) then DECAY1 else DECAY2
    else ATTACK
  else if env_step s =? DECAY1 then
    if nz (DL s) then DECAY1 else DECAY2
  else env_step s.

Definition terminal (es : Z) : bool := (es =? DECAY2_DONE) || (es =? RELEASE_DONE).

Lemma phase_cases (es : Z) :
  es = ATTACK \/ es = DECAY1 \/ es = DECAY2 \/ es = DECAY2_DONE \/
  es = RELEASE \/ es = RELEASE_DONE \/ (es < 0 \/ 5 < es).
Proof. unfold ATTACK, DECAY1, DECAY2, DECAY2_DONE, RELEASE, RELEASE_DONE. lia. Qed.

Lemma compute_envelope_phase s :
  env_step (compute_envelope s) = settled_phase s /\
  active (compute_envelope s) =
    (if terminal (env_step s) then 0 else active s).
Proof.
  assert (H2 : forall t, env_step t = DECAY2 ->
            env_step (compute_envelope t) = DECAY2 /\
            active (compute_envelope t) = active t).
  { intros t E. rewrite (compute_envelope_decay2 t E).
    destruct (decay_phase_fields t (D2R t) ENV_OFF) as (-> & -> & _).
    split; [exact E | reflexivity]. }
  assert (H1 : forall t, env_step t = DECAY1 ->
            env_step (compute_envelope t) =
              (if nz (DL t) then DECAY1 else DECAY2) /\
            active (compute_envelope t) = active t).
  { intros t E. rewrite (compute_envelope_decay1 t E).
    destruct (nz (DL t)).
    - destruct (decay_phase_fields t (D1R t) (u32 (Z.shiftl (DL t * 8) 23)))
        as (-> & -> & _). split; [exact E | reflexivity].
    - destruct (H2 (set_env_step t 2) eq_refl) as [-> ->].
      split; reflexivity. }
  unfold settled_phase, terminal.
  destruct (phase_cases (env_step s)) as [E|[E|[E|[E|[E|[E|E]]]]]].
  - rewrite (compute_envelope_attack s E), E. cbn zeta.
    change (ATTACK =? ATTACK) with true. cbn iota.
    change ((ATTACK =? DECAY2_DONE) || (ATTACK =? RELEASE_DONE)) with false.
    cbn iota.
    destruct (compute_rate s (AR s) =? 63).
    + match goal with |- context [compute_envelope ?t] =>
        destruct (H1 t eq_refl) as [-> ->] end.
      split; reflexivity.
    + destruct (compute_rate s (AR s) <? 4); slot_proj; split;
        solve [exact E | reflexivity].
  - destruct (H1 s E) as [-> ->]. rewrite E. split; reflexivity.
  - destruct (H2 s E) as [-> ->]. rewrite E. split; reflexivity.
  - rewrite (compute_envelope_done s (or_introl E)), E.
    unfold voice_off. slot_proj. split; [exact E | reflexivity].
  - rewrite (compute_envelope_release s E).
    destruct (decay_phase_fields s (RR s) ENV_OFF) as (-> & -> & _).
    rewrite E. split; reflexivity.
  - rewrite (compute_envelope_done s (or_intror E)), E.
    unfold voice_off. slot_proj. split; [exact E | reflexivity].
  - rewrite (compute_envelope_other s E).
    assert (Hn : (env_step s =? ATTACK) = false /\
                 (env_step s =? DECAY1) = false /\
                 (env_step s =? DECAY2_DONE) = false /\
                 (env_step s =? RELEASE_DONE) = false).
    { unfold ATTACK, DECAY1, DECAY2_DONE, RELEASE_DONE. lia. }
    destruct Hn as (-> & -> & -> & ->). split; reflexivity.
Qed.

(** *** Equations of [C_w] *)

(** Reduction of the device's member accesses, through assignments. *)
Ltac dev_proj :=
  cbn [m_slots m_pcmregs m_wavetblhdr m_memmode m_memadr m_fm_l m_fm_r
       m_pcm_l m_pcm_r m_fm_pos m_port_AB m_port_C m_lastport
       m_next_status_id m_clock m_rate m_timer_busy m_timer_ld m_mix_buffer
       m_fm m_rom
       set_m_slots set_m_pcmregs set_m_wavetblhdr set_m_memmode set_m_memadr
       set_m_fm_l set_m_fm_r set_m_pcm_l set_m_pcm_r set_m_fm_pos
       set_m_port_AB set_m_port_C set_m_lastport set_m_next_status_id
       set_m_clock set_m_rate set_m_timer_busy set_m_timer_ld
       set_m_mix_buffer set_m_fm set_m_rom set_slot].

(** The slot number and the register group of a slot register. *)
Definition snum_of (reg : Z) : Z := Z.rem (reg - 8) 24.
Definition group_of (reg : Z) : Z := Z.quot (reg - 8) 24.

Definition is_slot_reg (reg : Z) : bool := (reg >=? 0x08) && (reg <=? 0xf7).

Lemma slot_reg_decompose reg :
  is_slot_reg reg = true ->
  0 <= snum_of reg < 24 /\ 0 <= group_of reg <= 9 /\
  reg = 8 + snum_of reg + group_of reg * 24.
Proof.
  unfold is_slot_reg, snum_of, group_of. intros H.
  apply andb_true_iff in H. destruct H as [H1 H2].
  assert (Hr : 0 <= reg - 8 <= 239) by lia.
  rewrite Z.quot_div_nonneg, Z.rem_mod_nonneg by lia.
  pose proof (Z.div_mod (reg - 8) 24 ltac:(lia)).
  pose proof (Z.mod_pos_bound (reg - 8) 24 ltac:(lia)).
  assert (0 <= (reg - 8) / 24) by (apply Z.div_pos; lia).
  assert ((reg - 8) / 24 < 10) by (apply Z.div_lt_upper_bound; lia).
  lia.
Qed.

Lemma copied_reg_slot snum i :
  0 <= snum < 24 -> 7 <= i <= 11 ->
  is_slot_reg (copied_reg snum i) = true /\
  snum_of (copied_reg snum i) = snum /\
  group_of (copied_reg snum i) = i - 2.
Proof.
  intros Hs Hi. unfold is_slot_reg, snum_of, group_of, copied_reg.
  split; [lia|].
  replace (8 + snum + (i - 2) * 24 - 8) with (snum + (i - 2) * 24) by lia.
  rewrite Z.quot_div_nonneg, Z.rem_mod_nonneg by lia.
  rewrite Z.mod_add, Z.div_add by lia.
  rewrite Z.mod_small, Z.div_small by lia. lia.
Qed.

(** A write to a slot register of groups 1 to 9. *)
Lemma C_w_body_plain self reg data dev :
  is_slot_reg reg = true -> group_of reg <> 0 ->
  C_w_body self reg data dev =
  set_m_pcmregs
    (set_slot dev (snum_of reg)
       (slot_w (group_of reg) data (m_pcmregs dev reg)
          (m_slots dev (snum_of reg))))
    (upd (m_pcmregs dev) reg data).
Proof.
  intros Hr Hg. unfold C_w_body. fold (is_slot_reg reg). rewrite Hr.
  fold (group_of reg) (snum_of reg).
  apply Z.eqb_neq in Hg. rewrite Hg. reflexivity.
Qed.

Lemma C_w_plain reg data dev :
  is_slot_reg reg = true -> group_of reg <> 0 ->
  C_w reg data dev =
  set_m_pcmregs
    (set_slot dev (snum_of reg)
       (slot_w (group_of reg) data (m_pcmregs dev reg)
          (m_slots dev (snum_of reg))))
    (upd (m_pcmregs dev) reg data).
Proof. intros Hr Hg. unfold C_w. apply C_w_body_plain; assumption. Qed.

(** A write to a register that belongs to no slot. *)
Lemma C_w_global reg data dev :
  is_slot_reg reg = false ->
  C_w reg data dev =
  set_m_pcmregs (fst (global_w reg data dev))
    (upd (m_pcmregs (fst (global_w reg data dev))) reg
       (snd (global_w reg data dev))).
Proof.
  intros Hr. unfold C_w, C_w_body. fold (is_slot_reg reg). rewrite Hr.
  destruct (global_w reg data dev); reflexivity.
Qed.

(** The copy loop of the wave-number write only reaches groups 5 to 9, so
    it does not depend on what stands for the recursive call. *)
Lemma wave_load_ext self1 self2 data snum dev :
  0 <= snum < 24 ->
  wave_load (C_w_body self1) data snum dev =
  wave_load (C_w_body self2) data snum dev.
Proof.
  intros Hs. unfold wave_load, copied_header_bytes. cbn [fold_left].
  repeat match goal with
  | |- context [C_w_body self1 (copied_reg snum ?i) ?d ?x] =>
      destruct (copied_reg_slot snum i Hs ltac:(lia)) as (Hr & _ & Hg);
      rewrite (C_w_body_plain self1 (copied_reg snum i) d x Hr ltac:(lia));
      rewrite <- (C_w_body_plain self2 (copied_reg snum i) d x Hr ltac:(lia));
      clear Hr Hg
  end.
  reflexivity.
Qed.

Lemma C_w_unfold reg data dev : C_w reg data dev = C_w_body C_w reg data dev.
Proof.
  unfold C_w at 1. unfold C_w_body at 1 3.
  destruct ((reg >=? 8) && (reg <=? 247)) eqn:Hr; [|reflexivity].
  destruct (Z.quot (reg - 8) 24 =? 0) eqn:Hg; [|reflexivity].
  destruct (slot_reg_decompose reg Hr) as (Hs & _ & _).
  unfold wave_w. fold (snum_of reg).
  rewrite (wave_load_ext (fun _ _ d => d) (C_w_body (fun _ _ d => d)))
    by exact Hs.
  reflexivity.
Qed.

(** A write to the wave-number register of a slot. *)
Lemma C_w_wave reg data dev :
  is_slot_reg reg = true -> group_of reg = 0 ->
  C_w reg data dev =
  let d1 := wave_w C_w data (snum_of reg) dev in
  set_m_pcmregs d1 (upd (m_pcmregs d1) reg data).
Proof.
  intros Hr Hg. rewrite C_w_unfold. unfold C_w_body.
  fold (is_slot_reg reg) (group_of reg) (snum_of reg).
  rewrite Hr, Hg. reflexivity.
Qed.

(** *** Key on, key off and the skipped phases *)

(** A single-bit mask selects that bit. *)
Lemma land_bit (a k : Z) :
  0 <= k -> Z.land a (2 ^ k) = Z.shiftl (Z.b2z (Z.testbit a k)) k.
Proof.
  intros Hk. apply Z.bits_inj'. intros n Hn.
  rewrite Z.land_spec, Z.pow2_bits_eqb by lia.
  destruct (Z.eqb_spec k n) as [->|Hne].
  - rewrite Z.shiftl_spec, Z.sub_diag by lia.
    destruct (Z.testbit a n); reflexivity.
  - rewrite andb_false_r. symmetry.
    destruct (Z.testbit a k); cbn [Z.b2z].
    + rewrite Z.shiftl_1_l, Z.pow2_bits_eqb by lia.
      apply Z.eqb_neq. exact Hne.
    + rewrite Z.shiftl_0_l. apply Z.bits_0.
Qed.

Lemma key_bit data :
  nz (Z.land data 0x80) = Z.testbit data 7 /\
  Z.shiftr (Z.land data 0x80) 7 = Z.b2z (Z.testbit data 7).
Proof.
  change 0x80 with (2 ^ 7). rewrite land_bit by lia.
  destruct (Z.testbit data 7); split; reflexivity.
Qed.

(** The slot as [retrigger_sample] hands it to [compute_envelope]. *)
Lemma retrigger_sample_phase s :
  env_step (retrigger_sample s) =
    (if compute_rate s (AR s) =? 63
     then if nz (DL s) then DECAY1 else DECAY2
     else ATTACK) /\
  stepptr (retrigger_sample s) = 0 /\
  active (retrigger_sample s) = (if octave s =? 8 then active s else 1) /\
  (compute_rate s (AR s) = 63 -> env_vol (retrigger_sample s) = 0).
Proof.
  unfold retrigger_sample.
  set (t := compute_freq_step _).
  assert (Ht : env_step t = ATTACK /\ stepptr t = 0 /\
               active t = (if octave s =? 8 then active s else 1) /\
               DL t = DL s /\ AR t = AR s /\
               compute_rate t (AR t) = compute_rate s (AR s)).
  { unfold t, compute_freq_step.
    destruct (octave s =? 8); destruct s; repeat split. }
  destruct Ht as (E & Hp & Ha & Hdl & Har & Hrate).
  destruct (compute_envelope_phase t) as [Hes Hact].
  destruct (compute_envelope_env_only t)
    as (a & es & ev & evs & evl & ep & Hfr).
  repeat split.
  - rewrite Hes. unfold settled_phase. rewrite E, Hrate, Hdl. reflexivity.
  - rewrite Hfr. unfold env_frame. slot_proj. exact Hp.
  - rewrite Hact, E. cbn. exact Ha.
  - intros H63. rewrite (compute_envelope_attack t E). cbn zeta.
    rewrite Hrate, H63. cbn [Z.eqb Pos.eqb].
    match goal with |- context [compute_envelope ?u] =>
      destruct (compute_envelope_decay1 u eq_refl) as [];
      rewrite (compute_envelope_decay1 u eq_refl);
      destruct (nz (DL u));
        [ destruct (decay_phase_fields u (D1R u) (u32 (Z.shiftl (DL u * 8) 23)))
            as (_ & _ & -> & _)
        | rewrite (compute_envelope_decay2 (set_env_step u 2) eq_refl);
          destruct (decay_phase_fields (set_env_step u 2)
                      (D2R (set_env_step u 2)) ENV_OFF) as (_ & _ & -> & _) ]
    end; reflexivity.
Qed.

(** C6.  Envelope phase transitions.  (0) A write to a key-on register
    (group 4 of a slot) acts on that slot as [slot_w 4].  (1) Key-on of a voice
    whose key was off restarts it from Attack: the phase after the write is
    Attack unless the attack rate is 63, and the sample position is 0.
    (2) Key-off on an active voice puts it in Release whatever its phase was.
    (3) An attack with the maximum rate code 15 leaves Attack within the same
    [compute_envelope] call, with the volume at full-on (attenuation 0), for
    Decay1.  (4) Decay1 with a decay level of 0 is skipped within the call,
    for Decay2; so the attack of (3) ends in Decay1 when the decay level is
    not 0 and in Decay2 when it is. *)
Theorem envelope_transitions :
  (forall reg data dev,
     is_slot_reg reg = true -> group_of reg = 4 ->
     m_slots (C_w reg data dev) (snum_of reg) =
     slot_w 4 data (m_pcmregs dev reg) (m_slots dev (snum_of reg))) /\
  (forall data old slot,
     nz (Z.land data 0x80) = true -> KEY_ON slot = 0 ->
     let s' := slot_w 4 data old slot in
     KEY_ON s' = 1 /\ stepptr s' = 0 /\
     (compute_rate slot (AR slot) <> 63 -> env_step s' = ATTACK) /\
     env_step s' = settled_phase (set_env_step slot ATTACK)) /\
  (forall data old slot,
     nz (Z.land data 0x80) = false -> nz (active slot) = true ->
     let s' := slot_w 4 data old slot in
     env_step s' = RELEASE /\ KEY_ON s' = 0 /\ active s' = active slot) /\
  (forall slot,
     env_step slot = ATTACK -> AR slot = 15 ->
     let s' := compute_envelope slot in
     env_vol s' = 0 /\
     env_step s' = (if nz (DL slot) then DECAY1 else DECAY2)) /\
  (forall slot,
     env_step slot = DECAY1 -> DL slot = 0 ->
     env_step (compute_envelope slot) = DECAY2).
Proof.
  split; [|split; [|split; [|split]]].
  - intros reg data dev Hr Hg.
    rewrite C_w_plain by (rewrite ?Hg; assumption || discriminate).
    rewrite Hg. dev_proj. apply upd_same.
  - intros data old slot Hk Hoff. cbn zeta.
    destruct (key_bit data) as [Hb Hs]. rewrite Hk in Hb.
    unfold slot_w. cbn iota. rewrite Hk. slot_proj. rewrite Hoff.
    cbn [nz Z.eqb negb]. rewrite Hs, <- Hb. cbn [Z.b2z].
    match goal with |- context [retrigger_sample ?t] =>
      destruct (retrigger_sample_phase t) as (He & Hp & _ & _);
      assert (Hrate : compute_rate t (AR t) = compute_rate slot (AR slot))
        by (destruct slot; reflexivity);
      assert (Hdl : DL t = DL slot) by (destruct slot; reflexivity)
    end.
    rewrite Hrate, Hdl in He.
    slot_proj. repeat split.
    + exact Hp.
    + intros Hne. rewrite He. apply Z.eqb_neq in Hne. rewrite Hne. reflexivity.
    + rewrite He. unfold settled_phase.
      replace (compute_rate (set_env_step slot ATTACK)
                 (AR (set_env_step slot ATTACK)))
        with (compute_rate slot (AR slot)) by (destruct slot; reflexivity).
      reflexivity.
  - intros data old slot Hk Hact. cbn zeta.
    destruct (key_bit data) as [Hb Hs]. rewrite Hk in Hb.
    unfold slot_w. cbn iota. rewrite Hk. slot_proj. rewrite Hact.
    rewrite Hs, <- Hb. cbn [Z.b2z].
    rewrite compute_envelope_release by reflexivity.
    slot_proj.
    match goal with |- context [decay_phase ?t ?v ?l] =>
      destruct (decay_phase_fields t v l) as (He & Ha & _ & _) end.
    rewrite He, Ha. repeat split.
  - intros slot E Har. cbn zeta.
    assert (Hrate : compute_rate slot (AR slot) = 63)
      by (rewrite Har; reflexivity).
    destruct (compute_envelope_phase slot) as [-> _].
    unfold settled_phase. rewrite E, Hrate. split; [|reflexivity].
    rewrite (compute_envelope_attack slot E). cbn zeta. rewrite Hrate.
    cbn [Z.eqb Pos.eqb].
    match goal with |- context [compute_envelope ?u] =>
      rewrite (compute_envelope_decay1 u eq_refl);
      destruct (nz (DL u));
        [ destruct (decay_phase_fields u (D1R u) (u32 (Z.shiftl (DL u * 8) 23)))
            as (_ & _ & -> & _)
        | rewrite (compute_envelope_decay2 (set_env_step u 2) eq_refl);
          destruct (decay_phase_fields (set_env_step u 2)
                      (D2R (set_env_step u 2)) ENV_OFF) as (_ & _ & -> & _) ]
    end; reflexivity.
  - intros slot E Hdl.
    destruct (compute_envelope_phase slot) as [-> _].
    unfold settled_phase. rewrite E, Hdl. reflexivity.
Qed.

(** *** The PCM port behind NEW2 *)

Lemma land7_cases offset :
  Z.land offset 7 = 0 \/ Z.land offset 7 = 1 \/ Z.land offset 7 = 2 \/
  Z.land offset 7 = 3 \/ Z.land offset 7 = 4 \/ Z.land offset 7 = 5 \/
  Z.land offset 7 = 6 \/ Z.land offset 7 = 7.
Proof.
  change 7 with (Z.ones 3) at 1 2 3 4 5 6 7 8.
  rewrite Z.land_ones by lia.
  pose proof (Z.mod_pos_bound offset (2 ^ 3) ltac:(lia)).
  change (2 ^ 3) with 8 in *. lia.
Qed.

(** C10.  While the FM register bank's NEW2 flag is clear: a data write to
    port offset 5 returns the device exactly as it was, in particular the
    PCM register file and the 24 slots; a read from offset 5 returns 0 and
    changes nothing; and no write at any offset changes the PCM register
    file or a slot, so the register file is out of reach until a write to the
    FM bank has set NEW2. *)
Theorem pcm_port_gated_by_new2 (pending : nat) (offset data : Z)
  (dev : ymf278b_device) :
  fm_new2flag (m_fm dev) = 0 ->
  (Z.land offset 7 = 5 ->
     write pending offset data dev = dev /\ read offset dev = (0, dev)) /\
  m_pcmregs (write pending offset data dev) = m_pcmregs dev /\
  m_slots (write pending offset data dev) = m_slots dev /\
  m_pcmregs (snd (read offset dev)) = m_pcmregs dev /\
  m_slots (snd (read offset dev)) = m_slots dev.
Proof.
  intros Hnew.
  assert (H5 : Z.land offset 7 = 5 ->
               write pending offset data dev = dev /\
               read offset dev = (0, dev)).
  { intros E. unfold write, read. rewrite E, Hnew. split; reflexivity. }
  split; [exact H5|].
  destruct (land7_cases offset) as [E|[E|[E|[E|[E|[E|[E|E]]]]]]];
    try (destruct (H5 E) as [-> ->]; repeat split; reflexivity);
    unfold write, read; rewrite E; cbn iota; rewrite ?Hnew; cbn iota;
    repeat split;
    repeat match goal with
           | |- context [if ?c then _ else _] => destruct c
           end; reflexivity.
Qed.

(** *** The loop wrap *)

(** C8.  When the phase has reached or passed the end address [E] and the
    loop address [L] is below [E], the wrap sets the phase to
    [phase - E + L]: the wrap-around arithmetic of the accumulator does not
    come into play, the result is not negative, and it lies in [L, phase).
    This is the first thing [slot_sample] does, so the sample it fetches is
    read at the wrapped phase. *)
Theorem loop_wrap_exact (slot : YMF278BSlot) :
  0 <= loopaddr slot < endaddr slot ->
  endaddr slot <= stepptr slot < 2 ^ stepptr_bits ->
  let phase_new := stepptr (loop_wrap slot) in
  phase_new = stepptr slot - endaddr slot + loopaddr slot /\
  0 <= phase_new /\
  loopaddr slot <= phase_new < stepptr slot /\
  (forall rom j sample buf,
     snd (fst (slot_sample rom j (slot, sample, buf)))
     = fetch_sample rom (loop_wrap slot) sample).
Proof.
  intros HL HE. cbn zeta.
  assert (Hw : stepptr (loop_wrap slot)
               = stepptr slot - endaddr slot + loopaddr slot).
  { unfold loop_wrap.
    destruct (stepptr slot >=? endaddr slot) eqn:E; [|lia].
    slot_proj. unfold wrap_stepptr. apply Z.mod_small. lia. }
  rewrite Hw. repeat split; try lia.
Qed.

(** *** The FM clock resampler *)

Lemma FM_STEP_value : FM_STEP = 2060359.
Proof. vm_compute. reflexivity. Qed.

(** One step of the accumulator with a fractional step: bit 24 comes up
    exactly when the sum reaches [2^24], and the mask takes [2^24] off. *)
Lemma fm_pos_step (fm_step pos : Z) :
  0 <= fm_step < 2 ^ 24 -> 0 <= pos < 2 ^ 24 ->
  let pos1 := u32 (pos + fm_step) in
  pos1 = pos + fm_step /\
  (nz (BIT pos1 24) = true ->
     2 ^ 24 <= pos + fm_step /\
     Z.land pos1 0xffffff = pos + fm_step - 2 ^ 24) /\
  (nz (BIT pos1 24) = false -> pos + fm_step < 2 ^ 24).
Proof.
  intros HS Hp. cbn zeta.
  change (2 ^ 24) with 16777216 in *.
  assert (E : u32 (pos + fm_step) = pos + fm_step).
  { unfold u32. apply Z.mod_small. change (2 ^ 32) with 4294967296. lia. }
  rewrite E. split; [reflexivity|].
  unfold BIT, nz. rewrite Z.shiftr_div_pow2 by lia.
  change (2 ^ 24) with 16777216.
  change 0xffffff with (Z.ones 24). rewrite Z.land_ones by lia.
  change (2 ^ 24) with 16777216.
  destruct (Z_lt_ge_dec (pos + fm_step) 16777216) as [Hlt|Hge].
  - rewrite Z.div_small by lia. cbn. split; [discriminate | intros _; lia].
  - assert (Hq : (pos + fm_step) / 16777216 = 1).
    { symmetry. apply (Z.div_unique _ _ 1 (pos + fm_step - 16777216)); lia. }
    rewrite Hq. cbn. split; [|discriminate].
    intros _. split; [lia|].
    symmetry. apply (Z.mod_unique _ _ 1); lia.
Qed.

(** The accumulator after [n] samples. *)
Fixpoint fm_pos_after (fm_step : Z) (n : nat) (pos : Z) : Z :=
  match n with
  | O => pos
  | S n' =>
      let pos := u32 (pos + fm_step) in
      fm_pos_after fm_step n'
        (if nz (BIT pos 24) then Z.land pos 0xffffff else pos)
  end.

Lemma fm_extra_clocks_nonneg fm_step n : forall pos,
  0 <= fm_extra_clocks fm_step n pos.
Proof.
  induction n as [|n IH]; intros pos; cbn [fm_extra_clocks]; [lia|].
  cbn zeta. destruct (nz (BIT (u32 (pos + fm_step)) 24)).
  - specialize (IH (Z.land (u32 (pos + fm_step)) 0xffffff)). lia.
  - apply IH.
Qed.

(** The loop itself: its accumulator, and the clocks the engine gets. *)
Lemma fm_resample_run fm_step n : forall pos fm,
  fm_resample fm_step n (pos, fm)
  = (fm_pos_after fm_step n pos,
     Nat.iter (n + Z.to_nat (fm_extra_clocks fm_step n pos)) fm_clock fm).
Proof.
  induction n as [|n IH]; intros pos fm.
  - reflexivity.
  - cbn [fm_resample fm_resample_step fm_pos_after fm_extra_clocks].
    cbn zeta. destruct (nz (BIT (u32 (pos + fm_step)) 24)).
    + rewrite IH. f_equal.
      pose proof (fm_extra_clocks_nonneg fm_step n
                    (Z.land (u32 (pos + fm_step)) 0xffffff)) as Hx.
      rewrite Z2Nat.inj_add by lia. change (Z.to_nat 1) with 1%nat.
      set (k := Z.to_nat _).
      replace (S n + (1 + k))%nat with (S (S (n + k))) by lia.
      rewrite <- !Nat.iter_succ_r. reflexivity.
    + rewrite IH. f_equal.
      set (k := Z.to_nat _).
      replace (S n + k)%nat with (S (n + k)) by lia.
      rewrite <- Nat.iter_succ_r. reflexivity.
Qed.

(** The accumulator and the count add up to the steps taken. *)
Lemma fm_extra_clocks_sum (fm_step : Z) (n : nat) :
  0 <= fm_step < 2 ^ 24 ->
  forall pos, 0 <= pos < 2 ^ 24 ->
  0 <= fm_pos_after fm_step n pos < 2 ^ 24 /\
  pos + Z.of_nat n * fm_step
  = 2 ^ 24 * fm_extra_clocks fm_step n pos + fm_pos_after fm_step n pos.
Proof.
  intros HS. induction n as [|n IH]; intros pos Hp.
  - cbn. lia.
  - cbn [fm_pos_after fm_extra_clocks]. cbn zeta.
    destruct (fm_pos_step fm_step pos HS Hp) as (E1 & Hset & Hclr).
    cbn zeta in E1, Hset, Hclr.
    rewrite Nat2Z.inj_succ.
    destruct (nz (BIT (u32 (pos + fm_step)) 24)) eqn:Eb.
    + destruct (Hset eq_refl) as [Hge Hm]. rewrite Hm.
      destruct (IH (pos + fm_step - 2 ^ 24) ltac:(lia)) as (Hr & Hsum).
      split; lia.
    + specialize (Hclr eq_refl). rewrite E1.
      destruct (IH (pos + fm_step) ltac:(lia)) as (Hr & Hsum).
      split; lia.
Qed.

Lemma sound_stream_update_fm n dev :
  m_fm (sound_stream_update n dev)
  = snd (fm_resample FM_STEP n (m_fm_pos dev, m_fm dev)) /\
  m_fm_pos (sound_stream_update n dev)
  = fst (fm_resample FM_STEP n (m_fm_pos dev, m_fm dev)).
Proof.
  unfold sound_stream_update.
  destruct (mix_slots (m_rom dev) n (m_slots dev)) as [[slots smp] buf].
  destruct (fm_resample FM_STEP n (m_fm_pos dev, m_fm dev)) as [pos fm].
  split; reflexivity.
Qed.

(** C9.  From a zeroed accumulator and with a fractional step [S]
    ([0 <= S < 2^24]), the loop issues over [n] output samples exactly
    [floor (n*S / 2^24)] extra FM clocks (so certainly within 1 of it), the
    accumulator ends at [n*S mod 2^24], and the engine has been clocked
    [n] times plus once per extra clock.  The device's [FM_STEP] is such a
    step, so this is what [sound_stream_update] does to the FM engine. *)
Theorem fm_resampler_cadence (fm_step : Z) (n : nat) :
  0 <= fm_step < 2 ^ 24 ->
  let extra := fm_extra_clocks fm_step n 0 in
  extra = (Z.of_nat n * fm_step) / 2 ^ 24 /\
  Z.abs (extra - (Z.of_nat n * fm_step) / 2 ^ 24) <= 1 /\
  (forall fm,
     fm_resample fm_step n (0, fm)
     = ((Z.of_nat n * fm_step) mod 2 ^ 24,
        Nat.iter (n + Z.to_nat extra) fm_clock fm)) /\
  0 <= FM_STEP < 2 ^ 24 /\
  (forall dev, m_fm_pos dev = 0 ->
     m_fm (sound_stream_update n dev)
     = Nat.iter (n + Z.to_nat ((Z.of_nat n * FM_STEP) / 2 ^ 24))
         fm_clock (m_fm dev)).
Proof.
  intros HS. cbn zeta.
  assert (Hmain : forall s, 0 <= s < 2 ^ 24 ->
    fm_extra_clocks s n 0 = (Z.of_nat n * s) / 2 ^ 24 /\
    fm_pos_after s n 0 = (Z.of_nat n * s) mod 2 ^ 24).
  { intros s Hs.
    destruct (fm_extra_clocks_sum s n Hs 0 ltac:(lia)) as (A & B).
    pose proof (fm_extra_clocks_nonneg s n 0) as C.
    split.
    - apply (Z.div_unique _ _ _ (fm_pos_after s n 0)); lia.
    - apply (Z.mod_unique _ _ (fm_extra_clocks s n 0)); lia. }
  destruct (Hmain fm_step HS) as [He Hp].
  assert (HF : 0 <= FM_STEP < 2 ^ 24) by (rewrite FM_STEP_value; lia).
  split; [|split; [|split; [|split]]].
  - exact He.
  - rewrite He, Z.sub_diag. cbn. lia.
  - intros fm. rewrite fm_resample_run, Hp. reflexivity.
  - exact HF.
  - intros dev H0. destruct (sound_stream_update_fm n dev) as [-> _].
    rewrite H0, fm_resample_run. destruct (Hmain FM_STEP HF) as [-> _].
    reflexivity.
Qed.

(** *** Effects of the register writes on the device *)

(** The members a write to a slot register of groups 1 to 9 leaves alone. *)
Lemma C_w_plain_frame reg data dev :
  is_slot_reg reg = true -> group_of reg <> 0 ->
  let dev' := C_w reg data dev in
  m_slots dev' (snum_of reg)
    = slot_w (group_of reg) data (m_pcmregs dev reg)
        (m_slots dev (snum_of reg)) /\
  (forall k, k <> snum_of reg -> m_slots dev' k = m_slots dev k) /\
  m_pcmregs dev' = upd (m_pcmregs dev) reg data /\
  m_rom dev' = m_rom dev /\ m_fm dev' = m_fm dev /\
  m_wavetblhdr dev' = m_wavetblhdr dev /\
  m_timer_ld dev' = m_timer_ld dev.
Proof.
  intros Hr Hg. cbn zeta. rewrite C_w_plain by assumption. dev_proj.
  repeat split.
  - apply upd_same.
  - intros k Hk. apply upd_other, Hk.
Qed.

(** Registers outside the slot range leave every slot alone. *)
Lemma C_w_global_slots reg data dev :
  is_slot_reg reg = false -> m_slots (C_w reg data dev) = m_slots dev.
Proof.
  intros Hr. rewrite C_w_global by assumption. dev_proj.
  unfold global_w.
  destruct reg as [|p|p]; try reflexivity.
  split_numeral; reflexivity.
Qed.

Lemma C_w_global_pcmregs reg data dev r :
  is_slot_reg reg = false -> r <> reg ->
  m_pcmregs (C_w reg data dev) r = m_pcmregs dev r.
Proof.
  intros Hr Hne. rewrite C_w_global by assumption. dev_proj.
  rewrite upd_other by assumption.
  unfold global_w.
  destruct reg as [|p|p]; try reflexivity.
  split_numeral; reflexivity.
Qed.

(** Writes of groups 5 to 9 decode the byte into the slot; 6, 7 and 8 may
    re-evaluate the envelope. *)
Lemma slot_w_5 data old s :
  slot_w 5 data old s
  = set_VIB (set_LFO s (Z.land (Z.shiftr data 3) 0x7)) (Z.land data 0x7).
Proof. reflexivity. Qed.

Lemma slot_w_9 data old s : slot_w 9 data old s = set_AM s (Z.land data 0x7).
Proof. reflexivity. Qed.

Lemma slot_w_6 data old s :
  env_only (set_D1R (set_AR s (Z.shiftr data 4)) (Z.land data 0xf))
    (slot_w 6 data old s).
Proof.
  unfold slot_w.
  match goal with |- context [if ?c then _ else _] => destruct c end;
    [apply compute_envelope_env_only | apply env_only_refl].
Qed.

Lemma slot_w_7 data old s :
  env_only (set_D2R (set_DL s (Z.shiftr data 4)) (Z.land data 0xf))
    (slot_w 7 data old s).
Proof.
  unfold slot_w.
  match goal with |- context [if ?c then _ else _] => destruct c end;
    [apply compute_envelope_env_only | apply env_only_refl].
Qed.

Lemma slot_w_8 data old s :
  env_only (set_RR (set_RC s (Z.shiftr data 4)) (Z.land data 0xf))
    (slot_w 8 data old s).
Proof.
  unfold slot_w.
  match goal with |- context [if ?c then _ else _] => destruct c end;
    [apply compute_envelope_env_only | apply env_only_refl].
Qed.

(** The registers of a slot as the header copy leaves them. *)
Definition copy_regs (p : Z -> Z) (s : YMF278BSlot) : YMF278BSlot :=
  let s := set_VIB (set_LFO s (Z.land (Z.shiftr (p 7) 3) 0x7))
             (Z.land (p 7) 0x7) in
  let s := set_D1R (set_AR s (Z.shiftr (p 8) 4)) (Z.land (p 8) 0xf) in
  let s := set_D2R (set_DL s (Z.shiftr (p 9) 4)) (Z.land (p 9) 0xf) in
  let s := set_RR (set_RC s (Z.shiftr (p 10) 4)) (Z.land (p 10) 0xf) in
  set_AM s (Z.land (p 11) 0x7).

(** The register file as the header copy leaves it. *)
Definition copy_pcmregs (p : Z -> Z) (snum : Z) (regs : Z -> Z) : Z -> Z :=
  upd (upd (upd (upd (upd regs (copied_reg snum 7) (p 7))
                     (copied_reg snum 8) (p 8))
                (copied_reg snum 9) (p 9))
           (copied_reg snum 10) (p 10))
      (copied_reg snum 11) (p 11).

Ltac env_only_congr :=
  let a := fresh "a" in let es := fresh "es" in let ev := fresh "ev" in
  let evs := fresh "evs" in let evl := fresh "evl" in let ep := fresh "ep" in
  intros (a & es & ev & evs & evl & ep & ->);
  exists a, es, ev, evs, evl, ep; reflexivity.

Lemma env_only_set_LFO_VIB s s' a b :
  env_only s s' -> env_only (set_VIB (set_LFO s a) b) (set_VIB (set_LFO s' a) b).
Proof. env_only_congr. Qed.

Lemma env_only_set_AR_D1R s s' a b :
  env_only s s' -> env_only (set_D1R (set_AR s a) b) (set_D1R (set_AR s' a) b).
Proof. env_only_congr. Qed.

Lemma env_only_set_DL_D2R s s' a b :
  env_only s s' -> env_only (set_D2R (set_DL s a) b) (set_D2R (set_DL s' a) b).
Proof. env_only_congr. Qed.

Lemma env_only_set_RC_RR s s' a b :
  env_only s s' -> env_only (set_RR (set_RC s a) b) (set_RR (set_RC s' a) b).
Proof. env_only_congr. Qed.

Lemma env_only_set_AM s s' a :
  env_only s s' -> env_only (set_AM s a) (set_AM s' a).
Proof. env_only_congr. Qed.

(** The wave-number write up to the end of the register copy: the slot
    holds the decoded header and the five copied registers (the copies of
    groups 6 to 8 may have re-evaluated its envelope), five entries of the
    register file hold header bytes 7 to 11, and nothing else has changed. *)
Lemma wave_load_effect data snum dev :
  0 <= snum < 24 ->
  let slot1 :=
    set_wave (m_slots dev snum)
      (Z.lor (Z.land (wave (m_slots dev snum)) 0x100) data) in
  let p := fun i =>
    rd (m_rom dev) (header_offset (m_wavetblhdr dev) (wave slot1) + i) in
  let d := wave_load C_w data snum dev in
  env_only (copy_regs p (load_header p slot1)) (m_slots d snum) /\
  (forall k, k <> snum -> m_slots d k = m_slots dev k) /\
  m_pcmregs d = copy_pcmregs p snum (m_pcmregs dev) /\
  m_rom d = m_rom dev /\ m_fm d = m_fm dev /\
  m_wavetblhdr d = m_wavetblhdr dev /\ m_timer_ld d = m_timer_ld dev.
Proof.
  intros Hs. cbn zeta.
  set (slot1 := set_wave (m_slots dev snum) _).
  set (p := fun i => rd (m_rom dev) _).
  set (d0 := set_slot dev snum (load_header p slot1)).
  assert (H0 : env_only (load_header p slot1) (m_slots d0 snum) /\
               (forall k, k <> snum -> m_slots d0 k = m_slots dev k) /\
               m_pcmregs d0 = m_pcmregs dev /\
               m_rom d0 = m_rom dev /\ m_fm d0 = m_fm dev /\
               m_wavetblhdr d0 = m_wavetblhdr dev /\
               m_timer_ld d0 = m_timer_ld dev).
  { unfold d0. dev_proj. repeat split.
    - rewrite upd_same. apply env_only_refl.
    - intros k Hk. apply upd_other, Hk. }
  destruct H0 as (S0 & O0 & P0 & R0 & F0 & W0 & T0).
  (* one copy after the other *)
  destruct (copied_reg_slot snum 7 Hs ltac:(lia)) as (Hr7 & Hn7 & Hg7).
  destruct (C_w_plain_frame (copied_reg snum 7) (p 7) d0 Hr7 ltac:(lia))
    as (S1 & O1 & P1 & R1 & F1 & W1 & T1).
  set (d1 := C_w (copied_reg snum 7) (p 7) d0) in *.
  rewrite Hn7, Hg7 in S1. rewrite Hn7 in O1.
  destruct (copied_reg_slot snum 8 Hs ltac:(lia)) as (Hr8 & Hn8 & Hg8).
  destruct (C_w_plain_frame (copied_reg snum 8) (p 8) d1 Hr8 ltac:(lia))
    as (S2 & O2 & P2 & R2 & F2 & W2 & T2).
  set (d2 := C_w (copied_reg snum 8) (p 8) d1) in *.
  rewrite Hn8, Hg8 in S2. rewrite Hn8 in O2.
  destruct (copied_reg_slot snum 9 Hs ltac:(lia)) as (Hr9 & Hn9 & Hg9).
  destruct (C_w_plain_frame (copied_reg snum 9) (p 9) d2 Hr9 ltac:(lia))
    as (S3 & O3 & P3 & R3 & F3 & W3 & T3).
  set (d3 := C_w (copied_reg snum 9) (p 9) d2) in *.
  rewrite Hn9, Hg9 in S3. rewrite Hn9 in O3.
  destruct (copied_reg_slot snum 10 Hs ltac:(lia)) as (Hr10 & Hn10 & Hg10).
  destruct (C_w_plain_frame (copied_reg snum 10) (p 10) d3 Hr10 ltac:(lia))
    as (S4 & O4 & P4 & R4 & F4 & W4 & T4).
  set (d4 := C_w (copied_reg snum 10) (p 10) d3) in *.
  rewrite Hn10, Hg10 in S4. rewrite Hn10 in O4.
  destruct (copied_reg_slot snum 11 Hs ltac:(lia)) as (Hr11 & Hn11 & Hg11).
  destruct (C_w_plain_frame (copied_reg snum 11) (p 11) d4 Hr11 ltac:(lia))
    as (S5 & O5 & P5 & R5 & F5 & W5 & T5).
  set (d5 := C_w (copied_reg snum 11) (p 11) d4) in *.
  rewrite Hn11, Hg11 in S5. rewrite Hn11 in O5.
  change (wave_load C_w data snum dev) with d5.
  change (7 - 2) with 5 in S1. change (8 - 2) with 6 in S2.
  change (9 - 2) with 7 in S3. change (10 - 2) with 8 in S4.
  change (11 - 2) with 9 in S5.
  split; [|split; [|split; [|split; [|split; [|split]]]]].
  - rewrite S5, slot_w_9. unfold copy_regs. cbn zeta.
    apply env_only_set_AM.
    rewrite S4. eapply env_only_trans; [|apply slot_w_8].
    apply env_only_set_RC_RR.
    rewrite S3. eapply env_only_trans; [|apply slot_w_7].
    apply env_only_set_DL_D2R.
    rewrite S2. eapply env_only_trans; [|apply slot_w_6].
    apply env_only_set_AR_D1R.
    rewrite S1, slot_w_5.
    apply env_only_set_LFO_VIB. exact S0.
  - intros k Hk.
    rewrite (O5 k Hk), (O4 k Hk), (O3 k Hk), (O2 k Hk), (O1 k Hk).
    apply O0, Hk.
  - rewrite P5, P4, P3, P2, P1, P0. reflexivity.
  - rewrite R5, R4, R3, R2, R1. exact R0.
  - rewrite F5, F4, F3, F2, F1. exact F0.
  - rewrite W5, W4, W3, W2, W1. exact W0.
  - rewrite T5, T4, T3, T2, T1. exact T0.
Qed.

(** *** The wave-number write *)

(** [s'] differs from [s] in the play position, the frequency step, the
    envelope members and [active] at most. *)
Definition play_only (s s' : YMF278BSlot) : Prop :=
  exists sp st a es ev evs evl ep,
    s' = env_frame (set_step (set_stepptr s sp) st) a es ev evs evl ep.

Lemma env_only_play_only s s' : env_only s s' -> play_only s s'.
Proof.
  intros (a & es & ev & evs & evl & ep & ->).
  exists (stepptr s), (step s), a, es, ev, evs, evl, ep. reflexivity.
Qed.

Lemma retrigger_sample_play s : play_only s (retrigger_sample s).
Proof.
  unfold retrigger_sample.
  match goal with |- play_only _ (compute_envelope ?t) =>
    destruct (compute_envelope_env_only t)
      as (a & es & ev & evs & evl & ep & ->);
    exists 0, (step t), a, es, ev, evs, evl, ep
  end.
  unfold compute_freq_step. destruct (negb (octave s =? 8)); reflexivity.
Qed.

Lemma key_check_cases s :
  (nz (KEY_ON s) = true -> key_check s = retrigger_sample s) /\
  (nz (KEY_ON s) = false -> nz (active s) = true ->
     key_check s = voice_off (set_env_step s 5)) /\
  (nz (KEY_ON s) = false -> nz (active s) = false -> key_check s = s).
Proof.
  unfold key_check. repeat split.
  - intros ->. reflexivity.
  - intros -> ->. apply compute_envelope_done. right. reflexivity.
  - intros -> ->. reflexivity.
Qed.

Lemma key_check_play s : play_only s (key_check s).
Proof.
  destruct (key_check_cases s) as (H1 & H2 & H3).
  destruct (nz (KEY_ON s)) eqn:Ek.
  - rewrite (H1 eq_refl). apply retrigger_sample_play.
  - destruct (nz (active s)) eqn:Ea.
    + rewrite (H2 eq_refl eq_refl). apply env_only_play_only.
      unfold voice_off. env_only_now.
    + rewrite (H3 eq_refl eq_refl). apply env_only_play_only, env_only_refl.
Qed.

(** The registers that neither the envelope nor a retrigger touch. *)
Definition same_registers (s s' : YMF278BSlot) : Prop :=
  wave s' = wave s /\ bits s' = bits s /\ startaddr s' = startaddr s /\
  loopaddr s' = loopaddr s /\ endaddr s' = endaddr s /\
  LFO s' = LFO s /\ VIB s' = VIB s /\ AR s' = AR s /\ D1R s' = D1R s /\
  DL s' = DL s /\ D2R s' = D2R s /\ RC s' = RC s /\ RR s' = RR s /\
  AM s' = AM s /\ KEY_ON s' = KEY_ON s /\ octave s' = octave s /\
  F_NUMBER s' = F_NUMBER s.

Lemma play_only_registers s s' : play_only s s' -> same_registers s s'.
Proof.
  intros (sp & st & a & es & ev & evs & evl & ep & ->).
  unfold same_registers. repeat split.
Qed.

Lemma same_registers_trans s1 s2 s3 :
  same_registers s1 s2 -> same_registers s2 s3 -> same_registers s1 s3.
Proof.
  unfold same_registers. intros H1 H2.
  repeat match goal with H : _ /\ _ |- _ => destruct H end.
  repeat split; congruence.
Qed.

(** The slot members decoded from header bytes 0 to 6. *)
Definition header_fields (p : Z -> Z) (s : YMF278BSlot) : Prop :=
  bits s = Z.shiftr (Z.land (p 0) 0xc0) 6 /\
  startaddr s
  = Z.lor (Z.lor (p 2) (Z.shiftl (p 1) 8)) (Z.shiftl (Z.land (p 0) 0x3f) 16) /\
  loopaddr s = u32 (Z.lor (Z.shiftl (p 4) 16) (Z.shiftl (p 3) 24)) /\
  endaddr s
  = Z.lxor
      (u32 (u32 (Z.lor (Z.shiftl (p 6) 16) (Z.shiftl (p 5) 24)) - 0x00010000))
      0xffff0000.

(** The slot members decoded from the copied header bytes 7 to 11. *)
Definition copied_fields (p : Z -> Z) (s : YMF278BSlot) : Prop :=
  LFO s = Z.land (Z.shiftr (p 7) 3) 0x7 /\ VIB s = Z.land (p 7) 0x7 /\
  AR s = Z.shiftr (p 8) 4 /\ D1R s = Z.land (p 8) 0xf /\
  DL s = Z.shiftr (p 9) 4 /\ D2R s = Z.land (p 9) 0xf /\
  RC s = Z.shiftr (p 10) 4 /\ RR s = Z.land (p 10) 0xf /\
  AM s = Z.land (p 11) 0x7.

Lemma wave_reg_decompose reg :
  8 <= reg <= 31 ->
  is_slot_reg reg = true /\ group_of reg = 0 /\ snum_of reg = reg - 8.
Proof.
  intros H. unfold is_slot_reg, group_of, snum_of.
  rewrite Z.quot_small, Z.rem_small by lia. repeat split. lia.
Qed.

Lemma copy_pcmregs_spec p snum regs :
  (forall i, 7 <= i <= 11 -> copy_pcmregs p snum regs (copied_reg snum i) = p i) /\
  (forall r, (forall i, 7 <= i <= 11 -> r <> copied_reg snum i) ->
             copy_pcmregs p snum regs r = regs r).
Proof.
  unfold copy_pcmregs, copied_reg, upd. split.
  - intros i Hi.
    assert (Hc : i = 7 \/ i = 8 \/ i = 9 \/ i = 10 \/ i = 11) by lia.
    destruct Hc as [->|[->|[->|[->| ->]]]];
      repeat match goal with
             | |- context [?a =? ?b] =>
                 first [ rewrite (Z.eqb_refl a)
                       | replace (a =? b) with false by lia ]
             end; reflexivity.
  - intros r Hr.
    pose proof (Hr 7 ltac:(lia)). pose proof (Hr 8 ltac:(lia)).
    pose proof (Hr 9 ltac:(lia)). pose proof (Hr 10 ltac:(lia)).
    pose proof (Hr 11 ltac:(lia)). unfold copied_reg in *.
    repeat match goal with
           | |- context [?a =? ?b] => replace (a =? b) with false by lia
           end.
    reflexivity.
Qed.

Lemma wave_w_effect data snum dev :
  0 <= snum < 24 ->
  let slot1 :=
    set_wave (m_slots dev snum)
      (Z.lor (Z.land (wave (m_slots dev snum)) 0x100) data) in
  let p := fun i =>
    rd (m_rom dev) (header_offset (m_wavetblhdr dev) (wave slot1) + i) in
  let d := wave_w C_w data snum dev in
  m_slots d snum = key_check (m_slots (wave_load C_w data snum dev) snum) /\
  (forall k, k <> snum -> m_slots d k = m_slots dev k) /\
  m_pcmregs d = copy_pcmregs p snum (m_pcmregs dev).
Proof.
  intros Hs. cbn zeta.
  destruct (wave_load_effect data snum dev Hs) as (_ & O & P & _).
  cbn zeta in O, P.
  unfold wave_w. dev_proj. repeat split.
  - apply upd_same.
  - intros k Hk. rewrite upd_other by assumption. apply O, Hk.
  - exact P.
Qed.

(** C2, as the code has it.  A write of [data] to the wave-number register
    [reg] (8 to 31) of slot [reg - 8]: the header is read at [wave*12], or at
    [wavetblhdr*0x80000 + (wave-384)*12] when the wave number is at least 384
    and the bank is not 0; the slot's bit depth and start, loop and end
    addresses are the decoded header bytes 0 to 6; header bytes 7 to 11 are
    written to five registers of the slot (groups 5 to 9) and decoded into
    the slot; no other entry of the register file changes, apart from [reg]
    itself, and no other slot changes; then a slot whose key is on is
    retriggered, and otherwise the slot ends inactive: a voice that was
    still active is switched off at once (phase Release-done). *)
Theorem wave_number_write (reg data : Z) (dev : ymf278b_device) :
  8 <= reg <= 31 ->
  let snum := reg - 8 in
  let slot0 := m_slots dev snum in
  let w := Z.lor (Z.land (wave slot0) 0x100) data in
  let offset := header_offset (m_wavetblhdr dev) w in
  let p := fun i => rd (m_rom dev) (offset + i) in
  let dev' := C_w reg data dev in
  let s1 := m_slots (wave_load C_w data snum dev) snum in
  let s' := m_slots dev' snum in
  (w < 384 \/ m_wavetblhdr dev = 0 -> offset = u32 (w * 12)) /\
  (384 <= w -> m_wavetblhdr dev <> 0 ->
     offset = u32 (m_wavetblhdr dev * 0x80000 + (w - 384) * 12)) /\
  wave s' = w /\ header_fields p s' /\ copied_fields p s' /\
  (forall i, 7 <= i <= 11 -> m_pcmregs dev' (copied_reg snum i) = p i) /\
  m_pcmregs dev' reg = data /\
  (forall r, r <> reg -> (forall i, 7 <= i <= 11 -> r <> copied_reg snum i) ->
     m_pcmregs dev' r = m_pcmregs dev r) /\
  (forall k, k <> snum -> m_slots dev' k = m_slots dev k) /\
  KEY_ON s1 = KEY_ON slot0 /\
  (nz (KEY_ON slot0) = true ->
     s' = retrigger_sample s1 /\ stepptr s' = 0 /\
     (env_step s' = ATTACK \/ env_step s' = DECAY1 \/ env_step s' = DECAY2) /\
     (octave slot0 <> 8 -> active s' = 1)) /\
  (nz (KEY_ON slot0) = false ->
     active s' = 0 /\
     (nz (active s1) = true ->
        s' = voice_off (set_env_step s1 5) /\ env_step s' = RELEASE_DONE) /\
     (nz (active s1) = false -> s' = s1)).
Proof.
  intros Hreg. cbn zeta.
  destruct (wave_reg_decompose reg Hreg) as (Hr & Hg & Hn).
  assert (Hs : 0 <= reg - 8 < 24) by lia.
  destruct (wave_load_effect data (reg - 8) dev Hs) as (S1 & _).
  destruct (wave_w_effect data (reg - 8) dev Hs) as (Sk & O & P).
  cbn zeta in S1, Sk, O, P.
  set (slot0 := m_slots dev (reg - 8)) in *.
  set (w := Z.lor (Z.land (wave slot0) 0x100) data) in *.
  change (wave (set_wave slot0 w)) with w in *.
  set (p := fun i => rd (m_rom dev) (header_offset (m_wavetblhdr dev) w + i))
    in *.
  set (s1 := m_slots (wave_load C_w data (reg - 8) dev) (reg - 8)) in *.
  assert (Hdev : C_w reg data dev =
                 set_m_pcmregs (wave_w C_w data (reg - 8) dev)
                   (upd (m_pcmregs (wave_w C_w data (reg - 8) dev)) reg data)).
  { rewrite (C_w_wave reg data dev Hr Hg). cbn zeta. rewrite Hn. reflexivity. }
  rewrite Hdev. dev_proj. rewrite Sk, P.
  destruct (copy_pcmregs_spec p (reg - 8) (m_pcmregs dev)) as [Pc Po].
  pose proof (play_only_registers _ _ (env_only_play_only _ _ S1)) as R1.
  pose proof (play_only_registers _ _ (key_check_play s1)) as R2.
  pose proof (same_registers_trans _ _ _ R1 R2) as R.
  unfold same_registers in R, R1.
  destruct R as (Hwv & Hb & Hst & Hlp & Hen & Hlfo & Hvib & Har & Hd1 & Hdl &
                 Hd2 & Hrc & Hrr & Ham & Hko & Hoct & _).
  destruct R1 as (_ & _ & _ & _ & _ & _ & _ & _ & _ & _ & _ & _ & _ & _ &
                  Hko1 & Hoct1 & _).
  destruct (key_check_cases s1) as (K1 & K2 & K3).
  assert (Hk1 : KEY_ON s1 = KEY_ON slot0) by (rewrite Hko1; reflexivity).
  assert (Ho1 : octave s1 = octave slot0) by (rewrite Hoct1; reflexivity).
  split; [|split; [|split; [|split; [|split; [|split; [|split;
    [|split; [|split; [|split; [|split]]]]]]]]]].
  - intros Hc. unfold header_offset.
    replace ((w <? 384) || negb (nz (m_wavetblhdr dev))) with true;
      [reflexivity|].
    symmetry. apply orb_true_iff. unfold nz.
    destruct Hc as [Hc|Hc]; [left; lia | right; rewrite Hc; reflexivity].
  - intros Hc1 Hc2. unfold header_offset.
    replace ((w <? 384) || negb (nz (m_wavetblhdr dev))) with false;
      [reflexivity|].
    symmetry. apply orb_false_iff. unfold nz. split; [lia|].
    apply Z.eqb_neq in Hc2. rewrite Hc2. reflexivity.
  - rewrite Hwv. reflexivity.
  - unfold header_fields. rewrite Hb, Hst, Hlp, Hen. repeat split.
  - unfold copied_fields.
    rewrite Hlfo, Hvib, Har, Hd1, Hdl, Hd2, Hrc, Hrr, Ham. repeat split.
  - intros i Hi. rewrite upd_other by (unfold copied_reg; lia).
    apply Pc, Hi.
  - apply upd_same.
  - intros r Hne Hnc. rewrite upd_other by assumption. apply Po, Hnc.
  - exact O.
  - exact Hk1.
  - intros Hk. rewrite <- Hk1 in Hk. rewrite (K1 Hk).
    destruct (retrigger_sample_phase s1) as (He & Hp & Ha & _).
    split; [reflexivity|]. split; [exact Hp|]. split.
    + rewrite He. destruct (_ =? 63); [destruct (nz (DL s1))|]; auto.
    + intros Ho. rewrite Ha, Ho1.
      apply Z.eqb_neq in Ho. rewrite Ho. reflexivity.
  - intros Hk. rewrite <- Hk1 in Hk. split; [|split].
    + destruct (nz (active s1)) eqn:Ea.
      * rewrite (K2 Hk eq_refl). reflexivity.
      * rewrite (K3 Hk eq_refl). unfold nz in Ea.
        destruct (Z.eqb_spec (active s1) 0); [assumption | discriminate].
    + intros Ha. rewrite (K2 Hk Ha). split; reflexivity.
    + intros Ha. apply (K3 Hk Ha).
Qed.

(** *** The activity invariant *)

(** The invariant on a slot, in terms of its phase, its [active] flag and
    its octave: the phase is one of the six, the flag is 0 or 1, and the
    flag is 1 exactly when the octave is not 8 and the phase is not one of
    the two terminal ones. *)
Definition core3 (es a o : Z) : Prop :=
  0 <= es <= 5 /\ (a = 0 \/ a = 1) /\
  (a = 1 <-> o <> 8 /\ terminal es = false).

Definition slot_core (s : YMF278BSlot) : Prop :=
  core3 (env_step s) (active s) (octave s).

(** What [compute_envelope] needs to arrive at the invariant: the flag may
    still be 1 in a terminal phase, the call clears it. *)
Definition pre3 (es a o : Z) : Prop :=
  0 <= es <= 5 /\ (a = 0 \/ a = 1) /\ (a = 1 -> o <> 8) /\
  (a = 0 -> o = 8 \/ terminal es = true).

Lemma terminal_cases es :
  terminal es = true <-> es = DECAY2_DONE \/ es = RELEASE_DONE.
Proof.
  unfold terminal, DECAY2_DONE, RELEASE_DONE.
  rewrite orb_true_iff, !Z.eqb_eq. reflexivity.
Qed.

Lemma terminal_false es :
  terminal es = false <-> es <> DECAY2_DONE /\ es <> RELEASE_DONE.
Proof.
  unfold terminal, DECAY2_DONE, RELEASE_DONE.
  rewrite orb_false_iff, !Z.eqb_neq. reflexivity.
Qed.

Lemma core3_pre3 es a o : core3 es a o -> pre3 es a o.
Proof.
  intros (Hr & Ha & Hiff). split; [exact Hr|]. split; [exact Ha|]. split.
  - intros H1. apply Hiff, H1.
  - intros H0. destruct (Z.eq_dec o 8) as [|Ho]; [left; assumption|].
    right. destruct (terminal es) eqn:Et; [reflexivity|].
    assert (a = 1) by (apply Hiff; split; [assumption | reflexivity]). lia.
Qed.

Lemma settled_phase_range s :
  0 <= env_step s <= 5 ->
  0 <= settled_phase s <= 5 /\
  terminal (settled_phase s) = terminal (env_step s).
Proof.
  intros Hr. unfold settled_phase, ATTACK, DECAY1, DECAY2.
  destruct (Z.eqb_spec (env_step s) 0) as [E|E].
  - rewrite E.
    destruct (_ =? 63); [destruct (nz (DL s))|]; split; try lia; reflexivity.
  - destruct (Z.eqb_spec (env_step s) 1) as [E1|E1].
    + rewrite E1. destruct (nz (DL s)); split; try lia; reflexivity.
    + split; [lia | reflexivity].
Qed.

Lemma compute_envelope_octave s : octave (compute_envelope s) = octave s.
Proof.
  destruct (compute_envelope_env_only s) as (a & es & ev & evs & evl & ep & ->).
  reflexivity.
Qed.

Lemma compute_envelope_core s :
  pre3 (env_step s) (active s) (octave s) -> slot_core (compute_envelope s).
Proof.
  intros (Hr & Ha & H1 & H0). unfold slot_core, core3.
  destruct (compute_envelope_phase s) as [-> ->].
  rewrite compute_envelope_octave.
  destruct (settled_phase_range s Hr) as [Hsr ->].
  split; [exact Hsr|].
  destruct (terminal (env_step s)) eqn:Et.
  - split; [left; reflexivity|]. split; [lia|]. intros [_ ?]; discriminate.
  - split; [exact Ha|]. split.
    + intros E. split; [apply H1, E | reflexivity].
    + intros [Ho _]. destruct Ha as [Ha|Ha]; [|exact Ha].
      destruct (H0 Ha) as [?|?]; [contradiction | discriminate].
Qed.

Lemma retrigger_sample_octave s : octave (retrigger_sample s) = octave s.
Proof.
  destruct (play_only_registers _ _ (retrigger_sample_play s))
    as (_ & _ & _ & _ & _ & _ & _ & _ & _ & _ & _ & _ & _ & _ & _ & H & _).
  exact H.
Qed.

Lemma retrigger_sample_core s : slot_core s -> slot_core (retrigger_sample s).
Proof.
  intros (Hr & Ha & Hiff). unfold retrigger_sample.
  apply compute_envelope_core. unfold compute_freq_step.
  destruct (Z.eqb_spec (octave s) 8) as [E|E]; cbn [negb]; slot_proj.
  - assert (H0 : active s = 0).
    { destruct Ha as [|H1]; [assumption|].
      apply Hiff in H1. destruct H1 as [H1 _]. contradiction. }
    rewrite H0. split; [lia|]. split; [left; reflexivity|].
    split; [lia|]. intros _. left. exact E.
  - split; [lia|]. split; [right; reflexivity|].
    split; [intros _; exact E | lia].
Qed.

(** The octave is written by group 2 only. *)
Lemma slot_w_octave g data old s :
  octave (slot_w g data old s) =
  if g =? 2 then Z.shiftr (Z.land data 0xf0) 4 else octave s.
Proof.
  unfold slot_w.
  destruct g as [|p|p]; try reflexivity.
  split_numeral; try reflexivity;
    cbn [Z.eqb Pos.eqb];
    repeat match goal with
           | |- context [if ?c then _ else _] => destruct c
           end;
    slot_proj;
    rewrite ?compute_envelope_octave, ?retrigger_sample_octave;
    reflexivity.
Qed.

Lemma slot_w_other g data old s :
  g < 1 \/ 9 < g -> slot_w g data old s = s.
Proof.
  intros Hg. unfold slot_w.
  destruct g as [|p|p]; try reflexivity.
  split_numeral; try reflexivity; lia.
Qed.

(** A register write keeps the invariant of the slot.  For the octave
    register, a write that repeats the byte already in the register file
    leaves the flag alone, so the invariant then rests on the register file
    agreeing with the slot. *)
Lemma slot_w_core g data old s :
  slot_core s ->
  (g = 2 -> data = old -> octave s = Z.shiftr (Z.land data 0xf0) 4) ->
  slot_core (slot_w g data old s).
Proof.
  intros Hc Hsync.
  pose proof (core3_pre3 _ _ _ Hc) as Hp.
  assert (Hact : nz (active s) = true -> active s = 1).
  { destruct Hc as (_ & [E|E] & _); rewrite E; [discriminate | reflexivity]. }
  assert (Hg : g = 1 \/ g = 2 \/ g = 3 \/ g = 4 \/ g = 5 \/ g = 6 \/ g = 7 \/
               g = 8 \/ g = 9 \/ (g < 1 \/ 9 < g)) by lia.
  destruct Hg as [->|[->|[->|[->|[->|[->|[->|[->|[->|Hg]]]]]]]]];
    [ | | | | | | | | | rewrite slot_w_other by exact Hg; exact Hc ];
    unfold slot_w; try exact Hc.
  - (* 1: low bits of the frequency *)
    match goal with |- context [if ?c then _ else _] => destruct c end;
      [apply compute_envelope_core; exact Hp | exact Hc].
  - (* 2: octave *)
    destruct (Z.eqb_spec data old) as [E|E]; cbn [negb].
    + unfold slot_core. slot_proj. rewrite <- (Hsync eq_refl E). exact Hc.
    + slot_proj.
      destruct (Z.eqb_spec (Z.shiftr (Z.land data 240) 4) 8) as [E8|E8].
      * cbn [nz Z.eqb negb]. unfold slot_core, core3. slot_proj.
        destruct Hc as (Hr & _ & _).
        split; [exact Hr|]. split; [left; reflexivity|].
        split; [lia | intros [? _]; contradiction].
      * cbn [nz Z.eqb negb Pos.eqb]. apply compute_envelope_core.
        unfold compute_freq_step. slot_proj.
        destruct Hc as (Hr & _ & _).
        split; [exact Hr|]. split; [right; reflexivity|].
        split; [intros _; exact E8 | lia].
  - (* 4: key on, key off *)
    destruct (nz (Z.land data 128)).
    + slot_proj. destruct (nz (KEY_ON s)).
      * match goal with |- context [if ?c then _ else _] => destruct c end;
          [apply compute_envelope_core; exact Hp | exact Hc].
      * unfold slot_core. slot_proj. apply retrigger_sample_core. exact Hc.
    + slot_proj. destruct (nz (active s)) eqn:Ea; [|exact Hc].
      unfold slot_core. slot_proj. apply compute_envelope_core. slot_proj.
      destruct Hc as (_ & _ & Hiff). rewrite (Hact eq_refl) in *.
      split; [lia|]. split; [right; reflexivity|].
      split; [intros _; apply Hiff; reflexivity | lia].
  - (* 6: attack and decay-1 rates *)
    match goal with |- context [if ?c then _ else _] => destruct c end;
      [apply compute_envelope_core; exact Hp | exact Hc].
  - (* 7: decay level and decay-2 rate *)
    match goal with |- context [if ?c then _ else _] => destruct c end;
      [apply compute_envelope_core; exact Hp | exact Hc].
  - (* 8: rate correction and release rate *)
    match goal with |- context [if ?c then _ else _] => destruct c end;
      [apply compute_envelope_core; exact Hp | exact Hc].
Qed.

Lemma key_check_octave s : octave (key_check s) = octave s.
Proof.
  destruct (play_only_registers _ _ (key_check_play s))
    as (_ & _ & _ & _ & _ & _ & _ & _ & _ & _ & _ & _ & _ & _ & _ & H & _).
  exact H.
Qed.

Lemma key_check_core s : slot_core s -> slot_core (key_check s).
Proof.
  intros Hc. destruct (key_check_cases s) as (K1 & K2 & K3).
  destruct (nz (KEY_ON s)).
  - rewrite (K1 eq_refl). apply retrigger_sample_core, Hc.
  - destruct (nz (active s)).
    + rewrite (K2 eq_refl eq_refl). unfold voice_off, slot_core, core3.
      slot_proj. split; [lia|]. split; [left; reflexivity|].
      split; [lia | intros [_ ?]; discriminate].
    + rewrite (K3 eq_refl eq_refl). exact Hc.
Qed.

(** The octave register of slot [n], and the agreement between it and the
    slot: the slot's octave is the high nibble of the register. *)
Definition oct_reg (n : Z) : Z := 8 + n + 2 * 24.

Definition slot_sync (dev : ymf278b_device) (n : Z) : Prop :=
  octave (m_slots dev n)
  = Z.shiftr (Z.land (m_pcmregs dev (oct_reg n)) 0xf0) 4.

(** The invariant of the device: every slot satisfies [slot_core] and agrees
    with its octave register. *)
Definition dev_inv (dev : ymf278b_device) : Prop :=
  forall n, 0 <= n < 24 -> slot_core (m_slots dev n) /\ slot_sync dev n.

Lemma oct_reg_slot n :
  0 <= n < 24 ->
  is_slot_reg (oct_reg n) = true /\ snum_of (oct_reg n) = n /\
  group_of (oct_reg n) = 2.
Proof.
  intros Hn. unfold is_slot_reg, snum_of, group_of, oct_reg.
  split; [lia|].
  replace (8 + n + 2 * 24 - 8) with (n + 2 * 24) by lia.
  rewrite Z.quot_div_nonneg, Z.rem_mod_nonneg by lia.
  rewrite Z.mod_add, Z.div_add by lia.
  rewrite Z.mod_small, Z.div_small by lia. lia.
Qed.

Lemma C_w_plain_sync reg data dev n :
  is_slot_reg reg = true -> group_of reg <> 0 -> 0 <= n < 24 ->
  reg = oct_reg n \/ slot_sync dev n ->
  slot_sync (C_w reg data dev) n.
Proof.
  intros Hr Hg Hn Hs.
  destruct (C_w_plain_frame reg data dev Hr Hg) as (S1 & O1 & P1 & _).
  cbn zeta in S1, O1, P1.
  destruct (slot_reg_decompose reg Hr) as (Hsn & Hgr & Hreg).
  destruct (oct_reg_slot n Hn) as (_ & Hon & Hog).
  unfold slot_sync. rewrite P1.
  destruct (Z.eq_dec reg (oct_reg n)) as [E|E].
  - assert (Esn : snum_of reg = n) by (rewrite E; exact Hon).
    assert (Egr : group_of reg = 2) by (rewrite E; exact Hog).
    rewrite <- Esn at 1. rewrite S1, slot_w_octave, Egr. cbn [Z.eqb Pos.eqb].
    rewrite E, upd_same. reflexivity.
  - destruct Hs as [Hs|Hs]; [contradiction|].
    rewrite upd_other by (intros E'; apply E; symmetry; exact E').
    destruct (Z.eq_dec n (snum_of reg)) as [En|En].
    + assert (Egr : group_of reg <> 2).
      { intros E2. apply E. unfold oct_reg. rewrite En. lia. }
      rewrite En at 1. rewrite S1, slot_w_octave.
      apply Z.eqb_neq in Egr. rewrite Egr. rewrite <- En. exact Hs.
    + rewrite (O1 n En). exact Hs.
Qed.

Lemma C_w_plain_inv reg data dev :
  is_slot_reg reg = true -> group_of reg <> 0 ->
  dev_inv dev -> dev_inv (C_w reg data dev).
Proof.
  intros Hr Hg Hinv n Hn.
  destruct (Hinv n Hn) as [Hc Hs].
  split; [|apply C_w_plain_sync; auto].
  destruct (C_w_plain_frame reg data dev Hr Hg) as (S1 & O1 & _).
  cbn zeta in S1, O1.
  destruct (slot_reg_decompose reg Hr) as (Hsn & Hgr & Hreg).
  destruct (Z.eq_dec n (snum_of reg)) as [En|En].
  - rewrite En, S1. apply slot_w_core.
    + rewrite <- En. exact Hc.
    + intros E2 Ed. rewrite <- En. unfold slot_sync in Hs. rewrite Hs.
      assert (Ereg : reg = oct_reg n) by (unfold oct_reg; lia).
      rewrite <- Ereg, <- Ed. reflexivity.
  - rewrite (O1 n En). exact Hc.
Qed.

(** Whatever the five register copies of the wave-number write preserve,
    the whole copy loop preserves. *)
Lemma wave_load_preserves (P : ymf278b_device -> Prop) data snum dev :
  0 <= snum < 24 ->
  (forall reg dat d,
     is_slot_reg reg = true -> group_of reg <> 0 -> P d -> P (C_w reg dat d)) ->
  P (set_slot dev snum
       (load_header
          (fun i =>
             rd (m_rom dev)
                (header_offset (m_wavetblhdr dev)
                   (Z.lor (Z.land (wave (m_slots dev snum)) 0x100) data) + i))
          (set_wave (m_slots dev snum)
             (Z.lor (Z.land (wave (m_slots dev snum)) 0x100) data)))) ->
  P (wave_load C_w data snum dev).
Proof.
  intros Hs Hstep H0.
  assert (Hcopy : forall i dat d, 7 <= i <= 11 -> P d ->
                    P (C_w (copied_reg snum i) dat d)).
  { intros i dat d Hi Hd.
    destruct (copied_reg_slot snum i Hs Hi) as (Hr & _ & Hg).
    apply Hstep; [exact Hr | lia | exact Hd]. }
  unfold wave_load, copied_header_bytes. cbn [fold_left].
  repeat (apply Hcopy; [lia|]). exact H0.
Qed.

Lemma wave_w_frame data snum dev :
  let dl := wave_load C_w data snum dev in
  let d := wave_w C_w data snum dev in
  m_slots d snum = key_check (m_slots dl snum) /\
  (forall k, k <> snum -> m_slots d k = m_slots dl k) /\
  m_pcmregs d = m_pcmregs dl.
Proof.
  cbn zeta. unfold wave_w. dev_proj. repeat split.
  - apply upd_same.
  - intros k Hk. apply upd_other, Hk.
Qed.

(** Loading a header leaves the phase, the flag and the octave alone. *)
Lemma set_slot_header_sync dev snum p w n :
  slot_sync dev n ->
  slot_sync (set_slot dev snum (load_header p (set_wave (m_slots dev snum) w))) n.
Proof.
  unfold slot_sync. dev_proj. intros H.
  destruct (Z.eq_dec n snum) as [->|Hne].
  - rewrite upd_same. exact H.
  - rewrite upd_other by assumption. exact H.
Qed.

Lemma set_slot_header_inv dev snum p w :
  dev_inv dev ->
  dev_inv (set_slot dev snum (load_header p (set_wave (m_slots dev snum) w))).
Proof.
  intros Hinv n Hn. destruct (Hinv n Hn) as [Hc Hs].
  split; [|apply set_slot_header_sync, Hs].
  dev_proj. destruct (Z.eq_dec n snum) as [->|Hne].
  - rewrite upd_same. exact Hc.
  - rewrite upd_other by assumption. exact Hc.
Qed.

(** Every register write keeps the agreement of a slot with its octave
    register, and a write to the octave register establishes it. *)
Lemma C_w_sync reg data dev n :
  0 <= n < 24 ->
  reg = oct_reg n \/ slot_sync dev n ->
  slot_sync (C_w reg data dev) n.
Proof.
  intros Hn Hs.
  destruct (oct_reg_slot n Hn) as (Hor & Hon & Hog).
  destruct (is_slot_reg reg) eqn:Hr.
  - destruct (Z.eq_dec (group_of reg) 0) as [Hg|Hg].
    + assert (Hne : reg <> oct_reg n)
        by (intros E; rewrite E, Hog in Hg; discriminate).
      destruct Hs as [Hs|Hs]; [contradiction|].
      destruct (slot_reg_decompose reg Hr) as (Hsn & _ & _).
      rewrite (C_w_wave reg data dev Hr Hg). cbn zeta.
      destruct (wave_w_frame data (snum_of reg) dev) as (Sk & Ok & Pk).
      cbn zeta in Sk, Ok, Pk.
      assert (Hl : slot_sync (wave_load C_w data (snum_of reg) dev) n).
      { apply (wave_load_preserves (fun d => slot_sync d n)); [exact Hsn| |].
        - intros r dat d Hr' Hg' Hd. apply C_w_plain_sync; auto.
        - apply set_slot_header_sync, Hs. }
      unfold slot_sync in *. dev_proj.
      rewrite upd_other by (intros E; apply Hne; symmetry; exact E).
      rewrite Pk.
      destruct (Z.eq_dec n (snum_of reg)) as [En|En].
      * subst n. rewrite Sk, key_check_octave. exact Hl.
      * rewrite (Ok n En). exact Hl.
    + apply C_w_plain_sync; assumption.
  - assert (Hne : reg <> oct_reg n)
      by (intros E; rewrite E, Hor in Hr; discriminate).
    destruct Hs as [Hs|Hs]; [contradiction|].
    unfold slot_sync.
    rewrite C_w_global_slots by assumption.
    rewrite C_w_global_pcmregs
      by (assumption || (intros E; apply Hne; symmetry; exact E)).
    exact Hs.
Qed.

(** Every register write keeps the invariant of the device. *)
Lemma C_w_inv reg data dev : dev_inv dev -> dev_inv (C_w reg data dev).
Proof.
  intros Hinv n Hn.
  split; [|apply C_w_sync; [exact Hn | right; apply Hinv, Hn]].
  destruct (is_slot_reg reg) eqn:Hr.
  - destruct (Z.eq_dec (group_of reg) 0) as [Hg|Hg].
    + destruct (slot_reg_decompose reg Hr) as (Hsn & _ & _).
      rewrite (C_w_wave reg data dev Hr Hg). cbn zeta.
      destruct (wave_w_frame data (snum_of reg) dev) as (Sk & Ok & Pk).
      cbn zeta in Sk, Ok, Pk.
      assert (Hl : dev_inv (wave_load C_w data (snum_of reg) dev)).
      { apply (wave_load_preserves dev_inv); [exact Hsn| |].
        - intros r dat d Hr' Hg' Hd. apply C_w_plain_inv; auto.
        - apply set_slot_header_inv, Hinv. }
      dev_proj.
      destruct (Z.eq_dec n (snum_of reg)) as [En|En].
      * rewrite En, Sk. apply key_check_core.
        apply (Hl (snum_of reg)). exact Hsn.
      * rewrite (Ok n En). apply (Hl n Hn).
    + apply (C_w_plain_inv reg data dev Hr Hg Hinv n Hn).
  - rewrite C_w_global_slots by assumption. apply Hinv, Hn.
Qed.

(** *** The invariant through the sample loop *)

(** A voice the terminal phases have switched off: the flag is clear and
    the envelope is parked at silence with no step. *)
Definition off_state (s : YMF278BSlot) : Prop :=
  terminal (env_step s) = true /\ active s = 0 /\
  env_vol s = ENV_OFF /\ env_vol_step s = 0 /\ env_vol_lim s = 0.

(** The invariant of the inner loop: the slot was active when the loop
    started; it is still active, or it has been switched off on the way. *)
Definition playing (s : YMF278BSlot) : Prop :=
  slot_core s /\ (active s = 1 \/ off_state s).

Lemma voice_off_off_state s :
  terminal (env_step s) = true -> 0 <= env_step s <= 5 ->
  off_state (voice_off s) /\ slot_core (voice_off s).
Proof.
  intros Ht Hr. unfold off_state, slot_core, core3, voice_off. slot_proj.
  split.
  - repeat split. exact Ht.
  - split; [exact Hr|]. split; [left; reflexivity|].
    split; [lia | intros [_ H]; rewrite Ht in H; discriminate].
Qed.

Lemma envelope_tick_playing s :
  playing s -> playing (envelope_tick s) /\ octave (envelope_tick s) = octave s.
Proof.
  intros [Hc Hp]. unfold envelope_tick. cbn zeta. slot_proj.
  destruct Hp as [Ha|Hoff].
  - (* still active: the phase is not terminal and the octave is not 8 *)
    destruct Hc as (Hr & Ha01 & Hiff).
    destruct (proj1 Hiff Ha) as [Ho Ht].
    apply terminal_false in Ht. unfold DECAY2_DONE, RELEASE_DONE in Ht.
    match goal with |- context [if ?c then _ else _] => destruct c end.
    + rewrite compute_envelope_octave. split; [|reflexivity].
      destruct (compute_envelope_phase
                  (set_env_step
                     (set_env_vol s (u32 (env_vol s + env_vol_step s)))
                     (env_step s + 1))) as [_ Hact].
      revert Hact. slot_proj. intros Hact.
      assert (Hpre : slot_core
                (compute_envelope
                   (set_env_step
                      (set_env_vol s (u32 (env_vol s + env_vol_step s)))
                      (env_step s + 1)))).
      { apply compute_envelope_core. slot_proj. rewrite Ha.
        split; [lia|]. split; [right; reflexivity|].
        split; [intros _; exact Ho | lia]. }
      split; [exact Hpre|].
      destruct (terminal (env_step s + 1)) eqn:Et1.
      * right. rewrite compute_envelope_done
          by (slot_proj; apply terminal_cases; exact Et1).
        apply voice_off_off_state; slot_proj; [exact Et1 | lia].
      * left. rewrite Hact, Ha. reflexivity.
    + match goal with |- context [if ?c then _ else _] => destruct c end.
      * rewrite compute_envelope_octave. split; [|reflexivity].
        destruct (compute_envelope_phase
                    (set_env_vol s (u32 (env_vol s + env_vol_step s))))
          as [_ Hact].
        revert Hact. slot_proj. intros Hact.
        split.
        -- apply compute_envelope_core. slot_proj. rewrite Ha.
           split; [lia|]. split; [right; reflexivity|].
           split; [intros _; exact Ho | lia].
        -- left. rewrite Hact.
           replace (terminal (env_step s)) with false
             by (symmetry; apply terminal_false; exact Ht).
           exact Ha.
      * split; [|reflexivity]. split; [|left; exact Ha].
        unfold slot_core, core3. slot_proj. repeat split; tauto || lia.
  - (* switched off: nothing moves any more *)
    destruct Hoff as (Ht & Ha & Hv & Hs & Hl).
    destruct Hc as (Hr & _).
    rewrite Hv, Hs, Hl.
    change (s32 (u32 (ENV_OFF + 0) - 0) >=? 0) with false. cbn iota.
    match goal with |- context [if ?c then _ else _] => destruct c end.
    + rewrite compute_envelope_octave. split; [|reflexivity].
      rewrite compute_envelope_done
        by (slot_proj; apply terminal_cases; exact Ht).
      destruct (voice_off_off_state
                  (set_env_vol s (u32 (ENV_OFF + 0))) Ht Hr) as [H1 H2].
      split; [exact H2 | right; exact H1].
    + split; [|reflexivity]. split.
      * unfold slot_core, core3. slot_proj. rewrite Ha, Ht.
        split; [exact Hr|]. split; [left; reflexivity|].
        split; [lia | intros [_ ?]; discriminate].
      * right. unfold off_state. slot_proj. repeat split; assumption.
Qed.

Lemma slot_sample_playing rom j s sample buf :
  playing s ->
  playing (fst (fst (slot_sample rom j (s, sample, buf)))) /\
  octave (fst (fst (slot_sample rom j (s, sample, buf)))) = octave s.
Proof.
  intros Hp. unfold slot_sample. cbn [fst].
  match goal with |- context [envelope_tick ?t] =>
    assert (Ht : playing t /\ octave t = octave s)
  end.
  { unfold loop_wrap.
    destruct (stepptr s >=? endaddr s); split; try reflexivity; exact Hp. }
  destruct Ht as [Ht Ho].
  match goal with |- context [envelope_tick ?t] =>
    destruct (envelope_tick_playing t Ht) as [H1 H2]
  end.
  split; [exact H1 | rewrite H2; exact Ho].
Qed.

Lemma slot_samples_playing rom n : forall j s sample buf,
  playing s ->
  playing (fst (fst (slot_samples rom n j (s, sample, buf)))) /\
  octave (fst (fst (slot_samples rom n j (s, sample, buf)))) = octave s.
Proof.
  induction n as [|n IH]; intros j s sample buf Hp.
  - split; [exact Hp | reflexivity].
  - cbn [slot_samples].
    destruct (slot_sample_playing rom j s sample buf Hp) as [H1 H2].
    destruct (slot_sample rom j (s, sample, buf)) as [[s1 sm1] b1].
    cbn [fst] in H1, H2.
    destruct (IH (j + 1) s1 sm1 b1 H1) as [H3 H4].
    split; [exact H3 | rewrite H4; exact H2].
Qed.

(** The outer loop body keeps the invariant and the octave of the slot. *)
Lemma slot_update_core rom n s sample buf :
  slot_core s ->
  slot_core (fst (fst (slot_update rom n (s, sample, buf)))) /\
  octave (fst (fst (slot_update rom n (s, sample, buf)))) = octave s.
Proof.
  intros Hc. unfold slot_update.
  destruct (nz (active s)) eqn:Ea; [|split; [exact Hc | reflexivity]].
  assert (Hp : playing s).
  { split; [exact Hc|]. left.
    destruct Hc as (_ & [E|E] & _); [rewrite E in Ea; discriminate | exact E]. }
  destruct (slot_samples_playing rom n 0 s sample buf Hp) as [[H1 _] H2].
  split; assumption.
Qed.

(** A slot that is not active is skipped: the slot, the local sample and
    the mix buffer are what they were. *)
Lemma slot_update_inactive rom n s sample buf :
  active s = 0 -> slot_update rom n (s, sample, buf) = (s, sample, buf).
Proof. intros Ha. unfold slot_update. rewrite Ha. reflexivity. Qed.

(** The outer loop as a fold: a property of the slots that each pass keeps
    holds of all slots at the end. *)
Lemma mix_fold_inv (P : Z -> YMF278BSlot -> Prop) rom n :
  (forall i s sample buf,
     P i s -> P i (fst (fst (slot_update rom n (s, sample, buf))))) ->
  forall l slots sample buf,
    (forall k, P k (slots k)) ->
    forall k,
      P k (fst (fst
        (fold_left
           (fun (acc : (Z -> YMF278BSlot) * Z * (Z -> Z)) (i : Z) =>
              let '(slots, sample, buf) := acc in
              let '(slot', sample', buf') :=
                slot_update rom n (slots i, sample, buf) in
              (upd slots i slot', sample', buf'))
           l (slots, sample, buf))) k).
Proof.
  intros Hstep l. induction l as [|i l IH]; intros slots sample buf H k.
  - apply H.
  - cbn [fold_left].
    pose proof (Hstep i (slots i) sample buf (H i)) as Hi.
    destruct (slot_update rom n (slots i, sample, buf)) as [[s1 sm1] b1].
    cbn [fst] in Hi. apply IH. intros k'.
    destruct (Z.eq_dec k' i) as [->|Hne].
    + rewrite upd_same. exact Hi.
    + rewrite upd_other by assumption. apply H.
Qed.

Lemma sound_stream_update_frame n dev :
  m_slots (sound_stream_update n dev)
  = fst (fst (mix_slots (m_rom dev) n (m_slots dev))) /\
  m_mix_buffer (sound_stream_update n dev)
  = snd (mix_slots (m_rom dev) n (m_slots dev)) /\
  m_pcmregs (sound_stream_update n dev) = m_pcmregs dev /\
  m_rom (sound_stream_update n dev) = m_rom dev.
Proof.
  unfold sound_stream_update.
  destruct (mix_slots (m_rom dev) n (m_slots dev)) as [[slots smp] buf].
  destruct (fm_resample FM_STEP n (m_fm_pos dev, m_fm dev)) as [pos fm].
  repeat split.
Qed.

Lemma sound_stream_update_inv n dev :
  dev_inv dev -> dev_inv (sound_stream_update n dev).
Proof.
  intros Hinv k Hk.
  destruct (sound_stream_update_frame n dev) as (Hs & _ & Hp & _).
  unfold slot_sync. rewrite Hs, Hp. unfold mix_slots.
  apply (mix_fold_inv
           (fun i s => 0 <= i < 24 ->
                       slot_core s /\
                       octave s = Z.shiftr
                         (Z.land (m_pcmregs dev (oct_reg i)) 0xf0) 4)).
  - intros i s sample buf H Hi. destruct (H Hi) as [Hc Ho].
    destruct (slot_update_core (m_rom dev) n s sample buf Hc) as [H1 H2].
    split; [exact H1 | rewrite H2; exact Ho].
  - intros i Hi. apply Hinv, Hi.
  - exact Hk.
Qed.

(** *** The invariant after reset and through the bus interface *)

(** The invariant speaks of the slots and of the register file only. *)
Lemma dev_inv_ext d d' :
  m_slots d' = m_slots d -> m_pcmregs d' = m_pcmregs d ->
  dev_inv d -> dev_inv d'.
Proof.
  intros Hs Hp Hinv n Hn. unfold slot_sync. rewrite Hs, Hp. apply Hinv, Hn.
Qed.

Lemma reset_writes_sync l n : forall dev,
  0 <= n < 24 ->
  In (oct_reg n) l \/ slot_sync dev n ->
  slot_sync (fold_left (fun d i => C_w i 0 d) l dev) n.
Proof.
  induction l as [|r l IH]; intros dev Hn H; cbn [fold_left].
  - destruct H as [[]|H]. exact H.
  - apply IH; [exact Hn|].
    destruct H as [[E|Hin]|H].
    + right. apply C_w_sync; [exact Hn | left; exact E].
    + left. exact Hin.
    + right. apply C_w_sync; [exact Hn | right; exact H].
Qed.

Lemma oct_reg_in_reset_order n :
  0 <= n < 24 -> In (oct_reg n) reset_register_order.
Proof.
  intros Hn. unfold reset_register_order. apply in_or_app. right.
  apply in_map_iff. exists (Z.to_nat (199 - n)). split.
  - unfold oct_reg. lia.
  - apply in_seq. lia.
Qed.

Lemma reset_slot_core s :
  slot_core (reset_slot s) /\ octave (reset_slot s) = octave s.
Proof.
  unfold reset_slot. cbn zeta.
  rewrite compute_envelope_done by (right; reflexivity).
  unfold voice_off, slot_core, core3. slot_proj.
  split; [|reflexivity].
  split; [lia|]. split; [left; reflexivity|].
  split; [lia | intros [_ ?]; discriminate].
Qed.

Lemma reset_slots_effect l : forall dev,
  let dev' :=
    fold_left (fun d i => set_slot d i (reset_slot (m_slots d i))) l dev in
  (forall n, octave (m_slots dev' n) = octave (m_slots dev n)) /\
  (forall n, slot_core (m_slots dev n) \/ In n l ->
             slot_core (m_slots dev' n)) /\
  m_pcmregs dev' = m_pcmregs dev.
Proof.
  induction l as [|i l IH]; intros dev; cbn zeta; cbn [fold_left].
  - split; [reflexivity|]. split; [|reflexivity].
    intros n [H|[]]. exact H.
  - destruct (IH (set_slot dev i (reset_slot (m_slots dev i))))
      as (Ho & Hc & Hp). cbn zeta in Ho, Hc, Hp.
    destruct (reset_slot_core (m_slots dev i)) as [Rc Ro].
    split; [|split].
    + intros n. rewrite Ho. dev_proj.
      destruct (Z.eq_dec n i) as [->|Hne];
        [rewrite upd_same; exact Ro | rewrite upd_other by assumption;
                                      reflexivity].
    + intros n H. apply Hc. dev_proj.
      destruct (Z.eq_dec n i) as [->|Hne].
      * left. rewrite upd_same. exact Rc.
      * rewrite upd_other by assumption.
        destruct H as [H|[E|H]]; [left; exact H | congruence | right; exact H].
    + rewrite Hp. reflexivity.
Qed.

Lemma slot_numbers_in n : 0 <= n < 24 -> In n slot_numbers.
Proof.
  intros Hn. unfold slot_numbers. apply in_map_iff.
  exists (Z.to_nat n). split; [lia | apply in_seq; lia].
Qed.

(** Reset establishes the invariant, whatever the device held before. *)
Lemma device_reset_inv dev : dev_inv (device_reset dev).
Proof.
  intros n Hn. unfold device_reset. cbn zeta.
  set (d1 := fold_left (fun d i => C_w i 0 d) reset_register_order dev).
  set (d2 := C_w 0xf8 0x1b d1).
  set (d3 := set_m_memadr _ 0).
  assert (H2 : slot_sync d2 n).
  { apply C_w_sync; [exact Hn|]. right.
    apply reset_writes_sync; [exact Hn|]. left.
    apply oct_reg_in_reset_order, Hn. }
  assert (H3 : slot_sync d3 n) by exact H2.
  destruct (reset_slots_effect slot_numbers d3) as (Ho & Hc & Hp).
  cbn zeta in Ho, Hc, Hp.
  set (d4 := fold_left _ slot_numbers d3) in *.
  split.
  - dev_proj. apply Hc. right. apply slot_numbers_in, Hn.
  - unfold slot_sync in *. dev_proj. rewrite Ho, Hp. exact H3.
Qed.

Lemma write_inv pending offset data dev :
  dev_inv dev -> dev_inv (write pending offset data dev).
Proof.
  intros Hinv. unfold write.
  destruct (land7_cases offset) as [E|[E|[E|[E|[E|[E|[E|E]]]]]]];
    rewrite E; cbn iota; try exact Hinv;
    try (eapply dev_inv_ext; [| |exact Hinv]; reflexivity).
  - match goal with |- context [if ?c then _ else _] => destruct c end;
      (eapply dev_inv_ext; [| |exact Hinv]; reflexivity).
  - match goal with |- context [if ?c then _ else _] => destruct c end;
      (eapply dev_inv_ext; [| |exact Hinv]; reflexivity).
  - destruct (negb (nz (fm_new2flag (m_fm dev)))); [exact Hinv|].
    apply C_w_inv.
    eapply dev_inv_ext; [| |apply (sound_stream_update_inv pending dev Hinv)];
      reflexivity.
Qed.

Lemma read_inv offset dev : dev_inv dev -> dev_inv (snd (read offset dev)).
Proof.
  intros Hinv. eapply dev_inv_ext; [| |exact Hinv]; unfold read;
    destruct (land7_cases offset) as [E|[E|[E|[E|[E|[E|[E|E]]]]]]];
    rewrite E; cbn iota;
    repeat match goal with
           | |- context [if ?c then _ else _] => destruct c
           end; try reflexivity;
    destruct (m_port_C dev) as [|p|p]; try reflexivity;
    split_numeral; reflexivity.
Qed.

(** The states the device can be in: after a reset, and from there through
    any sequence of bus writes and reads, stream updates, clock changes and
    (for completeness) direct calls of the register decoder. *)
Inductive reachable : ymf278b_device -> Prop :=
| reach_reset dev : reachable (device_reset dev)
| reach_write pending offset data dev :
    reachable dev -> reachable (write pending offset data dev)
| reach_read offset dev :
    reachable dev -> reachable (snd (read offset dev))
| reach_update n dev :
    reachable dev -> reachable (sound_stream_update n dev)
| reach_clock clock dev :
    reachable dev -> reachable (device_clock_changed clock dev)
| reach_C_w reg data dev :
    reachable dev -> reachable (C_w reg data dev).

Lemma reachable_inv dev : reachable dev -> dev_inv dev.
Proof.
  induction 1.
  - apply device_reset_inv.
  - apply write_inv; assumption.
  - apply read_inv; assumption.
  - apply sound_stream_update_inv; assumption.
  - eapply dev_inv_ext; [| |eassumption]; reflexivity.
  - apply C_w_inv; assumption.
Qed.

(** C7.  In every state the device can reach, and for each of the 24
    slots: the slot is active exactly when its octave is not 8 and its phase
    is neither Decay2-done nor Release-done; a slot that is not active, and
    in particular every slot whose octave is 8, whatever its other members
    hold, is skipped by the mix loop, which leaves all four mix channels of
    every output sample (both stereo buses) as they were; and when no slot is
    active the mix buffer of a stream update is zero throughout. *)
Theorem active_iff_audible (dev : ymf278b_device) :
  reachable dev ->
  forall n, 0 <= n < 24 ->
  let s := m_slots dev n in
  (nz (active s) = true <->
   octave s <> 8 /\ env_step s <> DECAY2_DONE /\ env_step s <> RELEASE_DONE) /\
  (octave s = 8 -> active s = 0) /\
  (active s = 0 ->
   forall rom k sample buf,
     slot_update rom k (s, sample, buf) = (s, sample, buf)) /\
  (octave s = 8 ->
   forall rom k sample buf j,
     snd (slot_update rom k (s, sample, buf)) j = buf j) /\
  ((forall i, octave (m_slots dev i) = 8 \/ active (m_slots dev i) = 0) ->
   forall k j, m_mix_buffer (sound_stream_update k dev) j = 0).
Proof.
  intros Hreach n Hn. cbn zeta.
  pose proof (reachable_inv dev Hreach) as Hinv.
  destruct (Hinv n Hn) as [(Hr & Ha & Hiff) _].
  assert (Hmute : octave (m_slots dev n) = 8 -> active (m_slots dev n) = 0).
  { intros Ho. destruct Ha as [E|E]; [exact E|].
    apply Hiff in E. destruct E as [E _]. contradiction. }
  split; [|split; [|split; [|split]]].
  - rewrite <- terminal_false. unfold nz. split.
    + intros H. apply Hiff. destruct Ha as [E|E]; [|exact E].
      rewrite E in H. discriminate.
    + intros H. apply Hiff in H. rewrite H. reflexivity.
  - exact Hmute.
  - intros H0 rom k sample buf. apply slot_update_inactive, H0.
  - intros Ho rom k sample buf j.
    rewrite slot_update_inactive by (apply Hmute, Ho). reflexivity.
  - intros Hall k j.
    destruct (sound_stream_update_frame k dev) as (_ & -> & _).
    unfold mix_slots.
    (* only the flags of the slots 0 to 23 matter; outside that range the
       loop reads nothing *)
    assert (Hin : forall l, (forall i, In i l -> 0 <= i < 24) ->
              forall slots sample buf,
                (forall i, 0 <= i < 24 -> active (slots i) = 0) ->
                snd (fold_left
                  (fun (acc : (Z -> YMF278BSlot) * Z * (Z -> Z)) (i : Z) =>
                     let '(slots, sample, buf) := acc in
                     let '(slot', sample', buf') :=
                       slot_update (m_rom dev) k (slots i, sample, buf) in
                     (upd slots i slot', sample', buf'))
                  l (slots, sample, buf)) = buf).
    { induction l as [|i l IH]; intros Hl slots sample buf H;
        cbn [fold_left]; [reflexivity|].
      rewrite slot_update_inactive by (apply H, Hl; left; reflexivity).
      apply IH.
      - intros i' Hi'. apply Hl. right. exact Hi'.
      - intros i' Hi'. unfold upd. destruct (i' =? i); apply H;
          [apply Hl; left; reflexivity | exact Hi']. }
    rewrite Hin; [reflexivity| |].
    + intros i Hi. unfold slot_numbers in Hi. apply in_map_iff in Hi.
      destruct Hi as (m & <- & Hm). apply in_seq in Hm. lia.
    + intros i Hi. destruct (Hall i) as [Ho|H0]; [|exact H0].
      destruct (Hinv i Hi) as [(_ & Ha' & Hiff') _].
      destruct Ha' as [E|E]; [exact E|].
      apply Hiff' in E. destruct E as [E _]. contradiction.
Qed.


(* ---------------------------------------------------------------------- *)
(** ** Further properties of the envelope and pitch computations *)

Lemma compute_rate_range slot val : 0 <= compute_rate slot val <= 63.
Proof.
  unfold compute_rate.
  destruct (val =? 0); [lia|]. destruct (val =? 15); [lia|]. cbn zeta.
  match goal with |- context [if ?c <? 0 then _ else _] =>
    destruct (c <? 0) eqn:A; [lia|]; destruct (c >? 63) eqn:B; lia end.
Qed.

(** The rates the tables are indexed with. *)
Definition all_rates : list Z := map Z.of_nat (seq 0 64).

Lemma all_rates_in r : 0 <= r <= 63 -> In r all_rates.
Proof.
  intros H. unfold all_rates. apply in_map_iff.
  exists (Z.to_nat r). split; [lia | apply in_seq; lia].
Qed.

(** X14.  The rate tables are used within their bounds and never divide by
    zero.  [compute_rate] always returns an index of the 64-entry tables, 0
    for a rate register of 0 and 63 for one of 15; whenever the decay step
    divides by a table entry (rates 4 to 63, and the fixed rates 56 and 5 of
    damping and pseudo reverb) the entry is positive, and so is the attack
    entry for every rate from 4 to 62, the only ones the attack divides by;
    and a faster rate never has a larger table entry, so it never gives a
    smaller decay step. *)
Theorem rate_tables_safe (slot : YMF278BSlot) (val : Z) :
  let rate := compute_rate slot val in
  0 <= rate <= 63 /\
  (val = 0 -> rate = 0) /\ (val = 15 -> rate = 63) /\
  (forall r, 4 <= r <= 63 -> 0 < u32 (m_lut_dr r)) /\
  (forall r, 4 <= r <= 62 -> 0 < u32 (m_lut_ar r)) /\
  (forall r1 r2, 4 <= r1 -> r1 <= r2 -> r2 <= 63 ->
     m_lut_dr r2 <= m_lut_dr r1 /\
     Z.quot ENV_OFF (u32 (m_lut_dr r1)) <= Z.quot ENV_OFF (u32 (m_lut_dr r2))) /\
  (let rate' :=
     if nz (DAMP slot) then 56
     else if nz (preverb slot) && (env_vol slot >? PREVERB_LEVEL) then 5
     else rate in
   snd (compute_decay_env_vol_step slot val)
   = (if rate' <? 4 then 0 else u32 (Z.quot ENV_OFF (u32 (m_lut_dr rate')))) /\
   (4 <= rate' -> 0 < u32 (m_lut_dr rate'))).
Proof.
  cbn zeta.
  pose proof (compute_rate_range slot val) as Hr.
  assert (Hdr : forall r, 4 <= r <= 63 -> 0 < u32 (m_lut_dr r)).
  { intros r H.
    assert (Hall : forallb (fun r => (r <? 4) || (0 <? u32 (m_lut_dr r)))
                     all_rates = true) by (vm_compute; reflexivity).
    rewrite forallb_forall in Hall.
    specialize (Hall r (all_rates_in r ltac:(lia))).
    apply orb_true_iff in Hall. destruct Hall; lia. }
  split; [exact Hr|].
  split; [intros ->; reflexivity|]. split; [intros ->; reflexivity|].
  split; [exact Hdr|]. split; [|split].
  - intros r H.
    assert (Hall : forallb (fun r => (r <? 4) || (62 <? r)
                                     || (0 <? u32 (m_lut_ar r)))
                     all_rates = true) by (vm_compute; reflexivity).
    rewrite forallb_forall in Hall.
    specialize (Hall r (all_rates_in r ltac:(lia))).
    rewrite !orb_true_iff in Hall. destruct Hall as [[?|?]|?]; lia.
  - intros r1 r2 H1 H12 H2.
    assert (Hall : forallb (fun r1 => forallb (fun r2 =>
                (r1 <? 4) || (r2 <? r1)
                || ((m_lut_dr r2 <=? m_lut_dr r1)
                    && (Z.quot ENV_OFF (u32 (m_lut_dr r1))
                        <=? Z.quot ENV_OFF (u32 (m_lut_dr r2)))))
                all_rates) all_rates = true) by (vm_compute; reflexivity).
    rewrite forallb_forall in Hall.
    specialize (Hall r1 (all_rates_in r1 ltac:(lia))).
    rewrite forallb_forall in Hall.
    specialize (Hall r2 (all_rates_in r2 ltac:(lia))).
    rewrite !orb_true_iff, andb_true_iff in Hall.
    destruct Hall as [[?|?]|[? ?]]; lia.
  - unfold compute_decay_env_vol_step.
    destruct (nz (DAMP slot)); cbn [snd].
    + split; [reflexivity | intros _; apply Hdr; lia].
    + destruct (nz (preverb slot) && (env_vol slot >? PREVERB_LEVEL));
        cbn [snd].
      * split; [reflexivity | intros _; apply Hdr; lia].
      * split; [reflexivity | intros H; apply Hdr; lia].
Qed.

Lemma lor_shiftl_add a b n :
  0 <= n -> 0 <= a < 2 ^ n -> Z.lor a (Z.shiftl b n) = a + b * 2 ^ n.
Proof.
  intros Hn Ha.
  assert (H : Z.land a (Z.shiftl b n) = 0).
  { apply Z.bits_inj'. intros m Hm. rewrite Z.land_spec, Z.bits_0.
    destruct (Z_lt_ge_dec m n) as [L|G].
    - rewrite Z.shiftl_spec_low by lia. apply andb_false_r.
    - assert (Ht : Z.testbit a m = false).
      { apply Z.testbit_false; [lia|].
        rewrite Z.div_small; [reflexivity|].
        split; [lia|]. apply Z.lt_le_trans with (2 ^ n); [lia|].
        apply Z.pow_le_mono_r; lia. }
      rewrite Ht. reflexivity. }
  rewrite <- Z.lxor_lor by exact H.
  rewrite <- Z.add_nocarry_lxor by exact H.
  rewrite Z.shiftl_mul_pow2 by lia. reflexivity.
Qed.

Lemma signed_octave_value slot :
  0 <= octave slot < 16 ->
  signed_octave slot
  = (if octave slot <? 8 then octave slot else octave slot - 16).
Proof.
  intros H. unfold signed_octave.
  assert (Hc : In (octave slot) (map Z.of_nat (seq 0 16))).
  { apply in_map_iff. exists (Z.to_nat (octave slot)).
    split; [lia | apply in_seq; lia]. }
  assert (Hall : forallb (fun o =>
             (if nz (Z.land o 8) then Z.lor o (-8) else o)
             =? (if o <? 8 then o else o - 16))
             (map Z.of_nat (seq 0 16)) = true) by (vm_compute; reflexivity).
  rewrite forallb_forall in Hall. apply Z.eqb_eq, Hall, Hc.
Qed.

(** X15.  The frequency step.  With a 10-bit F-number and a 4-bit octave,
    the octave is read as a two's-complement number from -8 to 7, and the
    step is [(F_NUMBER + 1024) * 2^(octave + 8) / 8] without any wrap-around
    of the 32-bit intermediate; from octave -5 upwards this is exactly
    [(F_NUMBER + 1024) * 2^(octave + 5)], so that one octave up doubles the
    step; and [compute_freq_step] changes no other member of the slot. *)
Theorem freq_step_octave (slot : YMF278BSlot) :
  0 <= F_NUMBER slot < 1024 -> 0 <= octave slot < 16 ->
  let oct := signed_octave slot in
  -8 <= oct <= 7 /\
  oct = (if octave slot <? 8 then octave slot else octave slot - 16) /\
  step (compute_freq_step slot)
  = ((F_NUMBER slot + 1024) * 2 ^ (oct + 8)) / 8 /\
  (-5 <= oct ->
     step (compute_freq_step slot) = (F_NUMBER slot + 1024) * 2 ^ (oct + 5)) /\
  (forall slot', F_NUMBER slot' = F_NUMBER slot -> 0 <= octave slot' < 16 ->
     signed_octave slot' = oct + 1 -> -5 <= oct ->
     step (compute_freq_step slot') = 2 * step (compute_freq_step slot)) /\
  compute_freq_step slot = set_step slot (step (compute_freq_step slot)).
Proof.
  intros HF Ho. cbn zeta.
  pose proof (signed_octave_value slot Ho) as Hs.
  assert (Hr : -8 <= signed_octave slot <= 7)
    by (rewrite Hs; destruct (octave slot <? 8) eqn:E; lia).
  assert (Hstep : forall s, 0 <= F_NUMBER s < 1024 ->
            -8 <= signed_octave s <= 7 ->
            step (compute_freq_step s)
            = ((F_NUMBER s + 1024) * 2 ^ (signed_octave s + 8)) / 8).
  { intros s HFs Hrs. unfold compute_freq_step. slot_proj.
    change 1024 with (Z.shiftl 1 10) at 1.
    rewrite (lor_shiftl_add (F_NUMBER s) 1 10) by (change (2 ^ 10) with 1024; lia).
    change (1 * 2 ^ 10) with 1024.
    rewrite Z.shiftl_mul_pow2 by lia.
    assert (Hp : 0 < 2 ^ (signed_octave s + 8) <= 2 ^ 15).
    { split; [apply Z.pow_pos_nonneg; lia|].
      apply Z.pow_le_mono_r; lia. }
    change (2 ^ 15) with 32768 in Hp.
    unfold u32. rewrite Z.mod_small
      by (change (2 ^ 32) with 4294967296; nia).
    rewrite Z.shiftr_div_pow2 by lia. reflexivity. }
  assert (Hexact : forall s, 0 <= F_NUMBER s < 1024 ->
            -5 <= signed_octave s <= 7 ->
            step (compute_freq_step s)
            = (F_NUMBER s + 1024) * 2 ^ (signed_octave s + 5)).
  { intros s HFs Hrs. rewrite Hstep by lia.
    replace (signed_octave s + 8) with (signed_octave s + 5 + 3) by lia.
    rewrite Z.pow_add_r by lia. change (2 ^ 3) with 8.
    rewrite Z.mul_assoc. apply Z.div_mul. lia. }
  split; [exact Hr|]. split; [exact Hs|].
  split; [apply Hstep; assumption|].
  split; [intros H5; apply Hexact; lia|]. split.
  - intros slot' HF' Ho' Hoct H5.
    assert (Hr' : -8 <= signed_octave slot' <= 7).
    { rewrite (signed_octave_value slot' Ho').
      destruct (octave slot' <? 8) eqn:E; lia. }
    rewrite (Hexact slot') by lia. rewrite (Hexact slot) by lia.
    rewrite Hoct, HF'.
    replace (signed_octave slot + 1 + 5) with (Z.succ (signed_octave slot + 5))
      by lia.
    rewrite Z.pow_succ_r by lia. lia.
  - unfold compute_freq_step. slot_proj. reflexivity.
Qed.

(* ---------------------------------------------------------------------- *)
(** ** Further properties of the wave header and the loop *)

Lemma rd_byte rom a : 0 <= rd rom a < 256.
Proof. unfold rd, u8. change (2 ^ 8) with 256. apply Z.mod_pos_bound. lia. Qed.

(** The end address as the header gives it, from the 16-bit number in
    bytes 5 and 6. *)
Definition end_of_header (e : Z) : Z :=
  Z.lxor (u32 (u32 (e * 65536) - 0x00010000)) 0xffff0000.

Lemma lxor_ones_low x n :
  0 <= n -> 0 <= x < 2 ^ n -> Z.lxor x (Z.ones n) = Z.ones n - x.
Proof.
  intros Hn Hx.
  assert (E : Z.lxor x (Z.ones n) = Z.land (Z.lnot x) (Z.ones n)).
  { apply Z.bits_inj'. intros m Hm.
    rewrite Z.lxor_spec, Z.land_spec, Z.lnot_spec by lia.
    destruct (Z_lt_ge_dec m n) as [L|G].
    - rewrite Z.ones_spec_low by lia.
      rewrite andb_true_r. apply xorb_true_r.
    - rewrite Z.ones_spec_high by lia.
      rewrite andb_false_r, xorb_false_r.
      apply Z.testbit_false; [lia|].
      rewrite Z.div_small; [reflexivity|].
      split; [lia|]. apply Z.lt_le_trans with (2 ^ n); [lia|].
      apply Z.pow_le_mono_r; lia. }
  rewrite E, Z.land_ones by lia. unfold Z.lnot.
  rewrite Z.ones_equiv.
  symmetry. apply (Z.mod_unique _ _ (-1)); lia.
Qed.

Lemma end_of_header_negated e :
  0 <= e < 65536 -> end_of_header e = ((- e) mod 65536) * 65536.
Proof.
  intros H. unfold end_of_header, u32.
  change (2 ^ 32) with 4294967296.
  rewrite (Z.mod_small (e * 65536)) by lia.
  destruct (Z.eq_dec e 0) as [->|Hne]; [reflexivity|].
  rewrite Z.mod_small by lia.
  replace (e * 65536 - 65536) with (Z.shiftl (e - 1) 16)
    by (rewrite Z.shiftl_mul_pow2 by lia; change (2 ^ 16) with 65536; lia).
  change 4294901760 with (Z.shiftl (Z.ones 16) 16).
  rewrite <- Z.shiftl_lxor.
  rewrite lxor_ones_low by (change (2 ^ 16) with 65536; lia).
  rewrite Z.shiftl_mul_pow2 by lia.
  change (Z.ones 16) with 65535. change (2 ^ 16) with 65536. f_equal.
  apply (Z.mod_unique _ _ (-1)); lia.
Qed.

Lemma shiftl_pair lo hi :
  0 <= lo < 256 -> 0 <= hi < 256 ->
  Z.lor (Z.shiftl lo 16) (Z.shiftl hi 24) = (hi * 256 + lo) * 65536.
Proof.
  intros Hl Hh.
  replace (Z.shiftl hi 24) with (Z.shiftl (Z.shiftl hi 8) 16)
    by (rewrite Z.shiftl_shiftl by lia; reflexivity).
  rewrite <- Z.shiftl_lor.
  rewrite (lor_shiftl_add lo hi 8) by (change (2 ^ 8) with 256; lia).
  rewrite Z.shiftl_mul_pow2 by lia.
  change (2 ^ 8) with 256. change (2 ^ 16) with 65536. lia.
Qed.

(** X16.  The wave header.  The header bytes, read from wave memory,
    decode to: a bit depth from 0 to 3 (the top two bits of byte 0); a
    22-bit start address (the low six bits of byte 0, then bytes 1 and 2);
    a loop address whose upper 16 bits are bytes 3 and 4 and whose lower 16
    bits are 0; and an end address whose upper 16 bits are the two's
    complement of the 16-bit number in bytes 5 and 6: the header stores the
    end address negated.  Nothing else of the slot changes. *)
Theorem header_addresses (rom : rom_space) (offset : Z) (slot : YMF278BSlot) :
  let p := fun i => rd rom (offset + i) in
  let s := load_header p slot in
  0 <= bits s <= 3 /\ bits s = p 0 / 64 /\
  startaddr s = (p 0 mod 64) * 65536 + p 1 * 256 + p 2 /\
  0 <= startaddr s < 2 ^ 22 /\
  loopaddr s = (p 3 * 256 + p 4) * 65536 /\
  endaddr s = ((- (p 5 * 256 + p 6)) mod 65536) * 65536 /\
  (p 5 * 256 + p 6 <> 0 ->
     endaddr s = (65536 - (p 5 * 256 + p 6)) * 65536) /\
  s = set_endaddr
        (set_loopaddr (set_startaddr (set_bits slot (bits s)) (startaddr s))
           (loopaddr s)) (endaddr s).
Proof.
  cbn zeta.
  pose proof (rd_byte rom (offset + 0)) as H0.
  pose proof (rd_byte rom (offset + 1)) as H1.
  pose proof (rd_byte rom (offset + 2)) as H2.
  pose proof (rd_byte rom (offset + 3)) as H3.
  pose proof (rd_byte rom (offset + 4)) as H4.
  pose proof (rd_byte rom (offset + 5)) as H5.
  pose proof (rd_byte rom (offset + 6)) as H6.
  unfold load_header. slot_proj.
  set (p0 := rd rom (offset + 0)) in *. set (p1 := rd rom (offset + 1)) in *.
  set (p2 := rd rom (offset + 2)) in *. set (p3 := rd rom (offset + 3)) in *.
  set (p4 := rd rom (offset + 4)) in *. set (p5 := rd rom (offset + 5)) in *.
  set (p6 := rd rom (offset + 6)) in *.
  assert (Eb : Z.shiftr (Z.land p0 192) 6 = p0 / 64).
  { assert (Hall : forallb (fun v => Z.shiftr (Z.land v 192) 6 =? v / 64)
                     (map Z.of_nat (seq 0 256)) = true)
      by (vm_compute; reflexivity).
    rewrite forallb_forall in Hall. apply Z.eqb_eq, Hall.
    apply in_map_iff. exists (Z.to_nat p0).
    split; [lia | apply in_seq; lia]. }
  assert (Es : Z.lor (Z.lor p2 (Z.shiftl p1 8)) (Z.shiftl (Z.land p0 63) 16)
               = (p0 mod 64) * 65536 + p1 * 256 + p2).
  { change 63 with (Z.ones 6). rewrite Z.land_ones by lia.
    change (2 ^ 6) with 64.
    rewrite (lor_shiftl_add p2 p1 8) by (change (2 ^ 8) with 256; lia).
    change (2 ^ 8) with 256.
    rewrite lor_shiftl_add by (change (2 ^ 16) with 65536; lia).
    change (2 ^ 16) with 65536. lia. }
  assert (El : u32 (Z.lor (Z.shiftl p4 16) (Z.shiftl p3 24))
               = (p3 * 256 + p4) * 65536).
  { rewrite shiftl_pair by assumption. unfold u32.
    apply Z.mod_small. change (2 ^ 32) with 4294967296. lia. }
  assert (Ee : Z.lxor
                 (u32 (u32 (Z.lor (Z.shiftl p6 16) (Z.shiftl p5 24)) - 65536))
                 4294901760
               = ((- (p5 * 256 + p6)) mod 65536) * 65536).
  { rewrite shiftl_pair by assumption.
    apply (end_of_header_negated (p5 * 256 + p6)). lia. }
  rewrite Eb, Es, El, Ee.
  pose proof (Z.mod_pos_bound p0 64 ltac:(lia)) as Hm.
  assert (Hq : 0 <= p0 / 64 <= 3).
  { split; [apply Z.div_pos; lia|].
    assert (p0 / 64 < 4) by (apply Z.div_lt_upper_bound; lia). lia. }
  split; [exact Hq|]. split; [reflexivity|]. split; [reflexivity|].
  split; [change (2 ^ 22) with 4194304; lia|]. split; [reflexivity|].
  split; [reflexivity|]. split; [|reflexivity].
  intros Hne. f_equal.
  replace (- (p5 * 256 + p6)) with (65536 - (p5 * 256 + p6) + -1 * 65536)
    by lia.
  rewrite Z.mod_add by lia. apply Z.mod_small. lia.
Qed.

(** X17.  When one wrap is enough.  With the loop address below the end
    address: a phase below the end is left alone; a phase at or past the
    end comes out of the wrap below the end exactly when it was less than
    one loop length past it, and otherwise it is still at or past the end,
    as the note in the source says; in particular, if the phase was below
    the end before the last step and the step is no longer than the loop,
    the wrapped phase lies inside the loop. *)
Theorem loop_wrap_once (slot : YMF278BSlot) :
  0 <= loopaddr slot < endaddr slot ->
  0 <= stepptr slot < 2 ^ stepptr_bits ->
  (stepptr slot < endaddr slot -> loop_wrap slot = slot) /\
  (endaddr slot <= stepptr slot ->
     loop_wrap slot
     = set_stepptr slot (stepptr slot - endaddr slot + loopaddr slot) /\
     (stepptr (loop_wrap slot) < endaddr slot <->
      stepptr slot < endaddr slot + (endaddr slot - loopaddr slot))) /\
  (forall before,
     before < endaddr slot -> stepptr slot = before + step slot ->
     0 <= step slot <= endaddr slot - loopaddr slot ->
     endaddr slot <= stepptr slot ->
     loopaddr slot <= stepptr (loop_wrap slot) < endaddr slot).
Proof.
  intros HL HS.
  assert (Hw : endaddr slot <= stepptr slot ->
            loop_wrap slot
            = set_stepptr slot (stepptr slot - endaddr slot + loopaddr slot)).
  { intros H. unfold loop_wrap.
    destruct (stepptr slot >=? endaddr slot) eqn:E; [|lia].
    unfold wrap_stepptr. rewrite Z.mod_small by lia. reflexivity. }
  split; [|split].
  - intros H. unfold loop_wrap.
    destruct (stepptr slot >=? endaddr slot) eqn:E; [lia | reflexivity].
  - intros H. split; [apply Hw, H|]. rewrite (Hw H). slot_proj. lia.
  - intros before Hb Hs Hstep H. rewrite (Hw H). slot_proj. lia.
Qed.

(* ---------------------------------------------------------------------- *)
(** ** What the register decoder leaves alone *)

(** The members no register write touches. *)
Definition ports_frame (d d' : ymf278b_device) : Prop :=
  m_port_AB d' = m_port_AB d /\ m_port_C d' = m_port_C d /\
  m_lastport d' = m_lastport d /\
  m_next_status_id d' = m_next_status_id d /\
  m_clock d' = m_clock d /\ m_rate d' = m_rate d /\
  m_fm_pos d' = m_fm_pos d /\ m_mix_buffer d' = m_mix_buffer d /\
  m_timer_busy d' = m_timer_busy d.

Lemma ports_frame_refl d : ports_frame d d.
Proof. repeat split. Qed.

Lemma ports_frame_trans d1 d2 d3 :
  ports_frame d1 d2 -> ports_frame d2 d3 -> ports_frame d1 d3.
Proof.
  intros (A1 & A2 & A3 & A4 & A5 & A6 & A7 & A8 & A9)
         (B1 & B2 & B3 & B4 & B5 & B6 & B7 & B8 & B9).
  unfold ports_frame. repeat split; congruence.
Qed.

Lemma C_w_plain_ports reg data dev :
  is_slot_reg reg = true -> group_of reg <> 0 ->
  ports_frame dev (C_w reg data dev) /\
  m_memadr (C_w reg data dev) = m_memadr dev.
Proof.
  intros Hr Hg. rewrite C_w_plain by assumption. repeat split.
Qed.

Lemma copy_fold_ports (p : Z -> Z) snum l : forall dev,
  0 <= snum < 24 -> (forall i, In i l -> 7 <= i <= 11) ->
  let d := fold_left (fun d i => C_w (copied_reg snum i) (p i) d) l dev in
  ports_frame dev d /\ m_memadr d = m_memadr dev.
Proof.
  induction l as [|i l IH]; intros dev Hs Hl; cbn zeta.
  - cbn [fold_left]. split; [apply ports_frame_refl | reflexivity].
  - cbn [fold_left].
    destruct (copied_reg_slot snum i Hs (Hl i ltac:(left; reflexivity)))
      as (Hr & _ & Hg).
    destruct (C_w_plain_ports (copied_reg snum i) (p i) dev Hr
                ltac:(pose proof (Hl i ltac:(left; reflexivity)); lia))
      as [F M].
    destruct (IH (C_w (copied_reg snum i) (p i) dev) Hs
                ltac:(intros j Hj; apply Hl; right; exact Hj)) as [F' M'].
    split; [eapply ports_frame_trans; eassumption | congruence].
Qed.

Lemma C_w_ports reg data dev :
  ports_frame dev (C_w reg data dev) /\
  (reg <> 5 -> reg <> 6 -> m_memadr (C_w reg data dev) = m_memadr dev) /\
  (m_fm (C_w reg data dev) = m_fm dev \/
   m_fm (C_w reg data dev) = fm_set_reset_status STATUS_LD 0 (m_fm dev)).
Proof.
  destruct (is_slot_reg reg) eqn:Hr.
  - destruct (slot_reg_decompose reg Hr) as (Hs & Hg & _).
    destruct (Z.eq_dec (group_of reg) 0) as [G|G].
    + rewrite C_w_wave by assumption. cbn zeta. unfold wave_w.
      assert (Hc : forall i, In i copied_header_bytes -> 7 <= i <= 11).
      { intros i Hi. unfold copied_header_bytes in Hi. cbn [In] in Hi. lia. }
      unfold wave_load. cbn zeta.
      match goal with |- context [fold_left ?f ?l ?d0] =>
        pose proof (copy_fold_ports
                      (fun i => rd (m_rom dev)
                         (header_offset (m_wavetblhdr dev)
                            (wave (set_wave (m_slots dev (snum_of reg))
                               (Z.lor (Z.land (wave (m_slots dev (snum_of reg)))
                                         256) data))) + i))
                      (snum_of reg) copied_header_bytes d0 Hs Hc) as [F M];
        pose proof (wave_load_effect data (snum_of reg) dev Hs) as W
      end.
      cbn zeta in F, M, W. unfold wave_load in W. cbn zeta in W.
      destruct W as (_ & _ & _ & _ & Wf & _).
      set (d5 := fold_left _ copied_header_bytes _) in *.
      dev_proj. split; [|split].
      * destruct F as (A1 & A2 & A3 & A4 & A5 & A6 & A7 & A8 & A9).
        unfold ports_frame. dev_proj. repeat split; assumption.
      * intros _ _. exact M.
      * right. rewrite Wf. reflexivity.
    + destruct (C_w_plain_ports reg data dev Hr G) as [F M].
      split; [exact F|]. split; [intros _ _; exact M|].
      left. rewrite C_w_plain by assumption. reflexivity.
  - rewrite C_w_global by assumption. unfold global_w.
    destruct reg as [|q|q]; try (repeat split; left; reflexivity).
    split_numeral;
      try (split; [repeat split | split; [intros; try reflexivity; congruence
                                         | left; reflexivity]]).
Qed.

(** X18.  Register writes are local.  A write to a register that belongs to
    no slot changes no slot; a write to a slot register changes no slot but
    its own; only a wave-number write changes entries of the register file
    other than the one written; no write other than the memory-data
    register 6 changes the wave memory; and no write at all changes the
    port latches, the clock, the resampler position or the mix buffer. *)
Theorem register_write_local (reg data : Z) (dev : ymf278b_device) :
  let dev' := C_w reg data dev in
  (is_slot_reg reg = false -> m_slots dev' = m_slots dev) /\
  (is_slot_reg reg = true ->
     0 <= snum_of reg < 24 /\
     forall k, k <> snum_of reg -> m_slots dev' k = m_slots dev k) /\
  (is_slot_reg reg && (group_of reg =? 0) = false ->
     forall r, r <> reg -> m_pcmregs dev' r = m_pcmregs dev r) /\
  (reg <> 6 -> m_rom dev' = m_rom dev) /\
  m_port_AB dev' = m_port_AB dev /\ m_port_C dev' = m_port_C dev /\
  m_lastport dev' = m_lastport dev /\ m_clock dev' = m_clock dev /\
  m_fm_pos dev' = m_fm_pos dev /\ m_mix_buffer dev' = m_mix_buffer dev.
Proof.
  cbn zeta.
  destruct (C_w_ports reg data dev)
    as ((A1 & A2 & A3 & A4 & A5 & A6 & A7 & A8 & A9) & _ & _).
  split; [apply C_w_global_slots|].
  split; [|split; [|split; [|repeat split; assumption]]].
  - intros Hr. destruct (slot_reg_decompose reg Hr) as (Hs & Hg & _).
    split; [exact Hs|]. intros k Hk.
    destruct (Z.eq_dec (group_of reg) 0) as [G|G].
    + rewrite C_w_wave by assumption. cbn zeta. dev_proj.
      apply (wave_w_effect data (snum_of reg) dev Hs), Hk.
    + apply (C_w_plain_frame reg data dev Hr G), Hk.
  - intros Hc r Hne. destruct (is_slot_reg reg) eqn:Hr.
    + cbn [andb] in Hc. apply Z.eqb_neq in Hc.
      destruct (C_w_plain_frame reg data dev Hr Hc) as (_ & _ & -> & _).
      apply upd_other, Hne.
    + apply C_w_global_pcmregs; assumption.
  - intros H6. destruct (is_slot_reg reg) eqn:Hr.
    + destruct (slot_reg_decompose reg Hr) as (Hs & Hg & _).
      destruct (Z.eq_dec (group_of reg) 0) as [G|G].
      * rewrite C_w_wave by assumption. cbn zeta. unfold wave_w. dev_proj.
        apply (wave_load_effect data (snum_of reg) dev Hs).
      * apply (C_w_plain_frame reg data dev Hr G).
    + rewrite C_w_global by assumption. dev_proj. unfold global_w.
      destruct reg as [|q|q]; try reflexivity.
      split_numeral; try reflexivity. contradiction.
Qed.

(** X19.  A key-on write to a voice whose key is already on does not
    retrigger it: the sample position, the frequency step and the key flag
    stay as they are; only the output-pin, pan and damping members are set,
    and the envelope is re-evaluated, in the phase it is (the members set by
    [compute_envelope] apart), only if the damping bit differs from the one
    in the register file. *)
Theorem key_on_no_retrigger (data old : Z) (slot : YMF278BSlot) :
  nz (Z.land data 0x80) = true -> nz (KEY_ON slot) = true ->
  let s1 :=
    set_DAMP
      (set_pan (set_CH slot (Z.shiftr (Z.land data 0x10) 4)) (Z.land data 0xf))
      (Z.shiftr (Z.land data 0x40) 6) in
  let s' := slot_w 4 data old slot in
  stepptr s' = stepptr slot /\ step s' = step slot /\
  KEY_ON s' = KEY_ON slot /\ octave s' = octave slot /\
  (nz (Z.land (Z.lxor data old) 0x40) = false -> s' = s1) /\
  (nz (Z.land (Z.lxor data old) 0x40) = true -> s' = compute_envelope s1) /\
  env_only s1 s' /\
  (0 <= env_step slot <= 5 -> env_step slot <> ATTACK ->
   env_step slot <> DECAY1 -> env_step s' = env_step slot).
Proof.
  intros Hk Hon. cbn zeta. unfold slot_w. cbn iota. rewrite Hk.
  slot_proj. rewrite Hon.
  set (s1 := set_DAMP _ _).
  assert (Hs : env_only s1
                 (if nz (Z.land (Z.lxor data old) 64)
                  then compute_envelope s1 else s1)).
  { destruct (nz (Z.land (Z.lxor data old) 64));
      [apply compute_envelope_env_only | apply env_only_refl]. }
  destruct Hs as (a & es & ev & evs & evl & ep & E).
  split; [rewrite E; reflexivity|]. split; [rewrite E; reflexivity|].
  split; [rewrite E; reflexivity|]. split; [rewrite E; reflexivity|].
  split; [intros ->; reflexivity|]. split; [intros ->; reflexivity|].
  split; [exists a, es, ev, evs, evl, ep; exact E|].
  intros Hr Ha Hd.
  destruct (nz (Z.land (Z.lxor data old) 64)); [|reflexivity].
  destruct (compute_envelope_phase s1) as [-> _].
  unfold settled_phase.
  change (env_step s1) with (env_step slot).
  apply Z.eqb_neq in Ha, Hd. rewrite Ha, Hd. reflexivity.
Qed.

(* ---------------------------------------------------------------------- *)
(** ** Further properties of the stream update *)

Lemma fm_resample_app fm_step n : forall m x,
  fm_resample fm_step (n + m) x
  = fm_resample fm_step m (fm_resample fm_step n x).
Proof.
  induction n as [|n IH]; intros m x; cbn [Nat.add fm_resample];
    [reflexivity | apply IH].
Qed.

(** X20.  The FM resampler across stream updates.  With the position
    below 2^24 (it is 0 after start and after a clock change), an update of
    [n] samples leaves it below 2^24, at [(pos + n * FM_STEP) mod 2^24], and
    clocks the FM engine [n] times plus once for every time the position
    passed 2^24; and two updates of [n] and [m] samples leave the engine and
    the position as one update of [n + m] samples does: no extra clock is
    lost or gained at the boundary between updates. *)
Theorem fm_resampler_chained (n m : nat) (dev : ymf278b_device) :
  0 <= m_fm_pos dev < 2 ^ 24 ->
  let d1 := sound_stream_update n dev in
  let total := m_fm_pos dev + Z.of_nat n * FM_STEP in
  0 <= m_fm_pos d1 < 2 ^ 24 /\
  m_fm_pos d1 = total mod 2 ^ 24 /\
  m_fm d1 = Nat.iter (n + Z.to_nat (total / 2 ^ 24)) fm_clock (m_fm dev) /\
  m_fm (sound_stream_update m d1) = m_fm (sound_stream_update (n + m) dev) /\
  m_fm_pos (sound_stream_update m d1)
  = m_fm_pos (sound_stream_update (n + m) dev).
Proof.
  intros Hp. cbn zeta.
  assert (HF : 0 <= FM_STEP < 2 ^ 24) by (rewrite FM_STEP_value; lia).
  destruct (fm_extra_clocks_sum FM_STEP n HF (m_fm_pos dev) Hp) as (A & B).
  pose proof (fm_extra_clocks_nonneg FM_STEP n (m_fm_pos dev)) as C.
  destruct (sound_stream_update_fm n dev) as [F1 P1].
  rewrite fm_resample_run in F1, P1. cbn [fst snd] in F1, P1.
  assert (Hq : (m_fm_pos dev + Z.of_nat n * FM_STEP) / 2 ^ 24
               = fm_extra_clocks FM_STEP n (m_fm_pos dev)).
  { symmetry.
    apply (Z.div_unique _ _ _ (fm_pos_after FM_STEP n (m_fm_pos dev))); lia. }
  assert (Hm : (m_fm_pos dev + Z.of_nat n * FM_STEP) mod 2 ^ 24
               = fm_pos_after FM_STEP n (m_fm_pos dev)).
  { symmetry.
    apply (Z.mod_unique _ _ (fm_extra_clocks FM_STEP n (m_fm_pos dev))); lia. }
  rewrite P1, F1, Hq, Hm.
  split; [exact A|]. split; [reflexivity|]. split; [reflexivity|].
  destruct (sound_stream_update_fm m (sound_stream_update n dev)) as [F2 P2].
  destruct (sound_stream_update_fm (n + m) dev) as [F3 P3].
  destruct (sound_stream_update_fm n dev) as [F1' P1'].
  rewrite F2, P2, F3, P3, fm_resample_app.
  assert (E : (m_fm_pos (sound_stream_update n dev),
               m_fm (sound_stream_update n dev))
              = fm_resample FM_STEP n (m_fm_pos dev, m_fm dev)).
  { rewrite F1', P1'. destruct (fm_resample FM_STEP n _); reflexivity. }
  rewrite E. split; reflexivity.
Qed.

Lemma mix_slots_inactive rom n l : forall slots sample buf k,
  active (slots k) = 0 ->
  fst (fst (fold_left
    (fun (acc : (Z -> YMF278BSlot) * Z * (Z -> Z)) (i : Z) =>
       let '(slots, sample, buf) := acc in
       let '(slot', sample', buf') :=
         slot_update rom n (slots i, sample, buf) in
       (upd slots i slot', sample', buf'))
    l (slots, sample, buf))) k = slots k.
Proof.
  induction l as [|i l IH]; intros slots sample buf k Hk; cbn [fold_left];
    [reflexivity|].
  destruct (slot_update rom n (slots i, sample, buf)) as [[s' smp'] buf']
    eqn:E.
  destruct (Z.eq_dec k i) as [->|Hne].
  - rewrite slot_update_inactive in E by exact Hk.
    injection E as <- <- <-.
    rewrite IH by (rewrite upd_same; exact Hk). apply upd_same.
  - rewrite IH by (rewrite upd_other by exact Hne; exact Hk).
    apply upd_other, Hne.
Qed.

(** X21.  What a stream update leaves alone.  [sound_stream_update]
    changes neither the register file nor the wave memory, the port
    latches, the memory address, the mix levels or the timers; a slot
    that is not active when the update starts comes out exactly as it went
    in; and the mix buffer is rebuilt from zero, so it does not depend on
    what it held before. *)
Theorem stream_update_frame (n : nat) (dev : ymf278b_device) :
  let d := sound_stream_update n dev in
  m_pcmregs d = m_pcmregs dev /\ m_rom d = m_rom dev /\
  m_port_AB d = m_port_AB dev /\ m_port_C d = m_port_C dev /\
  m_lastport d = m_lastport dev /\
  m_next_status_id d = m_next_status_id dev /\
  m_memadr d = m_memadr dev /\ m_wavetblhdr d = m_wavetblhdr dev /\
  m_fm_l d = m_fm_l dev /\ m_fm_r d = m_fm_r dev /\
  m_pcm_l d = m_pcm_l dev /\ m_pcm_r d = m_pcm_r dev /\
  m_timer_busy d = m_timer_busy dev /\ m_timer_ld d = m_timer_ld dev /\
  (forall k, active (m_slots dev k) = 0 -> m_slots d k = m_slots dev k) /\
  (forall buf,
     m_mix_buffer (sound_stream_update n (set_m_mix_buffer dev buf))
     = m_mix_buffer d).
Proof.
  cbn zeta.
  assert (Hu : forall dv,
    sound_stream_update n dv
    = set_m_fm
        (set_m_fm_pos
           (set_m_mix_buffer
              (set_m_slots dv (fst (fst (mix_slots (m_rom dv) n (m_slots dv)))))
              (snd (mix_slots (m_rom dv) n (m_slots dv))))
           (fst (fm_resample FM_STEP n (m_fm_pos dv, m_fm dv))))
        (snd (fm_resample FM_STEP n (m_fm_pos dv, m_fm dv)))).
  { intros dv. unfold sound_stream_update.
    destruct (mix_slots (m_rom dv) n (m_slots dv)) as [[sl smp] bf].
    destruct (fm_resample FM_STEP n (m_fm_pos dv, m_fm dv)) as [ps fm].
    reflexivity. }
  rewrite !Hu. dev_proj.
  repeat (split; [reflexivity|]).
  split; [|intros buf; rewrite Hu; dev_proj; reflexivity].
  intros k Hk. unfold mix_slots. apply mix_slots_inactive, Hk.
Qed.

(** X22.  Slot state in the states the device can reach.  In every state
    reachable from a reset, for each of the 24 slots: the envelope phase is
    one of the six phases 0 to 5, so the [default] branch of
    [compute_envelope] is never taken; the active flag is 0 or 1; and the
    slot's octave is the high nibble of its octave register in the register
    file, a number from 0 to 15. *)
Theorem slot_state_ranges (dev : ymf278b_device) :
  reachable dev ->
  forall n, 0 <= n < 24 ->
  let s := m_slots dev n in
  0 <= env_step s <= 5 /\
  (active s = 0 \/ active s = 1) /\
  octave s = Z.shiftr (Z.land (m_pcmregs dev (oct_reg n)) 0xf0) 4 /\
  0 <= octave s <= 15 /\
  oct_reg n = 56 + n.
Proof.
  intros Hreach n Hn. cbn zeta.
  destruct (reachable_inv dev Hreach n Hn) as [(Hr & Ha & _) Hs].
  unfold slot_sync in Hs.
  split; [exact Hr|]. split; [exact Ha|]. split; [exact Hs|].
  split; [|unfold oct_reg; lia].
  rewrite Hs. set (v := m_pcmregs dev (oct_reg n)).
  rewrite Z.shiftr_land.
  change (Z.shiftr 240 4) with (Z.ones 4).
  rewrite Z.land_ones by lia.
  pose proof (Z.mod_pos_bound (Z.shiftr v 4) (2 ^ 4) ltac:(lia)).
  change (2 ^ 4) with 16 in *. lia.
Qed.

(* ---------------------------------------------------------------------- *)
(** ** The state after [device_reset] *)

Lemma NoDup_slot_numbers : NoDup slot_numbers.
Proof.
  unfold slot_numbers.
  assert (H : forall l, NoDup l -> NoDup (map Z.of_nat l)).
  { induction 1 as [|x l Hx Hl IH]; cbn [map]; constructor; [|exact IH].
    rewrite in_map_iff. intros (y & E & Hy).
    apply Nat2Z.inj in E. subst y. contradiction. }
  apply H, seq_NoDup.
Qed.

(** The last loop of the reset visits each slot once. *)
Lemma reset_slots_fold l : NoDup l -> forall dev,
  let dev' :=
    fold_left (fun d i => set_slot d i (reset_slot (m_slots d i))) l dev in
  dev' = set_m_slots dev (m_slots dev') /\
  (forall n, In n l -> m_slots dev' n = reset_slot (m_slots dev n)) /\
  (forall n, ~ In n l -> m_slots dev' n = m_slots dev n).
Proof.
  induction 1 as [|i l Hni Hnd IH]; intros dev; cbn zeta; cbn [fold_left].
  - split; [reflexivity|]. split; [intros n []|reflexivity].
  - destruct (IH (set_slot dev i (reset_slot (m_slots dev i))))
      as (E & A & B). cbn zeta in E, A, B.
    set (d' := fold_left _ l _) in *.
    split; [|split].
    + rewrite E at 1. reflexivity.
    + intros n [<-|Hn].
      * rewrite B by exact Hni. dev_proj. apply upd_same.
      * rewrite A by exact Hn. dev_proj.
        rewrite upd_other; [reflexivity|]. intros ->. contradiction.
    + intros n Hn.
      rewrite B by (intros H; apply Hn; right; exact H). dev_proj.
      apply upd_other. intros ->. apply Hn. left. reflexivity.
Qed.

(** What the loop body leaves in a slot. *)
Lemma reset_slot_fields s :
  let s' := reset_slot s in
  (active s' = 0 /\ env_step s' = 5 /\ env_vol s' = ENV_OFF /\
   env_vol_step s' = 0 /\ env_vol_lim s' = 0) /\
  (LFO s' = 0 /\ VIB s' = 0 /\ AR s' = 0 /\ D1R s' = 0 /\ DL s' = 0 /\
   D2R s' = 0 /\ RC s' = 0 /\ RR s' = 0 /\ AM s' = 0) /\
  (startaddr s' = 0 /\ loopaddr s' = 0 /\ endaddr s' = 0) /\
  (wave s' = wave s /\ F_NUMBER s' = F_NUMBER s /\ octave s' = octave s /\
   preverb s' = preverb s /\ TL s' = TL s /\ LD s' = LD s /\ CH s' = CH s /\
   pan s' = pan s /\ DAMP s' = DAMP s /\ KEY_ON s' = KEY_ON s /\
   bits s' = bits s /\ step s' = step s /\ stepptr s' = stepptr s).
Proof.
  cbn zeta. unfold reset_slot. cbn zeta.
  rewrite compute_envelope_done by (right; reflexivity).
  unfold voice_off. slot_proj. repeat split.
Qed.

(** With no slot of the list active, the mix loop leaves the buffer as it
    found it. *)
Lemma mix_slots_silent rom n l : forall slots sample (buf : Z -> Z),
  (forall k, In k l -> active (slots k) = 0) ->
  snd (fold_left
    (fun (acc : (Z -> YMF278BSlot) * Z * (Z -> Z)) (i : Z) =>
       let '(slots, sample, buf) := acc in
       let '(slot', sample', buf') :=
         slot_update rom n (slots i, sample, buf) in
       (upd slots i slot', sample', buf'))
    l (slots, sample, buf)) = buf.
Proof.
  induction l as [|i l IH]; intros slots sample buf H; cbn [fold_left];
    [reflexivity|].
  rewrite slot_update_inactive by (apply H; left; reflexivity).
  apply IH. intros k Hk. unfold upd.
  destruct (k =? i); apply H; [left; reflexivity | right; exact Hk].
Qed.

(** X23.  Reset silences the chip.  After [device_reset], whatever the
    device held before: each of the 24 slots is inactive, in phase 5 with
    the envelope at its silent level and no step or limit, and its LFO,
    vibrato, rate, level and tremolo members and its start, loop and end
    addresses are 0; the port latches, the pending status flag and the
    memory address are cleared and both timers are stopped; the FM mix levels
    are both 3 (register 0xf8 is set to 0x1b); and a stream update that
    comes next leaves every entry of the mix buffer at zero. *)
Theorem reset_silences (dev : ymf278b_device) :
  let d := device_reset dev in
  (forall n, 0 <= n < 24 ->
     let s := m_slots d n in
     active s = 0 /\ env_step s = 5 /\ env_vol s = ENV_OFF /\
     env_vol_step s = 0 /\ env_vol_lim s = 0 /\
     LFO s = 0 /\ VIB s = 0 /\ AR s = 0 /\ D1R s = 0 /\ DL s = 0 /\
     D2R s = 0 /\ RC s = 0 /\ RR s = 0 /\ AM s = 0 /\
     startaddr s = 0 /\ loopaddr s = 0 /\ endaddr s = 0) /\
  m_port_AB d = 0 /\ m_port_C d = 0 /\ m_lastport d = 0 /\
  m_next_status_id d = false /\ m_memadr d = 0 /\
  m_timer_busy d = None /\ m_timer_ld d = None /\
  m_fm_l d = 3 /\ m_fm_r d = 3 /\ m_pcmregs d 0xf8 = 0x1b /\
  (forall samples k, m_mix_buffer (sound_stream_update samples d) k = 0).
Proof.
  cbn zeta. unfold device_reset. cbn zeta.
  set (d1 := fold_left (fun d i => C_w i 0 d) reset_register_order dev).
  set (d3 := set_m_memadr _ 0).
  destruct (reset_slots_fold slot_numbers NoDup_slot_numbers d3)
    as (E & A & _). cbn zeta in E, A.
  set (d4 := fold_left _ slot_numbers d3) in *.
  assert (Hs : forall n, 0 <= n < 24 ->
                 m_slots d4 n = reset_slot (m_slots d3 n)).
  { intros n Hn. apply A, slot_numbers_in, Hn. }
  assert (H8 : C_w 0xf8 0x1b d1
               = set_m_pcmregs
                   (set_m_fm_r (set_m_fm_l d1 3) 3)
                   (upd (m_pcmregs d1) 0xf8 0x1b)).
  { rewrite C_w_global by reflexivity. reflexivity. }
  split; [|rewrite E; subst d3; rewrite H8; dev_proj].
  - intros n Hn. dev_proj. rewrite (Hs n Hn).
    destruct (reset_slot_fields (m_slots d3 n))
      as ((F1 & F2 & F3 & F4 & F5) &
          (G1 & G2 & G3 & G4 & G5 & G6 & G7 & G8 & G9) &
          (K1 & K2 & K3) & _).
    cbn zeta in *. repeat split; assumption.
  - repeat (split; [reflexivity|]).
    intros samples k.
    match goal with
    | |- context [sound_stream_update samples ?y] =>
        destruct (sound_stream_update_frame samples y) as (_ & Hb & _)
    end.
    rewrite Hb. unfold mix_slots. dev_proj.
    rewrite mix_slots_silent; [reflexivity|].
    intros j Hj. unfold slot_numbers in Hj. apply in_map_iff in Hj.
    destruct Hj as (q & <- & Hq). apply in_seq in Hq.
    rewrite (Hs (Z.of_nat q)) by lia.
    exact (proj1 (proj1 (reset_slot_fields _))).
Qed.

(** *** The register file and the slot registers after the reset writes *)

(** A slot register from its slot and its group. *)
Lemma slot_reg_compose n g :
  0 <= n < 24 -> 0 <= g <= 9 ->
  is_slot_reg (8 + n + g * 24) = true /\
  snum_of (8 + n + g * 24) = n /\ group_of (8 + n + g * 24) = g.
Proof.
  intros Hn Hg. unfold is_slot_reg, snum_of, group_of.
  split; [lia|].
  replace (8 + n + g * 24 - 8) with (n + g * 24) by lia.
  rewrite Z.quot_div_nonneg, Z.rem_mod_nonneg by lia.
  rewrite Z.mod_add, Z.div_add by lia.
  rewrite Z.mod_small, Z.div_small by lia. lia.
Qed.

(** The members decoded from the registers of groups 1 to 4, after a write
    of 0 to a register of group [g]. *)
Definition cleared (g : Z) (s s' : YMF278BSlot) : Prop :=
  wave s' = (if g =? 1 then Z.land (wave s) 0xff else wave s) /\
  F_NUMBER s' = (if g =? 1 then Z.land (F_NUMBER s) 0x380
                 else if g =? 2 then Z.land (F_NUMBER s) 0x7f
                 else F_NUMBER s) /\
  octave s' = (if g =? 2 then 0 else octave s) /\
  preverb s' = (if g =? 2 then 0 else preverb s) /\
  TL s' = (if g =? 3 then 0 else TL s) /\
  LD s' = (if g =? 3 then 0 else LD s) /\
  CH s' = (if g =? 4 then 0 else CH s) /\
  pan s' = (if g =? 4 then 0 else pan s) /\
  DAMP s' = (if g =? 4 then 0 else DAMP s) /\
  KEY_ON s' = (if g =? 4 then 0 else KEY_ON s) /\
  bits s' = bits s.

Ltac envelope_out :=
  repeat match goal with
         | |- context [compute_envelope ?t] =>
             destruct (compute_envelope_env_only t)
               as (? & ? & ? & ? & ? & ? & ->)
         end.

Lemma slot_w_zero g old s : cleared g s (slot_w g 0 old s).
Proof.
  assert (Hg : g = 1 \/ g = 2 \/ g = 3 \/ g = 4 \/ g = 5 \/ g = 6 \/ g = 7 \/
               g = 8 \/ g = 9 \/ (g < 1 \/ 9 < g)) by lia.
  destruct Hg as [->|[->|[->|[->|[->|[->|[->|[->|[->|Hg]]]]]]]]].
  10: { rewrite slot_w_other by exact Hg. unfold cleared.
        repeat match goal with
               | |- context [g =? ?k] =>
                   destruct (Z.eqb_spec g k); [lia|]
               end.
        repeat split. }
  all: unfold slot_w, cleared; cbn [Z.eqb Pos.eqb].
  all: try change (nz (Z.land 0 128)) with false; cbn iota.
  all: repeat match goal with
              | |- context [if ?c then _ else _] => destruct c
              end.
  all: envelope_out; unfold env_frame, compute_freq_step; slot_proj.
  all: repeat split; try apply Z.lor_0_r.
Qed.

(** What a write of 0 to the register of group [g] establishes in its
    slot. *)
Definition group_cleared (g : Z) (s : YMF278BSlot) : Prop :=
  match g with
  | 1 => wave s = Z.land (wave s) 0xff /\
         F_NUMBER s = Z.land (F_NUMBER s) 0x380
  | 2 => F_NUMBER s = Z.land (F_NUMBER s) 0x7f /\
         octave s = 0 /\ preverb s = 0
  | 3 => TL s = 0 /\ LD s = 0
  | 4 => CH s = 0 /\ pan s = 0 /\ DAMP s = 0 /\ KEY_ON s = 0
  | _ => True
  end.

Lemma land_land_disjoint a m1 m2 :
  Z.land m1 m2 = 0 -> Z.land (Z.land a m1) m2 = 0.
Proof. intros H. rewrite <- Z.land_assoc, H. apply Z.land_0_r. Qed.

Lemma land_land_same a m : Z.land (Z.land a m) m = Z.land a m.
Proof. rewrite <- Z.land_assoc, Z.land_diag. reflexivity. Qed.

Lemma slot_w_zero_group g g' old s :
  1 <= g <= 4 ->
  g' = g \/ group_cleared g s ->
  group_cleared g (slot_w g' 0 old s).
Proof.
  intros Hg H.
  destruct (slot_w_zero g' old s)
    as (W & F & O & P & T & L & C & N & D & K & _).
  set (s' := slot_w g' 0 old s) in *.
  assert (Hc : g = 1 \/ g = 2 \/ g = 3 \/ g = 4) by lia.
  destruct Hc as [->|[->|[->| ->]]]; cbn [group_cleared] in *.
  - rewrite W, F.
    destruct (Z.eqb_spec g' 1) as [E1|E1].
    + rewrite !land_land_same. split; reflexivity.
    + destruct H as [H|[Hw Hf]]; [contradiction|].
      split; [exact Hw|].
      destruct (g' =? 2); [|exact Hf].
      rewrite Hf, (land_land_disjoint _ 0x380 0x7f) by reflexivity.
      reflexivity.
  - rewrite F, O, P.
    destruct (Z.eqb_spec g' 2) as [E2|E2].
    + subst g'. cbn [Z.eqb Pos.eqb]. rewrite land_land_same.
      repeat split.
    + destruct H as [H|(Hf & Ho & Hp)]; [contradiction|].
      split; [|split; assumption].
      destruct (g' =? 1); [|exact Hf].
      rewrite Hf, (land_land_disjoint _ 0x7f 0x380) by reflexivity.
      reflexivity.
  - rewrite T, L.
    destruct (Z.eqb_spec g' 3) as [E3|E3]; [split; reflexivity|].
    destruct H as [H|H]; [contradiction | exact H].
  - rewrite C, N, D, K.
    destruct (Z.eqb_spec g' 4) as [E4|E4]; [repeat split|].
    destruct H as [H|H]; [contradiction | exact H].
Qed.

(** One write of 0 to a register that is not a wave-number register. *)
Lemma C_w_zero_nowave reg dev :
  ~ (8 <= reg <= 31) ->
  let d := C_w reg 0 dev in
  m_pcmregs d = upd (m_pcmregs dev) reg 0 /\
  (reg <> 6 -> m_rom d = m_rom dev) /\
  (reg <> 2 ->
   m_wavetblhdr d = m_wavetblhdr dev /\ m_memmode d = m_memmode dev) /\
  (reg <> 0xf9 -> m_pcm_l d = m_pcm_l dev /\ m_pcm_r d = m_pcm_r dev) /\
  (is_slot_reg reg = false -> m_slots d = m_slots dev) /\
  (is_slot_reg reg = true ->
     m_slots d (snum_of reg)
     = slot_w (group_of reg) 0 (m_pcmregs dev reg)
         (m_slots dev (snum_of reg)) /\
     forall k, k <> snum_of reg -> m_slots d k = m_slots dev k).
Proof.
  intros Hw. cbn zeta.
  destruct (is_slot_reg reg) eqn:Hr.
  - destruct (slot_reg_decompose reg Hr) as (Hs & Hg & Heq).
    assert (G : group_of reg <> 0) by lia.
    rewrite C_w_plain by assumption. dev_proj.
    split; [reflexivity|].
    split; [intros _; reflexivity|].
    split; [intros _; split; reflexivity|].
    split; [intros _; split; reflexivity|].
    split; [discriminate|]. intros _.
    split; [apply upd_same|]. intros k Hk. apply upd_other, Hk.
  - rewrite C_w_global by exact Hr. unfold global_w.
    destruct reg as [|p|p];
      [ | split_numeral | ];
      cbn [fst snd]; dev_proj;
      (split; [reflexivity|]);
      (split; [intros H; try reflexivity; congruence|]);
      (split; [intros H; try (split; reflexivity); congruence|]);
      (split; [intros H; try (split; reflexivity); congruence|]);
      (split; [intros _; reflexivity | discriminate]).
Qed.

Lemma C_w_5_memadr data dev :
  m_memadr (C_w 5 data dev)
  = u32 (Z.lor (Z.lor (Z.shiftl (m_pcmregs dev 3) 16)
                      (Z.shiftl (m_pcmregs dev 4) 8)) data).
Proof. rewrite C_w_global by reflexivity. reflexivity. Qed.

Lemma C_w_6_rom data dev :
  m_rom (C_w 6 data dev) = write_byte (m_rom dev) (m_memadr dev) data /\
  m_memadr (C_w 6 data dev) = Z.land (m_memadr dev + 1) 0x3fffff.
Proof. rewrite C_w_global by reflexivity. split; reflexivity. Qed.

Lemma C_w_2_hdr data dev :
  m_wavetblhdr (C_w 2 data dev) = Z.land (Z.shiftr data 2) 0x7 /\
  m_memmode (C_w 2 data dev) = Z.land data 3.
Proof. rewrite C_w_global by reflexivity. split; reflexivity. Qed.

Lemma C_w_f9_levels data dev :
  m_pcm_l (C_w 0xf9 data dev) = Z.land data 0x7 /\
  m_pcm_r (C_w 0xf9 data dev) = Z.land (Z.shiftr data 3) 0x7.
Proof. rewrite C_w_global by reflexivity. split; reflexivity. Qed.

(** The clearing loops as folds: what every write keeps holds at the end,
    and what one write establishes and the others keep holds at the end if
    that write is among them. *)
Lemma reset_fold_preserve (P : ymf278b_device -> Prop) (Q : Z -> Prop) :
  (forall reg d, Q reg -> P d -> P (C_w reg 0 d)) ->
  forall l dev, (forall x, In x l -> Q x) -> P dev ->
  P (fold_left (fun d i => C_w i 0 d) l dev).
Proof.
  intros Hp. induction l as [|a l IH]; intros dev Hl H; cbn [fold_left].
  - exact H.
  - apply IH; [intros x Hx; apply Hl; right; exact Hx|].
    apply Hp; [apply Hl; left; reflexivity | exact H].
Qed.

Lemma reset_fold_establish (I P : ymf278b_device -> Prop) (Q : Z -> Prop)
  (r : Z) :
  (forall reg d, Q reg -> I d -> I (C_w reg 0 d)) ->
  (forall d, I d -> P (C_w r 0 d)) ->
  (forall reg d, Q reg -> reg <> r -> I d -> P d -> P (C_w reg 0 d)) ->
  forall l dev, (forall x, In x l -> Q x) -> I dev -> In r l \/ P dev ->
  P (fold_left (fun d i => C_w i 0 d) l dev).
Proof.
  intros HI He Hp. induction l as [|a l IH]; intros dev Hl Hi H;
    cbn [fold_left].
  - destruct H as [[]|H]. exact H.
  - assert (Qa : Q a) by (apply Hl; left; reflexivity).
    apply IH; [intros x Hx; apply Hl; right; exact Hx | apply HI; assumption |].
    destruct (Z.eq_dec a r) as [->|Hne].
    + right. apply He, Hi.
    + destruct H as [[E|H]|H];
        [congruence | left; exact H | right; apply Hp; assumption].
Qed.

(** The three stages of the clearing loops: registers 0 to 7, registers
    0xff down to 0x20, and the wave-number registers 0x1f down to 8. *)
Definition reset_stage2 : list Z :=
  map (fun k => 255 - Z.of_nat k) (seq 0 224).
Definition reset_stage3 : list Z :=
  map (fun k => 31 - Z.of_nat k) (seq 0 24).

Lemma reset_register_order_stages :
  reset_register_order
  = map Z.of_nat (seq 0 8) ++ reset_stage2 ++ reset_stage3.
Proof. vm_compute. reflexivity. Qed.

Lemma reset_stage2_in r : In r reset_stage2 <-> 32 <= r <= 255.
Proof.
  unfold reset_stage2. rewrite in_map_iff. split.
  - intros (k & <- & Hk). apply in_seq in Hk. lia.
  - intros Hr. exists (Z.to_nat (255 - r)). split; [lia | apply in_seq; lia].
Qed.

Lemma reset_stage3_in r : In r reset_stage3 <-> 8 <= r <= 31.
Proof.
  unfold reset_stage3. rewrite in_map_iff. split.
  - intros (k & <- & Hk). apply in_seq in Hk. lia.
  - intros Hr. exists (Z.to_nat (31 - r)). split; [lia | apply in_seq; lia].
Qed.

(** Stage 1: registers 0 to 7.  Register 5 sets the memory address from
    registers 3 and 4, which have just been cleared, so the write to
    register 6 stores its byte at address 0. *)
Lemma reset_globals dev :
  let d := fold_left (fun d i => C_w i 0 d) (map Z.of_nat (seq 0 8)) dev in
  m_rom d = write_byte (m_rom dev) 0 0 /\
  m_wavetblhdr d = 0 /\ m_memmode d = 0 /\
  m_slots d = m_slots dev /\
  (forall r, 0 <= r < 8 -> m_pcmregs d r = 0).
Proof.
  cbn zeta. change (map Z.of_nat (seq 0 8)) with [0; 1; 2; 3; 4; 5; 6; 7].
  cbn [fold_left].
  set (d1 := C_w 0 0 dev). set (d2 := C_w 1 0 d1). set (d3 := C_w 2 0 d2).
  set (d4 := C_w 3 0 d3). set (d5 := C_w 4 0 d4). set (d6 := C_w 5 0 d5).
  set (d7 := C_w 6 0 d6). set (d8 := C_w 7 0 d7).
  destruct (C_w_zero_nowave 0 dev ltac:(lia)) as (P1 & R1 & _ & _ & S1 & _).
  destruct (C_w_zero_nowave 1 d1 ltac:(lia)) as (P2 & R2 & _ & _ & S2 & _).
  destruct (C_w_zero_nowave 2 d2 ltac:(lia)) as (P3 & R3 & _ & _ & S3 & _).
  destruct (C_w_zero_nowave 3 d3 ltac:(lia)) as (P4 & R4 & W4 & _ & S4 & _).
  destruct (C_w_zero_nowave 4 d4 ltac:(lia)) as (P5 & R5 & W5 & _ & S5 & _).
  destruct (C_w_zero_nowave 5 d5 ltac:(lia)) as (P6 & R6 & W6 & _ & S6 & _).
  destruct (C_w_zero_nowave 6 d6 ltac:(lia)) as (P7 & _ & W7 & _ & S7 & _).
  destruct (C_w_zero_nowave 7 d7 ltac:(lia)) as (P8 & R8 & W8 & _ & S8 & _).
  cbn zeta in *.
  fold d1 in P1, R1, S1. fold d2 in P2, R2, S2. fold d3 in P3, R3, S3.
  fold d4 in P4, R4, W4, S4. fold d5 in P5, R5, W5, S5.
  fold d6 in P6, R6, W6, S6. fold d7 in P7, W7, S7.
  fold d8 in P8, R8, W8, S8.
  destruct (C_w_2_hdr 0 d2) as [H3 M3]. fold d3 in H3, M3.
  destruct (C_w_6_rom 0 d6) as [R7 _]. fold d7 in R7.
  pose proof (C_w_5_memadr 0 d5) as A6. fold d6 in A6.
  assert (A0 : m_memadr d6 = 0).
  { rewrite A6, P5, P4. unfold upd. cbn [Z.eqb Pos.eqb]. reflexivity. }
  split; [|split; [|split; [|split]]].
  - rewrite (R8 ltac:(lia)), R7, A0, (R6 ltac:(lia)), (R5 ltac:(lia)),
      (R4 ltac:(lia)), (R3 ltac:(lia)), (R2 ltac:(lia)), (R1 ltac:(lia)).
    reflexivity.
  - rewrite (proj1 (W8 ltac:(lia))), (proj1 (W7 ltac:(lia))),
      (proj1 (W6 ltac:(lia))), (proj1 (W5 ltac:(lia))),
      (proj1 (W4 ltac:(lia))). exact H3.
  - rewrite (proj2 (W8 ltac:(lia))), (proj2 (W7 ltac:(lia))),
      (proj2 (W6 ltac:(lia))), (proj2 (W5 ltac:(lia))),
      (proj2 (W4 ltac:(lia))). exact M3.
  - rewrite (S8 eq_refl), (S7 eq_refl), (S6 eq_refl), (S5 eq_refl),
      (S4 eq_refl), (S3 eq_refl), (S2 eq_refl), (S1 eq_refl). reflexivity.
  - intros r Hr. rewrite P8, P7, P6, P5, P4, P3, P2, P1.
    assert (Hc : r = 0 \/ r = 1 \/ r = 2 \/ r = 3 \/ r = 4 \/ r = 5 \/
                 r = 6 \/ r = 7) by lia.
    destruct Hc as [->|[->|[->|[->|[->|[->|[->| ->]]]]]]]; reflexivity.
Qed.

(** A write of 0 to a register that is not a wave-number register keeps the
    zeros of the register file. *)
Lemma C_w_zero_keeps_zero reg r dev :
  ~ (8 <= reg <= 31) ->
  reg = r \/ m_pcmregs dev r = 0 -> m_pcmregs (C_w reg 0 dev) r = 0.
Proof.
  intros Hw H. destruct (C_w_zero_nowave reg dev Hw) as (P & _).
  cbn zeta in P. rewrite P. unfold upd.
  destruct (Z.eqb_spec r reg) as [E|E]; [reflexivity|].
  destruct H as [H|H]; [congruence | exact H].
Qed.

(** ... and establishes or keeps what the four decoded groups hold. *)
Lemma C_w_zero_group reg n g dev :
  ~ (8 <= reg <= 31) -> 0 <= n < 24 -> 1 <= g <= 4 ->
  reg = 8 + n + g * 24 \/ group_cleared g (m_slots dev n) ->
  group_cleared g (m_slots (C_w reg 0 dev) n).
Proof.
  intros Hw Hn Hg H.
  destruct (C_w_zero_nowave reg dev Hw) as (_ & _ & _ & _ & Sg & Ss).
  cbn zeta in Sg, Ss.
  destruct (is_slot_reg reg) eqn:Hr.
  - destruct (Ss eq_refl) as [S1 S2].
    destruct (slot_reg_decompose reg Hr) as (Hsn & Hgr & Heq).
    destruct (Z.eq_dec n (snum_of reg)) as [E|E].
    + subst n. rewrite S1. apply slot_w_zero_group; [exact Hg|].
      destruct H as [H|H]; [left; nia | right; exact H].
    + rewrite (S2 n E).
      destruct H as [H|H]; [|exact H].
      destruct (slot_reg_compose n g Hn ltac:(lia)) as (_ & C1 & _).
      rewrite <- H in C1. congruence.
  - rewrite (Sg eq_refl).
    destruct H as [H|H]; [|exact H].
    destruct (slot_reg_compose n g Hn ltac:(lia)) as (C0 & _).
    rewrite <- H in C0. congruence.
Qed.

(** The slot registers as stages 1 and 2 leave them: only the low byte of
    the wave number is still to be written. *)
Definition pre_wave (s : YMF278BSlot) : Prop :=
  wave s = Z.land (wave s) 0xff /\ F_NUMBER s = 0 /\ octave s = 0 /\
  preverb s = 0 /\ TL s = 0 /\ LD s = 0 /\ CH s = 0 /\ pan s = 0 /\
  DAMP s = 0 /\ KEY_ON s = 0.

Lemma groups_pre_wave s :
  group_cleared 1 s -> group_cleared 2 s -> group_cleared 3 s ->
  group_cleared 4 s -> pre_wave s.
Proof.
  cbn [group_cleared].
  intros (W & F1) (F2 & O & P) (T & L) (C & N & D & K).
  unfold pre_wave. repeat split; try assumption.
  rewrite F1, F2. apply land_land_disjoint. reflexivity.
Qed.

(** Stage 2: registers 0xff down to 0x20. *)
Lemma reset_stage2_effect dev :
  let d := fold_left (fun d i => C_w i 0 d) reset_stage2 dev in
  m_rom d = m_rom dev /\ m_wavetblhdr d = m_wavetblhdr dev /\
  m_memmode d = m_memmode dev /\
  m_pcm_l d = 0 /\ m_pcm_r d = 0 /\
  (forall r, 32 <= r <= 255 \/ m_pcmregs dev r = 0 -> m_pcmregs d r = 0) /\
  (forall n, 0 <= n < 24 -> pre_wave (m_slots d n)).
Proof.
  cbn zeta.
  assert (HQ : forall x, In x reset_stage2 -> 32 <= x <= 255)
    by (intros x; apply reset_stage2_in).
  split; [|split; [|split; [|split; [|split; [|split]]]]].
  - apply (reset_fold_preserve (fun d => m_rom d = m_rom dev)
             (fun x => 32 <= x <= 255)); [|exact HQ|reflexivity].
    intros reg d Hq H.
    destruct (C_w_zero_nowave reg d ltac:(lia)) as (_ & R & _).
    cbn zeta in R. rewrite R by lia. exact H.
  - apply (reset_fold_preserve (fun d => m_wavetblhdr d = m_wavetblhdr dev)
             (fun x => 32 <= x <= 255)); [|exact HQ|reflexivity].
    intros reg d Hq H.
    destruct (C_w_zero_nowave reg d ltac:(lia)) as (_ & _ & W & _).
    cbn zeta in W. rewrite (proj1 (W ltac:(lia))). exact H.
  - apply (reset_fold_preserve (fun d => m_memmode d = m_memmode dev)
             (fun x => 32 <= x <= 255)); [|exact HQ|reflexivity].
    intros reg d Hq H.
    destruct (C_w_zero_nowave reg d ltac:(lia)) as (_ & _ & W & _).
    cbn zeta in W. rewrite (proj2 (W ltac:(lia))). exact H.
  - apply (reset_fold_establish (fun _ => True) (fun d => m_pcm_l d = 0)
             (fun x => 32 <= x <= 255) 0xf9); try exact HQ; try exact I.
    + intros; exact I.
    + intros d _. apply (C_w_f9_levels 0 d).
    + intros reg d Hq Hne _ H.
      destruct (C_w_zero_nowave reg d ltac:(lia)) as (_ & _ & _ & L & _).
      cbn zeta in L. rewrite (proj1 (L Hne)). exact H.
    + left. apply reset_stage2_in. lia.
  - apply (reset_fold_establish (fun _ => True) (fun d => m_pcm_r d = 0)
             (fun x => 32 <= x <= 255) 0xf9); try exact HQ; try exact I.
    + intros; exact I.
    + intros d _. apply (C_w_f9_levels 0 d).
    + intros reg d Hq Hne _ H.
      destruct (C_w_zero_nowave reg d ltac:(lia)) as (_ & _ & _ & L & _).
      cbn zeta in L. rewrite (proj2 (L Hne)). exact H.
    + left. apply reset_stage2_in. lia.
  - intros r [Hr|Hr].
    + apply (reset_fold_establish (fun _ => True)
               (fun d => m_pcmregs d r = 0)
               (fun x => 32 <= x <= 255) r); try exact HQ; try exact I.
      * intros; exact I.
      * intros d _. apply C_w_zero_keeps_zero; [lia | left; reflexivity].
      * intros reg d Hq Hne _ H.
        apply C_w_zero_keeps_zero; [lia | right; exact H].
      * left. apply reset_stage2_in, Hr.
    + apply (reset_fold_preserve (fun d => m_pcmregs d r = 0)
               (fun x => 32 <= x <= 255)); [|exact HQ|exact Hr].
      intros reg d Hq H.
      apply C_w_zero_keeps_zero; [lia | right; exact H].
  - intros n Hn.
    assert (G : forall g, 1 <= g <= 4 ->
      group_cleared g
        (m_slots (fold_left (fun d i => C_w i 0 d) reset_stage2 dev) n)).
    { intros g Hg.
      apply (reset_fold_establish (fun _ => True)
               (fun d => group_cleared g (m_slots d n))
               (fun x => 32 <= x <= 255) (8 + n + g * 24));
        try exact HQ; try exact I.
      - intros; exact I.
      - intros d _. apply C_w_zero_group; try assumption; [lia|].
        left. reflexivity.
      - intros reg d Hq Hne _ H.
        apply C_w_zero_group; try assumption; [lia|]. right. exact H.
      - left. apply reset_stage2_in. lia. }
    apply groups_pre_wave; apply G; lia.
Qed.

(** One write of 0 to the wave-number register of slot [n], once the other
    registers of the slot are clear: the wave number is 0, so the header is
    read at address 0, whatever the wave table bank is. *)
Lemma C_w_wave_zero n dev :
  0 <= n < 24 -> pre_wave (m_slots dev n) ->
  let d := C_w (8 + n) 0 dev in
  let s' := m_slots d n in
  m_pcmregs d
  = upd (copy_pcmregs (rd (m_rom dev)) n (m_pcmregs dev)) (8 + n) 0 /\
  m_rom d = m_rom dev /\ m_wavetblhdr d = m_wavetblhdr dev /\
  m_memmode d = m_memmode dev /\
  m_pcm_l d = m_pcm_l dev /\ m_pcm_r d = m_pcm_r dev /\
  (forall k, k <> n -> m_slots d k = m_slots dev k) /\
  wave s' = 0 /\ pre_wave s' /\
  bits s' = Z.shiftr (Z.land (rd (m_rom dev) 0) 0xc0) 6.
Proof.
  intros Hn (Hw & HF & HO & HP & HT & HL & HC & HN & HD & HK). cbn zeta.
  destruct (wave_reg_decompose (8 + n) ltac:(lia)) as (Hr & Hg & Hsn).
  replace (8 + n - 8) with n in Hsn by lia.
  rewrite C_w_wave by assumption. cbn zeta. rewrite Hsn.
  destruct (wave_w_effect 0 n dev Hn) as (S & O & P). cbn zeta in S, O, P.
  destruct (wave_load_effect 0 n dev Hn) as (EO & _ & _ & R & _ & W & _).
  cbn zeta in EO, R, W.
  assert (Hz : Z.lor (Z.land (wave (m_slots dev n)) 0x100) 0 = 0).
  { rewrite Z.lor_0_r, Hw. apply land_land_disjoint. reflexivity. }
  assert (Hm : m_memmode (wave_load C_w 0 n dev) = m_memmode dev /\
               m_pcm_l (wave_load C_w 0 n dev) = m_pcm_l dev /\
               m_pcm_r (wave_load C_w 0 n dev) = m_pcm_r dev).
  { apply (wave_load_preserves
             (fun d => m_memmode d = m_memmode dev /\
                       m_pcm_l d = m_pcm_l dev /\ m_pcm_r d = m_pcm_r dev));
      [exact Hn | | repeat split].
    intros reg dat d Hr' Hg' H. rewrite C_w_plain by assumption. exact H. }
  destruct Hm as (M1 & M2 & M3).
  assert (Hf : m_rom (wave_w C_w 0 n dev) = m_rom (wave_load C_w 0 n dev) /\
               m_wavetblhdr (wave_w C_w 0 n dev)
               = m_wavetblhdr (wave_load C_w 0 n dev) /\
               m_memmode (wave_w C_w 0 n dev)
               = m_memmode (wave_load C_w 0 n dev) /\
               m_pcm_l (wave_w C_w 0 n dev)
               = m_pcm_l (wave_load C_w 0 n dev) /\
               m_pcm_r (wave_w C_w 0 n dev)
               = m_pcm_r (wave_load C_w 0 n dev))
    by (unfold wave_w; dev_proj; repeat split).
  destruct Hf as (F1 & F2 & F3 & F4 & F5).
  dev_proj.
  split; [|split; [|split; [|split; [|split; [|split; [|split]]]]]].
  - rewrite P. unfold copy_pcmregs. slot_proj. rewrite Hz.
    reflexivity.
  - rewrite F1. exact R.
  - rewrite F2. exact W.
  - rewrite F3. exact M1.
  - rewrite F4. exact M2.
  - rewrite F5. exact M3.
  - exact O.
  - rewrite S.
    destruct (key_check_play (m_slots (wave_load C_w 0 n dev) n))
      as (sp & st & a & es & ev & evs & evl & ep & E1).
    destruct EO as (a' & es' & ev' & evs' & evl' & ep' & E2).
    rewrite E1, E2. unfold pre_wave, env_frame, copy_regs, load_header.
    cbn zeta. slot_proj. rewrite Hz.
    repeat split; assumption.
Qed.

Lemma copied_reg_range n i :
  0 <= n < 24 -> 7 <= i <= 11 -> 128 <= copied_reg n i <= 247.
Proof. unfold copied_reg. lia. Qed.

(** Stage 3: the wave-number registers 0x1f down to 8. *)
Lemma reset_stage3_effect dev :
  (forall n, 0 <= n < 24 -> pre_wave (m_slots dev n)) ->
  let d := fold_left (fun d i => C_w i 0 d) reset_stage3 dev in
  m_rom d = m_rom dev /\ m_wavetblhdr d = m_wavetblhdr dev /\
  m_memmode d = m_memmode dev /\
  m_pcm_l d = m_pcm_l dev /\ m_pcm_r d = m_pcm_r dev /\
  (forall r, r < 128 \/ 248 <= r ->
             8 <= r <= 31 \/ m_pcmregs dev r = 0 -> m_pcmregs d r = 0) /\
  (forall n, 0 <= n < 24 ->
     let s := m_slots d n in
     wave s = 0 /\ pre_wave s /\
     bits s = Z.shiftr (Z.land (rd (m_rom dev) 0) 0xc0) 6 /\
     forall i, 7 <= i <= 11 ->
       m_pcmregs d (copied_reg n i) = rd (m_rom dev) i).
Proof.
  intros Hpre. cbn zeta.
  set (Inv := fun d : ymf278b_device =>
                (forall n, 0 <= n < 24 -> pre_wave (m_slots d n)) /\
                m_rom d = m_rom dev).
  assert (HQ : forall x, In x reset_stage3 -> 8 <= x <= 31)
    by (intros x; apply reset_stage3_in).
  assert (Hstep : forall reg d, 8 <= reg <= 31 -> Inv d ->
            let d' := C_w reg 0 d in
            let m := reg - 8 in
            Inv d' /\
            m_pcmregs d'
            = upd (copy_pcmregs (rd (m_rom dev)) m (m_pcmregs d)) reg 0 /\
            m_wavetblhdr d' = m_wavetblhdr d /\
            m_memmode d' = m_memmode d /\
            m_pcm_l d' = m_pcm_l d /\ m_pcm_r d' = m_pcm_r d /\
            (forall k, k <> m -> m_slots d' k = m_slots d k) /\
            wave (m_slots d' m) = 0 /\
            bits (m_slots d' m)
            = Z.shiftr (Z.land (rd (m_rom dev) 0) 0xc0) 6).
  { intros reg d Hq [Hp Hr]. cbn zeta.
    assert (Hm : 0 <= reg - 8 < 24) by lia.
    pose proof (C_w_wave_zero (reg - 8) d Hm (Hp _ Hm)) as H.
    cbn zeta in H. replace (8 + (reg - 8)) with reg in H by lia.
    destruct H as (A1 & A2 & A3 & A4 & A5 & A6 & A7 & A8 & A9 & A10).
    rewrite Hr in A1, A10.
    split; [split|].
    - intros k Hk. destruct (Z.eq_dec k (reg - 8)) as [->|Hne];
        [exact A9 | rewrite (A7 k Hne); apply Hp, Hk].
    - rewrite A2. exact Hr.
    - repeat split; assumption. }
  assert (Hinv0 : Inv dev) by (split; [exact Hpre | reflexivity]).
  assert (Hkeep : forall (P : ymf278b_device -> Prop),
            (forall reg d, 8 <= reg <= 31 -> Inv d -> P d -> P (C_w reg 0 d)) ->
            P dev ->
            P (fold_left (fun d i => C_w i 0 d) reset_stage3 dev)).
  { intros P Hp H0.
    apply (reset_fold_preserve (fun d => Inv d /\ P d)
             (fun x => 8 <= x <= 31)); [|exact HQ|split; assumption].
    intros reg d Hq [Hi H]. split; [apply (Hstep reg d Hq Hi)|].
    apply Hp; assumption. }
  split; [|split; [|split; [|split; [|split; [|split]]]]].
  - apply (Hkeep (fun d => m_rom d = m_rom dev)); [|reflexivity].
    intros reg d Hq Hi _. apply (Hstep reg d Hq Hi).
  - apply (Hkeep (fun d => m_wavetblhdr d = m_wavetblhdr dev)); [|reflexivity].
    intros reg d Hq Hi H.
    destruct (Hstep reg d Hq Hi) as (_ & _ & E & _). rewrite E. exact H.
  - apply (Hkeep (fun d => m_memmode d = m_memmode dev)); [|reflexivity].
    intros reg d Hq Hi H.
    destruct (Hstep reg d Hq Hi) as (_ & _ & _ & E & _). rewrite E. exact H.
  - apply (Hkeep (fun d => m_pcm_l d = m_pcm_l dev)); [|reflexivity].
    intros reg d Hq Hi H.
    destruct (Hstep reg d Hq Hi) as (_ & _ & _ & _ & E & _). rewrite E.
    exact H.
  - apply (Hkeep (fun d => m_pcm_r d = m_pcm_r dev)); [|reflexivity].
    intros reg d Hq Hi H.
    destruct (Hstep reg d Hq Hi) as (_ & _ & _ & _ & _ & E & _). rewrite E.
    exact H.
  - intros r Hr H.
    assert (Hother : forall reg d, 8 <= reg <= 31 -> Inv d ->
              reg = r \/ m_pcmregs d r = 0 -> m_pcmregs (C_w reg 0 d) r = 0).
    { intros reg d Hq Hi Hz.
      destruct (Hstep reg d Hq Hi) as (_ & E & _). rewrite E.
      unfold upd. destruct (Z.eqb_spec r reg) as [Er|Er]; [reflexivity|].
      destruct Hz as [Hz|Hz]; [congruence|].
      rewrite (proj2 (copy_pcmregs_spec _ _ _)); [exact Hz|].
      intros i Hi'.
      pose proof (copied_reg_range (reg - 8) i ltac:(lia) Hi'). lia. }
    destruct H as [H|H].
    + apply (reset_fold_establish Inv (fun d => m_pcmregs d r = 0)
               (fun x => 8 <= x <= 31) r); try exact HQ; try exact Hinv0.
      * intros reg d Hq Hi. apply (Hstep reg d Hq Hi).
      * intros d Hi. apply Hother; [exact H | exact Hi | left; reflexivity].
      * intros reg d Hq Hne Hi Hz. apply Hother; [exact Hq | exact Hi|].
        right. exact Hz.
      * left. apply reset_stage3_in, H.
    + apply (Hkeep (fun d => m_pcmregs d r = 0)); [|exact H].
      intros reg d Hq Hi Hz. apply Hother; [exact Hq | exact Hi|].
      right. exact Hz.
  - intros n Hn.
    set (Done := fun d : ymf278b_device =>
                   wave (m_slots d n) = 0 /\
                   bits (m_slots d n)
                   = Z.shiftr (Z.land (rd (m_rom dev) 0) 0xc0) 6 /\
                   forall i, 7 <= i <= 11 ->
                     m_pcmregs d (copied_reg n i) = rd (m_rom dev) i).
    assert (Hdone :
      Done (fold_left (fun d i => C_w i 0 d) reset_stage3 dev)).
    { apply (reset_fold_establish Inv Done (fun x => 8 <= x <= 31) (8 + n));
        try exact HQ; try exact Hinv0; unfold Done.
      - intros reg d Hq Hi. apply (Hstep reg d Hq Hi).
      - intros d Hi.
        destruct (Hstep (8 + n) d ltac:(lia) Hi)
          as (_ & E & _ & _ & _ & _ & _ & Ew & Eb).
        cbn zeta in E, Ew, Eb.
        replace (8 + n - 8) with n in E, Ew, Eb by lia.
        split; [exact Ew|]. split; [exact Eb|].
        intros i Hi'. rewrite E.
        pose proof (copied_reg_range n i Hn Hi').
        rewrite upd_other by lia.
        apply (proj1 (copy_pcmregs_spec _ _ _)), Hi'.
      - intros reg d Hq Hne Hi (Ew & Eb & Ec).
        destruct (Hstep reg d Hq Hi)
          as (_ & E & _ & _ & _ & _ & Es & _).
        cbn zeta in E, Es.
        rewrite (Es n) by lia.
        split; [exact Ew|]. split; [exact Eb|].
        intros i Hi'. rewrite E.
        pose proof (copied_reg_range n i Hn Hi').
        rewrite upd_other by lia.
        rewrite (proj2 (copy_pcmregs_spec _ _ _)); [apply Ec, Hi'|].
        intros j Hj. unfold copied_reg. lia.
      - left. apply reset_stage3_in. lia. }
    unfold Done in Hdone. destruct Hdone as (Ew & Eb & Ec).
    split; [exact Ew|]. split; [|split; assumption].
    apply (Hkeep (fun d => pre_wave (m_slots d n))); [|apply Hpre, Hn].
    intros reg d Hq Hi _. apply (Hstep reg d Hq Hi), Hn.
Qed.

(** X24.  What reset leaves in the registers.  After [device_reset],
    whatever the device held before: one byte of wave memory has been
    written, a 0 at address 0 (the write of 0 to register 6 comes after
    registers 3, 4 and 5 have set the memory address to 0); the wave table
    bank, the memory mode and the PCM mix levels are 0; registers 0 to 0x7f
    and 0xf9 to 0xff read 0; but the registers of groups 5 to 9 of each slot
    (0x80 to 0xf7) hold bytes 7 to 11 of the header of wave 0, copied there
    by the slot's wave-number write, while the last loop of the reset sets
    the slot members decoded from them to 0; each slot has wave number 0, the
    bit depth of wave 0, and frequency, octave, level, pan, damp and key-on
    all 0. *)
Theorem reset_register_file (dev : ymf278b_device) :
  let d := device_reset dev in
  m_rom d = write_byte (m_rom dev) 0 0 /\
  m_wavetblhdr d = 0 /\ m_memmode d = 0 /\ m_pcm_l d = 0 /\ m_pcm_r d = 0 /\
  (forall r, 0 <= r < 128 \/ 0xf9 <= r <= 0xff -> m_pcmregs d r = 0) /\
  (forall n, 0 <= n < 24 ->
     let s := m_slots d n in
     (forall i, 7 <= i <= 11 ->
        m_pcmregs d (8 + n + (i - 2) * 24) = rd (m_rom d) i) /\
     bits s = Z.shiftr (Z.land (rd (m_rom d) 0) 0xc0) 6 /\
     wave s = 0 /\ F_NUMBER s = 0 /\ octave s = 0 /\ preverb s = 0 /\
     TL s = 0 /\ LD s = 0 /\ CH s = 0 /\ pan s = 0 /\ DAMP s = 0 /\
     KEY_ON s = 0).
Proof.
  cbn zeta. unfold device_reset. cbn zeta.
  rewrite reset_register_order_stages, !fold_left_app.
  pose proof (reset_globals dev) as G1. cbn zeta in G1.
  set (d1 := fold_left _ (map Z.of_nat (seq 0 8)) dev) in *.
  pose proof (reset_stage2_effect d1) as G2. cbn zeta in G2.
  set (d2 := fold_left _ reset_stage2 d1) in *.
  destruct G1 as (R1 & W1 & M1 & S1 & P1).
  destruct G2 as (R2 & W2 & M2 & L2 & L2' & P2 & S2).
  pose proof (reset_stage3_effect d2 S2) as G3. cbn zeta in G3.
  set (d3 := fold_left _ reset_stage3 d2) in *.
  destruct G3 as (R3 & W3 & M3 & L3 & L3' & P3 & S3).
  assert (H8 : C_w 0xf8 0x1b d3
               = set_m_pcmregs
                   (set_m_fm_r (set_m_fm_l d3 3) 3)
                   (upd (m_pcmregs d3) 0xf8 0x1b)).
  { rewrite C_w_global by reflexivity. reflexivity. }
  rewrite H8.
  match goal with
  | |- context [fold_left ?f slot_numbers ?x] =>
      destruct (reset_slots_fold slot_numbers NoDup_slot_numbers x)
        as (E & A & _); cbn zeta in E, A;
      set (d5 := fold_left f slot_numbers x) in *
  end.
  assert (Hrom : m_rom d3 = write_byte (m_rom dev) 0 0)
    by (rewrite R3, R2; exact R1).
  rewrite E. dev_proj.
  split; [exact Hrom|].
  split; [rewrite W3, W2; exact W1|].
  split; [rewrite M3, M2; exact M1|].
  split; [rewrite L3; exact L2|].
  split; [rewrite L3'; exact L2'|].
  split.
  - intros r Hr. rewrite upd_other by lia.
    apply P3; [lia|].
    destruct (Z_le_dec 8 r) as [H8r|H8r].
    + destruct (Z_le_dec r 31) as [H31|H31]; [left; lia|].
      right. apply P2. left. lia.
    + right. apply P2. right. apply P1. lia.
  - intros n Hn.
    destruct (S3 n Hn) as (Ew & Ep & Eb & Ec).
    rewrite (A n (slot_numbers_in n Hn)). dev_proj.
    destruct (reset_slot_fields (m_slots d3 n))
      as (_ & _ & _ &
          (K1 & K2 & K3 & K4 & K5 & K6 & K7 & K8 & K9 & K10 & K11 & _)).
    cbn zeta in *.
    destruct Ep as (_ & HF & HO & HP & HT & HL & HC & HN & HD & HK).
    rewrite K1, K2, K3, K4, K5, K6, K7, K8, K9, K10, K11, Hrom.
    rewrite R2, R1 in Eb, Ec.
    split.
    + intros i Hi. pose proof (copied_reg_range n i Hn Hi) as Hc.
      unfold copied_reg in Hc.
      rewrite upd_other by lia. apply (Ec i Hi).
    + repeat split; assumption.
Qed.

(* ---------------------------------------------------------------------- *)
(** ** The PCM port seen from the bus *)

Lemma sound_stream_update_ports n dev :
  let d := sound_stream_update n dev in
  m_pcmregs d = m_pcmregs dev /\ m_rom d = m_rom dev /\
  m_memadr d = m_memadr dev /\ m_port_C d = m_port_C dev /\
  m_next_status_id d = m_next_status_id dev /\
  m_fm d = Nat.iter (n + Z.to_nat (fm_extra_clocks FM_STEP n (m_fm_pos dev)))
             fm_clock (m_fm dev).
Proof.
  cbn zeta. unfold sound_stream_update.
  destruct (mix_slots (m_rom dev) n (m_slots dev)) as [[sl smp] bf].
  rewrite fm_resample_run. dev_proj. repeat split.
Qed.

(** The byte a register holds after it has been written. *)
Lemma C_w_self reg data dev :
  m_pcmregs (C_w reg data dev) reg
  = if reg =? 3 then Z.land data 0x3f else data.
Proof.
  destruct (is_slot_reg reg) eqn:Hr.
  - destruct (slot_reg_decompose reg Hr) as (Hs & Hg & Heq).
    destruct (Z.eqb_spec reg 3) as [E|E]; [lia|].
    destruct (Z.eq_dec (group_of reg) 0) as [G|G].
    + rewrite C_w_wave by assumption. cbn zeta. dev_proj. apply upd_same.
    + rewrite C_w_plain by assumption. dev_proj. apply upd_same.
  - rewrite C_w_global by exact Hr. dev_proj. rewrite upd_same.
    unfold global_w. destruct reg as [|p|p]; try reflexivity.
    split_numeral; reflexivity.
Qed.

Lemma C_w_3 data dev :
  C_w 3 data dev
  = set_m_pcmregs dev (upd (m_pcmregs dev) 3 (Z.land data 0x3f)).
Proof. rewrite C_w_global by reflexivity. reflexivity. Qed.

Lemma C_w_4 data dev :
  C_w 4 data dev = set_m_pcmregs dev (upd (m_pcmregs dev) 4 data).
Proof. rewrite C_w_global by reflexivity. reflexivity. Qed.

Lemma C_w_5 data dev :
  C_w 5 data dev
  = set_m_pcmregs
      (set_m_memadr dev
         (u32 (Z.lor (Z.lor (Z.shiftl (m_pcmregs dev 3) 16)
                            (Z.shiftl (m_pcmregs dev 4) 8)) data)))
      (upd (m_pcmregs dev) 5 data).
Proof. rewrite C_w_global by reflexivity. reflexivity. Qed.

Lemma C_w_6 data dev :
  C_w 6 data dev
  = set_m_pcmregs
      (set_m_memadr
         (set_m_rom dev (write_byte (m_rom dev) (m_memadr dev) data))
         (Z.land (m_memadr dev + 1) 0x3fffff))
      (upd (m_pcmregs dev) 6 data).
Proof. rewrite C_w_global by reflexivity. reflexivity. Qed.

(** A read of the data port with NEW2 set. *)
Lemma read_pcm_port dev :
  nz (fm_new2flag (m_fm dev)) = true ->
  read 5 dev
  = if m_port_C dev =? 2
    then (Z.lor (Z.land (m_pcmregs dev 2) 0x1f) 0x20, dev)
    else if m_port_C dev =? 6
    then (rd (m_rom dev) (m_memadr dev),
          set_m_memadr dev (Z.land (m_memadr dev + 1) 0x3fffff))
    else (m_pcmregs dev (m_port_C dev), dev).
Proof.
  intros H. unfold read. change (Z.land 5 7) with 5. cbn iota.
  rewrite H. cbn [negb].
  destruct (m_port_C dev) as [|p|p] eqn:E; try reflexivity.
  split_numeral; reflexivity.
Qed.

(** What the model asks of the FM engine for the PCM port to stay open:
    neither a status update nor a clock changes its NEW2 flag. *)
Definition new2_stable : Prop :=
  (forall s r fm,
     fm_new2flag (fm_set_reset_status s r fm) = fm_new2flag fm) /\
  (forall fm, fm_new2flag (fm_clock fm) = fm_new2flag fm).

Lemma new2_iter_clock k fm :
  new2_stable -> fm_new2flag (Nat.iter k fm_clock fm) = fm_new2flag fm.
Proof.
  intros [_ Hc]. induction k as [|k IH]; [reflexivity|].
  rewrite Nat.iter_succ, Hc. exact IH.
Qed.

(** Selecting register [reg] at offset 4 and writing [data] at offset 5,
    with NEW2 set: the decoder runs on a device whose register file, wave
    memory and memory address are those before the two accesses. *)
Lemma bus_pcm_write p reg data dev :
  new2_stable -> nz (fm_new2flag (m_fm dev)) = true ->
  let d' := write p 5 data (write 0 4 reg dev) in
  exists X,
    d' = C_w reg data X /\
    m_pcmregs X = m_pcmregs dev /\ m_rom X = m_rom dev /\
    m_memadr X = m_memadr dev /\
    m_next_status_id X = m_next_status_id dev /\
    m_port_C d' = reg /\ nz (fm_new2flag (m_fm d')) = true.
Proof.
  intros Hst Hn. cbn zeta.
  set (d1 := write 0 4 reg dev).
  assert (E1 : d1 = set_m_port_C (timer_busy_start true dev) reg)
    by reflexivity.
  assert (N1 : fm_new2flag (m_fm d1) = fm_new2flag (m_fm dev)).
  { rewrite E1. unfold timer_busy_start. dev_proj. apply (proj1 Hst). }
  unfold write. change (Z.land 5 7) with 5. cbn iota.
  rewrite N1, Hn. cbn [negb]. cbn zeta.
  destruct (sound_stream_update_ports p d1) as (P & R & A & C & S & F).
  cbn zeta in P, R, A, C, S, F.
  set (d2 := sound_stream_update p d1) in *.
  set (X := timer_busy_start true d2).
  assert (CX : m_port_C X = reg).
  { unfold X, timer_busy_start. dev_proj. rewrite C, E1. reflexivity. }
  assert (NX : fm_new2flag (m_fm X) = fm_new2flag (m_fm dev)).
  { unfold X, timer_busy_start. dev_proj.
    rewrite (proj1 Hst), F, new2_iter_clock by exact Hst. exact N1. }
  rewrite CX. exists X.
  split; [reflexivity|].
  split; [unfold X, timer_busy_start; dev_proj; rewrite P, E1; reflexivity|].
  split; [unfold X, timer_busy_start; dev_proj; rewrite R, E1; reflexivity|].
  split; [unfold X, timer_busy_start; dev_proj; rewrite A, E1; reflexivity|].
  split; [unfold X, timer_busy_start; dev_proj; rewrite S, E1; reflexivity|].
  destruct (C_w_ports reg data X) as ((_ & PC & _) & _ & Hfm).
  split; [rewrite PC; exact CX|].
  destruct Hfm as [-> | ->]; [|rewrite (proj1 Hst)]; rewrite NX; exact Hn.
Qed.

(** X25.  Register read-back through the bus.  With NEW2 set (and an FM
    engine whose status updates and clocks leave NEW2 alone), selecting a
    register at offset 4, writing a byte at offset 5 and reading offset 5
    returns: the byte itself, for every register but 2, 3 and 6; for
    register 2 its low five bits with the device ID [0x20] in the upper bits;
    for register 3 its low six bits; and for register 6, the memory data
    port, not the byte but the content of wave memory one address further,
    since the write has advanced the memory address.  The read changes the
    device only for register 6, where it advances the address again. *)
Theorem pcm_register_read_back (p : nat) (reg data : Z)
  (dev : ymf278b_device) :
  new2_stable -> nz (fm_new2flag (m_fm dev)) = true ->
  let d := write p 5 data (write 0 4 reg dev) in
  let next := Z.land (m_memadr dev + 1) 0x3fffff in
  fst (read 5 d)
  = (if reg =? 2 then Z.lor (Z.land data 0x1f) 0x20
     else if reg =? 6
     then rd (write_byte (m_rom dev) (m_memadr dev) data) next
     else if reg =? 3 then Z.land data 0x3f
     else data) /\
  snd (read 5 d)
  = (if reg =? 6 then set_m_memadr d (Z.land (next + 1) 0x3fffff) else d).
Proof.
  intros Hst Hn. cbn zeta.
  destruct (bus_pcm_write p reg data dev Hst Hn)
    as (X & E & P & R & A & _ & C & N). cbn zeta in E, C, N.
  set (d := write p 5 data (write 0 4 reg dev)) in *.
  rewrite (read_pcm_port d N), C.
  pose proof (C_w_self reg data X) as Hself. rewrite <- E in Hself.
  destruct (Z.eqb_spec reg 2) as [E2|E2].
  - rewrite E2 in Hself. cbn [Z.eqb Pos.eqb] in Hself.
    rewrite E2. cbn [Z.eqb Pos.eqb fst snd]. split; [|reflexivity].
    rewrite Hself. reflexivity.
  - destruct (Z.eqb_spec reg 6) as [E6|E6].
    + rewrite E6 in E. cbn [fst snd]. rewrite E, C_w_6. dev_proj.
      rewrite R, A. split; reflexivity.
    + cbn [fst snd]. split; [exact Hself | reflexivity].
Qed.

Lemma memadr_value h m l :
  0 <= h < 64 -> 0 <= m < 256 -> 0 <= l < 256 ->
  u32 (Z.lor (Z.lor (Z.shiftl h 16) (Z.shiftl m 8)) l)
  = h * 65536 + m * 256 + l.
Proof.
  intros Hh Hm Hl.
  replace (Z.shiftl h 16) with (Z.shiftl (Z.shiftl h 8) 8)
    by (rewrite Z.shiftl_shiftl by lia; reflexivity).
  rewrite <- Z.shiftl_lor, (Z.lor_comm (Z.shiftl h 8) m).
  rewrite (lor_shiftl_add m h 8) by (change (2 ^ 8) with 256; lia).
  rewrite Z.lor_comm.
  rewrite (lor_shiftl_add l _ 8) by (change (2 ^ 8) with 256; lia).
  change (2 ^ 8) with 256. unfold u32. rewrite Z.mod_small; lia.
Qed.

(** X26.  The memory port, end to end.  With NEW2 set: writing the three
    address bytes to registers 3, 4 and 5 sets the memory address to
    [(hi & 0x3f) << 16 | mid << 8 | lo]; a byte written to register 6 is
    stored there and the address advances by one, wrapping at 2^22; and
    after register 5 has been written again (registers 3 and 4 still hold
    their bytes), a read of register 6 returns the byte that was written
    and advances the address again.  The wave memory is only assumed to
    return at an address the byte last written to it. *)
Theorem memory_port_round_trip (p1 p2 p3 p4 p5 : nat) (hi mid lo byte : Z)
  (dev : ymf278b_device) :
  new2_stable ->
  (forall rom a v, read_byte (write_byte rom a v) a = v) ->
  nz (fm_new2flag (m_fm dev)) = true ->
  0 <= hi < 256 -> 0 <= mid < 256 -> 0 <= lo < 256 -> 0 <= byte < 256 ->
  let addr := Z.land hi 0x3f * 65536 + mid * 256 + lo in
  let reg_w p r v d := write p 5 v (write 0 4 r d) in
  let dA := reg_w p3 5 lo (reg_w p2 4 mid (reg_w p1 3 hi dev)) in
  let dW := reg_w p4 6 byte dA in
  let dB := write 0 4 6 (reg_w p5 5 lo dW) in
  0 <= addr < 2 ^ 22 /\
  m_memadr dA = addr /\
  m_rom dW = write_byte (m_rom dev) addr byte /\
  m_memadr dW = (addr + 1) mod 2 ^ 22 /\
  m_memadr dB = addr /\
  fst (read 5 dB) = byte /\
  m_memadr (snd (read 5 dB)) = (addr + 1) mod 2 ^ 22.
Proof.
  intros Hst Hmem Hn Hhi Hmid Hlo Hby. cbn zeta.
  assert (Hh : 0 <= Z.land hi 0x3f < 64).
  { change 0x3f with (Z.ones 6). rewrite Z.land_ones by lia.
    change 64 with (2 ^ 6). apply Z.mod_pos_bound. lia. }
  set (addr := Z.land hi 0x3f * 65536 + mid * 256 + lo).
  assert (Ha : 0 <= addr < 2 ^ 22).
  { change (2 ^ 22) with 4194304. unfold addr. lia. }
  (* register 3 *)
  destruct (bus_pcm_write p1 3 hi dev Hst Hn)
    as (X1 & E1 & P1 & R1 & A1 & _ & _ & N1). cbn zeta in E1, N1.
  set (d1 := write p1 5 hi (write 0 4 3 dev)) in *.
  rewrite C_w_3 in E1.
  (* register 4 *)
  destruct (bus_pcm_write p2 4 mid d1 Hst N1)
    as (X2 & E2 & P2 & R2 & A2 & _ & _ & N2). cbn zeta in E2, N2.
  set (d2 := write p2 5 mid (write 0 4 4 d1)) in *.
  rewrite C_w_4 in E2.
  (* register 5 *)
  destruct (bus_pcm_write p3 5 lo d2 Hst N2)
    as (X3 & E3 & P3 & R3 & A3 & _ & _ & N3). cbn zeta in E3, N3.
  set (d3 := write p3 5 lo (write 0 4 5 d2)) in *.
  rewrite C_w_5 in E3.
  assert (G3 : m_pcmregs X3 3 = Z.land hi 0x3f /\ m_pcmregs X3 4 = mid).
  { rewrite P3, E2. dev_proj. rewrite P2, E1. dev_proj. rewrite P1.
    unfold upd. cbn [Z.eqb Pos.eqb]. split; reflexivity. }
  destruct G3 as [G33 G34].
  assert (M3 : m_memadr d3 = addr).
  { rewrite E3. dev_proj. rewrite G33, G34.
    apply memadr_value; assumption. }
  assert (Q3 : m_rom d3 = m_rom dev).
  { rewrite E3. dev_proj. rewrite R3, E2. dev_proj. rewrite R2, E1.
    dev_proj. rewrite R1. reflexivity. }
  assert (K3 : m_pcmregs d3 3 = Z.land hi 0x3f /\ m_pcmregs d3 4 = mid).
  { rewrite E3. dev_proj. unfold upd. cbn [Z.eqb Pos.eqb].
    split; assumption. }
  (* register 6 *)
  destruct (bus_pcm_write p4 6 byte d3 Hst N3)
    as (X4 & E4 & P4 & R4 & A4 & _ & _ & N4). cbn zeta in E4, N4.
  set (d4 := write p4 5 byte (write 0 4 6 d3)) in *.
  rewrite C_w_6 in E4.
  assert (Q4 : m_rom d4 = write_byte (m_rom dev) addr byte).
  { rewrite E4. dev_proj. rewrite R4, A4, Q3, M3. reflexivity. }
  assert (M4 : m_memadr d4 = (addr + 1) mod 2 ^ 22).
  { rewrite E4. dev_proj. rewrite A4, M3.
    change 0x3fffff with (Z.ones 22). apply Z.land_ones. lia. }
  assert (K4 : m_pcmregs d4 3 = Z.land hi 0x3f /\ m_pcmregs d4 4 = mid).
  { rewrite E4. dev_proj. rewrite P4. unfold upd. cbn [Z.eqb Pos.eqb].
    exact K3. }
  (* register 5 again *)
  destruct (bus_pcm_write p5 5 lo d4 Hst N4)
    as (X5 & E5 & P5 & R5 & A5 & _ & _ & N5). cbn zeta in E5, N5.
  set (d5 := write p5 5 lo (write 0 4 5 d4)) in *.
  rewrite C_w_5 in E5.
  assert (M5 : m_memadr d5 = addr).
  { rewrite E5. dev_proj. rewrite P5, (proj1 K4), (proj2 K4).
    apply memadr_value; assumption. }
  assert (Q5 : m_rom d5 = write_byte (m_rom dev) addr byte).
  { rewrite E5. dev_proj. rewrite R5. exact Q4. }
  (* select register 6 and read *)
  set (d6 := write 0 4 6 d5).
  assert (E6 : d6 = set_m_port_C (timer_busy_start true d5) 6)
    by reflexivity.
  assert (N6 : nz (fm_new2flag (m_fm d6)) = true).
  { rewrite E6. unfold timer_busy_start. dev_proj.
    rewrite (proj1 Hst). exact N5. }
  assert (M6 : m_memadr d6 = addr) by (rewrite E6; exact M5).
  assert (Q6 : m_rom d6 = write_byte (m_rom dev) addr byte)
    by (rewrite E6; exact Q5).
  assert (C6 : m_port_C d6 = 6) by (rewrite E6; reflexivity).
  rewrite (read_pcm_port d6 N6), C6. cbn [Z.eqb Pos.eqb fst snd]. dev_proj.
  rewrite M6, Q6.
  repeat (split; [first [assumption | reflexivity]|]).
  split.
  - unfold rd, u32, u8. rewrite (Z.mod_small addr) by lia.
    rewrite Hmem. apply Z.mod_small. change (2 ^ 8) with 256. exact Hby.
  - change 0x3fffff with (Z.ones 22). apply Z.land_ones. lia.
Qed.

(** X27.  The one-shot ID bit of the status register.  A write to an FM
    data port (offset 1 or 3) that turns NEW2 on arms a flag; with NEW2 on,
    the first status read then returns the status with bit 1 forced on and
    disarms the flag, and the second returns the status as it is.  A write
    that finds NEW2 already on arms nothing, and with NEW2 off the status
    read hides the BUSY and LD bits, forces bits 1 and 2 on when NEW is off
    as well, and never touches the flag. *)
Theorem status_id_bit_once (p : nat) (offset data : Z)
  (dev : ymf278b_device) :
  Z.land offset 7 = 1 \/ Z.land offset 7 = 3 ->
  let before := m_fm (timer_busy_start false dev) in
  let d := write p offset data dev in
  let st := fm_status (m_fm d) in
  m_fm d
  = fm_write (Z.lor (m_port_AB dev) (Z.shiftl (m_lastport dev) 8)) data
      before /\
  (fm_new2flag before = 0 -> nz (fm_new2flag (m_fm d)) = true ->
   m_next_status_id d = true /\
   read 0 d = (Z.lor st 0x02, set_m_next_status_id d false) /\
   read 0 (snd (read 0 d)) = (st, set_m_next_status_id d false)) /\
  (fm_new2flag before <> 0 -> m_next_status_id d = m_next_status_id dev) /\
  (nz (fm_new2flag (m_fm d)) = false ->
   read 0 d
   = (let ret := u8 (Z.land st (Z.lnot (Z.lor STATUS_BUSY STATUS_LD))) in
      if nz (fm_newflag (m_fm d)) then ret else Z.lor ret 0x06, d)).
Proof.
  intros Ho. cbn zeta.
  assert (E : write p offset data dev
              = let d0 := timer_busy_start false dev in
                let d1 :=
                  set_m_fm d0
                    (fm_write
                       (Z.lor (m_port_AB d0) (Z.shiftl (m_lastport d0) 8))
                       data (m_fm d0)) in
                if (fm_new2flag (m_fm d0) =? 0) && nz (fm_new2flag (m_fm d1))
                then set_m_next_status_id d1 true else d1).
  { unfold write. destruct Ho as [-> | ->]; reflexivity. }
  cbn zeta in E. rewrite E. clear E.
  set (d0 := timer_busy_start false dev).
  set (fm1 := fm_write _ data (m_fm d0)).
  assert (Hfm : forall b : bool,
            m_fm (if b then set_m_next_status_id (set_m_fm d0 fm1) true
                  else set_m_fm d0 fm1) = fm1)
    by (intros [|]; reflexivity).
  dev_proj. rewrite !Hfm.
  split; [reflexivity|]. split; [|split].
  - intros H0 H1. rewrite H0, H1. cbn [Z.eqb andb].
    split; [reflexivity|].
    assert (R1 : read 0 (set_m_next_status_id (set_m_fm d0 fm1) true)
                 = (Z.lor (fm_status fm1) 2,
                    set_m_next_status_id
                      (set_m_next_status_id (set_m_fm d0 fm1) true) false)).
    { unfold read. change (Z.land 0 7) with 0. cbn iota. dev_proj.
      rewrite H1. reflexivity. }
    rewrite R1. split; [reflexivity|]. cbn [snd].
    unfold read. change (Z.land 0 7) with 0. cbn iota. dev_proj.
    rewrite H1. reflexivity.
  - intros H0. apply Z.eqb_neq in H0. rewrite H0. cbn [andb]. reflexivity.
  - intros H1. rewrite H1, andb_false_r.
    unfold read. change (Z.land 0 7) with 0. cbn iota. dev_proj.
    rewrite H1. cbn [negb]. cbn zeta.
    destruct (nz (fm_newflag fm1)); reflexivity.
Qed.

(* ---------------------------------------------------------------------- *)
(** ** Sample formats and the pan tables *)

Lemma sint_scale w k x :
  0 < w -> 0 <= k -> sint (w + k) (x * 2 ^ k) = 2 ^ k * sint w x.
Proof.
  intros Hw Hk. unfold sint. cbn zeta.
  assert (Hp : 0 < 2 ^ k) by (apply Z.pow_pos_nonneg; lia).
  assert (Hq : 0 < 2 ^ w) by (apply Z.pow_pos_nonneg; lia).
  rewrite Z.pow_add_r by lia.
  rewrite Z.mul_mod_distr_r by lia.
  replace (w + k - 1) with ((w - 1) + k) by lia.
  rewrite Z.pow_add_r by lia.
  pose proof (Z.mod_pos_bound x (2 ^ w) Hq) as Hm.
  assert (Hh : 0 < 2 ^ (w - 1)) by (apply Z.pow_pos_nonneg; lia).
  destruct (Z.ltb_spec (x mod 2 ^ w) (2 ^ (w - 1))) as [L|L];
    destruct (Z.ltb_spec (x mod 2 ^ w * 2 ^ k) (2 ^ (w - 1) * 2 ^ k))
      as [L'|L']; nia.
Qed.

Lemma sint_range w x :
  0 < w -> - 2 ^ (w - 1) <= sint w x < 2 ^ (w - 1).
Proof.
  intros Hw. unfold sint. cbn zeta.
  assert (Hp : 2 ^ w = 2 * 2 ^ (w - 1)).
  { replace w with (Z.succ (w - 1)) at 1 by lia.
    rewrite Z.pow_succ_r by lia. reflexivity. }
  assert (Hh : 0 < 2 ^ (w - 1)) by (apply Z.pow_pos_nonneg; lia).
  pose proof (Z.mod_pos_bound x (2 ^ w) ltac:(lia)) as Hm.
  destruct (Z.ltb_spec (x mod 2 ^ w) (2 ^ (w - 1))); lia.
Qed.

(** The two nibbles of a byte, as the 12-bit format takes them. *)
Definition nibble_facts (c : Z) : bool :=
  (Z.land c 0xf0 =? 16 * (c / 16)) &&
  (Z.land (Z.shiftl c 4) 0xf0 =? 16 * (c mod 16)).

Lemma byte_nibbles c :
  0 <= c < 256 ->
  Z.land c 0xf0 = 16 * (c / 16) /\
  Z.land (Z.shiftl c 4) 0xf0 = 16 * (c mod 16).
Proof.
  intros Hc.
  assert (Hall : forallb nibble_facts (map Z.of_nat (seq 0 256)) = true)
    by (vm_compute; reflexivity).
  rewrite forallb_forall in Hall.
  assert (Hin : In c (map Z.of_nat (seq 0 256))).
  { apply in_map_iff. exists (Z.to_nat c). split; [lia | apply in_seq; lia]. }
  specialize (Hall c Hin). unfold nibble_facts in Hall.
  apply andb_true_iff in Hall. destruct Hall as [H1 H2].
  split; apply Z.eqb_eq; assumption.
Qed.

Lemma byte_pair hi lo :
  0 <= lo < 256 -> Z.lor (Z.shiftl hi 8) lo = hi * 256 + lo.
Proof.
  intros Hl. rewrite Z.lor_comm.
  rewrite (lor_shiftl_add lo hi 8) by (change (2 ^ 8) with 256; lia).
  change (2 ^ 8) with 256. lia.
Qed.

(** X28.  The sample formats.  [fetch_sample] returns a 16-bit signed
    value in each of the four formats: an 8-bit sample is the signed byte
    at [start + (phase >> 16)] times 256; a 12-bit sample is a signed
    12-bit number times 16, two samples sharing three bytes (the even one
    is byte 0 and the low nibble of byte 1, the odd one byte 2 and the high
    nibble of byte 1); a 16-bit sample is the signed big-endian pair at
    [start + 2 * (phase >> 16)]; format 3 gives 0.  Outside 0 to 3 the
    previous sample is kept. *)
Theorem sample_formats (rom : rom_space) (slot : YMF278BSlot) (sample : Z) :
  let sp := stepptr slot in
  let a := startaddr slot in
  let v := fetch_sample rom slot sample in
  (0 <= bits slot <= 3 -> -32768 <= v <= 32767) /\
  (bits slot = 0 -> v = 256 * s8 (rd rom (a + Z.shiftr sp 16))) /\
  (bits slot = 1 ->
   let k := Z.shiftr sp 17 in
   v = 16 * sint 12
              (if nz (Z.land sp 0x10000)
               then rd rom (a + k * 3 + 2) * 16 + rd rom (a + k * 3 + 1) / 16
               else rd rom (a + k * 3) * 16
                    + rd rom (a + k * 3 + 1) mod 16)) /\
  (bits slot = 2 ->
   v = s16 (rd rom (a + Z.shiftr sp 16 * 2) * 256
            + rd rom (a + Z.shiftr sp 16 * 2 + 1))) /\
  (bits slot = 3 -> v = 0) /\
  (bits slot < 0 \/ 3 < bits slot -> v = sample).
Proof.
  cbn zeta.
  assert (H0 : bits slot = 0 ->
               fetch_sample rom slot sample
               = 256 * s8 (rd rom (startaddr slot
                                   + Z.shiftr (stepptr slot) 16))).
  { intros E. unfold fetch_sample. rewrite E. cbn zeta. cbn iota.
    rewrite Z.shiftl_mul_pow2 by lia. unfold s16, s8.
    change (sint 16) with (sint (8 + 8)).
    rewrite sint_scale by lia. reflexivity. }
  assert (H1 : bits slot = 1 ->
    fetch_sample rom slot sample
    = 16 * sint 12
             (if nz (Z.land (stepptr slot) 0x10000)
              then rd rom (startaddr slot
                           + Z.shiftr (stepptr slot) 17 * 3 + 2) * 16
                   + rd rom (startaddr slot
                             + Z.shiftr (stepptr slot) 17 * 3 + 1) / 16
              else rd rom (startaddr slot
                           + Z.shiftr (stepptr slot) 17 * 3) * 16
                   + rd rom (startaddr slot
                             + Z.shiftr (stepptr slot) 17 * 3 + 1) mod 16)).
  { intros E. unfold fetch_sample. rewrite E. cbn zeta. cbn iota.
    set (b1 := rd rom (startaddr slot + Z.shiftr (stepptr slot) 17 * 3 + 1)).
    pose proof (rd_byte rom
                  (startaddr slot + Z.shiftr (stepptr slot) 17 * 3 + 1))
      as Hb1. fold b1 in Hb1.
    destruct (byte_nibbles b1 Hb1) as [N1 N2].
    assert (Hd : 0 <= b1 / 16 < 16)
      by (split; [apply Z.div_pos; lia | apply Z.div_lt_upper_bound; lia]).
    pose proof (Z.mod_pos_bound b1 16 ltac:(lia)) as Hm.
    destruct (nz (Z.land (stepptr slot) 0x10000)).
    - rewrite N1, byte_pair by lia. unfold s16.
      change (sint 16) with (sint (12 + 4)).
      match goal with |- sint _ (?b * 256 + _) = _ =>
        replace (b * 256 + 16 * (b1 / 16))
          with ((b * 16 + b1 / 16) * 2 ^ 4)
          by (change (2 ^ 4) with 16; lia)
      end.
      rewrite sint_scale by lia. reflexivity.
    - rewrite N2, byte_pair by lia. unfold s16.
      change (sint 16) with (sint (12 + 4)).
      match goal with |- sint _ (?b * 256 + _) = _ =>
        replace (b * 256 + 16 * (b1 mod 16))
          with ((b * 16 + b1 mod 16) * 2 ^ 4)
          by (change (2 ^ 4) with 16; lia)
      end.
      rewrite sint_scale by lia. reflexivity. }
  assert (H2 : bits slot = 2 ->
    fetch_sample rom slot sample
    = s16 (rd rom (startaddr slot + Z.shiftr (stepptr slot) 16 * 2) * 256
           + rd rom (startaddr slot + Z.shiftr (stepptr slot) 16 * 2 + 1))).
  { intros E. unfold fetch_sample. rewrite E. cbn zeta. cbn iota.
    rewrite byte_pair by apply rd_byte. reflexivity. }
  assert (H3 : bits slot = 3 -> fetch_sample rom slot sample = 0).
  { intros E. unfold fetch_sample. rewrite E. reflexivity. }
  split; [|split; [exact H0|split; [exact H1|split; [exact H2|split;
    [exact H3|]]]]].
  - intros Hb.
    assert (Hc : bits slot = 0 \/ bits slot = 1 \/ bits slot = 2 \/
                 bits slot = 3) by lia.
    pose proof (sint_range 16) as R16. pose proof (sint_range 12) as R12.
    pose proof (sint_range 8) as R8.
    destruct Hc as [E|[E|[E|E]]].
    + rewrite (H0 E). unfold s8.
      specialize (R8 (rd rom (startaddr slot + Z.shiftr (stepptr slot) 16))
                     ltac:(lia)).
      change (2 ^ (8 - 1)) with 128 in R8. lia.
    + rewrite (H1 E).
      match goal with |- context [sint 12 ?x] =>
        specialize (R12 x ltac:(lia)) end.
      change (2 ^ (12 - 1)) with 2048 in R12. lia.
    + rewrite (H2 E). unfold s16.
      match goal with |- context [sint 16 ?x] =>
        specialize (R16 x ltac:(lia)) end.
      change (2 ^ (16 - 1)) with 32768 in R16. lia.
    + rewrite (H3 E). lia.
  - intros Hb. unfold fetch_sample. cbn zeta.
    destruct (bits slot) as [|p|p]; [lia| |reflexivity].
    split_numeral; try reflexivity; lia.
Qed.

(** X29.  The pan tables and the volume index.  The two pan tables mirror
    each other ([left i = right (16 - i)]); entries are between 0 and 256;
    for every pan value but 8 one of the two sides is not attenuated; pan 0
    attenuates neither side and pan 8 gives 256 on both.  With the register
    members in their ranges the index into the 1024-entry volume table stays
    inside the table; and since the table is 0 from entry 256 on, a voice
    with pan 8 adds nothing to either side of the mix, pan 7 nothing to the
    left and pan 9 nothing to the right. *)
Theorem pan_and_volume_index :
  (forall i, 1 <= i <= 15 -> m_pan_left i = m_pan_right (16 - i)) /\
  (forall i, 0 <= i <= 15 ->
     0 <= m_pan_left i <= 256 /\ 0 <= m_pan_right i <= 256 /\
     (i <> 8 -> m_pan_left i = 0 \/ m_pan_right i = 0)) /\
  (m_pan_left 0 = 0 /\ m_pan_right 0 = 0 /\
   m_pan_left 8 = 256 /\ m_pan_right 8 = 256) /\
  (forall slot,
     0 <= TL slot <= 127 -> 0 <= pan slot <= 15 ->
     0 <= env_vol slot < 2 ^ 32 ->
     0 <= TL slot + m_pan_left (pan slot) + Z.shiftr (env_vol slot) 23
       < 1024 /\
     0 <= TL slot + m_pan_right (pan slot) + Z.shiftr (env_vol slot) 23
       < 1024) /\
  ((forall i, 256 <= i -> m_volume i = 0) ->
   forall slot sample,
     0 <= TL slot -> 0 <= env_vol slot ->
     (pan slot = 7 \/ pan slot = 8 ->
      voice_out slot sample (m_pan_left (pan slot)) = 0) /\
     (pan slot = 8 \/ pan slot = 9 ->
      voice_out slot sample (m_pan_right (pan slot)) = 0)).
Proof.
  assert (Hl : forall i, m_pan_left i
                 = if i <? 7 then i * 8 else if i <? 9 then 256 else 0)
    by reflexivity.
  assert (Hr : forall i, m_pan_right i
                 = if i <? 8 then 0 else if i <? 10 then 256
                   else (16 - i) * 8) by reflexivity.
  split; [|split; [|split; [|split]]].
  - intros i Hi. rewrite Hl, Hr.
    destruct (Z.ltb_spec i 7), (Z.ltb_spec i 9), (Z.ltb_spec (16 - i) 8),
      (Z.ltb_spec (16 - i) 10); lia.
  - intros i Hi. rewrite Hl, Hr.
    destruct (Z.ltb_spec i 7), (Z.ltb_spec i 9), (Z.ltb_spec i 8),
      (Z.ltb_spec i 10); lia.
  - repeat split.
  - intros slot HT HP HE.
    assert (Hs : 0 <= Z.shiftr (env_vol slot) 23 < 512).
    { rewrite Z.shiftr_div_pow2 by lia. split.
      - apply Z.div_pos; lia.
      - apply Z.div_lt_upper_bound; [lia|].
        change (2 ^ 23 * 512) with (2 ^ 32). lia. }
    rewrite Hl, Hr.
    destruct (Z.ltb_spec (pan slot) 7), (Z.ltb_spec (pan slot) 9),
      (Z.ltb_spec (pan slot) 8), (Z.ltb_spec (pan slot) 10); lia.
  - intros Hv slot sample HT HE.
    assert (Hs : 0 <= Z.shiftr (env_vol slot) 23)
      by (apply Z.shiftr_nonneg; exact HE).
    assert (Hz : forall panv, panv = 256 -> voice_out slot sample panv = 0).
    { intros panv ->. unfold voice_out.
      rewrite Hv by lia. rewrite Z.mul_0_r. reflexivity. }
    split; intros [E|E]; apply Hz; rewrite E; reflexivity.
Qed.
End Device.

(** ** A concrete device to run the model on *)

(** A stand-in for the FM engine: the NEW2 flag (bit 1 of register 0x105)
    and a count of the clocks received. *)
Definition demo_fm : Type := (Z * nat)%type.
Definition demo_new2flag (fm : demo_fm) : Z := fst fm.
Definition demo_newflag (fm : demo_fm) : Z := 0.
Definition demo_status (fm : demo_fm) : Z := 0.
Definition demo_regs_read (reg : Z) (fm : demo_fm) : Z := 0.
Definition demo_fm_write (reg data : Z) (fm : demo_fm) : demo_fm :=
  if reg =? 0x105 then (Z.land (Z.shiftr data 1) 1, snd fm) else fm.
Definition demo_set_reset_status (s r : Z) (fm : demo_fm) : demo_fm := fm.
Definition demo_clock (fm : demo_fm) : demo_fm := (fst fm, S (snd fm)).
Definition demo_reset (fm : demo_fm) : demo_fm := (0, O).

(** Wave memory as a function from addresses to bytes. *)
Definition demo_rom : Type := Z -> Z.
Definition demo_read_byte (rom : demo_rom) (a : Z) : Z := rom a.
Definition demo_write_byte (rom : demo_rom) (a d : Z) : demo_rom := upd rom a d.

(** A volume table of the right shape (halving every 16 steps, zero from
    256 on). *)
Definition demo_volume (i : Z) : Z :=
  if i <? 256 then Z.shiftr 65536 (i / 16) else 0.

Definition blank_slot : YMF278BSlot :=
  mk_slot 0 0 0 0 0 0 0 0 0 0 0 0 0 0 0 0 0 0 0 0 0 0 0 0 0 0 0 0 0 0 0 0.

Definition blank_device (rom : demo_rom) : ymf278b_device demo_fm demo_rom :=
  mk_dev demo_fm demo_rom (fun _ => blank_slot) (fun _ => 0)
    0 0 0 0 0 0 0 0 0 0 0 false 33868800 44100 None None (fun _ => 0)
    (0, O) rom.

Definition demo_C_w :=
  C_w demo_fm demo_set_reset_status demo_rom demo_read_byte demo_write_byte 2.

Definition demo_device_reset :=
  device_reset demo_fm demo_set_reset_status demo_reset demo_rom
    demo_read_byte demo_write_byte 2.

Definition demo_write :=
  write demo_fm demo_new2flag demo_fm_write demo_set_reset_status demo_clock
    demo_rom demo_read_byte demo_write_byte 1 2 64 demo_volume.

Definition demo_read :=
  read demo_fm demo_new2flag demo_newflag demo_status demo_regs_read
    demo_rom demo_read_byte 1 2.

Definition demo_reachable :=
  reachable demo_fm demo_new2flag demo_newflag demo_status demo_regs_read
    demo_fm_write demo_set_reset_status demo_clock demo_reset demo_rom
    demo_read_byte demo_write_byte 1 2 64 demo_volume.

(** Wave memory whose byte at address [a] is [a mod 256], and wave memory
    filled with 0xff. *)
Definition ramp_rom : demo_rom := fun a => a mod 256.
Definition ff_rom : demo_rom := fun _ => 0xff.

(** The entries of the register file, other than [reg] itself, that a
    write to [reg] has changed. *)
Definition changed_dependents (reg : Z)
  (d d' : ymf278b_device demo_fm demo_rom) : list Z :=
  filter (fun r => negb (r =? reg)
                   && negb (m_pcmregs _ _ d' r =? m_pcmregs _ _ d r))
    (map Z.of_nat (seq 0 256)).

(** ** The claims on concrete inputs *)

Lemma wave_number_write_witness :
  m_pcmregs _ _ (demo_C_w 9 1 (blank_device ramp_rom)) (copied_reg 1 7) = 19 /\
  bits (m_slots _ _ (demo_C_w 9 1 (blank_device ramp_rom)) 1) = 0 /\
  startaddr (m_slots _ _ (demo_C_w 9 1 (blank_device ramp_rom)) 1)
  = Z.lor (Z.lor 14 (Z.shiftl 13 8)) (Z.shiftl 12 16).
Proof.
  pose proof (wave_number_write demo_fm demo_set_reset_status demo_rom
                demo_read_byte demo_write_byte 2 9 1 (blank_device ramp_rom)
                ltac:(lia)) as W.
  cbn zeta in W.
  destruct W as (_ & _ & _ & (Hb & Hs & _) & _ & Hc & _).
  split; [exact (Hc 7 ltac:(lia))|]. split; [exact Hb | exact Hs].
Defined.

(** The claim as worded fails: with the register file at 0 and wave memory
    full of 0xff, a write to the wave-number register of slot 0 changes five
    other entries of the register file, the ones the copy loop addresses,
    not six. *)
Lemma wave_write_copies_five_registers :
  map (copied_reg 0) copied_header_bytes = [128; 152; 176; 200; 224] /\
  changed_dependents 8 (blank_device ff_rom) (demo_C_w 8 1 (blank_device ff_rom))
  = [128; 152; 176; 200; 224] /\
  length (changed_dependents 8 (blank_device ff_rom)
            (demo_C_w 8 1 (blank_device ff_rom))) <> 6%nat.
Proof.
  split; [reflexivity|]. split; [vm_compute; reflexivity|].
  vm_compute. discriminate.
Qed.


(** A slot with attack rate 15 and decay level 0, keyed off. *)
Definition fast_attack_slot : YMF278BSlot := set_AR blank_slot 15.

Lemma envelope_transitions_witness :
  env_step (slot_w 4 0x80 0 (set_AR blank_slot 5)) = ATTACK /\
  env_step (slot_w 4 0x00 0x80 (set_active (set_env_step blank_slot DECAY2) 1))
  = RELEASE /\
  env_vol (compute_envelope fast_attack_slot) = 0 /\
  env_step (compute_envelope (set_env_step blank_slot DECAY1)) = DECAY2.
Proof.
  destruct (envelope_transitions demo_fm demo_set_reset_status demo_rom
              demo_read_byte demo_write_byte 2) as (_ & Hon & Hoff & Hfast & Hskip).
  split; [|split; [|split]].
  - destruct (Hon 0x80 0 (set_AR blank_slot 5) eq_refl eq_refl)
      as (_ & _ & Hat & _).
    apply Hat. vm_compute. discriminate.
  - exact (proj1 (Hoff 0x00 0x80
                    (set_active (set_env_step blank_slot DECAY2) 1)
                    eq_refl eq_refl)).
  - exact (proj1 (Hfast fast_attack_slot eq_refl eq_refl)).
  - exact (Hskip (set_env_step blank_slot DECAY1) eq_refl eq_refl).
Defined.

(** After reset, slot 0 gets octave 8 through its octave register. *)
Definition muted_device : ymf278b_device demo_fm demo_rom :=
  demo_C_w (oct_reg 0) 0x80 (demo_device_reset (blank_device ramp_rom)).

Lemma muted_device_reachable : demo_reachable muted_device.
Proof. apply reach_C_w, reach_reset. Qed.

Lemma active_iff_audible_witness :
  octave (m_slots _ _ muted_device 0) = 8 /\
  active (m_slots _ _ muted_device 0) = 0 /\
  forall k sample buf j,
    snd (slot_update demo_rom demo_read_byte 64 demo_volume ramp_rom k
           (m_slots _ _ muted_device 0, sample, buf)) j = buf j.
Proof.
  assert (Ho : octave (m_slots _ _ muted_device 0) = 8)
    by (vm_compute; reflexivity).
  destruct (active_iff_audible demo_fm demo_new2flag demo_newflag demo_status
              demo_regs_read demo_fm_write demo_set_reset_status demo_clock
              demo_reset demo_rom demo_read_byte demo_write_byte 1 2 64
              demo_volume muted_device muted_device_reachable 0 ltac:(lia))
    as (_ & Hmute & _ & Hzero & _).
  split; [exact Ho|]. split; [exact (Hmute Ho)|].
  intros k sample buf j. apply (Hzero Ho).
Defined.

(** A slot that has run 0x8000 past its end address 0x40000, looping to
    0x10000. *)
Definition looping_slot : YMF278BSlot :=
  set_stepptr (set_endaddr (set_loopaddr blank_slot 0x10000) 0x40000) 0x48000.

Lemma loop_wrap_exact_witness :
  stepptr (loop_wrap 64 looping_slot) = 0x18000.
Proof.
  assert (HL : 0 <= loopaddr looping_slot < endaddr looping_slot)
    by (unfold looping_slot, blank_slot; slot_proj; lia).
  assert (HE : endaddr looping_slot <= stepptr looping_slot < 2 ^ 64)
    by (unfold looping_slot, blank_slot; slot_proj; lia).
  exact (proj1 (loop_wrap_exact demo_rom demo_read_byte 64 demo_volume
                  looping_slot HL HE)).
Defined.

Lemma fm_resampler_cadence_witness :
  fm_extra_clocks FM_STEP 1000 0 = (1000 * FM_STEP) / 2 ^ 24.
Proof.
  assert (H : 0 <= FM_STEP < 2 ^ 24) by (rewrite FM_STEP_value; lia).
  exact (proj1 (fm_resampler_cadence demo_fm demo_clock demo_rom
                  demo_read_byte 64 demo_volume FM_STEP 1000 H)).
Defined.

Lemma pcm_port_gated_by_new2_witness :
  demo_write 0 5 0x42 (blank_device ramp_rom) = blank_device ramp_rom /\
  demo_read 5 (blank_device ramp_rom) = (0, blank_device ramp_rom).
Proof.
  exact (proj1 (pcm_port_gated_by_new2 demo_fm demo_new2flag demo_newflag
                  demo_status demo_regs_read demo_fm_write
                  demo_set_reset_status demo_clock demo_rom demo_read_byte
                  demo_write_byte 1 2 64 demo_volume 0 5 0x42
                  (blank_device ramp_rom) eq_refl) eq_refl).
Defined.


(** ** Further properties on concrete inputs *)

(** A slot with F-number 512 in octave 1. *)
Definition octave_one_slot : YMF278BSlot :=
  set_octave (set_F_NUMBER blank_slot 512) 1.

Lemma freq_step_octave_witness :
  step (compute_freq_step octave_one_slot) = 98304.
Proof.
  assert (HF : 0 <= F_NUMBER octave_one_slot < 1024)
    by (unfold octave_one_slot, blank_slot; slot_proj; lia).
  assert (HO : 0 <= octave octave_one_slot < 16)
    by (unfold octave_one_slot, blank_slot; slot_proj; lia).
  pose proof (freq_step_octave octave_one_slot HF HO) as H.
  cbn zeta in H. destruct H as (_ & _ & _ & H & _).
  rewrite H; [reflexivity | vm_compute; discriminate].
Defined.

Lemma loop_wrap_once_witness :
  loop_wrap 64 looping_slot = set_stepptr looping_slot 0x18000.
Proof.
  assert (HL : 0 <= loopaddr looping_slot < endaddr looping_slot)
    by (unfold looping_slot, blank_slot; slot_proj; lia).
  assert (HS : 0 <= stepptr looping_slot < 2 ^ 64)
    by (unfold looping_slot, blank_slot; slot_proj; lia).
  assert (HE : endaddr looping_slot <= stepptr looping_slot)
    by (unfold looping_slot, blank_slot; slot_proj; lia).
  exact (proj1 (proj1 (proj2 (loop_wrap_once 64 looping_slot HL HS)) HE)).
Defined.

(** A slot that is playing, key on, part of the way through its sample. *)
Definition held_slot : YMF278BSlot :=
  set_stepptr (set_KEY_ON blank_slot 1) 0x1234.

Lemma key_on_no_retrigger_witness :
  stepptr (slot_w 4 0x80 0x80 held_slot) = 0x1234.
Proof.
  exact (proj1 (key_on_no_retrigger 0x80 0x80 held_slot eq_refl eq_refl)).
Defined.

Lemma fm_resampler_chained_witness :
  m_fm_pos _ _
    (sound_stream_update demo_fm demo_clock demo_rom demo_read_byte 64
       demo_volume 100 (blank_device ramp_rom))
  = (0 + Z.of_nat 100 * FM_STEP) mod 2 ^ 24.
Proof.
  assert (H : 0 <= m_fm_pos _ _ (blank_device ramp_rom) < 2 ^ 24)
    by (vm_compute; split; [discriminate | reflexivity]).
  exact (proj1 (proj2 (fm_resampler_chained demo_fm demo_clock demo_rom
                         demo_read_byte 64 demo_volume 100 200
                         (blank_device ramp_rom) H))).
Defined.

Lemma slot_state_ranges_witness :
  octave (m_slots _ _ muted_device 0)
  = Z.shiftr (Z.land (m_pcmregs _ _ muted_device (oct_reg 0)) 0xf0) 4.
Proof.
  exact (proj1 (proj2 (proj2
           (slot_state_ranges demo_fm demo_new2flag demo_newflag demo_status
              demo_regs_read demo_fm_write demo_set_reset_status demo_clock
              demo_reset demo_rom demo_read_byte demo_write_byte 1 2 64
              demo_volume muted_device muted_device_reachable 0
              ltac:(lia))))).
Defined.

(** A device after reset whose FM bank has been told to set NEW2: register
    0x105 is selected through offset 2 and written through offset 3. *)
Definition new2_device : ymf278b_device demo_fm demo_rom :=
  demo_write 0 3 0x02
    (demo_write 0 2 0x05 (demo_device_reset (blank_device ramp_rom))).

Lemma demo_new2_stable :
  new2_stable demo_fm demo_new2flag demo_set_reset_status demo_clock.
Proof. split; intros; reflexivity. Qed.

Lemma demo_memory_law (rom : demo_rom) (a v : Z) :
  demo_read_byte (demo_write_byte rom a v) a = v.
Proof. unfold demo_read_byte, demo_write_byte. apply upd_same. Qed.

Lemma new2_device_open :
  nz (demo_new2flag (m_fm _ _ new2_device)) = true.
Proof. vm_compute. reflexivity. Qed.

Lemma pcm_register_read_back_witness :
  fst (demo_read 5 (demo_write 0 5 0x7f (demo_write 0 4 2 new2_device)))
  = 0x3f.
Proof.
  exact (proj1 (pcm_register_read_back demo_fm demo_new2flag demo_newflag
                  demo_status demo_regs_read demo_fm_write
                  demo_set_reset_status demo_clock demo_rom demo_read_byte
                  demo_write_byte 1 2 64 demo_volume 0 2 0x7f new2_device
                  demo_new2_stable new2_device_open)).
Defined.

(** A register write through the bus: select at offset 4, data at
    offset 5. *)
Definition demo_reg_w (r v : Z) (d : ymf278b_device demo_fm demo_rom)
  : ymf278b_device demo_fm demo_rom :=
  demo_write 0 5 v (demo_write 0 4 r d).

Lemma memory_port_round_trip_witness :
  fst (demo_read 5
         (demo_write 0 4 6
            (demo_reg_w 5 0x34
               (demo_reg_w 6 0xab
                  (demo_reg_w 5 0x34
                     (demo_reg_w 4 0x12
                        (demo_reg_w 3 0x01 new2_device)))))))
  = 0xab.
Proof.
  exact (proj1 (proj2 (proj2 (proj2 (proj2 (proj2
           (memory_port_round_trip demo_fm demo_new2flag demo_newflag
              demo_status demo_regs_read demo_fm_write demo_set_reset_status
              demo_clock demo_rom demo_read_byte demo_write_byte 1 2 64
              demo_volume 0 0 0 0 0 0x01 0x12 0x34 0xab new2_device
              demo_new2_stable demo_memory_law new2_device_open
              ltac:(lia) ltac:(lia) ltac:(lia) ltac:(lia)))))))).
Defined.

Lemma status_id_bit_once_witness :
  fst (demo_read 0 new2_device) = 2 /\
  fst (demo_read 0 (snd (demo_read 0 new2_device))) = 0.
Proof.
  pose proof (status_id_bit_once demo_fm demo_new2flag demo_newflag
                demo_status demo_regs_read demo_fm_write
                demo_set_reset_status demo_clock demo_rom demo_read_byte
                demo_write_byte 1 2 64 demo_volume 0 3 0x02
                (demo_write 0 2 0x05 (demo_device_reset (blank_device ramp_rom)))
                (or_intror eq_refl)) as H.
  cbn zeta in H. destruct H as (_ & H & _).
  assert (H0 : demo_new2flag
                 (m_fm _ _
                    (timer_busy_start demo_fm demo_set_reset_status demo_rom
                       1 false
                       (demo_write 0 2 0x05
                          (demo_device_reset (blank_device ramp_rom))))) = 0)
    by (vm_compute; reflexivity).
  destruct (H H0 new2_device_open) as (_ & R1 & R2).
  split; [exact (f_equal fst R1) | exact (f_equal fst R2)].
Defined.
End Ymf278b.
